(* ===== verification/_CoqProject ===== *)
-Q . S2P
Prelude.v
CType.v
Queue.v
Mem.v
Config.v
Page.v
PageInv.v
PageFree.v
PageSpec.v
Strings.v
Print.v
PrintSpec.v
Bio.v
Fat.v
FatIndex.v
UserCopy.v
FatFile.v
BlockStore.v
FatTable.v
Sched.v
SchedSpec.v
Lock.v
Sd.v
SdSpec.v
Pipe.v
PipeSpec.v
Segment.v
File.v
Console.v
ConsoleSpec.v
ConsoleRace.v
Signal.v
Kernel.v
SocketSpec.v
FileSystem.v
ClusterSpec.v
FileData.v
FileTrunc.v
FileSet.v
SignalSpec.v
FileSpec.v
PathSpec.v
Process.v
Syscall.v
FetchSpec.v
Sysfile.v
CwdSpec.v
Exec.v
StackSpec.v
System.v
TrapSpec.v
ForkSpec.v
AddrSpace.v
MemoryInit.v
MprotectSpec.v
WaitSpec.v
Startup.v
