(* ===== verification/Prelude.v ===== *)
(** * A verification library for the Too Low Too Simple RISC-V kernel

    The kernel (src/kernel, src/include) runs Linux programs for RISC-V on one hart, with
    physical pages, Sv39 page tables, demand paging and copy-on-write fork, threads,
    signals and futexes, pipes and local sockets, a FAT32 file system on an SD card behind
    a buffer cache, an ELF loader and about ninety system calls.  This library translates
    its C code to functions of one state and proves what the parts promise.

    ** Conventions

    Integers are [Z] at the width the C code gives them: [u8], [u32], [u64], [i32] wrap
    (CType.v, Config.v).  Memory is a map from physical addresses to bytes (Mem.v); the
    kernel runs with memory mapped at its physical address, so kernel pointers are physical
    addresses.  Tables of structures are maps from indices to records; a pointer to an entry
    is its index plus one where NULL must be told apart, and the index otherwise.  A
    component's operations are in the monad [M S] of this file over the component's state;
    a component used by another is a [Part] of the larger state and its operations are
    lifted.  An [outcome] is a value, a panic (also what C leaves undefined: NULL
    dereferences, array indices out of range), a sleep with its continuation, a switch of
    threads that never comes back, or [NoFuel].  What one component needs of a later one is
    a class: [FsEnv] (FatFile.v: user memory and the current process, for the file system),
    [Boot] (Sched.v: the set-up the first thread runs), [BlockStore] and [FileStore]
    (BlockStore.v, ClusterSpec.v: sectors of a working set that keep what is written to them),
    which the buffer cache implements, [Caller] (BlockStore.v: the process whose buffer a
    transfer uses, which gives [FsEnv] its user memory), [SdCard] (SdSpec.v: what a card promises the driver), [Part].

    ** Files and sources

    - CType.v: Type.h, bitmaps.  Queue.v: Queue.h on a pointer heap.  Mem.v: the byte loops
      of String.c and MemoryInit.c.  Config.v: MemoryConfig.h, Page.h.  Strings.v: String.c.
      Print.v, PrintSpec.v: Print.c.
    - Page.v: the page allocator and page tables of Page.c; PageInv.v its invariant; PageSpec.v
      the refinement of page tables to a map of translations; PageFree.v the destruction of a
      directory; AddrSpace.v all sequences of these operations and forks.  UserCopy.v: copyin,
      copyout.  MemoryInit.v: the free list and the kernel's page table at boot (MemoryInit.c).
    - Bio.v: Bio.c and Sleeplock.c.  Fat.v: tables and clusters of Fat.c, Inode.c, Dirent.c;
      FatFile.v: files, directories and paths of Fat.c; FileSystem.v: FileSystem.c.
      BlockStore.v, FatTable.v, FatIndex.v, ClusterSpec.v, FileData.v, FileTrunc.v, FileSet.v,
      PathSpec.v: what they promise.  The lemmas of these files are proved against the classes;
      the theorems are stated on the buffer cache itself: [cache_ok] of a working set [dom] of
      sectors says that the cache serves it, [binit_cache_ok] that it does after [binit] for
      every set of which a group has at most 16 sectors, [run_fits_cache] that any 8 MB of
      consecutive sectors are one.
    - Sched.v: Thread.c, Process.c (tables), Yield.c, Futex.c; SchedSpec.v.  Process.v:
      creation, exit and wait of Process.c and Thread.c, Clone.c, ElfLoader.c; ForkSpec.v, WaitSpec.v.
    - Pipe.v, PipeSpec.v: Pipe.c.  File.v, FileSpec.v, SocketSpec.v: File.c and Socket.c.  Segment.v: the
      segment maps of Exec.c and pageout of Page.c.  Signal.v, SignalSpec.v: Signal.c.
    - Console.v, ConsoleSpec.v: Console.c; ConsoleRace.v: its buffer, access by access.  Sd.v,
      SdSpec.v: Sd.c.  Lock.v: Spinlock.c, Interrput.c, Hart.c.
    - Kernel.v: the parts put together.  Syscall.v: Sysarg.c and Syscall.c, FetchSpec.v,
      MprotectSpec.v.  Sysfile.v: Sysfile.c, CwdSpec.v.  Exec.v: Exec.c, StackSpec.v.
    - System.v: the whole machine, the set-up of the root file system (Thread.c), the table
      of system calls (Syscall.c) and Trap.c; TrapSpec.v.
    - Startup.v: main of Init.c, four harts on shared variables.

    ** What is proved

    - Pages: inserting and removing pages refines a map of translations; in every state that
      creating, changing, forking and destroying address spaces can reach a mapped page is
      referenced and not free; destroying one gives back its tables and the pages nobody else
      maps, and leaves the others alone; copy on write gives a private copy; fork shares every page read-only; a store fault is resolved from trap to return;
      copyout and copyin are inverse; strings are fetched exactly.
    - Storage: the buffer cache refines a map of blocks, up to the block it recycles, whose
      data are lost: a write does not survive the use of as many other blocks of its group as
      the group has buffers.  While the sectors used stay in a working set of at most 16 for
      each group, the table among them (so up to two million clusters), the files of a volume are independent sequences of bytes that
      read back what was written, from and to buffers of the kernel and private pages of the user,
      grow by free clusters and give them back, and the bitmap agrees with the allocation table.
      The three-level index is a list; truncation frees it up to the third level, of which it
      leaves blocks behind.  Paths are walks of the directory tree, a created entry is found, the
      working directory's path leads back to it, on a mounted volume from its mount point.
    - Threads: the scheduler is a round robin that loses no thread, wakeups and futexes wake
      exactly whom they should, identifiers name one incarnation, wait collects one child
      and charges its times to its ancestors, signals restore what they interrupt.
    - Streams: pipes, sockets and the console are queues (pipes for buffers of the kernel and of the
      user, sockets up to what [strncpy] does to NULs), the console's between two harts without a lock; descriptors count their references.
    - Devices and boot: the driver of the card implements the map of sectors the buffer cache
      reads, against any card that keeps its contract; the free list at boot is a state the
      theorems on pages start from; masking of interrupts nests; one hart enters the scheduler,
      after the kernel is initialised and the console has its hart, in every fair schedule.
    - Programs: exec builds the stack the program expects.
    - Utilities: printf sends the text of its format; strings, memory, linked lists.
    - Defects the model showed are proved as properties of the code as it is, and listed in
      the manifest.

    ** Bounds

    Loops whose bound is in the code run on that bound.  The others take fuel: walks of the
    file system ([n_links], [n_clusters], [n_dirs], [n_entries] of [Layout]) depend on the
    disk, waits on other threads; the theorems say how much is enough.  [copyin] and its kin
    use at most one turn for each byte, page walks three levels, [getAbsolutePath] at most
    one turn for each byte of its buffer, [handleSignal] one turn for each pending signal.
    The time-outs of the card's driver are those of the code, and so are its retries; 60 fair
    rounds of the harts are enough for the boot, as four harts have at most 14 moves each.

    ** Not modelled

    Registers of the processor and of the devices (control registers, address translation,
    clock, the interrupt controller; the card and its controller are parameters of Sd.v), the
    assembly files, testing and debugging code (sdTest, TestFat.c, Debug.c), user programs,
    the messages that kernel code prints for its developers, and the third-party trees under
    src/root.  The harts of Startup.v and ConsoleRace.v
    interleave their accesses to shared variables; reordering by the processor or the compiler
    is not modelled, and elsewhere one hart runs the kernel, as Startup.v shows. *)

From Stdlib Require Export ZArith Lia.
From stdpp Require Export base option gmap list_numbers list.

#[global] Open Scope Z_scope.
#[global] Set Warnings "-notation-overridden".

(** ** Machine integers

    C integers are [Z] with the wrap-around written out at each cast or
    arithmetic operation that can leave its width. *)

Definition u8 (x : Z) : Z := x mod 2 ^ 8.
Definition u16 (x : Z) : Z := x mod 2 ^ 16.
Definition u32 (x : Z) : Z := x mod 2 ^ 32.
Definition u64 (x : Z) : Z := x mod 2 ^ 64.

(** The signed reading of the low 32 bits: a cast to [int]. *)
Definition i32 (x : Z) : Z := (x + 2 ^ 31) mod 2 ^ 32 - 2 ^ 31.
Lemma i32_small x : - 2 ^ 31 <= x < 2 ^ 31 -> i32 x = x.
Proof. intros. unfold i32. rewrite Z.mod_small; lia. Qed.

(** C's logical negation [!x] and the truth of an integer. *)
Definition c_not (x : Z) : Z := if x =? 0 then 1 else 0.
Definition c_true (x : Z) : bool := negb (x =? 0).
Definition b2z (b : bool) : Z := if b then 1 else 0.

(** ** Effects

    Kernel code runs to a value, stops the machine in [_panic_], gives the
    processor up inside [sleep] (and is resumed later, in whatever state the
    other threads left), or abandons its kernel stack by switching to another
    thread ([yield] and [threadDestroy] never return to their caller).
    [NoFuel] marks a loop whose iteration bound was too small. *)

Inductive outcome (S A : Type) : Type :=
  | Ret (a : A) (s : S)
  | Panic
  | Sleep (chan : Z) (s : S) (resume : S -> outcome S A)
  | Switch (s : S)
  | NoFuel.
Arguments Ret {S A} a s.
Arguments Panic {S A}.
Arguments Sleep {S A} chan s resume.
Arguments Switch {S A} s.
Arguments NoFuel {S A}.

Fixpoint obind {S A B} (o : outcome S A) (f : A -> S -> outcome S B) : outcome S B :=
  match o with
  | Ret a s => f a s
  | Panic => Panic
  | Sleep c s k => Sleep c s (fun s' => obind (k s') f)
  | Switch s => Switch s
  | NoFuel => NoFuel
  end.

Definition M (S A : Type) : Type := S -> outcome S A.

#[export] Instance M_ret {S} : MRet (M S) := fun A a s => Ret a s.
#[export] Instance M_bind {S} : MBind (M S) := fun A B f m s => obind (m s) f.

Definition gets {S A} (f : S -> A) : M S A := fun s => Ret (f s) s.
Definition modify {S} (f : S -> S) : M S unit := fun s => Ret tt (f s).
Definition panic {S A} : M S A := fun _ => Panic.
Definition assert {S} (b : bool) : M S unit := if b then mret tt else panic.
Definition sleep_on {S} (chan : Z) : M S unit :=
  fun s => Sleep chan s (fun s' => Ret tt s').
Definition switch {S A} : M S A := fun s => Switch s.
Definition when {S} (b : bool) (m : M S unit) : M S unit := if b then m else mret tt.

(** A loop with local variables [L]; the body continues with [inl] and leaves
    the loop with [inr]. *)
Fixpoint loop {S L R} (fuel : nat) (body : L -> M S (L + R)) (l : L) : M S R :=
  match fuel with
  | O => fun _ => NoFuel
  | Datatypes.S n =>
      fun s => obind (body l s) (fun r s' =>
        match r with
        | inl l' => loop n body l' s'
        | inr r => Ret r s'
        end)
  end.

(** [for (i = from; i < from + n; i++) body(i);] *)
Fixpoint for_up {S} (n : nat) (i : Z) (body : Z -> M S unit) : M S unit :=
  match n with
  | O => mret tt
  | Datatypes.S n => body i ;; for_up n (i + 1) body
  end.

(** ** Components as parts of a larger state *)

Class Part (S T : Type) := {
  part : S -> T;
  set_part : T -> S -> S;
  part_set : forall t s, part (set_part t s) = t;
  set_part_set : forall t t' s, set_part t (set_part t' s) = set_part t s;
  set_part_part : forall s, set_part (part s) s = s;
}.

Fixpoint olift {S T A} `{Part S T} (o : outcome T A) (s : S) : outcome S A :=
  match o with
  | Ret a t => Ret a (set_part t s)
  | Panic => Panic
  | Sleep c t k => Sleep c (set_part t s) (fun s' => olift (k (part s')) s')
  | Switch t => Switch (set_part t s)
  | NoFuel => NoFuel
  end.

(** Running an operation of a component inside the larger state. *)
Definition lift {S T A} `{Part S T} (m : M T A) : M S A :=
  fun s => olift (m (part s)) s.

(** ** Reasoning: total correctness *)

(** Deciding a property of the result of a concrete run. *)
Definition ret_test {S A} (o : outcome S A) (t : A -> S -> bool) : bool :=
  match o with Ret a s => t a s | _ => false end.

Lemma ret_test_true {S A} (o : outcome S A) (t : A -> S -> bool) :
  ret_test o t = true -> exists a s, o = Ret a s /\ t a s = true.
Proof. destruct o; simpl; try done. eauto. Qed.

Definition wp {S A} (m : M S A) (s : S) (Q : A -> S -> Prop) : Prop :=
  match m s with Ret a s' => Q a s' | _ => False end.

Create HintDb kernel.

Section wp_rules.
Context {S : Type}.
Implicit Types s : S.

Lemma wp_Ret {A} (m : M S A) s Q :
  wp m s Q <-> exists a s', m s = Ret a s' /\ Q a s'.
Proof.
  unfold wp. split.
  - destruct (m s) eqn:E; try contradiction. eauto.
  - intros (a & s' & -> & H). exact H.
Qed.

Lemma wp_intro {A} (m : M S A) s a s' (Q : A -> S -> Prop) :
  m s = Ret a s' -> Q a s' -> wp m s Q.
Proof. unfold wp. intros ->. auto. Qed.

Lemma wp_ret {A} (a : A) s (Q : A -> S -> Prop) : Q a s -> wp (mret a) s Q.
Proof. auto. Qed.

Lemma wp_bind {A B} (m : M S A) (f : A -> M S B) s (Q : B -> S -> Prop) :
  wp m s (fun a s' => wp (f a) s' Q) -> wp (m ≫= f) s Q.
Proof.
  unfold wp, mbind, M_bind. destruct (m s); simpl; auto; contradiction.
Qed.

Lemma wp_mono {A} (m : M S A) s (P Q : A -> S -> Prop) :
  wp m s P -> (forall a s', P a s' -> Q a s') -> wp m s Q.
Proof. unfold wp. destruct (m s); auto. Qed.

Lemma wp_gets {A} (f : S -> A) s (Q : A -> S -> Prop) : Q (f s) s -> wp (gets f) s Q.
Proof. auto. Qed.

Lemma wp_modify (f : S -> S) s (Q : unit -> S -> Prop) : Q tt (f s) -> wp (modify f) s Q.
Proof. auto. Qed.

Lemma wp_assert (b : bool) s (Q : unit -> S -> Prop) :
  b = true -> Q tt s -> wp (assert b) s Q.
Proof. intros ->. auto. Qed.

Lemma wp_when (b : bool) (m : M S unit) s (Q : unit -> S -> Prop) :
  (b = true -> wp m s Q) -> (b = false -> Q tt s) -> wp (when b m) s Q.
Proof. destruct b; simpl; intros; [auto | apply wp_ret; auto]. Qed.

Lemma bind_Ret {A B} (m : M S A) (f : A -> M S B) s a s' :
  m s = Ret a s' -> (m ≫= f) s = f a s'.
Proof. unfold mbind, M_bind. intros ->. reflexivity. Qed.

Lemma bind_Ret_inv {A B} (m : M S A) (f : A -> M S B) s b s' :
  (m ≫= f) s = Ret b s' -> exists a s1, m s = Ret a s1 /\ f a s1 = Ret b s'.
Proof. unfold mbind, M_bind. destruct (m s); simpl; try done. eauto. Qed.

Lemma bind_mret {A B} (a : A) (f : A -> M S B) s : (mret a ≫= f) s = f a s.
Proof. reflexivity. Qed.

Lemma bind_gets {A B} (g : S -> A) (f : A -> M S B) s : (gets g ≫= f) s = f (g s) s.
Proof. reflexivity. Qed.

Lemma bind_modify {B} (g : S -> S) (f : unit -> M S B) s : (modify g ≫= f) s = f tt (g s).
Proof. reflexivity. Qed.

Lemma bind_Panic {A B} (m : M S A) (f : A -> M S B) s :
  m s = Panic -> (m ≫= f) s = Panic.
Proof. unfold mbind, M_bind. intros ->. reflexivity. Qed.

Lemma wp_unique {A} (m : M S A) s a s' (Q : A -> S -> Prop) :
  wp m s Q -> m s = Ret a s' -> Q a s'.
Proof. unfold wp. intros H E. rewrite E in H. exact H. Qed.

(** A loop whose measure decreases at every iteration returns, and its
    invariant gives the result. *)
Lemma wp_loop {L R} (I : L -> S -> Prop) (mu : L -> S -> nat)
    (body : L -> M S (L + R)) (Q : R -> S -> Prop) :
  (forall l s, I l s ->
    wp (body l) s (fun r s' =>
      match r with
      | inl l' => I l' s' /\ (mu l' s' < mu l s)%nat
      | inr r => Q r s'
      end)) ->
  forall fuel l s, I l s -> (mu l s < fuel)%nat -> wp (loop fuel body l) s Q.
Proof.
  intros Hbody fuel. induction fuel as [|n IH]; intros l s HI Hmu; [lia|].
  specialize (Hbody l s HI). unfold wp in *. simpl.
  destruct (body l s) as [[l'|r] s'| | | |]; simpl; try contradiction; auto.
  destruct Hbody as [HI' Hlt]. apply IH; [exact HI'|lia].
Qed.

(** A counted loop runs to the end when every iteration returns and keeps the
    invariant. *)
Lemma for_up_inv (I : Z -> S -> Prop) (body : Z -> M S unit) n : forall i s,
  (forall k s, i <= k < i + Z.of_nat n -> I k s -> exists s', body k s = Ret tt s' /\ I (k + 1) s') ->
  I i s -> exists s', for_up n i body s = Ret tt s' /\ I (i + Z.of_nat n) s'.
Proof.
  induction n as [|n IH]; intros i s Hb HI.
  - exists s. split; [done|]. by rewrite Z.add_0_r.
  - destruct (Hb i s) as (s1 & H1 & HI1); [lia|done|].
    destruct (IH (i + 1) s1) as (s2 & H2 & HI2); [intros; apply Hb; [lia|done]|done|].
    exists s2. split; [|by replace (i + Z.of_nat (Datatypes.S n)) with (i + 1 + Z.of_nat n) by lia].
    cbn [for_up]. by rewrite (bind_Ret _ _ _ _ _ H1).
Qed.
End wp_rules.

Section lift_rules.
Context {S T : Type} `{Part S T}.

Lemma lift_Ret {A} (m : M T A) s a t :
  m (part s) = Ret a t -> lift m s = Ret a (set_part t s).
Proof. unfold lift. intros ->. reflexivity. Qed.

Lemma lift_Panic {A} (m : M T A) s : m (part s) = Panic -> lift m s = Panic.
Proof. unfold lift. intros ->. reflexivity. Qed.

Lemma wp_lift {A} (m : M T A) s (Q : A -> S -> Prop) :
  wp m (part s) (fun a t => Q a (set_part t s)) -> wp (lift m) s Q.
Proof. unfold wp, lift. destruct (m (part s)); auto. Qed.

Lemma bind_lift_gets {A B} (g : T -> A) (f : A -> M S B) s : (lift (gets g) ≫= f) s = f (g (part s)) s.
Proof. unfold mbind, M_bind, lift. simpl. by rewrite set_part_part. Qed.

Lemma bind_lift_modify {B} (g : T -> T) (f : unit -> M S B) s :
  (lift (modify g) ≫= f) s = f tt (set_part (g (part s)) s).
Proof. reflexivity. Qed.

Lemma bind_lift_Ret {A B} (m : M T A) (f : A -> M S B) s a t :
  m (part s) = Ret a t -> (lift m ≫= f) s = f a (set_part t s).
Proof. unfold mbind, M_bind, lift. intros ->. reflexivity. Qed.
End lift_rules.

(** ** Lists *)

(** The first element that fails a test. *)
Lemma split_first {A} (f : A -> bool) (l : list A) :
  (forall x, x ∈ l -> f x = true) \/
  exists pre c post, l = pre ++ c :: post /\ (forall x, x ∈ pre -> f x = true) /\ f c = false.
Proof.
  induction l as [|a l IH]; [left; intros x Hx; by apply elem_of_nil in Hx|].
  destruct (f a) eqn:Ea.
  - destruct IH as [IH|(pre & c & post & -> & Hpre & Hc)].
    + left. intros x [-> |Hx]%elem_of_cons; auto.
    + right. exists (a :: pre), c, post. split_and!; [done| |done]. intros x [-> |Hx]%elem_of_cons; auto.
  - right. exists [], a, l. split_and!; [done| |done]. intros x Hx. by apply elem_of_nil in Hx.
Qed.

Lemma filter_all {A} (P : A -> Prop) `{!forall x, Decision (P x)} (l : list A) :
  (forall x, x ∈ l -> P x) -> filter P l = l.
Proof.
  induction l as [|x l IH]; intros Hl; [done|]. rewrite filter_cons_True by (apply Hl; by left).
  f_equal. apply IH. intros y Hy. apply Hl. by right.
Qed.
Lemma filter_none {A} (P : A -> Prop) `{!forall x, Decision (P x)} (l : list A) :
  (forall x, x ∈ l -> ~ P x) -> filter P l = [].
Proof.
  induction l as [|x l IH]; intros Hl; [done|]. rewrite filter_cons_False by (apply Hl; by left).
  apply IH. intros y Hy. apply Hl. by right.
Qed.

(** [k] different elements satisfy [P]; taking one leaves the others. *)
Definition has_room {A} (P : A -> Prop) (k : nat) : Prop :=
  exists xs, length xs = k /\ NoDup xs /\ Forall P xs.

Lemma has_room_some {A} (P : A -> Prop) k : has_room P (S k) -> exists x, P x.
Proof. intros ([|x xs] & Hl & _ & Hf); [done|]. exists x. by apply Forall_cons in Hf as [? _]. Qed.
Lemma has_room_mono {A} (P Q : A -> Prop) k : (forall x, P x -> Q x) -> has_room P k -> has_room Q k.
Proof. intros H (xs & H1 & H2 & H3). exists xs. split_and!; [done|done|]. by eapply Forall_impl. Qed.

Lemma has_room_add {A} (P Q : A -> Prop) x k :
  (forall y, P y -> Q y /\ y <> x) -> Q x -> has_room P k -> has_room Q (S k).
Proof.
  intros H Hx (xs & H1 & H2 & H3). rewrite Forall_forall in H3. exists (x :: xs). split_and!; [cbn; lia| |].
  - apply NoDup_cons. split; [|done]. intros Hin. by destruct (H x (H3 x Hin)).
  - apply Forall_cons. split; [done|]. apply Forall_forall. intros y Hy. by apply H, H3.
Qed.
Lemma has_room_take {A} `{!EqDecision A} (P Q : A -> Prop) x k :
  (forall y, y <> x -> P y -> Q y) -> has_room P (S k) -> has_room Q k.
Proof.
  intros HQ (xs & Hl & Hn & Hf). rewrite Forall_forall in Hf. destruct (decide (x ∈ xs)) as [Hin|Hin].
  - apply list_elem_of_split in Hin as (l1 & l2 & ->). exists (l1 ++ l2).
    rewrite length_app in *. cbn in Hl. apply NoDup_app in Hn as (N1 & N2 & N3). apply NoDup_cons in N3 as [N3 N4].
    split_and!; [lia| |].
    + apply NoDup_app. split_and!; [done| |done]. intros y Hy Hy2. apply (N2 y Hy), elem_of_cons. by right.
    + apply Forall_forall. intros y Hy. rewrite elem_of_app in Hy. apply HQ.
      * intros ->. destruct Hy as [Hy|Hy]; [|done]. apply (N2 x Hy), elem_of_cons. by left.
      * apply Hf. rewrite elem_of_app, elem_of_cons. tauto.
  - destruct xs as [|y xs]; [cbn in Hl; lia|]. exists xs. rewrite NoDup_cons in Hn. rewrite elem_of_cons in Hin.
    split_and!; [cbn in Hl; lia|tauto|]. apply Forall_forall. intros z Hz. apply HQ; [by intros ->; tauto|].
    apply Hf, elem_of_cons. by right.
Qed.

(** [wp_step] applies the rule that fits the head of the program. *)
Ltac wp_step :=
  match goal with
  | |- wp (mbind _ _) _ _ => apply wp_bind
  | |- wp (mret _) _ _ => apply wp_ret
  | |- wp (gets _) _ _ => apply wp_gets
  | |- wp (modify _) _ _ => apply wp_modify
  | |- wp (lift _) _ _ => apply wp_lift
  end.
Ltac wp_steps := repeat (wp_step; cbn beta).

(** [run_steps] executes the reads and updates at the head of a program. *)
Ltac run_step :=
  first [ rewrite bind_mret | rewrite bind_gets | rewrite bind_modify
        | rewrite bind_lift_gets | rewrite bind_lift_modify ]; cbv beta.
Ltac run_steps := repeat run_step.

(** Splitting on the booleans the code branches on. *)
Ltac bsplit :=
  repeat match goal with
  | H : (_ && _)%bool = true |- _ => apply andb_prop in H as [? ?]
  | H : (_ <? _) = true |- _ => apply Z.ltb_lt in H
  | H : (_ <? _) = false |- _ => apply Z.ltb_ge in H
  | H : (_ <=? _) = true |- _ => apply Z.leb_le in H
  | H : (_ <=? _) = false |- _ => apply Z.leb_gt in H
  | H : (_ =? _) = true |- _ => apply Z.eqb_eq in H
  | H : (_ =? _) = false |- _ => apply Z.eqb_neq in H
  | H : negb _ = true |- _ => apply negb_true_iff in H
  | H : negb _ = false |- _ => apply negb_false_iff in H
  | H : c_true _ = true |- _ => unfold c_true in H
  | H : c_true _ = false |- _ => unfold c_true in H
  end.
