(* ===== verification/CType.v ===== *)
(** * Type.h and the macros of Page.h: minimum, maximum, alignment, the lowest
    set bit of a word, and the bitmaps the kernel allocates identifiers from.

    [LOW_BIT64] is the binary search of include/Type.h.  The four allocators of
    the kernel that keep a bitmap of 64-bit words (pipes, segment maps, inodes
    and FAT clusters) share the loop [bitmap_alloc] and the two word updates
    [bitmap_set] and [bitmap_clear]; the lemmas here give their meaning as
    operations on the set of identifiers in use. *)

From S2P Require Import Prelude.
From coqutil Require Import Z.bitblast.

(** ** Macros *)

Definition MIN (a b : Z) : Z := if a <=? b then a else b.
Definition MAX (a b : Z) : Z := if a >=? b then a else b.

Definition DOWN_ALIGN (x y : Z) : Z := Z.land (u64 x) (u64 (Z.lnot (u64 (y - 1)))).
Definition UP_ALIGN (x y : Z) : Z := u64 (DOWN_ALIGN (x - 1) y + y).
Definition PAGE_OFFSET (x y : Z) : Z := Z.land x (y - 1).

(** ** The lowest set bit *)

Definition low_step (k : Z) (p : Z * Z) : Z * Z :=
  let '(x, res) := p in
  if Z.land x (Z.shiftl 1 k - 1) =? 0 then (Z.shiftr x k, res + k) else (x, res).

Definition LOW_BIT64 (x : Z) : Z :=
  let '(x, res) :=
    low_step 1 (low_step 2 (low_step 4 (low_step 8 (low_step 16 (low_step 32 (x, 0)))))) in
  if c_true x then res else -1.

(** ** Bitmaps of 64-bit words *)

Definition bitmap_set (bm : list Z) (i : nat) (bit : Z) : list Z :=
  alter (fun w => Z.lor w (Z.shiftl 1 bit)) i bm.

Definition bitmap_clear (bm : list Z) (i : nat) (bit : Z) : list Z :=
  alter (fun w => Z.land w (u64 (Z.lnot (Z.shiftl 1 bit)))) i bm.

(** The allocation loop over the words [i .. n): the first word that is not all
    ones gives its lowest clear bit.  [BFull]: every word of the range is full.
    [BOob]: the loop read past the end of the array. *)
Inductive bitmap_result :=
  | BGot (id : Z) (bm : list Z)
  | BFull
  | BOob.

Fixpoint bitmap_scan (todo i : nat) (bm : list Z) : bitmap_result :=
  match todo with
  | O => BFull
  | S todo =>
      match bm !! i with
      | None => BOob
      | Some w =>
          let free := u64 (Z.lnot w) in
          if c_true free then
            let bit := LOW_BIT64 free in
            BGot (Z.lor (Z.shiftl (Z.of_nat i) 6) bit) (bitmap_set bm i bit)
          else bitmap_scan todo (S i) bm
      end
  end.

Definition bitmap_alloc (n : nat) (bm : list Z) : bitmap_result := bitmap_scan n 0 bm.

Definition bitmap_free (x : Z) (bm : list Z) : list Z :=
  bitmap_clear bm (Z.to_nat (Z.shiftr x 6)) (Z.land x 63).

(** The identifier [x] is in use. *)
Definition bitmap_used (bm : list Z) (x : Z) : bool :=
  match bm !! Z.to_nat (Z.shiftr x 6) with
  | Some w => Z.testbit w (Z.land x 63)
  | None => false
  end.

Definition bitmap_wf (bm : list Z) : Prop := Forall (fun w => 0 <= w < 2 ^ 64) bm.

(** ** Lemmas: alignment *)

Lemma land_63 x : Z.land x 63 = x mod 64.
Proof. change 63 with (Z.ones 6). apply Z.land_ones. lia. Qed.

Lemma shiftr_6 x : Z.shiftr x 6 = x / 64.
Proof. apply Z.shiftr_div_pow2. lia. Qed.

Lemma land_low_mod x k : 0 <= k -> Z.land x (Z.shiftl 1 k - 1) = x mod 2 ^ k.
Proof.
  intros. rewrite Z.shiftl_1_l, Z.sub_1_r, <- Z.ones_equiv. apply Z.land_ones. lia.
Qed.

Lemma DOWN_ALIGN_pow2 x k :
  0 <= x < 2 ^ 64 -> 0 <= k < 64 -> DOWN_ALIGN x (2 ^ k) = x - x mod 2 ^ k.
Proof.
  intros Hx Hk. unfold DOWN_ALIGN, u64.
  assert (2 ^ k < 2 ^ 64) by (apply Z.pow_lt_mono_r; lia).
  assert (0 < 2 ^ k) by (apply Z.pow_pos_nonneg; lia).
  rewrite (Z.mod_small x) by lia.
  rewrite (Z.mod_small (2 ^ k - 1)) by lia.
  replace (x - x mod 2 ^ k) with (Z.ldiff x (2 ^ k - 1)).
  - apply Z.bits_inj'. intros i Hi.
    rewrite Z.land_spec, Z.ldiff_spec.
    destruct (Z.lt_ge_cases i 64) as [Hlt|Hge].
    + rewrite Z.mod_pow2_bits_low, Z.lnot_spec by lia. reflexivity.
    + rewrite <- (Z.mod_small x (2 ^ 64)) by lia.
      rewrite Z.mod_pow2_bits_high by lia. reflexivity.
  - rewrite Z.sub_1_r, <- Z.ones_equiv, Z.ldiff_ones_r by lia.
    rewrite Z.shiftr_div_pow2, Z.shiftl_mul_pow2 by lia.
    pose proof (Z.div_mod x (2 ^ k)). lia.
Qed.

Lemma DOWN_ALIGN_4096 x : 0 <= x < 2 ^ 64 -> DOWN_ALIGN x 4096 = x - x mod 4096.
Proof. intros. apply (DOWN_ALIGN_pow2 x 12); lia. Qed.

Lemma PAGE_OFFSET_4096 x : PAGE_OFFSET x 4096 = x mod 4096.
Proof. unfold PAGE_OFFSET. change (4096 - 1) with (Z.ones 12). apply Z.land_ones. lia. Qed.

(** ** Lemmas: the lowest set bit *)

(** [x0 = x * 2 ^ res] and [x] has a set bit below [n]. *)
Definition low_inv (n x0 : Z) (p : Z * Z) : Prop :=
  x0 = fst p * 2 ^ snd p /\ 0 <= snd p /\ 0 <= fst p /\
  exists j, 0 <= j < n /\ Z.testbit (fst p) j = true.

Lemma land_low_zero_bits x k j :
  0 <= k -> Z.land x (Z.shiftl 1 k - 1) = 0 -> 0 <= j < k -> Z.testbit x j = false.
Proof.
  intros Hk H Hj. rewrite land_low_mod in H by lia.
  rewrite <- (Z.mod_pow2_bits_low x k j), H by lia. apply Z.bits_0.
Qed.

Lemma low_step_inv k x0 p : 0 < k -> low_inv (2 * k) x0 p -> low_inv k x0 (low_step k p).
Proof.
  destruct p as [x res]. unfold low_inv, low_step. simpl.
  intros Hk (-> & Hres & Hx & j & Hj & Hbit).
  destruct (Z.land x (Z.shiftl 1 k - 1) =? 0) eqn:E; bsplit; simpl.
  - assert (Hjk : k <= j).
    { destruct (Z.lt_ge_cases j k); [|lia].
      rewrite (land_low_zero_bits x k j) in Hbit by lia. discriminate. }
    rewrite Z.shiftr_div_pow2 by lia.
    rewrite land_low_mod in E by lia.
    split_and!; try lia.
    + rewrite Z.pow_add_r by lia.
      pose proof (Z.div_mod x (2 ^ k)). assert (0 < 2 ^ k) by (apply Z.pow_pos_nonneg; lia).
      rewrite E, Z.add_0_r in H. rewrite H at 1 by lia. ring.
    + apply Z.div_pos; [lia|]. apply Z.pow_pos_nonneg; lia.
    + exists (j - k). split; [lia|].
      rewrite Z.div_pow2_bits by lia. by replace (j - k + k) with j by lia.
  - split_and!; auto.
    rewrite land_low_mod in E by lia.
    destruct (decide (Exists (fun i => Z.testbit x (Z.of_nat i) = true)
                 (seq 0 (Z.to_nat k)))) as [Hex|Hno].
    + apply Exists_exists in Hex as (i & Hi & Hb). apply elem_of_seq in Hi.
      exists (Z.of_nat i). split; [lia|done].
    + exfalso. apply E. apply Z.bits_inj_0. intros i.
      destruct (Z.lt_ge_cases i 0); [by apply Z.testbit_neg_r|].
      destruct (Z.lt_ge_cases i k); [|by apply Z.mod_pow2_bits_high; lia].
      rewrite Z.mod_pow2_bits_low by lia.
      apply not_true_is_false. intros Hb. apply Hno. apply Exists_exists.
      exists (Z.to_nat i). rewrite elem_of_seq, Z2Nat.id by lia. split; [lia|done].
Qed.

Lemma testbit_exists x : 0 < x -> exists j, 0 <= j <= Z.log2 x /\ Z.testbit x j = true.
Proof.
  intros. exists (Z.log2 x). split; [split; [apply Z.log2_nonneg|lia]|by apply Z.bit_log2].
Qed.

(** [LOW_BIT64] of a non-zero word is the index of its lowest set bit. *)
Lemma LOW_BIT64_spec x :
  0 < x < 2 ^ 64 ->
  0 <= LOW_BIT64 x < 64 /\
  Z.testbit x (LOW_BIT64 x) = true /\
  (forall j, 0 <= j < LOW_BIT64 x -> Z.testbit x j = false).
Proof.
  intros Hx.
  assert (H0 : low_inv 64 x (x, 0)).
  { unfold low_inv; simpl. split_and!; try lia.
    destruct (testbit_exists x) as (j & Hj & Hb); [lia|]. exists j. split; [|done].
    assert (Z.log2 x < 64) by (apply Z.log2_lt_pow2; lia). lia. }
  apply (low_step_inv 32), (low_step_inv 16), (low_step_inv 8), (low_step_inv 4),
    (low_step_inv 2), (low_step_inv 1) in H0; try lia.
  unfold LOW_BIT64.
  destruct (low_step 1 _) as [y res]. destruct H0 as (Hxy & Hres & Hy & j & Hj & Hb).
  simpl in *. replace j with 0 in Hb by lia.
  assert (Hny : y <> 0) by (intros ->; by rewrite Z.bits_0 in Hb).
  unfold c_true. rewrite (proj2 (Z.eqb_neq y 0)) by done. simpl.
  assert (Hbits : forall i, Z.testbit x i = Z.testbit y (i - res)).
  { intros i. rewrite Hxy, Z.mul_pow2_bits by lia. done. }
  split_and!; [lia| | |].
  - destruct (Z.lt_ge_cases res 64); [done|exfalso].
    assert (2 ^ 64 <= 2 ^ res) by (apply Z.pow_le_mono_r; lia). nia.
  - rewrite Hbits. by replace (res - res) with 0 by lia.
  - intros i Hi. rewrite Hbits. apply Z.testbit_neg_r. lia.
Qed.

Lemma LOW_BIT64_zero : LOW_BIT64 0 = -1.
Proof. reflexivity. Qed.

(** ** Lemmas: bitmaps *)

Lemma testbit_u64_lnot w j : 0 <= j < 64 -> Z.testbit (u64 (Z.lnot w)) j = negb (Z.testbit w j).
Proof. intros. unfold u64. rewrite Z.mod_pow2_bits_low, Z.lnot_spec by lia. done. Qed.

Lemma u64_lnot_zero w : 0 <= w < 2 ^ 64 -> u64 (Z.lnot w) = 0 -> w = 2 ^ 64 - 1.
Proof.
  intros Hw H. unfold u64 in H.
  assert (Hl : Z.lnot w = - w - 1) by (unfold Z.lnot; lia). rewrite Hl in H.
  replace (- w - 1) with ((2 ^ 64 - 1 - w) + (-1) * 2 ^ 64) in H by lia.
  rewrite Z.mod_add, Z.mod_small in H by lia. lia.
Qed.

Lemma testbit_ones64 j : 0 <= j < 64 -> Z.testbit (2 ^ 64 - 1) j = true.
Proof. intros. change (2 ^ 64 - 1) with (Z.ones 64). apply Z.ones_spec_low. lia. Qed.

Lemma testbit_set w b j :
  0 <= b -> 0 <= j ->
  Z.testbit (Z.lor w (Z.shiftl 1 b)) j = (Z.testbit w j || (j =? b))%bool.
Proof.
  intros. rewrite Z.lor_spec. f_equal.
  rewrite Z.shiftl_1_l, Z.pow2_bits_eqb by lia. apply Z.eqb_sym.
Qed.

Lemma testbit_clear w b j :
  0 <= b -> 0 <= j < 64 ->
  Z.testbit (Z.land w (u64 (Z.lnot (Z.shiftl 1 b)))) j = (Z.testbit w j && negb (j =? b))%bool.
Proof.
  intros. rewrite Z.land_spec, testbit_u64_lnot by lia. do 2 f_equal.
  rewrite Z.shiftl_1_l, Z.pow2_bits_eqb by lia. apply Z.eqb_sym.
Qed.

Lemma bits64_bound x :
  (forall j, 64 <= j -> Z.testbit x j = false) -> 0 <= x -> x < 2 ^ 64.
Proof.
  intros H Hx. destruct (Z.lt_ge_cases x (2 ^ 64)); [done|exfalso].
  assert (64 <= Z.log2 x) by (apply Z.log2_le_pow2; lia).
  pose proof (Z.bit_log2 x ltac:(lia)). rewrite H in *; [discriminate|lia].
Qed.

Lemma set_bound w b : 0 <= w < 2 ^ 64 -> 0 <= b < 64 -> 0 <= Z.lor w (Z.shiftl 1 b) < 2 ^ 64.
Proof.
  intros. assert (0 <= Z.lor w (Z.shiftl 1 b)).
  { apply Z.lor_nonneg. split; [lia|]. apply Z.shiftl_nonneg. lia. }
  split; [done|]. apply bits64_bound; [|done]. intros j Hj.
  rewrite testbit_set by lia. rewrite (proj2 (Z.eqb_neq j b)) by lia.
  rewrite orb_false_r, <- (Z.mod_small w (2 ^ 64)) by lia. apply Z.mod_pow2_bits_high. lia.
Qed.

Lemma land_bound w v : 0 <= w < 2 ^ 64 -> 0 <= Z.land w v < 2 ^ 64.
Proof.
  intros. assert (0 <= Z.land w v) by (apply Z.land_nonneg; lia).
  split; [done|]. apply bits64_bound; [|done]. intros j Hj.
  rewrite Z.land_spec, <- (Z.mod_small w (2 ^ 64)) by lia.
  rewrite Z.mod_pow2_bits_high by lia. done.
Qed.

Lemma lor_shift_add i b k :
  0 <= i -> 0 <= k -> 0 <= b < 2 ^ k -> Z.lor (Z.shiftl i k) b = i * 2 ^ k + b.
Proof.
  intros Hi Hk Hb. rewrite Z.shiftl_mul_pow2 by lia.
  assert (Hz : Z.land (i * 2 ^ k) b = 0).
  { apply Z.bits_inj_0. intros j. rewrite Z.land_spec.
    destruct (Z.lt_ge_cases j k).
    - rewrite Z.mul_pow2_bits_low by lia. done.
    - rewrite <- (Z.mod_small b (2 ^ k)) by lia.
      rewrite Z.mod_pow2_bits_high by lia. apply andb_false_r. }
  by rewrite <- Z.lxor_lor, <- Z.add_nocarry_lxor.
Qed.

Lemma id_div i b : 0 <= b < 64 -> (i * 2 ^ 6 + b) / 64 = i.
Proof. intros. change (2 ^ 6) with 64. Z.to_euclidean_division_equations; lia. Qed.

Lemma id_mod i b : 0 <= b < 64 -> (i * 2 ^ 6 + b) mod 64 = b.
Proof. intros. change (2 ^ 6) with 64. Z.to_euclidean_division_equations; lia. Qed.

Lemma bitmap_used_div bm x :
  bitmap_used bm x =
  match bm !! Z.to_nat (x / 64) with Some w => Z.testbit w (x mod 64) | None => false end.
Proof. unfold bitmap_used. by rewrite shiftr_6, land_63. Qed.

(** A word update changes the use of exactly one identifier. *)
Lemma bitmap_set_used bm i bit x :
  0 <= x -> 0 <= bit < 64 -> (i < length bm)%nat ->
  bitmap_used (bitmap_set bm i bit) x
  = (bitmap_used bm x || (x =? Z.of_nat i * 64 + bit))%bool.
Proof.
  intros Hx Hb Hi. rewrite !bitmap_used_div. unfold bitmap_set.
  destruct (decide (Z.to_nat (x / 64) = i)) as [Heq|Hne].
  - subst i. rewrite list_lookup_alter_eq.
    destruct (bm !! Z.to_nat (x / 64)) as [w|] eqn:E;
      [|apply lookup_ge_None in E; lia]. simpl.
    rewrite testbit_set by (Z.to_euclidean_division_equations; lia).
    f_equal. apply Bool.eq_iff_eq_true. rewrite !Z.eqb_eq, Z2Nat.id
      by (apply Z.div_pos; lia). Z.to_euclidean_division_equations; lia.
  - rewrite list_lookup_alter_ne by done.
    rewrite (proj2 (Z.eqb_neq x _)), orb_false_r; [done|].
    intros ->. apply Hne. rewrite Z.div_add_l, Z.div_small by lia. lia.
Qed.

Lemma bitmap_clear_used bm i bit x :
  0 <= x -> 0 <= bit < 64 ->
  bitmap_used (bitmap_clear bm i bit) x
  = (bitmap_used bm x && negb (x =? Z.of_nat i * 64 + bit))%bool.
Proof.
  intros Hx Hb. rewrite !bitmap_used_div. unfold bitmap_clear.
  destruct (decide (Z.to_nat (x / 64) = i)) as [Heq|Hne].
  - subst i. rewrite list_lookup_alter_eq.
    destruct (bm !! Z.to_nat (x / 64)) as [w|] eqn:E; [|done]. simpl.
    rewrite testbit_clear by (Z.to_euclidean_division_equations; lia).
    f_equal. f_equal. apply Bool.eq_iff_eq_true. rewrite !Z.eqb_eq, Z2Nat.id
      by (apply Z.div_pos; lia). Z.to_euclidean_division_equations; lia.
  - rewrite list_lookup_alter_ne by done.
    rewrite (proj2 (Z.eqb_neq x _)), andb_true_r; [done|].
    intros ->. apply Hne. rewrite Z.div_add_l, Z.div_small by lia. lia.
Qed.

Lemma bitmap_free_used bm x y :
  0 <= x -> 0 <= y -> bitmap_used (bitmap_free y bm) x = (bitmap_used bm x && negb (x =? y))%bool.
Proof.
  intros. unfold bitmap_free. rewrite land_63, shiftr_6.
  rewrite bitmap_clear_used by (Z.to_euclidean_division_equations; lia).
  rewrite Z2Nat.id by (apply Z.div_pos; lia). do 3 f_equal.
  Z.to_euclidean_division_equations; lia.
Qed.

Lemma bitmap_wf_alter bm i f :
  (forall w, 0 <= w < 2 ^ 64 -> 0 <= f w < 2 ^ 64) -> bitmap_wf bm -> bitmap_wf (alter f i bm).
Proof.
  intros Hf Hwf. apply Forall_alter; [done|]. intros w Hw Hb. by apply Hf.
Qed.

Lemma bitmap_free_wf bm x : bitmap_wf bm -> bitmap_wf (bitmap_free x bm).
Proof. intros. apply bitmap_wf_alter; [|done]. intros. by apply land_bound. Qed.

Lemma bitmap_free_length bm x : length (bitmap_free x bm) = length bm.
Proof. apply length_alter. Qed.

(** The scan finds the least identifier that is not in use. *)
Lemma bitmap_scan_spec todo : forall i bm,
  bitmap_wf bm -> (i + todo <= length bm)%nat ->
  match bitmap_scan todo i bm with
  | BGot x bm' =>
      Z.of_nat i * 64 <= x < Z.of_nat (i + todo) * 64 /\
      bitmap_used bm x = false /\
      (forall y, Z.of_nat i * 64 <= y < x -> bitmap_used bm y = true) /\
      bm' = bitmap_set bm (Z.to_nat (x / 64)) (x mod 64)
  | BFull => forall y, Z.of_nat i * 64 <= y < Z.of_nat (i + todo) * 64 -> bitmap_used bm y = true
  | BOob => False
  end.
Proof.
  induction todo as [|todo IH]; intros i bm Hwf Hlen; simpl; [intros; lia|].
  destruct (bm !! i) as [w|] eqn:Ew; [|apply lookup_ge_None in Ew; lia].
  assert (Hw : 0 <= w < 2 ^ 64) by (eapply Forall_lookup_1 in Hwf; eauto).
  assert (Hin : forall y, Z.of_nat i * 64 <= y < Z.of_nat (i + 1) * 64 ->
            bitmap_used bm y = Z.testbit w (y mod 64)).
  { intros y Hy. rewrite bitmap_used_div.
    replace (Z.to_nat (y / 64)) with i; [by rewrite Ew|].
    Z.to_euclidean_division_equations; lia. }
  destruct (c_true (u64 (Z.lnot w))) eqn:Ef; bsplit.
  - assert (Hr : 0 < u64 (Z.lnot w) < 2 ^ 64).
    { unfold u64 in *. pose proof (Z.mod_pos_bound (Z.lnot w) (2 ^ 64)). lia. }
    destruct (LOW_BIT64_spec _ Hr) as (Hb & Hset & Hlow).
    set (b := LOW_BIT64 _) in *. clearbody b.
    rewrite testbit_u64_lnot in Hset by lia. apply negb_true_iff in Hset.
    rewrite lor_shift_add by lia.
    split_and!; [change (2 ^ 6) with 64; lia|change (2 ^ 6) with 64; lia| | |].
    + rewrite Hin by (change (2 ^ 6) with 64; lia). by rewrite id_mod.
    + intros y Hy. change (2 ^ 6) with 64 in Hy. rewrite Hin by lia.
      assert (Hym : 0 <= y mod 64 < b) by (Z.to_euclidean_division_equations; lia).
      pose proof (Hlow (y mod 64) Hym) as Hl.
      rewrite testbit_u64_lnot in Hl by lia. by apply negb_false_iff.
    + by rewrite id_div, id_mod, Nat2Z.id.
  - apply u64_lnot_zero in Ef; [|done]. subst w.
    assert (Hfull : forall y, Z.of_nat i * 64 <= y < Z.of_nat (i + 1) * 64 ->
              bitmap_used bm y = true).
    { intros y Hy. rewrite Hin by done. apply testbit_ones64. apply Z.mod_pos_bound. lia. }
    specialize (IH (S i) bm Hwf ltac:(lia)).
    destruct (bitmap_scan todo (S i) bm) as [x bm'| |]; [| |done].
    + destruct IH as (Hx & Hu & Hl & ->). split_and!; [lia|lia|done| |done].
      intros y Hy. destruct (Z.lt_ge_cases y (Z.of_nat (i + 1) * 64)); [apply Hfull; lia|].
      apply Hl. lia.
    + intros y Hy. destruct (Z.lt_ge_cases y (Z.of_nat (i + 1) * 64)); [apply Hfull; lia|].
      apply IH. lia.
Qed.

(** What a bitmap allocator promises, on the set of identifiers in use: a
    returned identifier was free and is the least free one, and only it
    becomes used. *)
Lemma bitmap_alloc_spec n bm :
  bitmap_wf bm -> (n <= length bm)%nat ->
  match bitmap_alloc n bm with
  | BGot x bm' =>
      0 <= x < Z.of_nat n * 64 /\ bitmap_used bm x = false /\
      (forall y, 0 <= y < x -> bitmap_used bm y = true) /\
      bitmap_wf bm' /\ length bm' = length bm /\
      (forall y, 0 <= y -> bitmap_used bm' y = (bitmap_used bm y || (y =? x))%bool)
  | BFull => forall y, 0 <= y < Z.of_nat n * 64 -> bitmap_used bm y = true
  | BOob => False
  end.
Proof.
  intros Hwf Hlen. pose proof (bitmap_scan_spec n 0 bm Hwf ltac:(lia)) as H.
  unfold bitmap_alloc. destruct (bitmap_scan n 0 bm) as [x bm'| |];
    [|intros; apply H; lia|done].
  destruct H as (Hx & Hu & Hl & ->).
  split_and!; [lia|lia|done|intros; apply Hl; lia| | |].
  - apply bitmap_wf_alter; [|done]. intros. apply set_bound; [done|].
    apply Z.mod_pos_bound. lia.
  - apply length_alter.
  - intros y Hy. rewrite bitmap_set_used.
    + do 2 f_equal. rewrite Z2Nat.id by (apply Z.div_pos; lia).
      Z.to_euclidean_division_equations; lia.
    + done.
    + apply Z.mod_pos_bound. lia.
    + Z.to_euclidean_division_equations; lia.
Qed.

(** [LOW_BIT64], a binary search by halves, gives the position of the lowest
    set bit of every nonzero 64-bit word, and -1 for zero. *)
Theorem LOW_BIT64_correct x :
  0 <= x < 2 ^ 64 ->
  (x = 0 /\ LOW_BIT64 x = -1) \/
  (0 <= LOW_BIT64 x < 64 /\ Z.testbit x (LOW_BIT64 x) = true /\
   forall j, 0 <= j < LOW_BIT64 x -> Z.testbit x j = false).
Proof.
  intros Hx. destruct (decide (x = 0)) as [-> |].
  - left. split; [done|apply LOW_BIT64_zero].
  - right. apply LOW_BIT64_spec. lia.
Qed.

Lemma LOW_BIT64_correct_witness : LOW_BIT64 (2 ^ 63 + 2 ^ 40) = 40.
Proof.
  destruct (LOW_BIT64_correct (2 ^ 63 + 2 ^ 40)) as [[H _]|[_ _]]; [lia|discriminate|reflexivity].
Defined.
