(* ===== verification/Queue.v ===== *)
(** * Queue.h: intrusive doubly linked lists

    The macros of include/Queue.h work on a heap of link fields: every element
    has [le_next] (the next element, or NULL) and [le_prev] (the address of the
    pointer that points at the element: the head's [lh_first] or another
    element's [le_next]).  They are modelled field by field on that heap.  The
    theorems relate the heap to the list it represents, so that the components
    that only use the macros (free pages, processes, threads, signal contexts,
    the schedule queues) can keep a Rocq list. *)

From S2P Require Import Prelude.

Module Queue.

Definition NULL : Z := 0.

(** The address stored in [le_prev]. *)
Inductive cell :=
  | CFirst (head : Z)   (* &(head)->lh_first *)
  | CNext (elm : Z).    (* &(elm)->field.le_next *)

#[export] Instance cell_eq_dec : EqDecision cell.
Proof. solve_decision. Defined.

Record heap := mkHeap {
  lh_first : gmap Z Z;
  le_next : gmap Z Z;
  le_prev : gmap Z cell;
}.

Definition LIST_FIRST (q : heap) (h : Z) : Z := default NULL (lh_first q !! h).
Definition LIST_NEXT (q : heap) (e : Z) : Z := default NULL (le_next q !! e).

Definition set_first (h v : Z) (q : heap) : heap :=
  mkHeap (<[h := v]> (lh_first q)) (le_next q) (le_prev q).
Definition set_next (e v : Z) (q : heap) : heap :=
  mkHeap (lh_first q) (<[e := v]> (le_next q)) (le_prev q).
Definition set_prev (e : Z) (c : cell) (q : heap) : heap :=
  mkHeap (lh_first q) (le_next q) (<[e := c]> (le_prev q)).

(** Reading and writing through an address. *)
Definition deref (q : heap) (c : cell) : Z :=
  match c with CFirst h => LIST_FIRST q h | CNext e => LIST_NEXT q e end.
Definition assign (c : cell) (v : Z) (q : heap) : heap :=
  match c with CFirst h => set_first h v q | CNext e => set_next e v q end.
Definition prev_of (q : heap) (e : Z) : cell := default (CFirst NULL) (le_prev q !! e).

Definition LIST_INIT (h : Z) (q : heap) : heap := set_first h NULL q.
Definition LIST_EMPTY (h : Z) (q : heap) : bool := LIST_FIRST q h =? NULL.

(** The sequence of elements a [LIST_FOREACH] visits. *)
Fixpoint foreach_from (fuel : nat) (q : heap) (e : Z) : option (list Z) :=
  match fuel with
  | O => None
  | S n => if e =? NULL then Some [] else
             l ← foreach_from n q (LIST_NEXT q e); Some (e :: l)
  end.
Definition LIST_FOREACH (fuel : nat) (h : Z) (q : heap) : option (list Z) :=
  foreach_from fuel q (LIST_FIRST q h).

Definition LIST_INSERT_AFTER (listelm elm : Z) (q : heap) : heap :=
  let q := set_next elm (LIST_NEXT q listelm) q in
  let q := if negb (LIST_NEXT q listelm =? NULL)
           then set_prev (LIST_NEXT q listelm) (CNext elm) q else q in
  let q := set_next listelm elm q in
  set_prev elm (CNext listelm) q.

Definition LIST_INSERT_BEFORE (listelm elm : Z) (q : heap) : heap :=
  let q := set_prev elm (prev_of q listelm) q in
  let q := set_next elm listelm q in
  let q := assign (prev_of q listelm) elm q in
  set_prev listelm (CNext elm) q.

Definition LIST_INSERT_HEAD (h elm : Z) (q : heap) : heap :=
  let q := set_next elm (LIST_FIRST q h) q in
  let q := if negb (LIST_NEXT q elm =? NULL)
           then set_prev (LIST_FIRST q h) (CNext elm) q else q in
  let q := set_first h elm q in
  set_prev elm (CFirst h) q.

(** The loop of [LIST_INSERT_TAIL] walks [elm->next] down the list. *)
Fixpoint tail_walk (fuel : nat) (elm : Z) (q : heap) : option heap :=
  match fuel with
  | O => None
  | S n =>
      if negb (LIST_NEXT q (LIST_NEXT q elm) =? NULL)
      then tail_walk n elm (set_next elm (LIST_NEXT q (LIST_NEXT q elm)) q)
      else Some q
  end.

Definition LIST_INSERT_TAIL (fuel : nat) (h elm : Z) (q : heap) : option heap :=
  if negb (LIST_FIRST q h =? NULL) then
    let q := set_next elm (LIST_FIRST q h) q in
    q ← tail_walk fuel elm q;
    let q := set_next (LIST_NEXT q elm) elm q in
    let q := set_prev elm (CNext (LIST_NEXT q elm)) q in
    Some (set_next elm NULL q)
  else Some (LIST_INSERT_HEAD h elm q).

Definition LIST_REMOVE (elm : Z) (q : heap) : heap :=
  let q := if negb (LIST_NEXT q elm =? NULL)
           then set_prev (LIST_NEXT q elm) (prev_of q elm) q else q in
  assign (prev_of q elm) (LIST_NEXT q elm) q.

(** ** The list a head represents *)

Fixpoint seg (q : heap) (c : cell) (l : list Z) : Prop :=
  match l with
  | [] => deref q c = NULL
  | x :: l => x <> NULL /\ deref q c = x /\ prev_of q x = c /\ seg q (CNext x) l
  end.

Definition rep (q : heap) (h : Z) (l : list Z) : Prop := seg q (CFirst h) l /\ NoDup l.

(** ** Field lemmas *)

Lemma deref_assign_eq q c v : deref (assign c v q) c = v.
Proof. destruct c; simpl; unfold LIST_FIRST, LIST_NEXT; simpl; by rewrite lookup_insert_eq. Qed.

Lemma deref_assign_ne q c c' v : c <> c' -> deref (assign c v q) c' = deref q c'.
Proof.
  intros. destruct c, c'; simpl; unfold LIST_FIRST, LIST_NEXT; simpl; try done;
    rewrite lookup_insert_ne; congruence.
Qed.

Lemma deref_set_prev q e c c' : deref (set_prev e c q) c' = deref q c'.
Proof. by destruct c'. Qed.

Lemma prev_assign q c v e : prev_of (assign c v q) e = prev_of q e.
Proof. by destruct c. Qed.

Lemma prev_set_prev_eq q e c : prev_of (set_prev e c q) e = c.
Proof. unfold prev_of. simpl. by rewrite lookup_insert_eq. Qed.

Lemma prev_set_prev_ne q e e' c : e <> e' -> prev_of (set_prev e c q) e' = prev_of q e'.
Proof. intros. unfold prev_of. simpl. by rewrite lookup_insert_ne. Qed.

Lemma deref_next q e : LIST_NEXT q e = deref q (CNext e).
Proof. done. Qed.

Lemma deref_first q h : LIST_FIRST q h = deref q (CFirst h).
Proof. done. Qed.

#[local] Arguments deref : simpl never.
#[local] Arguments prev_of : simpl never.

(** A segment only depends on the cells it reads and the back links of its
    elements. *)
Lemma seg_frame q q' c l :
  (forall c', c' = c \/ (exists x, x ∈ l /\ c' = CNext x) -> deref q' c' = deref q c') ->
  (forall x, x ∈ l -> prev_of q' x = prev_of q x) ->
  seg q c l -> seg q' c l.
Proof.
  revert c. induction l as [|x l IH]; intros c Hd Hp; simpl.
  - intros <-. apply Hd. by left.
  - intros (Hx & Hc & Hpx & Hs). split_and!; [done| | |].
    + rewrite Hd; auto.
    + rewrite Hp; [done|]. by left.
    + apply IH; [| |done].
      * intros c' [->|(y & Hy & ->)]; apply Hd; right; eexists; split; try done; by constructor.
      * intros y Hy. apply Hp. by constructor.
Qed.

Lemma seg_null q c l : seg q c l -> deref q c = NULL -> l = [].
Proof. destruct l; simpl; [done|]. intros (? & ? & ?). congruence. Qed.

(** Cutting a segment at one of its elements. *)
Fixpoint last_cell (c : cell) (l : list Z) : cell :=
  match l with [] => c | y :: l => last_cell (CNext y) l end.
Fixpoint last_elem (y : Z) (l : list Z) : Z :=
  match l with [] => y | z :: l => last_elem z l end.

Lemma last_cell_cons c y l : last_cell c (y :: l) = last_cell (CNext y) l.
Proof. done. Qed.

Lemma last_cell_last c y l : last_cell c (y :: l) = CNext (last_elem y l).
Proof. simpl. revert y. induction l as [|z l IH]; intros; simpl; [done|]. apply IH. Qed.

Lemma last_cell_app c l1 l2 : last_cell c (l1 ++ l2) = last_cell (last_cell c l1) l2.
Proof. revert c. induction l1 as [|y l1 IH]; intros; simpl; auto. Qed.

Lemma last_elem_in y l : last_elem y l ∈ y :: l.
Proof.
  revert y. induction l as [|z l IH]; intros; simpl; [constructor|]. right. apply IH.
Qed.

Lemma last_cell_in c l : last_cell c l = c \/ exists y, y ∈ l /\ last_cell c l = CNext y.
Proof.
  revert c. induction l as [|y l IH]; intros c; [by left|right].
  rewrite last_cell_cons. destruct (IH (CNext y)) as [->|(z & ? & ->)];
    eexists; split; try done; by constructor.
Qed.

Lemma seg_app q c l1 l2 :
  seg q c (l1 ++ l2) <->
  Forall (fun x => x <> NULL) l1 /\
  (forall l0 x l1', l1 = l0 ++ x :: l1' ->
     deref q (last_cell c l0) = x /\ prev_of q x = last_cell c l0) /\
  seg q (last_cell c l1) l2.
Proof.
  revert c. induction l1 as [|y l1 IH]; intros c; simpl.
  - split; [intros H; split_and!; [constructor| |done]|by intros (? & ? & ?)].
    intros [] ? ?; done.
  - rewrite IH. split.
    + intros (Hy & Hd & Hp & Hf & Hc & Hs). split_and!; [by constructor| |done].
      intros [|z l0] x l1' Heq; simplify_eq/=; [done|].
      by eapply Hc.
    + intros (Hf & Hc & Hs). inversion_clear Hf.
      destruct (Hc [] y l1 eq_refl) as [? ?]. split_and!; try done.
      intros l0 x l1' ->. apply (Hc (y :: l0) x l1' eq_refl).
Qed.

(** ** All the lists of a heap

    [world q ls]: every head of [ls] represents its list, no element is in two
    lists. *)
Definition world (q : heap) (ls : gmap Z (list Z)) : Prop :=
  (forall h l, ls !! h = Some l -> rep q h l) /\
  (forall h1 h2 l1 l2 x,
     ls !! h1 = Some l1 -> ls !! h2 = Some l2 -> x ∈ l1 -> x ∈ l2 -> h1 = h2).

Definition fresh (x : Z) (ls : gmap Z (list Z)) : Prop :=
  x <> NULL /\ forall h l, ls !! h = Some l -> x ∉ l.

(** A heap update that only touches the list of [h] (and elements of no list)
    keeps the other lists. *)
Lemma world_update q q' ls h l l' :
  world q ls -> ls !! h = Some l -> rep q' h l' ->
  (forall x, x ∈ l' -> x ∈ l \/ fresh x ls) ->
  (forall h', h' <> h -> deref q' (CFirst h') = deref q (CFirst h')) ->
  (forall y, y ∉ l -> ~ fresh y ls -> y <> NULL ->
     deref q' (CNext y) = deref q (CNext y) /\ prev_of q' y = prev_of q y) ->
  world q' (<[h := l']> ls).
Proof.
  intros [Hr Hd] Hl Hr' Hin Hf He. split.
  - intros h2 l2. destruct (decide (h = h2)) as [<-|Hne].
    + rewrite lookup_insert_eq. by intros [= <-].
    + rewrite lookup_insert_ne by done. intros H2. destruct (Hr _ _ H2) as [Hs Hn].
      assert (Hy : forall y, y ∈ l2 -> deref q' (CNext y) = deref q (CNext y)
                                       /\ prev_of q' y = prev_of q y).
      { intros y Hy. apply He.
        - intros Hyl. apply Hne. eauto.
        - intros [_ Hfr]. by apply (Hfr _ _ H2).
        - apply list_elem_of_split in Hy as (la & lb & ->).
          rewrite (seg_app _ _ la) in Hs. destruct Hs as (_ & _ & Hs). apply Hs. }
      split; [|done]. eapply seg_frame; [| |exact Hs].
      * intros c' [->|(y & Hin' & ->)]; [by apply Hf|by apply Hy].
      * intros y Hin'. by apply Hy.
  - intros h1 h2 l1 l2 x. rewrite !lookup_insert.
    repeat case_decide; subst; intros ? ? Hx1 Hx2; simplify_eq; try done.
    + destruct (Hin _ Hx1) as [?|[_ Hfr]]; [eauto|by destruct (Hfr h2 l2)].
    + destruct (Hin _ Hx2) as [?|[_ Hfr]]; [eauto|by destruct (Hfr h1 l1)].
    + eauto.
Qed.

Ltac qsimp :=
  repeat first
    [ rewrite deref_set_prev
    | rewrite prev_assign
    | rewrite deref_assign_eq
    | rewrite prev_set_prev_eq
    | rewrite deref_assign_ne by congruence
    | rewrite prev_set_prev_ne by congruence ].

(** The macros in terms of [assign], the form [qsimp] works on. *)
Lemma set_next_assign e v q : set_next e v q = assign (CNext e) v q.
Proof. done. Qed.
Lemma set_first_assign h v q : set_first h v q = assign (CFirst h) v q.
Proof. done. Qed.

Ltac qnorm := rewrite ?set_next_assign, ?set_first_assign, ?deref_next, ?deref_first in *; qsimp.

(** Linking a new element [x] between the cell [c] and what it points at. *)
Lemma seg_link q q' c x l :
  x <> NULL -> x ∉ l -> NoDup l ->
  seg q c l -> deref q' c = x -> prev_of q' x = c -> deref q' (CNext x) = deref q c ->
  (forall y, y ∈ l -> deref q' (CNext y) = deref q (CNext y)) ->
  (forall y, y ∈ l -> prev_of q' y = if decide (y = deref q c) then CNext x else prev_of q y) ->
  seg q' c (x :: l).
Proof.
  intros Hx Hnin Hnd Hs Hc Hp Hn Hd Hpr. simpl. split_and!; try done.
  destruct l as [|y l]; simpl in *; [by rewrite Hn|].
  destruct Hs as (Hy & Hcy & Hpy & Hs). inversion_clear Hnd.
  split_and!; [done|congruence| |].
  - rewrite Hpr by constructor. by rewrite decide_True.
  - eapply seg_frame; [| |exact Hs].
    + intros c' [->|(z & Hz & ->)]; apply Hd; by constructor.
    + intros z Hz. rewrite Hpr by (by constructor). rewrite decide_False; [done|].
      rewrite Hcy. intros ->. done.
Qed.

Lemma seg_first_in q c l : seg q c l -> deref q c = NULL \/ deref q c ∈ l.
Proof. destruct l; simpl; [by left|]. intros (? & -> & ?). right. constructor. Qed.

(** What each macro does to the link fields. *)
Lemma INSERT_HEAD_fields h x q :
  let q' := LIST_INSERT_HEAD h x q in
  let f := LIST_FIRST q h in
  deref q' (CFirst h) = x /\ deref q' (CNext x) = f /\
  (forall c, c <> CFirst h -> c <> CNext x -> deref q' c = deref q c) /\
  prev_of q' x = CFirst h /\
  (forall y, y <> x -> prev_of q' y =
     if decide (y = f /\ f <> NULL) then CNext x else prev_of q y).
Proof.
  unfold LIST_INSERT_HEAD. cbv zeta. qnorm.
  destruct (negb (deref q (CFirst h) =? NULL)) eqn:E; bsplit; qsimp;
    split_and!; try done; intros; qsimp; try done; qsimp.
  - destruct (decide (y = deref q (CFirst h) /\ _)) as [[-> _]|Hn]; qsimp; [done|].
    rewrite prev_set_prev_ne by naive_solver. by qsimp.
  - rewrite decide_False by tauto. by qsimp.
Qed.

Lemma rep_insert_head q h x l :
  rep q h l -> x <> NULL -> x ∉ l -> rep (LIST_INSERT_HEAD h x q) h (x :: l).
Proof.
  intros [Hs Hnd] Hx Hin. destruct (INSERT_HEAD_fields h x q) as (H1 & H2 & H3 & H4 & H5).
  split; [|by constructor]. eapply seg_link; eauto.
  - intros y Hy. apply H3; congruence.
  - intros y Hy. rewrite H5 by congruence. rewrite deref_first.
    assert (deref q (CFirst h) <> NULL).
    { intros E0. apply (seg_null _ _ _ Hs) in E0. subst l. by apply elem_of_nil in Hy. }
    destruct (decide (y = deref q (CFirst h))), (decide (_ /\ _)); tauto.
Qed.

Lemma world_insert_head q ls h x l :
  world q ls -> ls !! h = Some l -> fresh x ls ->
  world (LIST_INSERT_HEAD h x q) (<[h := x :: l]> ls).
Proof.
  intros Hw Hl Hx. destruct (INSERT_HEAD_fields h x q) as (H1 & H2 & H3 & H4 & H5).
  pose proof (proj1 Hw _ _ Hl) as Hr.
  eapply world_update; [exact Hw|exact Hl| | | |].
  - apply rep_insert_head; [done|apply Hx|by eapply Hx].
  - intros y [->|Hy]%elem_of_cons; auto.
  - intros h' Hh. apply H3; congruence.
  - intros y Hy Hnf Hn. assert (y <> x) by (by intros ->).
    rewrite H3 by congruence. rewrite H5 by done. split; [done|].
    rewrite decide_False; [done|]. intros [-> Hf].
    destruct (seg_first_in _ _ _ (proj1 Hr)) as [E|E]; done.
Qed.

(** [LIST_REMOVE] unlinks its element. *)
Lemma REMOVE_fields x q :
  let q' := LIST_REMOVE x q in
  LIST_NEXT q x <> x ->
  deref q' (prev_of q x) = LIST_NEXT q x /\
  (forall c, c <> prev_of q x -> deref q' c = deref q c) /\
  (forall y, prev_of q' y =
     if decide (y = LIST_NEXT q x /\ y <> NULL) then prev_of q x else prev_of q y).
Proof.
  unfold LIST_REMOVE. cbv zeta. intros Hnx. qnorm.
  destruct (negb (deref q (CNext x) =? NULL)) eqn:E; bsplit.
  - rewrite prev_set_prev_ne by done. qsimp. split_and!; [done| |].
    + intros. by qsimp.
    + intros y. qsimp. destruct (decide (y = deref q (CNext x) /\ y <> NULL)) as [[-> _]|Hn]; qsimp; [done|].
      rewrite prev_set_prev_ne; [done|]. intros <-. tauto.
  - qsimp. split_and!; [done| |].
    + intros. by qsimp.
    + intros y. qsimp. rewrite decide_False by (rewrite E; tauto). done.
Qed.

Definition list_remove (x : Z) (l : list Z) : list Z := filter (fun y => y <> x) l.

Lemma list_remove_notin x l : x ∉ l -> list_remove x l = l.
Proof.
  unfold list_remove. induction l as [|y l IH]; [done|].
  intros [? ?]%not_elem_of_cons. rewrite filter_cons_True by congruence. f_equal. auto.
Qed.

Lemma list_remove_split x l1 l2 :
  NoDup (l1 ++ x :: l2) -> list_remove x (l1 ++ x :: l2) = l1 ++ l2.
Proof.
  intros (H1 & H2 & H3)%NoDup_app. apply NoDup_cons in H3 as [H3 H4].
  unfold list_remove. rewrite filter_app, filter_cons_False by tauto.
  f_equal; apply list_remove_notin; [|done].
  intros Hin. apply (H2 _ Hin). constructor.
Qed.

Lemma list_remove_head x l : NoDup (x :: l) -> list_remove x (x :: l) = l.
Proof. apply (list_remove_split x []). Qed.

Lemma rep_remove q h x l : rep q h l -> x ∈ l -> rep (LIST_REMOVE x q) h (list_remove x l).
Proof.
  intros [Hs Hnd] Hin. apply list_elem_of_split in Hin as (l1 & l2 & ->).
  rewrite list_remove_split by done.
  pose proof Hnd as (Hnd1 & Hdis & Hnd2)%NoDup_app. apply NoDup_cons in Hnd2 as [Hx2 Hnd2].
  split; [|apply NoDup_app; split_and!; auto; intros y ?; eapply not_elem_of_cons; by apply Hdis].
  apply seg_app in Hs as (Hf & Hc & Hs). simpl in Hs. destruct Hs as (Hx & Hd & Hp & Hs).
  assert (Hne : LIST_NEXT q x <> x).
  { rewrite deref_next. destruct (seg_first_in _ _ _ Hs) as [E|E]; congruence. }
  destruct (REMOVE_fields x q Hne) as (H1 & H2 & H3). rewrite Hp in *.
  assert (Hcell : forall y, y ∈ l2 -> CNext y <> last_cell (CFirst h) l1).
  { intros y Hy Heq. destruct (last_cell_in (CFirst h) l1) as [E|(z & Hz & E)]; [congruence|].
    assert (z = y) by congruence. subst z. by apply (Hdis _ Hz), elem_of_cons; right. }
  apply seg_app. split_and!; [done| |].
  - intros l0 y l1' ->. destruct (Hc l0 y l1' eq_refl) as [Hd1 Hp1].
    assert (Hy : y ∈ l0 ++ y :: l1') by (apply elem_of_app; right; constructor).
    split.
    + rewrite H2; [done|]. intros Heq. rewrite Heq in Hd1.
      apply (Hdis _ Hy). apply elem_of_cons. left. congruence.
    + rewrite H3, decide_False; [done|]. intros [-> Hnn]. apply (Hdis _ Hy).
      rewrite deref_next in *. destruct (seg_first_in _ _ _ Hs) as [E|E]; [done|].
      apply elem_of_cons. by right.
  - destruct l2 as [|y l2]; simpl in *; [by rewrite H1|].
    destruct Hs as (Hy & Hdy & Hpy & Hs). apply NoDup_cons in Hnd2 as [Hy2 Hnd2].
    split_and!; [done|by rewrite H1| |].
    + rewrite H3, decide_True by done. done.
    + eapply seg_frame; [| |exact Hs].
      * intros c' [->|(z & Hz & ->)]; apply H2, Hcell; by constructor.
      * intros z Hz. rewrite H3, decide_False; [done|]. intros [-> _].
        by rewrite <- Hdy in Hy2.
Qed.

Lemma world_remove q ls h x l :
  world q ls -> ls !! h = Some l -> x ∈ l ->
  world (LIST_REMOVE x q) (<[h := list_remove x l]> ls).
Proof.
  intros Hw Hl Hx. pose proof (proj1 Hw _ _ Hl) as Hr.
  pose proof (rep_remove _ _ _ _ Hr Hx) as Hr'. destruct Hr as [Hs Hnd].
  apply list_elem_of_split in Hx as (l1 & l2 & ->).
  rewrite list_remove_split in * by done.
  apply seg_app in Hs as (Hf & Hc & Hs). simpl in Hs. destruct Hs as (Hx & Hd & Hp & Hs).
  apply NoDup_app in Hnd as (_ & Hdis & [Hx2 _]%NoDup_cons).
  assert (Hne : LIST_NEXT q x <> x).
  { rewrite deref_next. destruct (seg_first_in _ _ _ Hs) as [E|E]; congruence. }
  destruct (REMOVE_fields x q Hne) as (H1 & H2 & H3).
  eapply world_update; [exact Hw|exact Hl|exact Hr'| | |].
  - intros y. rewrite !elem_of_app, elem_of_cons. tauto.
  - intros h' Hh. apply H2. rewrite Hp.
    destruct (last_cell_in (CFirst h) l1) as [E|(z & Hz & E)]; congruence.
  - intros y Hy _ Hn. rewrite elem_of_app, elem_of_cons in Hy. split.
    + apply H2. rewrite Hp.
      destruct (last_cell_in (CFirst h) l1) as [E|(z & Hz & E)]; [congruence|].
      intros Ey. assert (y = z) by congruence. subst y. tauto.
    + rewrite H3, decide_False; [done|]. rewrite deref_next. intros [-> _].
      destruct (seg_first_in _ _ _ Hs) as [E|E]; tauto.
Qed.

(** The walk of [LIST_INSERT_TAIL] ends at the last element. *)
Lemma tail_walk_spec fuel q x y l :
  (length l < fuel)%nat -> x ∉ y :: l -> deref q (CNext x) = y -> y <> NULL ->
  seg q (CNext y) l ->
  exists q', tail_walk fuel x q = Some q' /\
    deref q' (CNext x) = last_elem y l /\
    (forall c, c <> CNext x -> deref q' c = deref q c) /\
    (forall z, prev_of q' z = prev_of q z).
Proof.
  revert q y l. induction fuel as [|fuel IH]; intros q y l Hf Hx Hd Hy Hs; [lia|].
  simpl. apply not_elem_of_cons in Hx as [Hxy Hxl].
  rewrite !deref_next, Hd. destruct l as [|z l]; simpl in Hs.
  - rewrite Hs. simpl. eauto.
  - destruct Hs as (Hz & Hdz & Hpz & Hs). rewrite Hdz, (proj2 (Z.eqb_neq z NULL)) by done.
    simpl. rewrite set_next_assign. apply not_elem_of_cons in Hxl as [Hxz Hxl].
    destruct (IH (assign (CNext x) z q) z l) as (q' & -> & H1 & H2 & H3);
      [simpl in Hf; lia|by apply not_elem_of_cons|by qsimp|done| |].
    + eapply seg_frame; [| |exact Hs].
      * intros c [->|(w & Hw & ->)]; apply deref_assign_ne; congruence.
      * intros w Hw. by qsimp.
    + eexists. split_and!; [done|done| |].
      * intros c Hc. rewrite H2 by done. by rewrite deref_assign_ne by congruence.
      * intros w. rewrite H3. by qsimp.
Qed.

Lemma INSERT_TAIL_fields fuel q h x y l :
  (length l < fuel)%nat -> rep q h (y :: l) -> x <> NULL -> x ∉ y :: l ->
  exists q', LIST_INSERT_TAIL fuel h x q = Some q' /\
    deref q' (last_cell (CFirst h) (y :: l)) = x /\ deref q' (CNext x) = NULL /\
    prev_of q' x = last_cell (CFirst h) (y :: l) /\
    (forall c, c <> CNext x -> c <> last_cell (CFirst h) (y :: l) -> deref q' c = deref q c) /\
    (forall z, z <> x -> prev_of q' z = prev_of q z).
Proof.
  intros Hf [Hs Hnd] Hx Hin. unfold LIST_INSERT_TAIL. simpl in Hs.
  destruct Hs as (Hy & Hd & Hp & Hs).
  rewrite deref_first, Hd, (proj2 (Z.eqb_neq y NULL)) by done. simpl.
  pose proof Hin as [Hxy Hxl]%not_elem_of_cons.
  destruct (tail_walk_spec fuel (set_next x y q) x y l) as (q' & -> & H1 & H2 & H3); try done.
  - rewrite set_next_assign. by qsimp.
  - eapply seg_frame; [| |exact Hs].
    + intros c [->|(w & Hw & ->)]; rewrite set_next_assign; apply deref_assign_ne; congruence.
    + intros w Hw. by rewrite set_next_assign, prev_assign.
  - simpl. rewrite <- (last_cell_cons (CFirst h)), last_cell_last, !deref_next, H1.
    set (z := last_elem y l) in *.
    assert (Hzx : z <> x) by (intros <-; apply Hin, last_elem_in).
    eexists. split; [done|]. rewrite !set_next_assign. qsimp. rewrite H1. split_and!; try done.
    + intros c Hc1 Hc2. qsimp. rewrite H2 by done. rewrite set_next_assign. by qsimp.
    + intros w Hw. qsimp. rewrite H3, set_next_assign. by qsimp.
Qed.

(** The cell before an element is not the last cell of the list. *)
Lemma last_cell_inner h l0 z l1 :
  NoDup (l0 ++ z :: l1) -> last_cell (CFirst h) l0 <> last_cell (CFirst h) (l0 ++ z :: l1).
Proof.
  intros (_ & Hdis & _)%NoDup_app. rewrite last_cell_app, last_cell_last.
  pose proof (last_elem_in z l1) as Hin.
  destruct (last_cell_in (CFirst h) l0) as [->|(v & Hv & ->)]; [done|].
  intros [= ->]. by apply (Hdis _ Hv).
Qed.

Lemma rep_insert_tail fuel q h x l :
  (length l <= fuel)%nat -> rep q h l -> x <> NULL -> x ∉ l ->
  exists q', LIST_INSERT_TAIL fuel h x q = Some q' /\ rep q' h (l ++ [x]) /\
    (forall c, c <> CNext x -> c <> last_cell (CFirst h) l -> deref q' c = deref q c) /\
    (forall z, z <> x -> prev_of q' z = prev_of q z).
Proof.
  intros Hf Hr Hx Hin. destruct l as [|y l].
  - unfold LIST_INSERT_TAIL. pose proof (proj1 Hr) as Hs. simpl in Hs.
    rewrite deref_first, Hs. simpl.
    eexists. split; [done|]. split; [apply (rep_insert_head q h x []); done|].
    destruct (INSERT_HEAD_fields h x q) as (_ & _ & H3 & _ & H5). split; [auto|].
    intros z Hz. rewrite H5, decide_False; rewrite ?deref_first, ?Hs; tauto.
  - destruct (INSERT_TAIL_fields fuel q h x y l) as (q' & -> & H1 & H2 & H3 & H4 & H5); try done.
    eexists. split; [done|]. split; [|done]. destruct Hr as [Hs Hnd].
    split; [|apply NoDup_app; split_and!; [done| |apply NoDup_singleton];
             intros z Hz; rewrite list_elem_of_singleton; congruence].
    apply seg_app. rewrite <- (app_nil_r (y :: l)) in Hs.
    apply seg_app in Hs as (Hfn & Hc & _). split_and!; [done| |by simpl].
    intros l0 z l1 E. destruct (Hc _ _ _ E) as [Hd Hp].
    assert (Hz : z ∈ y :: l) by (rewrite E; apply elem_of_app; right; constructor).
    rewrite H5 by congruence. split; [|done]. rewrite H4; [done| |].
    + intros E2. destruct (last_cell_in (CFirst h) l0) as [E3|(w & Hw & E3)]; [congruence|].
      assert (w = x) by congruence. subst w. apply Hin. rewrite E. by apply elem_of_app; left.
    + rewrite E. apply last_cell_inner. by rewrite <- E.
Qed.

Lemma world_insert_tail fuel q ls h x l :
  (length l <= fuel)%nat -> world q ls -> ls !! h = Some l -> fresh x ls ->
  exists q', LIST_INSERT_TAIL fuel h x q = Some q' /\ world q' (<[h := l ++ [x]]> ls).
Proof.
  intros Hf Hw Hl Hx.
  destruct (rep_insert_tail fuel q h x l) as (q' & Hq & Hr & Hd & Hp);
    [done|by apply Hw|apply Hx|by eapply Hx|].
  exists q'. split; [done|]. eapply world_update; [exact Hw|exact Hl|exact Hr| | |].
  - intros y [Hy|Hy%list_elem_of_singleton]%elem_of_app; [by left|right; by subst].
  - intros h' Hh. apply Hd; [done|].
    destruct (last_cell_in (CFirst h) l) as [->|(z & Hz & ->)]; congruence.
  - intros y Hy Hnf Hn. assert (y <> x) by (by intros ->). split; [|by apply Hp].
    apply Hd; [congruence|].
    destruct (last_cell_in (CFirst h) l) as [->|(z & Hz & ->)]; congruence.
Qed.

(** [LIST_FOREACH] visits the elements of the list, in order. *)
Lemma foreach_seg fuel q c l :
  (length l < fuel)%nat -> seg q c l -> foreach_from fuel q (deref q c) = Some l.
Proof.
  revert fuel c. induction l as [|x l IH]; intros [|fuel] c Hf Hs; simpl in *; try lia.
  - by rewrite Hs.
  - destruct Hs as (Hx & Hd & _ & Hs). rewrite Hd, (proj2 (Z.eqb_neq x NULL)) by done.
    rewrite deref_next, (IH fuel (CNext x)); [done|lia|done].
Qed.

Lemma rep_foreach fuel q h l :
  (length l < fuel)%nat -> rep q h l -> LIST_FOREACH fuel h q = Some l.
Proof. intros Hf [Hs _]. by apply (foreach_seg fuel q (CFirst h)). Qed.

Lemma rep_first q h l : rep q h l -> LIST_FIRST q h = match l with [] => NULL | x :: _ => x end.
Proof. intros [Hs _]. destruct l; [done|]. by destruct Hs as (_ & ? & _). Qed.

Lemma rep_init q h : rep (LIST_INIT h q) h [].
Proof. split; [|constructor]. apply (deref_assign_eq q (CFirst h)). Qed.

(** Linking [x] in the middle of a list: the effect the insertion macros share. *)
Definition linked (q q' : heap) (c : cell) (x : Z) : Prop :=
  deref q' c = x /\ deref q' (CNext x) = deref q c /\
  (forall c', c' <> c -> c' <> CNext x -> deref q' c' = deref q c') /\
  prev_of q' x = c /\
  (forall y, y <> x -> prev_of q' y =
     if decide (y = deref q c /\ y <> NULL) then CNext x else prev_of q y).

Lemma world_link q q' ls h x l1 l2 :
  world q ls -> ls !! h = Some (l1 ++ l2) -> fresh x ls ->
  linked q q' (last_cell (CFirst h) l1) x ->
  world q' (<[h := l1 ++ x :: l2]> ls).
Proof.
  intros Hw Hl Hx (H1 & H2 & H3 & H4 & H5).
  pose proof (proj1 Hw _ _ Hl) as [Hs Hnd]. pose proof (proj2 Hx _ _ Hl) as Hxl.
  pose proof Hnd as (Hnd1 & Hdis & Hnd2)%NoDup_app.
  rewrite elem_of_app in Hxl. set (c := last_cell (CFirst h) l1) in *.
  assert (Hcell : c = CFirst h \/ exists y, y ∈ l1 /\ c = CNext y) by apply last_cell_in.
  pose proof Hs as (Hf & Hc & Hs2)%seg_app. fold c in Hs2.
  assert (Hfst : deref q c = NULL \/ deref q c ∈ l2) by by eapply seg_first_in.
  eapply world_update; [exact Hw|exact Hl| | | |].
  - split.
    + apply seg_app. split_and!; [done| |].
      * intros l0 y l1' E. destruct (Hc _ _ _ E) as [Hd Hp].
        assert (Hy : y ∈ l1) by (rewrite E; apply elem_of_app; right; constructor).
        split.
        -- rewrite H3; [done| |].
           ++ subst c. rewrite E. apply last_cell_inner. by rewrite <- E.
           ++ destruct (last_cell_in (CFirst h) l0) as [->|(v & Hv & ->)]; [done|].
              intros [= ->]. apply Hxl. left. rewrite E. apply elem_of_app. by left.
        -- rewrite H5 by (intros ->; tauto). rewrite decide_False; [done|].
           intros [-> ?]. destruct Hfst; [done|]. by apply (Hdis _ Hy).
      * fold c. eapply seg_link; try done; [apply Hx|intros ?; apply Hxl; by right| |].
        -- intros y Hy. apply H3; [|intros [= ->]; tauto].
           destruct Hcell as [->|(z & Hz & ->)]; [done|]. intros [= ->]. by apply (Hdis _ Hz).
        -- intros y Hy. rewrite H5 by (intros ->; tauto).
           assert (y <> NULL).
           { intros ->. apply list_elem_of_split in Hy as (la & lb & ->).
             apply seg_app in Hs2 as (_ & _ & [? _]). done. }
           destruct (decide (y = deref q c)); [by rewrite decide_True|].
           rewrite decide_False; [done|tauto].
    + apply NoDup_app. split_and!; [done| |apply NoDup_cons; tauto].
      intros y Hy. rewrite elem_of_cons. intros [->|?]; [tauto|]. by apply (Hdis _ Hy).
  - intros y. rewrite !elem_of_app, elem_of_cons. intros [?|[->|?]]; auto.
  - intros h' Hh. apply H3; [|done]. destruct Hcell as [->|(z & ? & ->)]; congruence.
  - intros y Hy Hnf Hn. assert (y <> x) by (by intros ->). rewrite elem_of_app in Hy. split.
    + apply H3; [|congruence]. destruct Hcell as [->|(z & Hz & ->)]; [done|].
      intros [= ->]. tauto.
    + rewrite H5 by done. rewrite decide_False; [done|]. intros [-> _]. tauto.
Qed.

Lemma INSERT_AFTER_linked q y x :
  y <> x -> deref q (CNext y) <> x -> linked q (LIST_INSERT_AFTER y x q) (CNext y) x.
Proof.
  intros Hyx Hn. unfold LIST_INSERT_AFTER, linked. cbv zeta. qnorm.
  destruct (negb (deref q (CNext y) =? NULL)) eqn:E; bsplit; qsimp;
    split_and!; try done; intros; qsimp; try done.
  - destruct (decide (y0 = deref q (CNext y) /\ _)) as [[-> _]|Hne]; qsimp; [done|].
    rewrite prev_set_prev_ne; [by qsimp|]. intros <-. tauto.
  - rewrite decide_False; [done|]. rewrite E. tauto.
Qed.

Lemma INSERT_BEFORE_linked q y x :
  y <> x -> y <> NULL -> prev_of q y <> CNext x -> deref q (prev_of q y) = y ->
  linked q (LIST_INSERT_BEFORE y x q) (prev_of q y) x.
Proof.
  intros Hyx Hn Hp Hd. unfold LIST_INSERT_BEFORE, linked. cbv zeta.
  rewrite !set_next_assign. qsimp. rewrite Hd. split_and!; try done.
  - intros. qsimp. done.
  - intros z Hz. destruct (decide (z = y /\ z <> NULL)) as [[-> _]|Hne]; qsimp; [done|].
    rewrite prev_set_prev_ne; [by qsimp|]. intros <-. tauto.
Qed.

Lemma world_insert_after q ls h y x l1 l2 :
  world q ls -> ls !! h = Some (l1 ++ y :: l2) -> fresh x ls ->
  world (LIST_INSERT_AFTER y x q) (<[h := l1 ++ y :: x :: l2]> ls).
Proof.
  intros Hw Hl Hx. pose proof (proj2 Hx _ _ Hl) as Hxl.
  pose proof (proj1 Hw _ _ Hl) as [Hs _]. rewrite elem_of_app, elem_of_cons in Hxl.
  apply seg_app in Hs as (_ & _ & _ & _ & _ & Hs).
  change (l1 ++ y :: x :: l2) with (l1 ++ [y] ++ x :: l2).
  change (l1 ++ y :: l2) with (l1 ++ [y] ++ l2) in Hl. rewrite app_assoc in *.
  eapply world_link; [done|done|done|]. rewrite last_cell_app. simpl.
  apply INSERT_AFTER_linked; [intros ->; tauto|].
  destruct (seg_first_in _ _ _ Hs) as [->|Hin]; [apply not_eq_sym, Hx|].
  intros E. rewrite E in Hin. tauto.
Qed.

Lemma world_insert_before q ls h y x l1 l2 :
  world q ls -> ls !! h = Some (l1 ++ y :: l2) -> fresh x ls ->
  world (LIST_INSERT_BEFORE y x q) (<[h := l1 ++ x :: y :: l2]> ls).
Proof.
  intros Hw Hl Hx. pose proof (proj2 Hx _ _ Hl) as Hxl.
  pose proof (proj1 Hw _ _ Hl) as [Hs _]. rewrite elem_of_app, elem_of_cons in Hxl.
  apply seg_app in Hs as (_ & _ & Hy & Hd & Hp & Hs).
  eapply world_link; [done|done|done|]. rewrite <- Hp.
  apply INSERT_BEFORE_linked; [intros ->; tauto|done| |congruence].
  rewrite Hp. destruct (last_cell_in (CFirst h) l1) as [->|(z & Hz & ->)]; [done|].
  intros [= ->]. tauto.
Qed.

(** C34. [LIST_REMOVE] followed by [LIST_INSERT_HEAD], the way the kernel moves a
    page, a process or a thread from one list to another: in a heap where any
    number of lists are represented and share no element, the element leaves its
    list, becomes the head of the other, every list stays well linked and the
    remaining lists are untouched. *)
Theorem list_move q ls h1 h2 x l1 l2 :
  world q ls -> ls !! h1 = Some l1 -> ls !! h2 = Some l2 -> h1 <> h2 -> x ∈ l1 -> x <> NULL ->
  let q' := LIST_INSERT_HEAD h2 x (LIST_REMOVE x q) in
  world q' (<[h2 := x :: l2]> (<[h1 := list_remove x l1]> ls)) /\
  LIST_FIRST q' h2 = x.
Proof.
  intros Hw H1 H2 Hne Hx Hx0 q'.
  assert (Hw' : world q' (<[h2 := x :: l2]> (<[h1 := list_remove x l1]> ls))).
  { apply world_insert_head; [by apply world_remove|by rewrite lookup_insert_ne|].
    split; [done|]. intros h l. rewrite lookup_insert. case_decide as Hh.
    - intros [= <-]. unfold list_remove. rewrite list_elem_of_filter. tauto.
    - intros Hl Hxl. apply Hh. by eapply (proj2 Hw). }
  split; [done|]. apply (rep_first q' h2 (x :: l2)). apply Hw'. by rewrite lookup_insert_eq.
Qed.

(** [LIST_INSERT_TAIL] appends: its walk ends within the length of the list,
    and [LIST_FOREACH] then visits the old elements in order and the new one
    last, whatever the other lists hold. *)
Theorem list_insert_tail_foreach q ls h x l fuel :
  world q ls -> ls !! h = Some l -> fresh x ls -> (S (length l) < fuel)%nat ->
  exists q', LIST_INSERT_TAIL fuel h x q = Some q' /\ world q' (<[h := l ++ [x]]> ls) /\
    LIST_FOREACH fuel h q' = Some (l ++ [x]).
Proof.
  intros Hw Hl Hx Hf. destruct (world_insert_tail fuel q ls h x l) as (q' & Hq & Hw'); [lia|done..|].
  exists q'. split_and!; [done|done|]. apply rep_foreach.
  - rewrite length_app. simpl. lia.
  - apply Hw'. by rewrite lookup_insert_eq.
Qed.

(** Two lists with heads 1000 and 2000: elements 1 and 2, and nothing. *)
Definition q0 : heap := LIST_INSERT_HEAD 1000 1 (LIST_INSERT_HEAD 1000 2 (LIST_INIT 2000 (LIST_INIT 1000 (mkHeap ∅ ∅ ∅)))).
Definition ls0 : gmap Z (list Z) := <[1000 := [1; 2]]> (<[2000 := []]> ∅).

Lemma q0_world : world q0 ls0.
Proof.
  assert (W : world (LIST_INIT 2000 (LIST_INIT 1000 (mkHeap ∅ ∅ ∅))) (<[1000 := []]> (<[2000 := []]> ∅))).
  { split.
    - intros h l. rewrite !lookup_insert. repeat case_decide; intros; simplify_eq; split; try constructor; reflexivity.
    - intros h1 h2 l1 l2 x. rewrite !lookup_insert, !lookup_empty.
      repeat case_decide; intros; simplify_eq; try done; by set_solver. }
  assert (E : ls0 = <[1000 := [1; 2]]> (<[1000 := [2]]> (<[1000 := []]> (<[2000 := []]> ∅))))
    by (vm_compute; reflexivity).
  rewrite E. unfold q0. apply world_insert_head.
  - apply world_insert_head; [done|done|]. split; [done|]. intros h l. rewrite !lookup_insert.
    repeat case_decide; intros; simplify_eq; set_solver.
  - done.
  - split; [done|]. intros h l. rewrite !lookup_insert.
    repeat case_decide; intros; simplify_eq; set_solver.
Qed.

Lemma list_move_witness : LIST_FIRST (LIST_INSERT_HEAD 2000 2 (LIST_REMOVE 2 q0)) 2000 = 2.
Proof. apply (list_move q0 ls0 1000 2000 2 [1; 2] [] q0_world); [done|done|done|by right; left|done]. Defined.

Lemma list_insert_tail_foreach_witness :
  exists q', LIST_INSERT_TAIL 9 1000 5 q0 = Some q' /\ LIST_FOREACH 9 1000 q' = Some [1; 2; 5].
Proof.
  destruct (list_insert_tail_foreach q0 ls0 1000 5 [1; 2] 9 q0_world) as (q' & H1 & _ & H2).
  - done.
  - split; [done|]. intros h l. unfold ls0. rewrite !lookup_insert.
    repeat case_decide; intros; simplify_eq; set_solver.
  - simpl. lia.
  - exists q'. split; [exact H1|exact H2].
Defined.

End Queue.
