(* ===== verification/Mem.v ===== *)
(** * Physical memory and the byte loops of the kernel

    Memory is a finite map from addresses to bytes; a word is eight bytes in
    little-endian order, as RISC-V stores it.  [bcopy] and [bzero] are the loops of
    kernel/memory/MemoryInit.c, [memset], [memmove] and [memcpy] those of
    kernel/utility/String.c. *)

From S2P Require Import Prelude CType.

(** ** Bytes and words *)

Definition load8 (m : gmap Z Z) (a : Z) : Z := u8 (default 0 (m !! a)).
Definition store8 (a v : Z) (m : gmap Z Z) : gmap Z Z := <[a := u8 v]> m.

Fixpoint load_le (m : gmap Z Z) (a : Z) (n : nat) : Z :=
  match n with
  | O => 0
  | S n => load8 m a + 2 ^ 8 * load_le m (a + 1) n
  end.
Fixpoint store_le (a : Z) (n : nat) (v : Z) (m : gmap Z Z) : gmap Z Z :=
  match n with
  | O => m
  | S n => store_le (a + 1) n (v / 2 ^ 8) (store8 a v m)
  end.

Definition load64 (m : gmap Z Z) (a : Z) : Z := load_le m a 8.
Definition store64 (a v : Z) (m : gmap Z Z) : gmap Z Z := store_le a 8 v m.
Definition load32 (m : gmap Z Z) (a : Z) : Z := load_le m a 4.
Definition store32 (a v : Z) (m : gmap Z Z) : gmap Z Z := store_le a 4 v m.

(** The bytes in [[a, a + n)], and writing a list of bytes. *)
Fixpoint load_bytes (m : gmap Z Z) (a : Z) (n : nat) : list Z :=
  match n with O => [] | S n => load8 m a :: load_bytes m (a + 1) n end.
Fixpoint store_bytes (a : Z) (bs : list Z) (m : gmap Z Z) : gmap Z Z :=
  match bs with [] => m | b :: bs => store_bytes (a + 1) bs (store8 a b m) end.

(** ** Copy and fill loops *)

(** [while (src < finish) *dst++ = *src++;] *)
Fixpoint copy_loop (n : nat) (src dst : Z) (m : gmap Z Z) : gmap Z Z :=
  match n with
  | O => m
  | S n => copy_loop n (src + 1) (dst + 1) (store8 dst (load8 m src) m)
  end.

Definition bcopy (src dst len : Z) (m : gmap Z Z) : gmap Z Z :=
  copy_loop (Z.to_nat (u32 len)) src dst m.

(** The byte loop [while (start < finish) *start++ = 0;] *)
Fixpoint zero_bytes (fuel : nat) (start finish : Z) (m : gmap Z Z) : gmap Z Z :=
  match fuel with
  | O => m
  | S n => if start <? finish then zero_bytes n (start + 1) finish (store8 start 0 m) else m
  end.

(** [while (start & 7) *start++ = 0;] *)
Fixpoint zero_align (fuel : nat) (start : Z) (m : gmap Z Z) : Z * gmap Z Z :=
  match fuel with
  | O => (start, m)
  | S n => if c_true (Z.land start 7) then zero_align n (start + 1) (store8 start 0 m)
           else (start, m)
  end.

(** [while (start + 7 < finish) { *(u64* )start = 0; start += 8; }] *)
Fixpoint zero_words (fuel : nat) (start finish : Z) (m : gmap Z Z) : Z * gmap Z Z :=
  match fuel with
  | O => (start, m)
  | S n => if start + 7 <? finish then zero_words n (start + 8) finish (store64 start 0 m)
           else (start, m)
  end.

Definition bzero (start len : Z) (m : gmap Z Z) : gmap Z Z :=
  let len := u32 len in
  let finish := start + len in
  if len <=? 7 then zero_bytes 7 start finish m
  else
    let '(start, m) := zero_align 7 start m in
    let '(start, m) := zero_words (Z.to_nat len) start finish m in
    zero_bytes 7 start finish m.

(** String.c: [memset] writes forward; [memmove] and [memcpy] are the same
    forward loop (the overlap branch of [memmove] is commented out). *)
Fixpoint memset_loop (n : nat) (dst c : Z) (m : gmap Z Z) : gmap Z Z :=
  match n with
  | O => m
  | S n => memset_loop n (dst + 1) c (store8 dst c m)
  end.
Definition memset (dst c n : Z) (m : gmap Z Z) : gmap Z Z :=
  memset_loop (Z.to_nat (u32 n)) dst c m.

Definition memmove (dst src n : Z) (m : gmap Z Z) : gmap Z Z :=
  copy_loop (Z.to_nat (u32 n)) src dst m.
Definition memcpy (dst src n : Z) (m : gmap Z Z) : gmap Z Z := memmove dst src n m.

(** ** Lemmas *)

Lemma load8_range m a : 0 <= load8 m a < 2 ^ 8.
Proof. apply Z.mod_pos_bound. lia. Qed.

Lemma u8_u8 x : u8 (u8 x) = u8 x.
Proof. apply Z.mod_mod. lia. Qed.

Lemma u8_small x : 0 <= x < 2 ^ 8 -> u8 x = x.
Proof. apply Z.mod_small. Qed.

Lemma load8_store8 m a b v : load8 (store8 a v m) b = if decide (a = b) then u8 v else load8 m b.
Proof.
  unfold load8, store8. rewrite lookup_insert. case_decide; [|done]. apply u8_u8.
Qed.

Lemma load8_store8_eq m a v : load8 (store8 a v m) a = u8 v.
Proof. by rewrite load8_store8, decide_True. Qed.

Lemma load8_store8_ne m a b v : a <> b -> load8 (store8 a v m) b = load8 m b.
Proof. intros. by rewrite load8_store8, decide_False. Qed.

Lemma load_le_range m a n : 0 <= load_le m a n < 2 ^ (8 * Z.of_nat n).
Proof.
  revert a. induction n as [|n IH]; intros a; [simpl; lia|].
  simpl load_le. pose proof (load8_range m a). specialize (IH (a + 1)).
  replace (8 * Z.of_nat (S n)) with (8 + 8 * Z.of_nat n) by lia.
  rewrite Z.pow_add_r by lia. nia.
Qed.

Lemma load64_range m a : 0 <= load64 m a < 2 ^ 64.
Proof. apply (load_le_range m a 8). Qed.

Lemma load_le_ext m m' a n :
  (forall b, a <= b < a + Z.of_nat n -> load8 m' b = load8 m b) -> load_le m' a n = load_le m a n.
Proof.
  revert a. induction n as [|n IH]; intros a H; simpl; [done|].
  rewrite H, IH; [done| |lia]. intros b Hb. apply H. lia.
Qed.

Lemma load8_store_le_ne m a n v b :
  b < a \/ a + Z.of_nat n <= b -> load8 (store_le a n v m) b = load8 m b.
Proof.
  revert a v m. induction n as [|n IH]; intros a v m H; simpl; [done|].
  rewrite IH by lia. apply load8_store8_ne. lia.
Qed.

Lemma load_store_le m a n v : load_le (store_le a n v m) a n = v mod 2 ^ (8 * Z.of_nat n).
Proof.
  revert a v m. induction n as [|n IH]; intros a v m.
  - simpl. rewrite Z.mod_1_r. done.
  - simpl load_le. simpl store_le. rewrite IH, load8_store_le_ne by lia.
    rewrite load8_store8_eq. unfold u8.
    replace (8 * Z.of_nat (S n)) with (8 + 8 * Z.of_nat n) by lia.
    rewrite Z.pow_add_r by lia. rewrite Z.rem_mul_r; lia.
Qed.

Lemma load64_store64_eq m a v : load64 (store64 a v m) a = u64 v.
Proof. apply (load_store_le m a 8). Qed.

Lemma load64_store64_ne m a b v :
  b + 8 <= a \/ a + 8 <= b -> load64 (store64 a v m) b = load64 m b.
Proof. intros. apply load_le_ext. intros c Hc. apply load8_store_le_ne. lia. Qed.

Lemma load8_store64_ne m a b v : b < a \/ a + 8 <= b -> load8 (store64 a v m) b = load8 m b.
Proof. intros. apply load8_store_le_ne. lia. Qed.

Lemma load8_store_le_zero m a n b : a <= b < a + Z.of_nat n -> load8 (store_le a n 0 m) b = 0.
Proof.
  revert a m. induction n as [|n IH]; intros a m H; [lia|]. simpl store_le.
  change (0 / 256) with 0.
  destruct (decide (b = a)) as [->|]; [|apply IH; lia].
  rewrite load8_store_le_ne by lia. by rewrite load8_store8_eq.
Qed.

Lemma load_le_zero m a n :
  (forall b, a <= b < a + Z.of_nat n -> load8 m b = 0) -> load_le m a n = 0.
Proof.
  revert a. induction n as [|n IH]; intros a H; simpl; [done|].
  rewrite H, IH; [done| |lia]. intros. apply H. lia.
Qed.

(** The copy loop, when the destination does not overwrite bytes still to be
    read: [dst <= src], or the two ranges are disjoint. *)
Lemma copy_loop_spec n : forall src dst m b,
  dst <= src \/ src + Z.of_nat n <= dst ->
  load8 (copy_loop n src dst m) b =
  if decide (dst <= b < dst + Z.of_nat n) then load8 m (src + (b - dst)) else load8 m b.
Proof.
  induction n as [|n IH]; intros src dst m b H; simpl copy_loop.
  - by rewrite decide_False by lia.
  - rewrite IH by lia.
    destruct (decide (dst + 1 <= b < dst + 1 + Z.of_nat n)).
    + rewrite decide_True by lia. rewrite load8_store8_ne by lia. f_equal. lia.
    + destruct (decide (b = dst)) as [->|].
      * rewrite decide_True, load8_store8_eq, u8_small by (apply load8_range || lia).
        f_equal. lia.
      * rewrite decide_False by lia. by rewrite load8_store8_ne.
Qed.

Lemma copy_loop_outside n src dst m b :
  b < dst \/ dst + Z.of_nat n <= b -> load8 (copy_loop n src dst m) b = load8 m b.
Proof.
  revert src dst m. induction n as [|n IH]; intros src dst m H; simpl; [done|].
  rewrite IH by lia. apply load8_store8_ne. lia.
Qed.

Lemma memset_loop_spec n : forall dst c m b,
  load8 (memset_loop n dst c m) b =
  if decide (dst <= b < dst + Z.of_nat n) then u8 c else load8 m b.
Proof.
  induction n as [|n IH]; intros dst c m b; simpl memset_loop.
  - by rewrite decide_False by lia.
  - rewrite IH. repeat case_decide; try lia; try done.
    + assert (b = dst) as -> by lia. apply load8_store8_eq.
    + apply load8_store8_ne. lia.
Qed.

Lemma zero_bytes_spec fuel : forall start finish m b,
  finish - start <= Z.of_nat fuel ->
  load8 (zero_bytes fuel start finish m) b =
  if decide (start <= b < finish) then 0 else load8 m b.
Proof.
  induction fuel as [|fuel IH]; intros start finish m b H; simpl.
  - by rewrite decide_False by lia.
  - destruct (start <? finish) eqn:E; bsplit; [|by rewrite decide_False by lia].
    rewrite IH by lia. repeat case_decide; try lia; try done.
    + assert (b = start) as -> by lia. by rewrite load8_store8_eq.
    + apply load8_store8_ne. lia.
Qed.

Lemma land_7 x : Z.land x 7 = x mod 8.
Proof. change 7 with (Z.ones 3). apply Z.land_ones. lia. Qed.

Lemma zero_align_spec fuel : forall start m,
  (- start) mod 8 <= Z.of_nat fuel ->
  let '(start', m') := zero_align fuel start m in
  start' = start + (- start) mod 8 /\
  forall b, load8 m' b = if decide (start <= b < start') then 0 else load8 m b.
Proof.
  induction fuel as [|fuel IH]; intros start m H; simpl.
  - split; [Z.to_euclidean_division_equations; lia|]. intros. by rewrite decide_False by lia.
  - rewrite land_7. destruct (c_true (start mod 8)) eqn:E; bsplit.
    + specialize (IH (start + 1) (store8 start 0 m)).
      destruct (zero_align fuel (start + 1) (store8 start 0 m)) as [s' m'].
      destruct IH as [-> Hb]; [Z.to_euclidean_division_equations; lia|].
      split; [Z.to_euclidean_division_equations; lia|]. intros b. rewrite Hb.
      rewrite load8_store8. change (u8 0) with 0.
      assert (start + 1 + (- (start + 1)) mod 8 = start + (- start) mod 8) as ->
        by (Z.to_euclidean_division_equations; lia).
      assert (0 < (- start) mod 8) by (Z.to_euclidean_division_equations; lia).
      repeat case_decide; try lia; done.
    + assert ((- start) mod 8 = 0) as -> by (Z.to_euclidean_division_equations; lia).
      split; [lia|]. intros. by rewrite decide_False by lia.
Qed.

Lemma zero_words_spec fuel : forall start finish m,
  finish - start <= Z.of_nat fuel ->
  let '(start', m') := zero_words fuel start finish m in
  (start <= start' /\ (start' <= finish \/ start' = start) /\ finish - start' <= 7) /\
  forall b, load8 m' b = if decide (start <= b < start') then 0 else load8 m b.
Proof.
  induction fuel as [|fuel IH]; intros start finish m H; simpl.
  - split; [lia|]. intros. by rewrite decide_False by lia.
  - destruct (start + 7 <? finish) eqn:E; bsplit.
    + specialize (IH (start + 8) finish (store64 start 0 m)).
      destruct (zero_words fuel (start + 8) finish (store64 start 0 m)) as [s' m'].
      destruct IH as [? Hb]; [lia|]. split; [lia|]. intros b. rewrite Hb.
      destruct (decide (start <= b < start + 8)).
      * rewrite (decide_False (P := start + 8 <= b < s')), decide_True by lia.
        apply load8_store_le_zero. lia.
      * rewrite load8_store64_ne by lia. repeat case_decide; try lia; done.
    + split; [lia|]. intros. by rewrite decide_False by lia.
Qed.

(** [bzero] zeroes exactly its range, whatever the alignment of [start]. *)
Lemma bzero_bytes start len m b :
  0 <= len < 2 ^ 32 ->
  load8 (bzero start len m) b =
  if decide (start <= b < start + len) then 0 else load8 m b.
Proof.
  intros Hlen. unfold bzero, u32. rewrite Z.mod_small by lia. cbv zeta.
  destruct (len <=? 7) eqn:E; bsplit.
  - apply zero_bytes_spec. lia.
  - pose proof (zero_align_spec 7 start m) as Ha.
    destruct (zero_align 7 start m) as [s1 m1].
    destruct Ha as [Hs1 H1]; [pose proof (Z.mod_pos_bound (- start) 8); lia|].
    assert (0 <= (- start) mod 8 < 8) by (apply Z.mod_pos_bound; lia).
    pose proof (zero_words_spec (Z.to_nat len) s1 (start + len) m1) as Hw.
    destruct (zero_words (Z.to_nat len) s1 (start + len) m1) as [s2 m2].
    destruct Hw as [? H2]; [lia|].
    rewrite zero_bytes_spec by lia. rewrite H2, H1.
    repeat case_decide; try lia; done.
Qed.

Lemma bzero_load64 start len m a :
  0 <= len < 2 ^ 32 -> start <= a -> a + 8 <= start + len -> load64 (bzero start len m) a = 0.
Proof.
  intros. apply load_le_zero. intros b Hb. rewrite bzero_bytes, decide_True by lia. done.
Qed.

Lemma bzero_load64_ne start len m a :
  0 <= len < 2 ^ 32 -> a + 8 <= start \/ start + len <= a ->
  load64 (bzero start len m) a = load64 m a.
Proof.
  intros. apply load_le_ext. intros b Hb. rewrite bzero_bytes, decide_False by lia. done.
Qed.

(** Byte lists. *)
Lemma length_load_bytes m a n : length (load_bytes m a n) = n.
Proof. revert a. induction n; intros; simpl; auto. Qed.

Lemma load_bytes_range m p n : Forall (fun b => 0 <= b < 2 ^ 8) (load_bytes m p n).
Proof. revert p. induction n as [|n IH]; intros p; cbn; constructor; [apply load8_range|apply IH]. Qed.

Lemma load_bytes_lookup m a n i :
  (i < n)%nat -> load_bytes m a n !! i = Some (load8 m (a + Z.of_nat i)).
Proof.
  revert a i. induction n as [|n IH]; intros a [|i] H; try lia; simpl.
  - do 2 f_equal. lia.
  - rewrite IH by lia. do 2 f_equal. lia.
Qed.

Lemma load_bytes_ext m m' a n :
  (forall b, a <= b < a + Z.of_nat n -> load8 m' b = load8 m b) ->
  load_bytes m' a n = load_bytes m a n.
Proof.
  revert a. induction n as [|n IH]; intros a H; simpl; [done|].
  rewrite H, IH; [done| |lia]. intros. apply H. lia.
Qed.

Lemma load_bytes_app m a n1 n2 :
  load_bytes m a (n1 + n2) = load_bytes m a n1 ++ load_bytes m (a + Z.of_nat n1) n2.
Proof.
  revert a. induction n1 as [|n1 IH]; intros a; simpl.
  - f_equal. lia.
  - f_equal. rewrite IH. do 2 f_equal. lia.
Qed.

Lemma store_bytes_app x y : forall a m,
  store_bytes a (x ++ y) m = store_bytes (a + Z.of_nat (length x)) y (store_bytes a x m).
Proof.
  induction x as [|b x IH]; intros a m; cbn [store_bytes app length]; [f_equal; lia|].
  rewrite IH. f_equal. lia.
Qed.

Lemma take_load_bytes m a n k : (k <= n)%nat -> take k (load_bytes m a n) = load_bytes m a k.
Proof.
  intros H. replace n with (k + (n - k))%nat by lia. rewrite load_bytes_app.
  rewrite <- (length_load_bytes m a k) at 1. apply take_app_length.
Qed.

Lemma load8_store_bytes_ne m a bs b :
  b < a \/ a + Z.of_nat (length bs) <= b -> load8 (store_bytes a bs m) b = load8 m b.
Proof.
  revert a m. induction bs as [|x bs IH]; intros a m H; simpl; [done|].
  simpl in H. rewrite IH by lia. apply load8_store8_ne. lia.
Qed.

Lemma load8_store_bytes_in a bs m b :
  a <= b < a + Z.of_nat (length bs) -> load8 (store_bytes a bs m) b = u8 (default 0 (bs !! Z.to_nat (b - a))).
Proof.
  revert a m. induction bs as [|x bs IH]; intros a m Hb; [simpl in Hb; lia|]. cbn [store_bytes].
  destruct (decide (b = a)) as [-> |].
  - rewrite load8_store_bytes_ne by lia. rewrite load8_store8_eq, Z.sub_diag. done.
  - cbn [length] in Hb. rewrite IH by lia. replace (Z.to_nat (b - a)) with (S (Z.to_nat (b - (a + 1)))) by lia.
    done.
Qed.

Lemma load_store_bytes m a bs :
  Forall (fun b => 0 <= b < 2 ^ 8) bs -> load_bytes (store_bytes a bs m) a (length bs) = bs.
Proof.
  revert a m. induction bs as [|x bs IH]; intros a m H; simpl; [done|].
  inversion_clear H. rewrite load8_store_bytes_ne, load8_store8_eq, u8_small by lia.
  f_equal. auto.
Qed.

(** The memory-level copy, on byte lists. *)
Lemma copy_loop_bytes n src dst m :
  dst <= src \/ src + Z.of_nat n <= dst ->
  load_bytes (copy_loop n src dst m) dst n = load_bytes m src n.
Proof.
  intros H. apply list_eq. intros i. destruct (decide (i < n)%nat).
  - rewrite !load_bytes_lookup by done. f_equal.
    rewrite copy_loop_spec, decide_True by lia. f_equal. lia.
  - rewrite !lookup_ge_None_2; [done| |]; rewrite length_load_bytes; lia.
Qed.

#[global] Arguments load8 : simpl never.
#[global] Arguments store8 : simpl never.
#[global] Arguments load64 : simpl never.
#[global] Arguments store64 : simpl never.
#[global] Arguments load32 : simpl never.
#[global] Arguments store32 : simpl never.
#[global] Arguments bzero : simpl never.
#[global] Arguments bcopy : simpl never.
#[global] Arguments memset : simpl never.
#[global] Arguments memmove : simpl never.

(** [bzero] with its word-wide middle part clears exactly the bytes of the
    range, for every start and length, and [memmove] between ranges that do not
    overlap (or overlap with the destination below the source) copies the bytes
    and touches nothing else. *)
Theorem bzero_memmove_exact start len dst src n m b :
  0 <= len < 2 ^ 32 -> 0 <= n < 2 ^ 32 -> dst <= src \/ src + n <= dst ->
  load8 (bzero start len m) b = (if decide (start <= b < start + len) then 0 else load8 m b) /\
  load8 (memmove dst src n m) b =
    (if decide (dst <= b < dst + n) then load8 m (src + (b - dst)) else load8 m b).
Proof.
  intros Hl Hn Hd. split; [by apply bzero_bytes|]. unfold memmove, u32.
  rewrite (Z.mod_small n) by lia. rewrite copy_loop_spec by lia.
  by replace (Z.of_nat (Z.to_nat n)) with n by lia.
Qed.

Lemma bzero_memmove_exact_witness :
  load8 (memmove 10 12 4 (store_bytes 10 [1; 2; 3; 4; 5; 6] ∅)) 11 = 4.
Proof.
  rewrite (proj2 (bzero_memmove_exact 0 0 10 12 4 (store_bytes 10 [1; 2; 3; 4; 5; 6] ∅) 11
    ltac:(lia) ltac:(lia) ltac:(lia))). reflexivity.
Defined.

(** The overlap branch of [memmove] is commented out: when the destination
    starts inside the source range above it, the bytes copied first are read
    again, and the first [dst - src] bytes are repeated instead of the range
    being moved. *)
Theorem memmove_overlap_repeats :
  load_bytes (memmove 12 10 6 (store_bytes 10 [1; 2; 3; 4; 5; 6] ∅)) 12 6 = [1; 2; 1; 2; 1; 2].
Proof. vm_compute. reflexivity. Qed.
