(* ===== verification/Config.v ===== *)
(** * Address-space layout and page-table entries

    The constants of include/MemoryConfig.h and the macros and inline functions
    of include/Page.h: pages are named by their index in [pages[]], physical and
    virtual addresses are [u64] values. *)

From S2P Require Import Prelude CType.

(** ** MemoryConfig.h *)

Definition PHYSICAL_ADDRESS_BASE : Z := 0x80000000.
Definition PHYSICAL_MEMORY_SIZE : Z := 0x10000000.
Definition PHYSICAL_MEMORY_TOP : Z := PHYSICAL_ADDRESS_BASE + PHYSICAL_MEMORY_SIZE.
Definition PAGE_SHIFT : Z := 12.
Definition PAGE_SIZE : Z := Z.shiftl 1 PAGE_SHIFT.
Definition PGSIZE : Z := 4096.
Definition PHYSICAL_PAGE_NUM : Z := Z.shiftr PHYSICAL_MEMORY_SIZE PAGE_SHIFT.

Definition KERNEL_PROCESS_SP_TOP : Z := Z.shiftl 1 36.
Definition PROCESS_SIGNAL_BASE : Z := KERNEL_PROCESS_SP_TOP + Z.shiftl 1 30.
Definition SOCKET_BUFFER_BASE : Z := PROCESS_SIGNAL_BASE + Z.shiftl 1 30.
Definition SIGNAL_HANDLER_SP_BASE : Z := SOCKET_BUFFER_BASE + Z.shiftl 1 30.
Definition FILE_SYSTEM_CLUSTER_BITMAP_BASE : Z := KERNEL_PROCESS_SP_TOP - Z.shiftl 1 30.
Definition KERNEL_ADDRESS_TOP : Z := Z.shiftl 1 38.
Definition TRAMPOLINE_BASE : Z := KERNEL_ADDRESS_TOP - Z.shiftl PAGE_SIZE 1.
Definition SIGNAL_TRAMPOLINE_BASE : Z := TRAMPOLINE_BASE - PAGE_SIZE.
Definition USER_STACK_TOP : Z := SIGNAL_TRAMPOLINE_BASE.
Definition USER_STACK_BOTTOM : Z := USER_STACK_TOP - Z.shiftl 1 30.
Definition USER_BRK_HEAP_TOP : Z := USER_STACK_BOTTOM.
Definition USER_BRK_HEAP_BOTTOM : Z := USER_BRK_HEAP_TOP - Z.shiftl 1 32.
Definition USER_MMAP_HEAP_TOP : Z := USER_BRK_HEAP_BOTTOM.
Definition USER_MMAP_HEAP_BOTTOM : Z := USER_MMAP_HEAP_TOP - Z.shiftl 1 32.

(** ** Page.h *)

Definition MAXVA : Z := Z.shiftl 1 (9 + 9 + 9 + 12 - 1).
Definition PTE2PT : Z := 512.

Definition PTE_VALID : Z := Z.shiftl 1 0.
Definition PTE_READ : Z := Z.shiftl 1 1.
Definition PTE_WRITE : Z := Z.shiftl 1 2.
Definition PTE_EXECUTE : Z := Z.shiftl 1 3.
Definition PTE_USER : Z := Z.shiftl 1 4.
Definition PTE_ACCESSED : Z := Z.shiftl 1 6.
Definition PTE_DIRTY : Z := Z.shiftl 1 7.
Definition PTE_COW : Z := Z.shiftl 1 8.
Definition PERM_WIDTH : Z := 10.

Definition PA2PPN (va : Z) : Z := Z.shiftr (u64 (va - PHYSICAL_ADDRESS_BASE)) PAGE_SHIFT.
Definition GET_PAGE_TABLE_INDEX (va level : Z) : Z :=
  Z.land (Z.shiftr (u64 va) (PAGE_SHIFT + 9 * level)) 0x1ff.

Definition PTE_PA_MASK : Z := Z.shiftl 1 54 - Z.shiftl 1 10.
Definition PTE2PERM (pte : Z) : Z := Z.land (u64 pte) (u64 (Z.lnot PTE_PA_MASK)).
Definition PTE2PA (pte : Z) : Z :=
  Z.shiftl (Z.shiftr (Z.land (u64 pte) PTE_PA_MASK) PERM_WIDTH) PAGE_SHIFT.
Definition PA2PTE (pa : Z) : Z := u64 (Z.shiftl (Z.shiftr (u64 pa) PAGE_SHIFT) PERM_WIDTH).

(** A [PhysicalPage*] is the index of the page; [page2PPN] is a [u32], so the
    shift of [page2pa] is a 32-bit shift. *)
Definition page2pa (page : Z) : Z := u64 (PHYSICAL_ADDRESS_BASE + u32 (Z.shiftl (u32 page) PAGE_SHIFT)).
Definition pa2page (pa : Z) : option Z :=
  if pa =? 0 then None else Some (u32 (Z.shiftr (u64 (pa - PHYSICAL_ADDRESS_BASE)) PAGE_SHIFT)).
Definition page2pte (page : Z) : Z := Z.shiftl (Z.shiftr (page2pa page) PAGE_SHIFT) PERM_WIDTH.

Definition IS_RAM (pa : Z) : bool := (PHYSICAL_ADDRESS_BASE <=? pa) && (pa <? PHYSICAL_MEMORY_TOP).

(** A page index of the managed memory. *)
Definition page_ok (p : Z) : Prop := 0 <= p < 65536.

(** ** Lemmas *)

Lemma u64_small x : 0 <= x < 2 ^ 64 -> u64 x = x.
Proof. apply Z.mod_small. Qed.
Lemma u32_small x : 0 <= x < 2 ^ 32 -> u32 x = x.
Proof. apply Z.mod_small. Qed.
Lemma u64_range x : 0 <= u64 x < 2 ^ 64.
Proof. apply Z.mod_pos_bound. lia. Qed.

Lemma page2pa_ok p : page_ok p -> page2pa p = 0x80000000 + 4096 * p.
Proof.
  unfold page_ok, page2pa, PHYSICAL_ADDRESS_BASE, PAGE_SHIFT. intros.
  rewrite (u32_small p), Z.shiftl_mul_pow2 by lia.
  rewrite u32_small by lia. rewrite u64_small; lia.
Qed.

Lemma pa2page_ok pa :
  IS_RAM pa = true -> pa2page pa = Some ((pa - 0x80000000) / 4096)
                      /\ page_ok ((pa - 0x80000000) / 4096).
Proof.
  unfold IS_RAM, pa2page, PHYSICAL_MEMORY_TOP, PHYSICAL_ADDRESS_BASE, PHYSICAL_MEMORY_SIZE,
    page_ok, PAGE_SHIFT. intros. bsplit.
  rewrite (proj2 (Z.eqb_neq pa 0)) by lia.
  rewrite u64_small, Z.shiftr_div_pow2 by lia. change (2 ^ 12) with 4096.
  rewrite u32_small; [split; [done|]|]; Z.to_euclidean_division_equations; lia.
Qed.

Lemma pa2page_page2pa p : page_ok p -> pa2page (page2pa p) = Some p.
Proof.
  intros Hp. destruct (pa2page_ok (page2pa p)) as [-> _];
    rewrite page2pa_ok in * by done; unfold page_ok in *.
  - unfold IS_RAM, PHYSICAL_MEMORY_TOP, PHYSICAL_ADDRESS_BASE, PHYSICAL_MEMORY_SIZE.
    apply andb_true_intro. rewrite Z.leb_le, Z.ltb_lt. lia.
  - f_equal. Z.to_euclidean_division_equations; lia.
Qed.

Lemma IS_RAM_page2pa p : page_ok p -> IS_RAM (page2pa p) = true.
Proof.
  intros. rewrite page2pa_ok by done. unfold IS_RAM, page_ok in *.
  unfold PHYSICAL_MEMORY_TOP, PHYSICAL_ADDRESS_BASE, PHYSICAL_MEMORY_SIZE.
  apply andb_true_intro. rewrite Z.leb_le, Z.ltb_lt. lia.
Qed.

(** Entries in arithmetic form: a page number and ten permission bits. *)
Lemma PTE2PA_arith e : 0 <= e < 2 ^ 64 -> PTE2PA e = (e / 1024) mod 2 ^ 44 * 4096.
Proof.
  intros He. unfold PTE2PA, PTE_PA_MASK, PERM_WIDTH, PAGE_SHIFT.
  rewrite u64_small, !Z.shiftl_mul_pow2 by lia. change (2 ^ 12) with 4096. f_equal.
  apply Z.bits_inj'. intros i Hi. rewrite Z.shiftr_spec, Z.land_spec by lia.
  change 1024 with (2 ^ 10). change (1 * 2 ^ 54 - 1 * 2 ^ 10) with (Z.shiftl (Z.ones 44) 10).
  rewrite Z.shiftl_spec by lia. replace (i + 10 - 10) with i by lia.
  destruct (Z.lt_ge_cases i 44).
  - rewrite Z.ones_spec_low, Z.mod_pow2_bits_low, Z.div_pow2_bits by lia. apply andb_true_r.
  - rewrite Z.ones_spec_high, Z.mod_pow2_bits_high by lia. apply andb_false_r.
Qed.

Lemma PTE2PERM_arith e : 0 <= e < 2 ^ 54 -> PTE2PERM e = e mod 1024.
Proof.
  intros He. unfold PTE2PERM, PTE_PA_MASK. rewrite u64_small by lia.
  apply Z.bits_inj'. intros i Hi. rewrite Z.land_spec. change 1024 with (2 ^ 10).
  change (Z.shiftl 1 54 - Z.shiftl 1 10) with (Z.shiftl (Z.ones 44) 10).
  rewrite <- (Z.mod_small e (2 ^ 54)) at 1 by lia.
  destruct (Z.lt_ge_cases i 54);
    [|rewrite (Z.mod_pow2_bits_high e 54), (Z.mod_pow2_bits_high e 10) by lia; done].
  rewrite testbit_u64_lnot, Z.shiftl_spec, (Z.mod_pow2_bits_low e 54) by lia.
  destruct (Z.lt_ge_cases i 10).
  - rewrite (Z.testbit_neg_r _ (i - 10)), Z.mod_pow2_bits_low by lia. apply andb_true_r.
  - rewrite Z.ones_spec_low, Z.mod_pow2_bits_high by lia. apply andb_false_r.
Qed.

Lemma PA2PTE_arith pa : 0 <= pa < 2 ^ 56 -> PA2PTE pa = pa / 4096 * 1024.
Proof.
  intros. unfold PA2PTE, PAGE_SHIFT, PERM_WIDTH.
  rewrite (u64_small pa) by lia. rewrite Z.shiftr_div_pow2, Z.shiftl_mul_pow2 by lia.
  change (2 ^ 12) with 4096. change (2 ^ 10) with 1024.
  apply u64_small. Z.to_euclidean_division_equations; lia.
Qed.

Lemma page2pte_arith p : page_ok p -> page2pte p = page2pa p / 4096 * 1024.
Proof.
  intros. unfold page2pte, PAGE_SHIFT, PERM_WIDTH.
  rewrite Z.shiftr_div_pow2, Z.shiftl_mul_pow2 by lia. done.
Qed.

Lemma lor_low_bound a b k : 0 <= k -> 0 <= a < 2 ^ k -> 0 <= b < 2 ^ k -> 0 <= Z.lor a b < 2 ^ k.
Proof.
  intros Hk Ha Hb. assert (Hn : 0 <= Z.lor a b) by (apply Z.lor_nonneg; lia).
  split; [done|]. destruct (decide (Z.lor a b = 0)) as [->|]; [lia|].
  apply Z.log2_lt_pow2; [lia|]. rewrite Z.log2_lor by lia.
  destruct (decide (k = 0)) as [->|]; [|].
  - assert (a = 0) as -> by lia. assert (b = 0) as -> by lia. done.
  - apply Z.max_lub_lt.
    + destruct (decide (a = 0)) as [->|]; [simpl; lia|]. apply Z.log2_lt_pow2; lia.
    + destruct (decide (b = 0)) as [->|]; [simpl; lia|]. apply Z.log2_lt_pow2; lia.
Qed.

(** An entry built from a page-aligned address and permission bits. *)
Definition mk_pte (pa perm : Z) : Z := pa / 4096 * 1024 + perm.

Lemma mk_pte_lor n perm : 0 <= n -> 0 <= perm < 1024 -> Z.lor (n * 1024) perm = n * 1024 + perm.
Proof.
  intros. change 1024 with (2 ^ 10). rewrite <- Z.shiftl_mul_pow2 by lia.
  rewrite lor_shift_add by lia. by rewrite Z.shiftl_mul_pow2 by lia.
Qed.

Lemma PTE2PA_mk_pte pa perm :
  0 <= pa < 2 ^ 56 -> pa mod 4096 = 0 -> 0 <= perm < 1024 -> PTE2PA (mk_pte pa perm) = pa.
Proof.
  intros Hpa Hal Hp. unfold mk_pte. rewrite PTE2PA_arith by (Z.to_euclidean_division_equations; lia).
  rewrite Z.div_add_l, (Z.div_small perm), Z.add_0_r by lia.
  rewrite Z.mod_small; Z.to_euclidean_division_equations; lia.
Qed.

Lemma PTE2PERM_mk_pte pa perm :
  0 <= pa < 2 ^ 56 -> 0 <= perm < 1024 -> PTE2PERM (mk_pte pa perm) = perm.
Proof.
  intros Hpa Hp. unfold mk_pte. rewrite PTE2PERM_arith by (Z.to_euclidean_division_equations; lia).
  rewrite Z.add_comm, Z.mod_add by lia. by apply Z.mod_small.
Qed.

Lemma land_mk_pte pa perm k :
  0 <= k < 10 -> Z.land (mk_pte pa perm) (Z.shiftl 1 k) = Z.land perm (Z.shiftl 1 k).
Proof.
  intros Hk. apply Z.bits_inj'. intros i Hi. rewrite !Z.land_spec, Z.shiftl_1_l.
  rewrite Z.pow2_bits_eqb by lia. destruct (k =? i) eqn:E; bsplit; rewrite ?andb_false_r; [|done].
  rewrite !andb_true_r. subst i. unfold mk_pte.
  rewrite <- (Z.mod_pow2_bits_low _ 10) by lia. rewrite Z.add_comm.
  change 1024 with (2 ^ 10). rewrite Z.mod_add by lia. by rewrite Z.mod_pow2_bits_low by lia.
Qed.

Lemma mk_pte_range pa perm :
  0 <= pa < 2 ^ 56 -> 0 <= perm < 1024 -> 0 <= mk_pte pa perm < 2 ^ 54.
Proof. intros. unfold mk_pte. Z.to_euclidean_division_equations; lia. Qed.

(** Page-table indices. *)
Lemma index_range va level : 0 <= GET_PAGE_TABLE_INDEX va level < 512.
Proof.
  unfold GET_PAGE_TABLE_INDEX. change 0x1ff with (Z.ones 9).
  rewrite Z.land_ones by lia. apply Z.mod_pos_bound. lia.
Qed.

Lemma index_arith va level :
  0 <= va < 2 ^ 64 -> 0 <= level ->
  GET_PAGE_TABLE_INDEX va level = va / 2 ^ (12 + 9 * level) mod 512.
Proof.
  intros. unfold GET_PAGE_TABLE_INDEX, PAGE_SHIFT. change 0x1ff with (Z.ones 9).
  rewrite u64_small, Z.land_ones, Z.shiftr_div_pow2 by lia. done.
Qed.

(** The virtual page number of an address below [2 ^ 39] and its three indices. *)
Definition vpn (va : Z) : Z := va / 4096.

Lemma vpn_indices va :
  0 <= va < 2 ^ 39 ->
  vpn va = GET_PAGE_TABLE_INDEX va 2 * 512 * 512 + GET_PAGE_TABLE_INDEX va 1 * 512
           + GET_PAGE_TABLE_INDEX va 0.
Proof.
  intros. rewrite !index_arith by lia. unfold vpn.
  change (2 ^ (12 + 9 * 2)) with 1073741824. change (2 ^ (12 + 9 * 1)) with 2097152.
  change (2 ^ (12 + 9 * 0)) with 4096. Z.to_euclidean_division_equations; lia.
Qed.
