(* ===== verification/Page.v ===== *)
(** * Page.c: physical pages and page tables

    The state is the part of the kernel that kernel/memory/Page.c works on: the
    physical memory, the [ref] and [hartId] fields of [pages[]] and the list
    [freePages] (a list of page indices: see Queue.v for the linked list that
    represents it).  A page directory is the physical address of its root page.

    [*pte] through a NULL pointer traps in kernel mode and [kernelTrap] panics,
    so it is [panic] here. *)

From S2P Require Import Prelude CType Mem Config Queue.

Record MM := mkMM {
  mem : gmap Z Z;
  page_ref : gmap Z Z;
  page_hart : gmap Z Z;
  freePages : list Z;
  hartid : Z;
}.

Definition set_mem (f : gmap Z Z -> gmap Z Z) (mm : MM) : MM :=
  mkMM (f (mem mm)) (page_ref mm) (page_hart mm) (freePages mm) (hartid mm).
Definition set_refs (f : gmap Z Z -> gmap Z Z) (mm : MM) : MM :=
  mkMM (mem mm) (f (page_ref mm)) (page_hart mm) (freePages mm) (hartid mm).
Definition set_hart (f : gmap Z Z -> gmap Z Z) (mm : MM) : MM :=
  mkMM (mem mm) (page_ref mm) (f (page_hart mm)) (freePages mm) (hartid mm).
Definition set_free (f : list Z -> list Z) (mm : MM) : MM :=
  mkMM (mem mm) (page_ref mm) (page_hart mm) (f (freePages mm)) (hartid mm).

(** [pages[p].ref], a [u32]. *)
Definition ref (mm : MM) (p : Z) : Z := u32 (default 0 (page_ref mm !! p)).
Definition set_ref (p v : Z) : MM -> MM := set_refs (fun r => <[p := u32 v]> r).

(** ** Operations *)

Module Page.

Definition countFreePages : M MM Z := fl ← gets freePages; mret (i32 (Z.of_nat (length fl))).

Definition pageAlloc : M MM Z :=
  fl ← gets freePages;
  match fl with
  | page :: _ =>
      h ← gets hartid;
      modify (set_hart (fun hs => <[page := h]> hs)) ;;
      modify (set_free (Queue.list_remove page)) ;;
      modify (set_mem (bzero (page2pa page) PAGE_SIZE)) ;;
      mret page
  | [] => panic
  end.

Definition incref (p : Z) : M MM unit := r ← gets (fun mm => ref mm p); modify (set_ref p (r + 1)).
Definition decref (p : Z) : M MM unit := r ← gets (fun mm => ref mm p); modify (set_ref p (r - 1)).

(** One level of the walk: the table the directory entry at [addr] points at,
    allocated when the entry is zero and [create] is set.  The test
    [!( *addr) & PTE_VALID] negates the whole entry before it masks it. *)
Definition walk_level (addr : Z) (create : bool) : M MM (option Z) :=
  e ← gets (fun mm => load64 (mem mm) addr);
  if c_true (Z.land (c_not e) PTE_VALID) then
    if negb create then mret None
    else
      pp ← pageAlloc;
      modify (set_mem (store64 addr (Z.lor (page2pte pp) PTE_VALID))) ;;
      incref pp ;;
      e ← gets (fun mm => load64 (mem mm) addr);
      mret (Some (PTE2PA e))
  else mret (Some (PTE2PA e)).

(** [pageWalk] always returns 0; its result here is what it stores in [*pte]. *)
Definition pageWalk (pgdir va : Z) (create : bool) : M MM (option Z) :=
  t1 ← walk_level (pgdir + 8 * GET_PAGE_TABLE_INDEX va 2) create;
  match t1 with
  | None => mret None
  | Some t1 =>
      t0 ← walk_level (t1 + 8 * GET_PAGE_TABLE_INDEX va 1) create;
      match t0 with
      | None => mret None
      | Some t0 => mret (Some (t0 + 8 * GET_PAGE_TABLE_INDEX va 0))
      end
  end.

(** The physical address (0 when there is none), and the entry stored through
    the [pte] argument, which is only written when the page is mapped. *)
Definition pageLookup (pgdir va : Z) : M MM (Z * option Z) :=
  entry ← pageWalk pgdir va false;
  match entry with
  | None => mret (0, None)
  | Some pte =>
      e ← gets (fun mm => load64 (mem mm) pte);
      if negb (c_true (Z.land e PTE_VALID)) then mret (0, None)
      else mret (PTE2PA e, Some pte)
  end.

Definition pageFree (page : Z) : M MM unit :=
  r ← gets (fun mm => ref mm page);
  if 0 <? r then mret tt
  else when (r =? 0) (modify (set_free (fun l => page :: l))).

Definition pageRemove (pgdir va : Z) : M MM Z :=
  r ← pageLookup pgdir va;
  let '(pa, pte) := r in
  match pte with
  | None => mret (-1)
  | Some pte =>
      if (pa <? PHYSICAL_ADDRESS_BASE) || (pa >=? PHYSICAL_MEMORY_TOP) then mret (-1)
      else
        match pa2page pa with
        | None => panic
        | Some page =>
            decref page ;;
            pageFree page ;;
            modify (set_mem (store64 pte 0)) ;;
            mret 0
        end
  end.

Definition paDecreaseRef (pa : Z) : M MM unit :=
  match pa2page pa with
  | None => panic
  | Some page =>
      decref page ;;
      r ← gets (fun mm => ref mm page);
      assert (r =? 0) ;;
      when (r =? 0) (modify (set_free (fun l => page :: l)))
  end.

Definition pgdirFree (pgdir : Z) : M MM unit :=
  for_up 512 0 (fun i =>
    e ← gets (fun mm => load64 (mem mm) (pgdir + 8 * i));
    when (c_true (Z.land e PTE_VALID)) (
      let pa := PTE2PA e in
      for_up 512 0 (fun j =>
        e ← gets (fun mm => load64 (mem mm) (pa + 8 * j));
        when (c_true (Z.land e PTE_VALID)) (
          let pa2 := PTE2PA e in
          for_up 512 0 (fun k =>
            e ← gets (fun mm => load64 (mem mm) (pa2 + 8 * k));
            when (c_true (Z.land e PTE_VALID)) (
              pageRemove pgdir (Z.lor (Z.lor (Z.shiftl i 30) (Z.shiftl j 21)) (Z.shiftl k 12)) ;;
              mret tt)) ;;
          modify (set_mem (store64 (pa2 + 8 * j) 0)) ;;
          paDecreaseRef pa2)) ;;
      paDecreaseRef pa)) ;;
  paDecreaseRef pgdir.

Definition pageInsert (pgdir va pa perm : Z) : M MM Z :=
  let va := DOWN_ALIGN va PAGE_SIZE in
  let pa := DOWN_ALIGN pa PAGE_SIZE in
  let perm := Z.lor perm (Z.lor PTE_ACCESSED PTE_DIRTY) in
  pte ← pageWalk pgdir va false;
  e ← gets (fun mm => match pte with Some pte => load64 (mem mm) pte | None => 0 end);
  when (c_true (Z.land e PTE_VALID)) (pageRemove pgdir va ;; mret tt) ;;
  pte ← pageWalk pgdir va true;
  match pte with
  | None => panic
  | Some pte =>
      modify (set_mem (store64 pte (Z.lor (Z.lor (PA2PTE pa) perm) PTE_VALID))) ;;
      when (IS_RAM pa)
        (match pa2page pa with Some page => incref page | None => panic end) ;;
      mret 0
  end.

Definition allocPgdir : M MM Z := page ← pageAlloc; incref page ;; mret page.

Definition cowHandler (pgdir badAddr : Z) : M MM Z :=
  r ← pageLookup pgdir badAddr;
  match snd r with
  | None => panic
  | Some pte =>
      e ← gets (fun mm => load64 (mem mm) pte);
      if negb (c_true (Z.land e PTE_COW)) then panic
      else
        page ← pageAlloc;
        r ← pageLookup pgdir badAddr;
        let '(pa, pte2) := r in
        let pte := default pte pte2 in
        modify (set_mem (bcopy pa (page2pa page) PAGE_SIZE)) ;;
        e ← gets (fun mm => load64 (mem mm) pte);
        pageInsert pgdir badAddr (page2pa page)
          (Z.land (Z.lor (PTE2PERM e) PTE_WRITE) (u64 (Z.lnot PTE_COW))) ;;
        mret (page2pa page + Z.land badAddr 0xFFF)
  end.

(** The physical address of a user virtual address (0 when it is not mapped for
    the user) and the value stored through [cow]. *)
Definition vir2phy (pagetable va : Z) : M MM (Z * option bool) :=
  if va >=? MAXVA then mret (0, None)
  else
    pte ← pageWalk pagetable va false;
    match pte with
    | None => panic
    | Some pte =>
        e ← gets (fun mm => load64 (mem mm) pte);
        if Z.land e PTE_VALID =? 0 then mret (0, None)
        else if Z.land e PTE_USER =? 0 then mret (0, None)
        else mret (PTE2PA e + Z.land va 0xfff, Some (0 <? Z.land e PTE_COW))
    end.

End Page.
