(* ===== verification/PageInv.v ===== *)
(** * The invariant of the page tables and what each operation does to it

    Two ghost maps describe the page tables held in memory.  [tbl] names the
    pages that are tables, each with its place in the tree of one root; [maps]
    is the set of translations, indexed by root and virtual page number.  The
    invariant ties them to memory, to the reference counts and to the free
    list; the lemmas of this file give the effect of the operations of Page.c
    on the two maps. *)

From S2P Require Import Prelude CType Mem Config Queue Page.

(** Where a table sits: the root page [r], the table of its entry [i2], the leaf
    table of entry [i1] of that. *)
Inductive owner :=
  | Root (r : Z)
  | Mid (r i2 : Z)
  | Leaf (r i2 i1 : Z).

#[export] Instance owner_eq_dec : EqDecision owner.
Proof. solve_decision. Defined.

Definition is_dir (o : owner) : bool := match o with Leaf _ _ _ => false | _ => true end.
Definition child (o : owner) (i : Z) : owner :=
  match o with Root r => Mid r i | Mid r i2 => Leaf r i2 i | Leaf r i2 i1 => Leaf r i2 i1 end.

Definition entry (mm : MM) (p i : Z) : Z := load64 (mem mm) (page2pa p + 8 * i).

Definition pte_valid (e : Z) : bool := c_true (Z.land e PTE_VALID).

(** The page a valid entry refers to, when it is in RAM. *)
Definition pte_page (e : Z) : option Z := if IS_RAM (PTE2PA e) then pa2page (PTE2PA e) else None.

(** The number of translations to page [p]. *)
Definition refs_to (maps : gmap (Z * Z) Z) (p : Z) : Z :=
  Z.of_nat (size (filter (fun kv => pte_page kv.2 = Some p) maps)).

Definition leaf_vpn (i2 i1 i0 : Z) : Z := i2 * 512 * 512 + i1 * 512 + i0.

(** The allocator part: free pages are distinct, in range and unreferenced. *)
Definition free_ok (mm : MM) : Prop :=
  NoDup (freePages mm) /\
  forall p, p ∈ freePages mm -> page_ok p /\ ref mm p = 0.

Record pt_inv (mm : MM) (tbl : gmap Z owner) (maps : gmap (Z * Z) Z) : Prop := {
  pi_free : free_ok mm;
  pi_tbl : forall p o, tbl !! p = Some o -> page_ok p;
  pi_root : forall p r, tbl !! p = Some (Root r) -> p = r;
  pi_uniq : forall p q o, tbl !! p = Some o -> tbl !! q = Some o -> p = q;
  pi_parent : forall q o i, is_dir o = true -> tbl !! q = Some (child o i) ->
    0 <= i < 512 /\ exists p, tbl !! p = Some o;
  pi_dir : forall p o i, tbl !! p = Some o -> is_dir o = true -> 0 <= i < 512 ->
    (entry mm p i = 0 /\ forall q, tbl !! q <> Some (child o i)) \/
    (exists q, tbl !! q = Some (child o i) /\ entry mm p i = mk_pte (page2pa q) PTE_VALID);
  pi_leaf : forall p r i2 i1 i0, tbl !! p = Some (Leaf r i2 i1) -> 0 <= i0 < 512 ->
    maps !! (r, leaf_vpn i2 i1 i0) =
    if pte_valid (entry mm p i0) then Some (entry mm p i0) else None;
  pi_maps : forall r v e, maps !! (r, v) = Some e ->
    exists p i2 i1 i0, tbl !! p = Some (Leaf r i2 i1) /\ 0 <= i2 < 512 /\ 0 <= i1 < 512
      /\ 0 <= i0 < 512 /\ v = leaf_vpn i2 i1 i0;
  pi_refs : forall p, page_ok p ->
    refs_to maps p + (match tbl !! p with Some _ => 1 | None => 0 end) <= ref mm p;
}.

(** ** Consequences *)

Section consequences.
Context {mm tbl maps} (I : pt_inv mm tbl maps).

Lemma tbl_not_free p o : tbl !! p = Some o -> p ∉ freePages mm.
Proof.
  intros Hp Hin. pose proof (pi_refs _ _ _ I p (pi_tbl _ _ _ I _ _ Hp)) as H.
  rewrite Hp in H. destruct (proj2 (pi_free _ _ _ I) _ Hin) as [_ H0].
  unfold refs_to in H. lia.
Qed.

Lemma refs_to_pos r v e p : maps !! (r, v) = Some e -> pte_page e = Some p -> 1 <= refs_to maps p.
Proof.
  intros He Hp. unfold refs_to.
  assert (Hl : filter (fun kv => pte_page kv.2 = Some p) maps !! (r, v) = Some e)
    by (by apply map_lookup_filter_Some).
  assert (size (filter (fun kv => pte_page kv.2 = Some p) maps) <> 0%nat); [|lia].
  intros Hz%map_size_empty_inv. rewrite Hz in Hl. by rewrite lookup_empty in Hl.
Qed.

(** No page that some page table maps is on the free list. *)
Lemma mapped_not_free r v e p :
  maps !! (r, v) = Some e -> pte_page e = Some p -> page_ok p -> p ∉ freePages mm.
Proof.
  intros He Hp Hok Hin. pose proof (pi_refs _ _ _ I p Hok) as H.
  pose proof (refs_to_pos _ _ _ _ He Hp) as Hpos.
  destruct (proj2 (pi_free _ _ _ I) _ Hin) as [_ Hz]. destruct (tbl !! p); lia.
Qed.
End consequences.

(** ** Addresses of entries *)

Lemma entry_addr_disjoint p q i j :
  page_ok p -> page_ok q -> 0 <= i < 512 -> 0 <= j < 512 -> (p <> q \/ i <> j) ->
  let a := page2pa p + 8 * i in let b := page2pa q + 8 * j in b + 8 <= a \/ a + 8 <= b.
Proof. intros. unfold a, b. rewrite !page2pa_ok by done. unfold page_ok in *. lia. Qed.

Lemma entry_store_eq mm p i v :
  entry (set_mem (store64 (page2pa p + 8 * i) v) mm) p i = u64 v.
Proof. unfold entry. simpl. apply load64_store64_eq. Qed.

Lemma entry_store_ne mm p q i j v :
  page_ok p -> page_ok q -> 0 <= i < 512 -> 0 <= j < 512 -> (p <> q \/ i <> j) ->
  entry (set_mem (store64 (page2pa p + 8 * i) v) mm) q j = entry mm q j.
Proof. intros. unfold entry. simpl. apply load64_store64_ne. by apply entry_addr_disjoint. Qed.

Lemma entry_bzero_ne mm p q j :
  page_ok p -> page_ok q -> 0 <= j < 512 -> p <> q ->
  entry (set_mem (bzero (page2pa p) PAGE_SIZE) mm) q j = entry mm q j.
Proof.
  intros. unfold entry. simpl. change PAGE_SIZE with 4096.
  apply bzero_load64_ne; [lia|]. rewrite !page2pa_ok by done. unfold page_ok in *. lia.
Qed.

Lemma entry_bzero_eq mm p j :
  page_ok p -> 0 <= j < 512 -> entry (set_mem (bzero (page2pa p) PAGE_SIZE) mm) p j = 0.
Proof.
  intros. unfold entry. simpl. change PAGE_SIZE with 4096.
  apply bzero_load64; lia.
Qed.

Lemma dir_entry_pa q : page_ok q -> PTE2PA (mk_pte (page2pa q) PTE_VALID) = page2pa q.
Proof.
  intros. apply PTE2PA_mk_pte.
  - rewrite page2pa_ok by done. unfold page_ok in *. lia.
  - rewrite page2pa_ok by done. Z.to_euclidean_division_equations; lia.
  - change PTE_VALID with 1. lia.
Qed.

Lemma dir_entry_nonzero q : page_ok q -> mk_pte (page2pa q) PTE_VALID <> 0.
Proof.
  intros. change PTE_VALID with 1. unfold mk_pte. rewrite page2pa_ok by done. unfold page_ok in *.
  Z.to_euclidean_division_equations; lia.
Qed.

Lemma dir_entry_lor q :
  page_ok q -> u64 (Z.lor (page2pte q) PTE_VALID) = mk_pte (page2pa q) PTE_VALID.
Proof.
  intros. rewrite page2pte_arith, mk_pte_lor, page2pa_ok by
    (done || (change PTE_VALID with 1; lia)
     || (rewrite page2pa_ok by done; unfold page_ok in *; Z.to_euclidean_division_equations; lia)).
  apply u64_small. change PTE_VALID with 1. unfold mk_pte, page_ok in *.
  Z.to_euclidean_division_equations; lia.
Qed.

Lemma walk_test e : c_true (Z.land (c_not e) PTE_VALID) = (e =? 0).
Proof. unfold c_not. destruct (e =? 0); done. Qed.

Lemma indices_vpn va :
  0 <= va < 2 ^ 39 ->
  leaf_vpn (GET_PAGE_TABLE_INDEX va 2) (GET_PAGE_TABLE_INDEX va 1) (GET_PAGE_TABLE_INDEX va 0) = vpn va.
Proof. intros. symmetry. by apply vpn_indices. Qed.

Lemma leaf_vpn_inj a b c a' b' c' :
  0 <= a < 512 -> 0 <= b < 512 -> 0 <= c < 512 ->
  0 <= a' < 512 -> 0 <= b' < 512 -> 0 <= c' < 512 ->
  leaf_vpn a b c = leaf_vpn a' b' c' -> a = a' /\ b = b' /\ c = c'.
Proof. unfold leaf_vpn. lia. Qed.

(** A virtual page by its three indices. *)
Lemma leaf_index i j k : 0 <= i < 512 -> 0 <= j < 512 -> 0 <= k < 512 ->
  let va := leaf_vpn i j k * 4096 in
  0 <= va < 2 ^ 39 /\ vpn va = leaf_vpn i j k /\
  GET_PAGE_TABLE_INDEX va 2 = i /\ GET_PAGE_TABLE_INDEX va 1 = j /\ GET_PAGE_TABLE_INDEX va 0 = k.
Proof.
  intros Hi Hj Hk va. assert (Hva : 0 <= va < 2 ^ 39) by (unfold va, leaf_vpn; lia).
  split; [done|]. rewrite !index_arith by lia. unfold vpn, va, leaf_vpn.
  change (2 ^ (12 + 9 * 0)) with 4096; change (2 ^ (12 + 9 * 1)) with 2097152;
  change (2 ^ (12 + 9 * 2)) with 1073741824. repeat split; Z.to_euclidean_division_equations; lia.
Qed.

(** A directory entry is clear or points at the table below it. *)
Lemma dir_entry_read mm tbl maps p o i : pt_inv mm tbl maps -> tbl !! p = Some o -> is_dir o = true ->
  0 <= i < 512 ->
  (c_true (Z.land (entry mm p i) PTE_VALID) = false /\ forall q, tbl !! q <> Some (child o i)) \/
  (exists q, tbl !! q = Some (child o i) /\ c_true (Z.land (entry mm p i) PTE_VALID) = true /\
     PTE2PA (entry mm p i) = page2pa q).
Proof.
  intros I Hp Hd Hi. destruct (pi_dir _ _ _ I p o i Hp Hd Hi) as [[-> Hq]|(q & Hq & ->)]; [by left|].
  right. exists q. pose proof (pi_tbl _ _ _ I _ _ Hq). split; [done|]. split; [|by apply dir_entry_pa].
  change (pte_valid (mk_pte (page2pa q) PTE_VALID) = true).
  rewrite <- dir_entry_lor by done. unfold pte_valid, u64. rewrite <- Z.land_ones, <- Z.land_assoc by lia.
  change (Z.land (Z.ones 64) PTE_VALID) with 1. unfold c_true. apply negb_true_iff, Z.eqb_neq.
  rewrite Z.land_lor_distr_l. change (Z.land PTE_VALID 1) with 1. intros E.
  apply (f_equal (fun x => Z.testbit x 0)) in E. rewrite Z.lor_spec, orb_true_r in E. done.
Qed.

(** ** Walking without creating *)

(** A directory entry that points at a table is followed, whatever [create] is. *)
Lemma walk_level_hit mm x i y create :
  page_ok y -> entry mm x i = mk_pte (page2pa y) PTE_VALID ->
  Page.walk_level (page2pa x + 8 * i) create mm = Ret (Some (page2pa y)) mm.
Proof.
  intros Hy He. unfold Page.walk_level, mbind, M_bind, gets. simpl.
  change (load64 (mem mm) (page2pa x + 8 * i)) with (entry mm x i). rewrite walk_test, He.
  rewrite (proj2 (Z.eqb_neq _ 0)) by (by apply dir_entry_nonzero). by rewrite dir_entry_pa.
Qed.

Lemma walk_level_ro mm tbl maps p o i :
  pt_inv mm tbl maps -> tbl !! p = Some o -> is_dir o = true -> 0 <= i < 512 ->
  exists t, Page.walk_level (page2pa p + 8 * i) false mm = Ret t mm /\
  match t with
  | None => forall q, tbl !! q <> Some (child o i)
  | Some a => exists q, tbl !! q = Some (child o i) /\ a = page2pa q
  end.
Proof.
  intros I Hp Hd Hi. unfold Page.walk_level, mbind, M_bind, gets. simpl.
  change (load64 (mem mm) (page2pa p + 8 * i)) with (entry mm p i). rewrite walk_test.
  destruct (pi_dir _ _ _ I p o i Hp Hd Hi) as [[-> Hq]|(q & Hq & ->)]; simpl.
  - exists None. done.
  - pose proof (pi_tbl _ _ _ I _ _ Hq).
    rewrite (proj2 (Z.eqb_neq _ 0)) by (by apply dir_entry_nonzero).
    eexists. split; [done|]. simpl. exists q. by rewrite dir_entry_pa.
Qed.

(** The leaf table of [va] under root [r], when there is one. *)
Definition leaf_of (tbl : gmap Z owner) (r va q : Z) : Prop :=
  tbl !! q = Some (Leaf r (GET_PAGE_TABLE_INDEX va 2) (GET_PAGE_TABLE_INDEX va 1)).

Lemma pageWalk_ro mm tbl maps r va :
  pt_inv mm tbl maps -> tbl !! r = Some (Root r) ->
  exists t, Page.pageWalk (page2pa r) va false mm = Ret t mm /\
  match t with
  | None => forall q, ~ leaf_of tbl r va q
  | Some a => exists q, leaf_of tbl r va q /\ a = page2pa q + 8 * GET_PAGE_TABLE_INDEX va 0
  end.
Proof.
  intros I Hr. unfold Page.pageWalk, leaf_of.
  destruct (walk_level_ro mm tbl maps r (Root r) (GET_PAGE_TABLE_INDEX va 2) I Hr eq_refl
              (index_range va 2)) as (t & Ht & Hc).
  rewrite (bind_Ret _ _ _ _ _ Ht). destruct t as [a|]; simpl in Hc.
  - destruct Hc as (q & Hq & ->).
    destruct (walk_level_ro mm tbl maps q _ (GET_PAGE_TABLE_INDEX va 1) I Hq eq_refl
                (index_range va 1)) as (t' & Ht' & Hc').
    rewrite (bind_Ret _ _ _ _ _ Ht'). destruct t' as [a|]; simpl in Hc'.
    + destruct Hc' as (q' & Hq' & ->). eexists. split; [done|]. simpl. eauto.
    + exists None. eauto.
  - exists None. split; [done|]. intros q Hq.
    destruct (pi_parent _ _ _ I q (Mid r (GET_PAGE_TABLE_INDEX va 2))
                (GET_PAGE_TABLE_INDEX va 1) eq_refl Hq) as [_ [p Hp]].
    by apply (Hc p).
Qed.

(** [pageLookup] reads the translation from the ghost map. *)
Lemma pageLookup_spec mm tbl maps r va :
  pt_inv mm tbl maps -> tbl !! r = Some (Root r) -> 0 <= va < 2 ^ 39 ->
  match maps !! (r, vpn va) with
  | None => Page.pageLookup (page2pa r) va mm = Ret (0, None) mm
  | Some e => exists q, leaf_of tbl r va q /\ entry mm q (GET_PAGE_TABLE_INDEX va 0) = e /\
      pte_valid e = true /\
      Page.pageLookup (page2pa r) va mm =
        Ret (PTE2PA e, Some (page2pa q + 8 * GET_PAGE_TABLE_INDEX va 0)) mm
  end.
Proof.
  intros I Hr Hva. destruct (pageWalk_ro mm tbl maps r va I Hr) as (t & Ht & Hc).
  unfold Page.pageLookup. rewrite (bind_Ret _ _ _ _ _ Ht). destruct t as [a|].
  - destruct Hc as (q & Hq & ->).
    pose proof (pi_leaf _ _ _ I _ _ _ _ _ Hq (index_range va 0)) as Hl.
    rewrite indices_vpn in Hl by done. rewrite Hl.
    unfold mbind, M_bind, gets. simpl.
    fold (entry mm q (GET_PAGE_TABLE_INDEX va 0)).
    fold (pte_valid (entry mm q (GET_PAGE_TABLE_INDEX va 0))).
    destruct (pte_valid (entry mm q (GET_PAGE_TABLE_INDEX va 0))) eqn:E; simpl.
    + exists q. done.
    + done.
  - destruct (maps !! (r, vpn va)) as [e|] eqn:E; [exfalso|done].
    destruct (pi_maps _ _ _ I _ _ _ E) as (p & i2 & i1 & i0 & Hp & ? & ? & ? & Hv).
    rewrite <- indices_vpn in Hv by done.
    apply leaf_vpn_inj in Hv as (<- & <- & <-); auto using index_range. by apply (Hc p).
Qed.

(** ** Reference counts *)

Lemma u32_range x : 0 <= u32 x < 2 ^ 32.
Proof. apply Z.mod_pos_bound. lia. Qed.

Lemma ref_range mm p : 0 <= ref mm p < 2 ^ 32.
Proof. apply u32_range. Qed.

Lemma ref_set_ref p v mm q : ref (set_ref p v mm) q = if decide (q = p) then u32 v else ref mm q.
Proof.
  unfold ref, set_ref. simpl. rewrite lookup_insert. repeat case_decide; try congruence; simpl.
  apply Z.mod_mod. lia.
Qed.

Lemma incref_eq p mm : Page.incref p mm = Ret tt (set_ref p (ref mm p + 1) mm).
Proof. done. Qed.

Lemma decref_eq p mm : Page.decref p mm = Ret tt (set_ref p (ref mm p - 1) mm).
Proof. done. Qed.

(** ** Changes that leave the tables alone *)

Lemma pt_inv_ext mm mm' tbl maps :
  pt_inv mm tbl maps -> free_ok mm' ->
  (forall p o i, tbl !! p = Some o -> 0 <= i < 512 -> entry mm' p i = entry mm p i) ->
  (forall p, page_ok p ->
     refs_to maps p + (match tbl !! p with Some _ => 1 | None => 0 end) <= ref mm' p) ->
  pt_inv mm' tbl maps.
Proof.
  intros I Hf He Hr. destruct I. constructor; auto.
  - intros p o i Hp Hd Hi. rewrite (He p o) by done. eauto.
  - intros p r i2 i1 i0 Hp Hi. rewrite (He p _ i0 Hp Hi). eauto.
Qed.

(** ** Allocating a page *)

Definition alloc_state (p : Z) (mm : MM) : MM :=
  set_mem (bzero (page2pa p) PAGE_SIZE)
    (set_free (Queue.list_remove p) (set_hart (fun hs => <[p := hartid mm]> hs) mm)).

Lemma pageAlloc_eq p fl mm : freePages mm = p :: fl -> Page.pageAlloc mm = Ret p (alloc_state p mm).
Proof. intros H. unfold Page.pageAlloc, mbind, M_bind, gets. simpl. rewrite H. done. Qed.

Lemma pageAlloc_empty mm : freePages mm = [] -> Page.pageAlloc mm = Panic.
Proof. intros H. unfold Page.pageAlloc, mbind, M_bind, gets. simpl. by rewrite H. Qed.

Lemma alloc_state_free p fl mm :
  free_ok mm -> freePages mm = p :: fl -> freePages (alloc_state p mm) = fl.
Proof. intros [Hn _] H. simpl. rewrite H in *. by apply Queue.list_remove_head. Qed.

Lemma alloc_state_ref p mm q : ref (alloc_state p mm) q = ref mm q.
Proof. done. Qed.

(** A page from the free list is outside every table and every translation. *)
Lemma alloc_fresh mm tbl maps p fl :
  pt_inv mm tbl maps -> freePages mm = p :: fl ->
  page_ok p /\ tbl !! p = None /\ refs_to maps p = 0 /\ ref mm p = 0 /\ p ∉ fl.
Proof.
  intros I Hf. destruct (pi_free _ _ _ I) as [Hn Hz]. rewrite Hf in Hn, Hz.
  destruct (Hz p) as [Hok H0]; [constructor|].
  pose proof (pi_refs _ _ _ I p Hok) as Hr.
  assert (0 <= refs_to maps p) by (unfold refs_to; lia).
  apply NoDup_cons in Hn as [? _].
  destruct (tbl !! p) eqn:E; [lia|]. split_and!; auto; lia.
Qed.

Lemma alloc_inv mm tbl maps p fl :
  pt_inv mm tbl maps -> freePages mm = p :: fl -> pt_inv (alloc_state p mm) tbl maps.
Proof.
  intros I Hf. destruct (alloc_fresh _ _ _ _ _ I Hf) as (Hok & Hnt & Hrt & Hr0 & Hnin).
  pose proof (pi_free _ _ _ I) as [Hn Hz].
  apply (pt_inv_ext mm); [done| | |].
  - split.
    + rewrite (alloc_state_free p fl) by (by split || done). rewrite Hf in Hn.
      by apply NoDup_cons in Hn as [_ ?].
    + rewrite (alloc_state_free p fl) by (by split || done). intros q Hq.
      rewrite alloc_state_ref. apply Hz. rewrite Hf. by constructor.
  - intros q o i Hq Hi. unfold alloc_state.
    rewrite entry_bzero_ne; [done|done|by eapply pi_tbl|done|congruence].
  - intros q Hq. rewrite alloc_state_ref. by apply (pi_refs _ _ _ I).
Qed.

Lemma alloc_entry_zero p mm i : page_ok p -> 0 <= i < 512 -> entry (alloc_state p mm) p i = 0.
Proof. intros. unfold alloc_state. by rewrite entry_bzero_eq. Qed.

(** ** Adding a table *)

Lemma child_inj o o' i i' :
  is_dir o = true -> is_dir o' = true -> child o i = child o' i' -> o = o' /\ i = i'.
Proof. destruct o, o'; simpl; try done; intros _ _ [=]; subst; done. Qed.

Lemma child_irrefl o i j : is_dir o = true -> is_dir (child o i) = true -> child (child o i) j <> child o i.
Proof. by destruct o. Qed.

Definition link_table (p i q : Z) (mm : MM) : MM :=
  set_ref q (ref mm q + 1) (set_mem (store64 (page2pa p + 8 * i) (Z.lor (page2pte q) PTE_VALID)) mm).

Lemma add_table mm tbl maps p o i q :
  pt_inv mm tbl maps -> tbl !! p = Some o -> is_dir o = true -> 0 <= i < 512 ->
  entry mm p i = 0 ->
  page_ok q -> tbl !! q = None -> q ∉ freePages mm -> ref mm q = 0 ->
  (forall j, 0 <= j < 512 -> entry mm q j = 0) ->
  pt_inv (link_table p i q mm) (<[q := child o i]> tbl) maps.
Proof.
  intros I Hp Hd Hi He Hqok Hqt Hqf Hqr Hqz.
  assert (Hpq : p <> q) by congruence.
  assert (Hno : forall x, tbl !! x <> Some (child o i)).
  { destruct (pi_dir _ _ _ I p o i Hp Hd Hi) as [[_ ?]|(x & Hx & Hxe)]; [done|].
    rewrite He in Hxe. symmetry in Hxe. exfalso. eapply dir_entry_nonzero, Hxe. eapply pi_tbl, Hx. done. }
  assert (Hsame : forall x j, page_ok x -> 0 <= j < 512 -> (p <> x \/ i <> j) ->
            entry (link_table p i q mm) x j = entry mm x j).
  { intros. unfold link_table. unfold entry, set_ref. simpl. apply load64_store64_ne.
    apply entry_addr_disjoint; auto. by eapply pi_tbl. }
  assert (Hnew : entry (link_table p i q mm) p i = mk_pte (page2pa q) PTE_VALID).
  { unfold link_table, set_ref, entry. simpl. rewrite load64_store64_eq. by apply dir_entry_lor. }
  assert (Href : forall x, ref (link_table p i q mm) x = if decide (x = q) then 1 else ref mm x).
  { intros x. unfold link_table. rewrite ref_set_ref, Hqr. done. }
  constructor.
  - destruct (pi_free _ _ _ I) as [Hn Hz]. split; [done|]. intros x Hx. rewrite Href.
    rewrite decide_False by (intros ->; done). auto.
  - intros x o'. rewrite lookup_insert. case_decide; [by intros; subst|]. apply (pi_tbl _ _ _ I).
  - intros x r. rewrite lookup_insert. case_decide; [|apply (pi_root _ _ _ I)].
    by destruct o.
  - intros x y o'. rewrite !lookup_insert. repeat case_decide; subst; intros Hx Hy; simplify_eq; try done.
    + by destruct (Hno y).
    + by destruct (Hno x).
    + by eapply (pi_uniq _ _ _ I).
  - intros x o' j Hd' . rewrite lookup_insert. case_decide.
    + subst. intros [= Hc]. apply child_inj in Hc as [<- <-]; try done.
      split; [done|]. exists p. by rewrite lookup_insert_ne.
    + intros Hx. destruct (pi_parent _ _ _ I x o' j Hd' Hx) as [? [y Hy]]. split; [done|].
      exists y. rewrite lookup_insert_ne; [done|]. congruence.
  - intros x o' j. rewrite lookup_insert. case_decide as Hxq.
    + subst x. intros [= <-] Hd' Hj. left. rewrite Hsame by auto. rewrite Hqz by done.
      split; [done|]. intros y. rewrite lookup_insert. case_decide.
      * intros [= Hc]. symmetry in Hc. by eapply child_irrefl in Hc.
      * intros Hy. destruct (pi_parent _ _ _ I _ _ _ Hd' Hy) as [_ [z Hz]]. by apply (Hno z).
    + intros Hx Hd' Hj. destruct (decide (p = x /\ i = j)) as [[<- <-]|Hne].
      * simplify_eq. right. exists q. by rewrite lookup_insert_eq.
      * rewrite Hsame; [|by eapply (pi_tbl _ _ _ I)|done|].
        2: { destruct (decide (p = x)); [right|left; done]. intros ->. apply Hne. done. }
        destruct (pi_dir _ _ _ I x o' j Hx Hd' Hj) as [[-> Hn]|(y & Hy & ->)]; [left|right].
        -- split; [done|]. intros y. rewrite lookup_insert. case_decide; [|apply Hn].
           intros [= Hc]. symmetry in Hc. apply child_inj in Hc as [-> ->]; try done.
           apply Hne. split; [|done]. by eapply (pi_uniq _ _ _ I).
        -- exists y. rewrite lookup_insert_ne; [done|]. congruence.
  - intros x r i2 i1 i0. rewrite lookup_insert. case_decide as Hxq.
    + subst x. intros [= Hc] Hi0. rewrite Hsame by auto. rewrite Hqz by done. simpl.
      destruct (maps !! (r, leaf_vpn i2 i1 i0)) as [e|] eqn:E; [exfalso|done].
      destruct (pi_maps _ _ _ I _ _ _ E) as (y & j2 & j1 & j0 & Hy & ? & ? & ? & Hv).
      destruct o as [|r' k2|]; simpl in Hc; try done. injection Hc as -> -> ->.
      destruct (pi_parent _ _ _ I p (Root r) i2 eq_refl Hp) as [? _].
      apply leaf_vpn_inj in Hv as (-> & -> & ->); try done. by apply (Hno y).
    + intros Hx Hi0. rewrite Hsame; [by eapply (pi_leaf _ _ _ I)|by eapply (pi_tbl _ _ _ I)|done|].
      left. intros ->. rewrite Hp in Hx. injection Hx as ->. done.
  - intros r v e Hm. destruct (pi_maps _ _ _ I _ _ _ Hm) as (x & i2 & i1 & i0 & Hx & ?).
    exists x, i2, i1, i0. rewrite lookup_insert_ne; [done|]. congruence.
  - intros x Hx. rewrite Href, lookup_insert. pose proof (pi_refs _ _ _ I x Hx) as Hr.
    destruct (decide (x = q)) as [->|]; [|by rewrite decide_False].
    rewrite decide_True by done. rewrite Hqt in Hr. lia.
Qed.

(** ** Walking with creation *)

Definition in_page (p a : Z) : Prop := page2pa p <= a < page2pa p + 4096.

(** What an operation may change besides [maps]: it may turn free pages into
    tables; everything else keeps its reference count and its bytes. *)
Record grow (mm : MM) (tbl : gmap Z owner) (mm' : MM) (tbl' : gmap Z owner) : Prop := {
  gr_tbl : tbl ⊆ tbl';
  gr_free : freePages mm' `suffix_of` freePages mm;
  gr_new : forall q, tbl !! q = None -> is_Some (tbl' !! q) -> q ∈ freePages mm;
  gr_ref : forall q, q ∉ freePages mm -> ref mm' q = ref mm q;
  gr_data : forall a, (forall q, q ∈ freePages mm \/ is_Some (tbl !! q) -> ~ in_page q a) ->
    load8 (mem mm') a = load8 (mem mm) a;
  gr_used : (length (freePages mm) + size tbl = length (freePages mm') + size tbl')%nat;
}.

Lemma grow_refl mm tbl : grow mm tbl mm tbl.
Proof.
  constructor; try done. intros q -> [? ?]. done.
Qed.

Lemma grow_trans m1 t1 m2 t2 m3 t3 : grow m1 t1 m2 t2 -> grow m2 t2 m3 t3 -> grow m1 t1 m3 t3.
Proof.
  intros [A1 A2 A3 A4 A5 A6] [B1 B2 B3 B4 B5 B6].
  assert (Hsub : forall q, q ∈ freePages m2 -> q ∈ freePages m1).
  { intros q Hq. destruct A2 as [l ->]. apply elem_of_app. by right. }
  constructor.
  - by etrans.
  - by etrans.
  - intros q Hq Hs. destruct (t2 !! q) eqn:E; [apply A3; [done|by rewrite E]|auto].
  - intros q Hq. rewrite B4 by auto. auto.
  - intros a Ha. rewrite B5; [auto|]. intros q [Hq|Hq]; [apply Ha; auto|].
    destruct (t1 !! q) eqn:E; apply Ha; [right; by rewrite E|left; auto].
  - lia.
Qed.

Lemma in_page_disjoint p q a : page_ok p -> page_ok q -> p <> q -> in_page p a -> ~ in_page q a.
Proof. unfold in_page. intros Hp Hq. rewrite !page2pa_ok by done. unfold page_ok in *. lia. Qed.

Lemma entry_in_page p i a : 0 <= i < 512 -> page2pa p + 8 * i <= a < page2pa p + 8 * i + 8 -> in_page p a.
Proof. unfold in_page. lia. Qed.

Lemma store_entry_data p i v m a :
  0 <= i < 512 -> ~ in_page p a -> load8 (store64 (page2pa p + 8 * i) v m) a = load8 m a.
Proof.
  intros Hi Ha. apply load8_store64_ne.
  destruct (Z.lt_ge_cases a (page2pa p + 8 * i)); [by left|].
  destruct (Z.lt_ge_cases a (page2pa p + 8 * i + 8)); [|by right].
  exfalso. apply Ha. by eapply entry_in_page.
Qed.

Lemma bzero_page_data p m a :
  ~ in_page p a -> load8 (bzero (page2pa p) PAGE_SIZE m) a = load8 m a.
Proof.
  intros. change PAGE_SIZE with 4096. rewrite bzero_bytes by lia.
  rewrite decide_False; [done|]. unfold in_page in *. lia.
Qed.

Lemma walk_level_create mm tbl maps p o i :
  pt_inv mm tbl maps -> tbl !! p = Some o -> is_dir o = true -> 0 <= i < 512 ->
  freePages mm <> [] ->
  exists q mm' tbl', Page.walk_level (page2pa p + 8 * i) true mm = Ret (Some (page2pa q)) mm' /\
    pt_inv mm' tbl' maps /\ tbl' !! q = Some (child o i) /\ grow mm tbl mm' tbl' /\
    (length (freePages mm) <= S (length (freePages mm')))%nat.
Proof.
  intros I Hp Hd Hi Hfr. unfold Page.walk_level, mbind, M_bind, gets, modify. simpl.
  change (load64 (mem mm) (page2pa p + 8 * i)) with (entry mm p i). rewrite walk_test.
  destruct (pi_dir _ _ _ I p o i Hp Hd Hi) as [[He Hq]|(q & Hq & He)]; rewrite He; simpl.
  - destruct (freePages mm) as [|q fl] eqn:Ef; [done|].
    destruct (alloc_fresh _ _ _ _ _ I Ef) as (Hok & Hnt & Hrt & Hr0 & Hnin).
    pose proof (alloc_inv _ _ _ _ _ I Ef) as I1.
    pose proof (alloc_state_free q fl mm (pi_free _ _ _ I) Ef) as Ef1.
    pose proof (pi_tbl _ _ _ I _ _ Hp) as Hpok.
    rewrite (pageAlloc_eq _ _ _ Ef). simpl.
    exists q, (link_table p i q (alloc_state q mm)), (<[q := child o i]> tbl).
    rewrite load64_store64_eq, dir_entry_lor, dir_entry_pa by done.
    split; [done|]. split; [|split; [by rewrite lookup_insert_eq|split]].
    + apply add_table; auto.
      * unfold alloc_state. rewrite entry_bzero_ne by (done || congruence). done.
      * by rewrite Ef1.
      * intros. by apply alloc_entry_zero.
    + constructor.
      * by apply insert_subseteq.
      * change (freePages (link_table p i q (alloc_state q mm))) with (freePages (alloc_state q mm)).
        rewrite Ef1, Ef. by exists [q].
      * intros x Hx. rewrite lookup_insert. case_decide; [|by rewrite Hx; intros [? ?]].
        intros _. subst. rewrite Ef. constructor.
      * intros x Hx. unfold link_table. rewrite ref_set_ref, decide_False; [done|].
        intros ->. apply Hx. rewrite Ef. constructor.
      * intros a Ha. unfold link_table, set_ref. simpl.
        assert (~ in_page q a) by (apply Ha; left; rewrite Ef; constructor).
        assert (~ in_page p a) by (apply Ha; right; by eexists).
        by rewrite store_entry_data, bzero_page_data.
      * change (freePages (link_table p i q (alloc_state q mm))) with (freePages (alloc_state q mm)).
        rewrite Ef1, Ef, map_size_insert_None by done. simpl. lia.
    + change (freePages (link_table p i q (alloc_state q mm))) with (freePages (alloc_state q mm)).
      rewrite Ef1. simpl. lia.
  - pose proof (pi_tbl _ _ _ I _ _ Hq).
    rewrite (proj2 (Z.eqb_neq _ 0)) by (by apply dir_entry_nonzero). simpl.
    exists q, mm, tbl. rewrite dir_entry_pa by done. split_and!; auto using grow_refl.
Qed.

Lemma pageWalk_create mm tbl maps r va :
  pt_inv mm tbl maps -> tbl !! r = Some (Root r) -> (2 <= length (freePages mm))%nat ->
  exists q mm' tbl',
    Page.pageWalk (page2pa r) va true mm
      = Ret (Some (page2pa q + 8 * GET_PAGE_TABLE_INDEX va 0)) mm' /\
    pt_inv mm' tbl' maps /\ leaf_of tbl' r va q /\ grow mm tbl mm' tbl' /\
    (length (freePages mm) <= 2 + length (freePages mm'))%nat.
Proof.
  intros I Hr Hfr. unfold Page.pageWalk.
  destruct (walk_level_create mm tbl maps r (Root r) (GET_PAGE_TABLE_INDEX va 2) I Hr eq_refl
              (index_range va 2)) as (q1 & m1 & t1 & H1 & I1 & Hq1 & G1 & L1).
  { intros E. rewrite E in Hfr. simpl in Hfr. lia. }
  rewrite (bind_Ret _ _ _ _ _ H1).
  destruct (walk_level_create m1 t1 maps q1 _ (GET_PAGE_TABLE_INDEX va 1) I1 Hq1 eq_refl
              (index_range va 1)) as (q2 & m2 & t2 & H2 & I2 & Hq2 & G2 & L2).
  { intros E. rewrite E in L1. simpl in L1. lia. }
  rewrite (bind_Ret _ _ _ _ _ H2). exists q2, m2, t2. split_and!; auto; [by eapply grow_trans|lia].
Qed.

(** ** Writing a leaf entry *)

Lemma refs_to_insert maps k e p :
  refs_to (<[k := e]> maps) p =
  refs_to (delete k maps) p + (if decide (pte_page e = Some p) then 1 else 0).
Proof.
  unfold refs_to. rewrite <- insert_delete_eq. rewrite map_filter_insert.
  case_decide as H; simpl in H.
  - rewrite decide_True by done. rewrite map_size_insert_None; [lia|].
    apply map_lookup_filter_None. left. apply lookup_delete_eq.
  - rewrite decide_False by done. rewrite delete_delete_eq. lia.
Qed.

Lemma refs_to_delete maps k p :
  refs_to maps p = refs_to (delete k maps) p +
  (match maps !! k with Some e => if decide (pte_page e = Some p) then 1 else 0 | None => 0 end).
Proof.
  destruct (maps !! k) as [e|] eqn:E.
  - rewrite <- (insert_id maps k e E) at 1. apply refs_to_insert.
  - rewrite delete_id by done. lia.
Qed.

(** Storing [v] at the leaf entry of [va] changes exactly that translation. *)
Definition set_leaf (maps : gmap (Z * Z) Z) (r va v : Z) : gmap (Z * Z) Z :=
  if pte_valid v then <[(r, vpn va) := v]> maps else delete (r, vpn va) maps.

Lemma set_leaf_lookup maps r va v k :
  set_leaf maps r va v !! k =
  if decide (k = (r, vpn va)) then (if pte_valid v then Some v else None) else maps !! k.
Proof.
  unfold set_leaf. destruct (pte_valid v).
  - rewrite lookup_insert. repeat case_decide; congruence.
  - rewrite lookup_delete. repeat case_decide; congruence.
Qed.

Lemma store_leaf mm tbl maps r va q v mm' :
  pt_inv mm tbl maps -> leaf_of tbl r va q -> 0 <= va < 2 ^ 39 -> 0 <= v < 2 ^ 64 ->
  mem mm' = store64 (page2pa q + 8 * GET_PAGE_TABLE_INDEX va 0) v (mem mm) ->
  free_ok mm' ->
  (forall p, page_ok p ->
     refs_to (set_leaf maps r va v) p + (match tbl !! p with Some _ => 1 | None => 0 end) <= ref mm' p) ->
  pt_inv mm' tbl (set_leaf maps r va v).
Proof.
  intros I Hq Hva Hv Hm Hf Hr.
  pose proof (index_range va 0) as Hi0.
  assert (Hqok : page_ok q) by (eapply (pi_tbl _ _ _ I), Hq).
  assert (Hsame : forall x j, page_ok x -> 0 <= j < 512 ->
            (q <> x \/ GET_PAGE_TABLE_INDEX va 0 <> j) -> entry mm' x j = entry mm x j).
  { intros x j Hx Hj Hne. unfold entry. rewrite Hm. apply load64_store64_ne.
    by apply entry_addr_disjoint. }
  assert (Hnew : entry mm' q (GET_PAGE_TABLE_INDEX va 0) = v).
  { unfold entry. rewrite Hm, load64_store64_eq. by apply u64_small. }
  constructor; auto; try apply I.
  - intros p o i Hp Hd Hi. rewrite Hsame; [by apply (pi_dir _ _ _ I)|by eapply (pi_tbl _ _ _ I)|done|].
    left. intros ->. rewrite Hq in Hp. by simplify_eq.
  - intros p r' i2 i1 i0 Hp Hi. rewrite set_leaf_lookup, <- indices_vpn by done.
    destruct (pi_parent _ _ _ I p (Mid r' i2) i1 eq_refl Hp) as [Hi1 [p1 Hp1]].
    destruct (pi_parent _ _ _ I p1 (Root r') i2 eq_refl Hp1) as [Hi2 _].
    case_decide as Hk.
    + injection Hk as -> Hk. apply leaf_vpn_inj in Hk as (-> & -> & ->); auto using index_range.
      assert (p = q) as -> by (by eapply (pi_uniq _ _ _ I)). by rewrite Hnew.
    + rewrite Hsame; [by apply (pi_leaf _ _ _ I)|by eapply (pi_tbl _ _ _ I)|done|].
      destruct (decide (q = p)) as [->|]; [right|by left].
      intros <-. apply Hk. rewrite Hq in Hp. by simplify_eq.
  - intros r' v' e. rewrite set_leaf_lookup. case_decide as Hk; [|apply (pi_maps _ _ _ I)].
    destruct (pte_valid v); [|done]. intros _. injection Hk as -> ->.
    eexists q, _, _, _. split; [exact Hq|]. rewrite indices_vpn by done. auto using index_range.
Qed.

(** ** [pageRemove] *)

Lemma PTE2PA_aligned e : PTE2PA e mod 4096 = 0 /\ 0 <= PTE2PA e < 2 ^ 56.
Proof.
  assert (PTE2PA e = PTE2PA (u64 e)) as ->.
  { unfold PTE2PA. f_equal. f_equal. f_equal. unfold u64. by rewrite Z.mod_mod. }
  rewrite PTE2PA_arith by apply u64_range. split; [apply Z.mod_mul; lia|].
  pose proof (Z.mod_pos_bound (u64 e / 1024) (2 ^ 44)). lia.
Qed.

Lemma pte_page_Some e p :
  pte_page e = Some p -> page_ok p /\ IS_RAM (PTE2PA e) = true /\ PTE2PA e = page2pa p.
Proof.
  unfold pte_page. destruct (IS_RAM (PTE2PA e)) eqn:E; [|done].
  destruct (pa2page_ok _ E) as [-> Hok]. intros [= <-]. split_and!; auto.
  rewrite page2pa_ok by done. destruct (PTE2PA_aligned e) as [? _].
  Z.to_euclidean_division_equations; lia.
Qed.

Lemma pte_page_None e : pte_page e = None -> IS_RAM (PTE2PA e) = false.
Proof.
  unfold pte_page. destruct (IS_RAM (PTE2PA e)) eqn:E; [|done].
  by destruct (pa2page_ok _ E) as [-> _].
Qed.

Lemma not_ram_test pa :
  (pa <? PHYSICAL_ADDRESS_BASE) || (pa >=? PHYSICAL_MEMORY_TOP) = negb (IS_RAM pa).
Proof.
  unfold IS_RAM. rewrite negb_andb, Z.geb_leb. f_equal.
  - by rewrite Z.ltb_antisym.
  - by rewrite Z.leb_antisym.
Qed.

(** The state after the page [p] lost the translation held in the entry at
    [addr]. *)
Definition removed (p addr : Z) (mm : MM) : MM :=
  set_mem (store64 addr 0)
    (if ref mm p =? 1 then set_free (fun l => p :: l) (set_ref p 0 mm)
     else set_ref p (ref mm p - 1) mm).

Lemma removed_ref p addr mm q :
  1 <= ref mm p -> ref (removed p addr mm) q = if decide (q = p) then ref mm p - 1 else ref mm q.
Proof.
  intros Hp. pose proof (ref_range mm p). unfold removed.
  change (ref (set_mem _ ?m) q) with (ref m q).
  destruct (ref mm p =? 1) eqn:E; bsplit.
  - change (ref (set_free _ ?m) q) with (ref m q). rewrite ref_set_ref, E. by case_decide.
  - rewrite ref_set_ref. case_decide; [|done]. apply u32_small. lia.
Qed.

Lemma removed_frame p addr mm :
  mem (removed p addr mm) = store64 addr 0 (mem mm) /\
  freePages (removed p addr mm) = (if ref mm p =? 1 then p :: freePages mm else freePages mm).
Proof. unfold removed. by destruct (ref mm p =? 1). Qed.

(** [pageRemove] from the entry that [pageLookup] finds. *)
Lemma pageRemove_run pgdir va mm e addr :
  Page.pageLookup pgdir va mm = Ret (PTE2PA e, Some addr) mm ->
  (forall p, pte_page e = Some p -> 1 <= ref mm p) ->
  Page.pageRemove pgdir va mm =
  match pte_page e with Some p => Ret 0 (removed p addr mm) | None => Ret (-1) mm end.
Proof.
  intros Hl Hge. unfold Page.pageRemove. rewrite (bind_Ret _ _ _ _ _ Hl), not_ram_test.
  destruct (pte_page e) as [p|] eqn:Ep; [|by rewrite pte_page_None].
  specialize (Hge p eq_refl). destruct (pte_page_Some _ _ Ep) as (Hok & HR & Hpa).
  rewrite HR. simpl. rewrite Hpa, pa2page_page2pa by done.
  unfold removed, Page.pageFree, mbind, M_bind, gets, modify, when. simpl.
  rewrite ref_set_ref, decide_True by done. pose proof (ref_range mm p).
  rewrite u32_small by lia. destruct (ref mm p =? 1) eqn:E1; bsplit.
  - rewrite E1. done.
  - rewrite (proj2 (Z.ltb_lt 0 (ref mm p - 1))) by lia. done.
Qed.

Lemma pageRemove_spec mm tbl maps r va :
  pt_inv mm tbl maps -> tbl !! r = Some (Root r) -> 0 <= va < 2 ^ 39 ->
  match maps !! (r, vpn va) ≫= pte_page with
  | None => Page.pageRemove (page2pa r) va mm = Ret (-1) mm
  | Some p =>
      exists q, leaf_of tbl r va q /\ 1 <= ref mm p /\ page_ok p /\
      let mm' := removed p (page2pa q + 8 * GET_PAGE_TABLE_INDEX va 0) mm in
      Page.pageRemove (page2pa r) va mm = Ret 0 mm' /\
      pt_inv mm' tbl (delete (r, vpn va) maps)
  end.
Proof.
  intros I Hr Hva. pose proof (pageLookup_spec mm tbl maps r va I Hr Hva) as Hl.
  destruct (maps !! (r, vpn va)) as [e|] eqn:Ee; simpl.
  2: { unfold Page.pageRemove. by rewrite (bind_Ret _ _ _ _ _ Hl). }
  destruct Hl as (q & Hq & Hqe & Hval & Hl).
  assert (Hge : forall p, pte_page e = Some p -> 1 <= ref mm p).
  { intros p Ep. destruct (pte_page_Some _ _ Ep) as (Hok & _).
    pose proof (pi_refs _ _ _ I p Hok). pose proof (refs_to_pos _ _ _ _ Ee Ep).
    destruct (tbl !! p); lia. }
  pose proof (pageRemove_run _ _ _ _ _ Hl Hge) as Hrun.
  destruct (pte_page e) as [p|] eqn:Ep; [|done]. specialize (Hge p eq_refl).
  destruct (pte_page_Some _ _ Ep) as (Hok & _).
  exists q. split_and!; auto.
  - assert (delete (r, vpn va) maps = set_leaf maps r va 0) as -> by done.
    apply (store_leaf mm tbl maps r va q 0); auto; [lia| | |].
    + unfold removed. by destruct (ref mm p =? 1).
    + destruct (pi_free _ _ _ I) as [Hn Hz]. split.
      * unfold removed. destruct (ref mm p =? 1) eqn:E1; [|done]. bsplit. simpl.
        apply NoDup_cons. split; [|done]. intros Hin. destruct (Hz _ Hin). lia.
      * intros x Hx. rewrite removed_ref by done.
        assert (Hx' : (x = p /\ ref mm p = 1) \/ x ∈ freePages mm).
        { revert Hx. unfold removed. destruct (ref mm p =? 1) eqn:E1; simpl; [|by right].
          bsplit. intros [->|?]%elem_of_cons; auto. }
        case_decide; [subst; split; [done|]|destruct Hx' as [[? _]|]; [done|auto]].
        destruct Hx' as [[_ ?]|Hx']; [lia|]. destruct (Hz _ Hx'). lia.
    + intros x Hx. rewrite removed_ref by done. pose proof (pi_refs _ _ _ I x Hx) as Hrx.
      rewrite (refs_to_delete maps (r, vpn va)), Ee in Hrx.
      change (set_leaf maps r va 0) with (delete (r, vpn va) maps).
      destruct (decide (x = p)) as [->|Hne].
      * rewrite decide_True in Hrx by done. lia.
      * rewrite decide_False in Hrx by congruence. lia.
Qed.

(** ** [pageInsert] *)

(** The entry [pageInsert] writes. *)
Definition new_pte (pa perm : Z) : Z :=
  mk_pte pa (Z.lor (Z.lor perm (Z.lor PTE_ACCESSED PTE_DIRTY)) PTE_VALID).

Lemma perm_bits perm : 0 <= perm < 1024 -> 0 <= Z.lor (Z.lor perm (Z.lor PTE_ACCESSED PTE_DIRTY)) PTE_VALID < 1024.
Proof.
  intros. change 1024 with (2 ^ 10). apply lor_low_bound; [lia| |done].
  apply lor_low_bound; [lia|lia|done].
Qed.

Lemma new_pte_range pa perm : 0 <= pa < 2 ^ 56 -> 0 <= perm < 1024 -> 0 <= new_pte pa perm < 2 ^ 54.
Proof. intros. apply mk_pte_range; [done|]. by apply perm_bits. Qed.

Lemma new_pte_lor pa perm :
  0 <= pa < 2 ^ 56 -> 0 <= perm < 1024 ->
  Z.lor (Z.lor (PA2PTE pa) (Z.lor perm (Z.lor PTE_ACCESSED PTE_DIRTY))) PTE_VALID = new_pte pa perm.
Proof.
  intros. rewrite <- Z.lor_assoc, PA2PTE_arith by done. apply mk_pte_lor; [|by apply perm_bits].
  Z.to_euclidean_division_equations; lia.
Qed.

Lemma new_pte_valid pa perm : pte_valid (new_pte pa perm) = true.
Proof.
  unfold pte_valid, new_pte, PTE_VALID. rewrite land_mk_pte by lia.
  change (Z.shiftl 1 0) with 1. rewrite Z.land_lor_distr_l. change (Z.land 1 1) with 1.
  unfold c_true. apply negb_true_iff, Z.eqb_neq. intros [_ ?]%Z.lor_eq_0_iff. done.
Qed.

Lemma PTE2PA_new_pte pa perm :
  0 <= pa < 2 ^ 56 -> pa mod 4096 = 0 -> 0 <= perm < 1024 -> PTE2PA (new_pte pa perm) = pa.
Proof. intros. apply PTE2PA_mk_pte; auto. by apply perm_bits. Qed.

(** A walk that finds its leaf table changes nothing. *)
Lemma pageWalk_exists mm tbl maps r va q create :
  pt_inv mm tbl maps -> tbl !! r = Some (Root r) -> leaf_of tbl r va q ->
  Page.pageWalk (page2pa r) va create mm = Ret (Some (page2pa q + 8 * GET_PAGE_TABLE_INDEX va 0)) mm.
Proof.
  intros I Hr Hq. destruct create.
  2: { destruct (pageWalk_ro mm tbl maps r va I Hr) as ([a|] & Ht & Hc).
       - destruct Hc as (q' & Hq' & ->).
         by assert (q' = q) as -> by (by eapply (pi_uniq _ _ _ I)).
       - by destruct (Hc q). }
  destruct (pi_parent _ _ _ I q (Mid r (GET_PAGE_TABLE_INDEX va 2))
              (GET_PAGE_TABLE_INDEX va 1) eq_refl Hq) as [_ [p Hp]].
  assert (Hstep : forall x o i y, tbl !! x = Some o -> is_dir o = true -> 0 <= i < 512 ->
            tbl !! y = Some (child o i) ->
            Page.walk_level (page2pa x + 8 * i) true mm = Ret (Some (page2pa y)) mm).
  { intros x o i y Hx Hd Hi Hy. apply walk_level_hit; [by eapply (pi_tbl _ _ _ I)|].
    destruct (pi_dir _ _ _ I x o i Hx Hd Hi) as [[_ Hno]|(z & Hz & ->)]; [by destruct (Hno y)|].
    by assert (z = y) as -> by (by eapply (pi_uniq _ _ _ I)). }
  unfold Page.pageWalk.
  rewrite (bind_Ret _ _ _ _ _ (Hstep r (Root r) _ p Hr eq_refl (index_range va 2) Hp)).
  by rewrite (bind_Ret _ _ _ _ _ (Hstep p (Mid r _) _ q Hp eq_refl (index_range va 1) Hq)).
Qed.

(** Installing a translation in an entry that holds none (or one outside RAM). *)
Definition installed (addr v : Z) (mm : MM) : MM :=
  let mm := set_mem (store64 addr v) mm in
  match pte_page v with Some p => set_ref p (ref mm p + 1) mm | None => mm end.

Lemma install mm tbl maps r va q v :
  pt_inv mm tbl maps -> leaf_of tbl r va q -> 0 <= va < 2 ^ 39 -> 0 <= v < 2 ^ 64 ->
  pte_valid v = true -> ((maps !! (r, vpn va)) ≫= pte_page) = None ->
  (forall p, pte_page v = Some p -> (p ∉ freePages mm) /\ ref mm p + 1 < 2 ^ 32) ->
  pt_inv (installed (page2pa q + 8 * GET_PAGE_TABLE_INDEX va 0) v mm) tbl
    (<[(r, vpn va) := v]> maps).
Proof.
  intros I Hq Hva Hv Hval Hold Hp.
  assert (<[(r, vpn va) := v]> maps = set_leaf maps r va v) as -> by (unfold set_leaf; by rewrite Hval).
  set (addr := page2pa q + 8 * GET_PAGE_TABLE_INDEX va 0).
  assert (Href : forall x, ref (installed addr v mm) x =
            if decide (pte_page v = Some x) then ref mm x + 1 else ref mm x).
  { intros x. unfold installed. cbv zeta. change (ref (set_mem _ ?m) ?x) with (ref m x).
    destruct (pte_page v) as [p|] eqn:Ev; [|done].
    rewrite ref_set_ref. destruct (Hp p eq_refl). pose proof (ref_range mm p).
    repeat case_decide; simplify_eq; try done. apply u32_small. lia. }
  apply (store_leaf mm tbl maps r va q v); auto.
  - unfold installed. by destruct (pte_page v).
  - destruct (pi_free _ _ _ I) as [Hn Hz]. split; [unfold installed; by destruct (pte_page v)|].
    intros x Hx. rewrite Href.
    assert (Hx' : x ∈ freePages mm) by (revert Hx; unfold installed; by destruct (pte_page v)).
    destruct (Hz _ Hx'). rewrite decide_False; [done|]. intros Ev. by destruct (Hp x Ev).
  - intros x Hx. rewrite Href. pose proof (pi_refs _ _ _ I x Hx) as Hrx.
    rewrite (refs_to_delete maps (r, vpn va)) in Hrx.
    unfold set_leaf. rewrite Hval, refs_to_insert.
    destruct (maps !! (r, vpn va)) as [e|]; simpl in Hold.
    + rewrite Hold, (decide_False (P := None = Some x)) in Hrx by done. case_decide; lia.
    + case_decide; lia.
Qed.

Lemma align_vpn va : 0 <= va < 2 ^ 39 -> vpn (va - va mod 4096) = vpn va.
Proof. intros. unfold vpn. Z.to_euclidean_division_equations; lia. Qed.

Lemma align_index va level :
  0 <= va < 2 ^ 39 -> 0 <= level <= 2 ->
  GET_PAGE_TABLE_INDEX (va - va mod 4096) level = GET_PAGE_TABLE_INDEX va level.
Proof.
  intros Hva Hl. assert (0 <= va - va mod 4096 < 2 ^ 39)
    by (Z.to_euclidean_division_equations; lia).
  rewrite !index_arith by lia. f_equal.
  assert (level = 0 \/ level = 1 \/ level = 2) as [-> | [-> | ->]] by lia;
  change (2 ^ (12 + 9 * 0)) with 4096; change (2 ^ (12 + 9 * 1)) with 2097152;
  change (2 ^ (12 + 9 * 2)) with 1073741824; Z.to_euclidean_division_equations; lia.
Qed.

(** What [pageInsert] does besides setting its translation: it may make tables
    out of free pages, it moves one reference from the page mapped before to the
    page mapped now, and it frees the former when that was its last reference. *)
Record ins_frame (mm : MM) (tbl : gmap Z owner) (mm' : MM) (tbl' : gmap Z owner)
    (old new : option Z) : Prop := {
  if_tbl : tbl ⊆ tbl';
  if_new : forall q, tbl !! q = None -> is_Some (tbl' !! q) -> q ∈ freePages mm;
  if_data : forall a, (forall q, q ∈ freePages mm \/ is_Some (tbl !! q) -> ~ in_page q a) ->
    load8 (mem mm') a = load8 (mem mm) a;
  if_ref : forall q, q ∉ freePages mm -> ref mm' q = ref mm q
    + (if decide (new = Some q) then 1 else 0) - (if decide (old = Some q) then 1 else 0);
  if_free : forall q, q ∈ freePages mm' ->
    q ∈ freePages mm \/ (old = Some q /\ ref mm q = 1);
  if_count : (length (freePages mm) + size tbl <= length (freePages mm') + size tbl')%nat;
  if_two : (length (freePages mm) <= 2 + length (freePages mm'))%nat;
}.

Definition old_page (maps : gmap (Z * Z) Z) (r va : Z) : option Z :=
  maps !! (r, vpn va) ≫= pte_page.

(** The part of [pageInsert] up to its second walk. *)
Lemma insert_clear mm tbl maps r va :
  pt_inv mm tbl maps -> tbl !! r = Some (Root r) -> 0 <= va < 2 ^ 39 ->
  exists mm1,
    (pte ← Page.pageWalk (page2pa r) va false;
     e ← gets (fun mm => match pte with Some pte => load64 (mem mm) pte | None => 0 end);
     when (c_true (Z.land e PTE_VALID)) (Page.pageRemove (page2pa r) va ;; mret tt)) mm
    = Ret tt mm1 /\
    match old_page maps r va with
    | None => mm1 = mm
    | Some p => exists q, leaf_of tbl r va q /\ 1 <= ref mm p /\ page_ok p /\
        mm1 = removed p (page2pa q + 8 * GET_PAGE_TABLE_INDEX va 0) mm /\
        pt_inv mm1 tbl (delete (r, vpn va) maps)
    end.
Proof.
  intros I Hr Hva. unfold old_page.
  pose proof (pageRemove_spec mm tbl maps r va I Hr Hva) as Hrm.
  destruct (pageWalk_ro mm tbl maps r va I Hr) as (t & Ht & Hc).
  rewrite (bind_Ret _ _ _ _ _ Ht). unfold mbind at 1, M_bind, gets. cbn -[Page.pageRemove].
  destruct t as [a|].
  - destruct Hc as (q & Hq & ->).
    pose proof (pi_leaf _ _ _ I _ _ _ _ _ Hq (index_range va 0)) as Hl.
    rewrite indices_vpn in Hl by done.
    fold (entry mm q (GET_PAGE_TABLE_INDEX va 0)).
    fold (pte_valid (entry mm q (GET_PAGE_TABLE_INDEX va 0))).
    rewrite Hl in *. destruct (pte_valid (entry mm q (GET_PAGE_TABLE_INDEX va 0))); [|by exists mm].
    simpl in *. destruct (pte_page (entry mm q (GET_PAGE_TABLE_INDEX va 0))) as [p|].
    + destruct Hrm as (q' & Hq' & ? & ? & Heq & ?). eexists. split.
      * unfold when. by rewrite (bind_Ret _ _ _ _ _ Heq).
      * exists q'. done.
    + exists mm. split; [|done]. unfold when. by rewrite (bind_Ret _ _ _ _ _ Hrm).
  - exists mm. split; [done|].
    destruct (maps !! (r, vpn va)) as [e|] eqn:E; [exfalso|done].
    destruct (pi_maps _ _ _ I _ _ _ E) as (p & i2 & i1 & i0 & Hp & ? & ? & ? & Hv).
    rewrite <- indices_vpn in Hv by done.
    apply leaf_vpn_inj in Hv as (<- & <- & <-); auto using index_range. by apply (Hc p).
Qed.

(** The part of [pageInsert] after its second walk. *)
Lemma insert_set pa perm addr mm :
  0 <= pa < 2 ^ 56 -> pa mod 4096 = 0 -> 0 <= perm < 1024 ->
  (modify (set_mem (store64 addr
     (Z.lor (Z.lor (PA2PTE pa) (Z.lor perm (Z.lor PTE_ACCESSED PTE_DIRTY))) PTE_VALID))) ;;
   when (IS_RAM pa) (match pa2page pa with Some page => Page.incref page | None => panic end) ;;
   mret 0) mm = Ret 0 (installed addr (new_pte pa perm) mm).
Proof.
  intros Hpa Hal Hperm. rewrite new_pte_lor by done. unfold installed, pte_page.
  rewrite PTE2PA_new_pte by done.
  unfold mbind, M_bind, modify, when. simpl. destruct (IS_RAM pa) eqn:E; [|done].
  by destruct (pa2page_ok _ E) as [-> _].
Qed.

Lemma installed_frame mm addr v q :
  ref (installed addr v mm) q =
    (if decide (pte_page v = Some q) then u32 (ref mm q + 1) else ref mm q)
  /\ freePages (installed addr v mm) = freePages mm
  /\ mem (installed addr v mm) = store64 addr v (mem mm).
Proof.
  unfold installed. cbv zeta. destruct (pte_page v) as [p|]; split_and!; try done.
  rewrite ref_set_ref. repeat case_decide; simplify_eq; try done.
Qed.

Lemma pageInsert_spec mm tbl maps r va pa perm :
  pt_inv mm tbl maps -> tbl !! r = Some (Root r) ->
  0 <= va < 2 ^ 39 -> 0 <= pa < 2 ^ 56 -> 0 <= perm < 1024 ->
  (2 <= length (freePages mm))%nat ->
  let v := new_pte (pa - pa mod 4096) perm in
  (forall p, pte_page v = Some p ->
     (p ∉ freePages mm) /\ ref mm p + 1 < 2 ^ 32 /\ (old_page maps r va = Some p -> ref mm p <> 1)) ->
  exists mm' tbl',
    Page.pageInsert (page2pa r) va pa perm mm = Ret 0 mm' /\
    pt_inv mm' tbl' (<[(r, vpn va) := v]> maps) /\
    ins_frame mm tbl mm' tbl' (old_page maps r va) (pte_page v).
Proof.
  intros I Hr Hva Hpa Hperm Hfr v Hp.
  set (va' := va - va mod 4096). set (pa' := pa - pa mod 4096) in *.
  assert (Hva' : 0 <= va' < 2 ^ 39) by (unfold va'; Z.to_euclidean_division_equations; lia).
  assert (Hpa' : 0 <= pa' < 2 ^ 56) by (unfold pa'; Z.to_euclidean_division_equations; lia).
  assert (Hal : pa' mod 4096 = 0) by (unfold pa'; Z.to_euclidean_division_equations; lia).
  assert (Hv : 0 <= v < 2 ^ 64) by (pose proof (new_pte_range pa' perm Hpa' Hperm); lia).
  assert (Hval : pte_valid v = true) by apply new_pte_valid.
  assert (Hvpn : vpn va' = vpn va) by by apply align_vpn.
  unfold Page.pageInsert. change PAGE_SIZE with 4096.
  rewrite !DOWN_ALIGN_4096 by lia. fold va' pa'.
  unfold old_page in *. rewrite <- Hvpn in *.
  destruct (insert_clear mm tbl maps r va' I Hr Hva') as (mm1 & H1 & Hcase).
  assert (Hassoc : forall B (k : unit -> M MM B),
    (pte ← Page.pageWalk (page2pa r) va' false;
     e ← gets (fun mm => match pte with Some pte => load64 (mem mm) pte | None => 0 end);
     when (c_true (Z.land e PTE_VALID)) (Page.pageRemove (page2pa r) va' ;; mret tt) ≫= k) mm
    = k tt mm1).
  { intros B k. revert H1. unfold mbind, M_bind, gets.
    destruct (Page.pageWalk (page2pa r) va' false mm); simpl; try done.
    intros ->. done. }
  unfold old_page in Hcase.
  rewrite Hassoc. clear Hassoc H1.
  destruct (maps !! (r, vpn va') ≫= pte_page) as [p|] eqn:Eold.
  - destruct Hcase as (q & Hq & Hge & Hpok & Hmm1 & I1).
    rewrite (bind_Ret _ _ _ _ _ (pageWalk_exists mm1 tbl _ r va' q true I1 Hr Hq)).
    rewrite insert_set by done. fold v.
    destruct (removed_frame p (page2pa q + 8 * GET_PAGE_TABLE_INDEX va' 0) mm) as [Hm1 Hf1].
    rewrite <- Hmm1 in Hm1, Hf1.
    assert (Hr1 : forall x, ref mm1 x = if decide (x = p) then ref mm p - 1 else ref mm x)
      by (intros; rewrite Hmm1; by apply removed_ref).
    eexists _, tbl. split; [done|]. split.
    + rewrite <- insert_delete_eq.
      apply install; auto; [by rewrite lookup_delete_eq|].
      intros x Hx. destruct (Hp x Hx) as (Hxf & Hxr & Hxo). rewrite Hr1, Hf1.
      split; [|case_decide; subst; lia].
      destruct (ref mm p =? 1) eqn:E1; [|done]. bsplit. apply not_elem_of_cons. split; [|done].
      intros ->. by apply Hxo.
    + constructor.
      * done.
      * intros x -> [? ?]. done.
      * intros a Ha. destruct (installed_frame mm1 (page2pa q + 8 * GET_PAGE_TABLE_INDEX va' 0) v 0)
          as (_ & _ & ->). rewrite Hm1.
        assert (~ in_page q a) by (apply Ha; right; by eexists).
        by rewrite !store_entry_data by (auto using index_range).
      * intros x Hx. destruct (installed_frame mm1 (page2pa q + 8 * GET_PAGE_TABLE_INDEX va' 0) v x)
          as (-> & _ & _). rewrite !Hr1. pose proof (ref_range mm x).
        case_decide as Ev.
        -- destruct (Hp x Ev) as (_ & Hxr & _).
           repeat case_decide; simplify_eq; rewrite u32_small; lia.
        -- repeat case_decide; simplify_eq; lia.
      * intros x. destruct (installed_frame mm1 (page2pa q + 8 * GET_PAGE_TABLE_INDEX va' 0) v 0)
          as (_ & -> & _). rewrite Hf1. destruct (ref mm p =? 1) eqn:E1; bsplit; [|by left].
        intros [->|?]%elem_of_cons; auto.
      * destruct (installed_frame mm1 (page2pa q + 8 * GET_PAGE_TABLE_INDEX va' 0) v 0)
          as (_ & -> & _). rewrite Hf1. destruct (ref mm p =? 1); simpl; lia.
      * destruct (installed_frame mm1 (page2pa q + 8 * GET_PAGE_TABLE_INDEX va' 0) v 0)
          as (_ & -> & _). rewrite Hf1. destruct (ref mm p =? 1); simpl; lia.
  - subst mm1.
    destruct (pageWalk_create mm tbl maps r va' I Hr Hfr) as (q & mm2 & tbl2 & Hw & I2 & Hq & G & L).
    rewrite (bind_Ret _ _ _ _ _ Hw), insert_set by done. fold v.
    assert (Hsuf : forall x, x ∈ freePages mm2 -> x ∈ freePages mm).
    { intros x Hx. destruct (gr_free _ _ _ _ G) as [l ->]. apply elem_of_app. by right. }
    eexists _, tbl2. split; [done|]. split.
    + apply install; auto.
      intros x Hx. destruct (Hp x Hx) as (Hxf & Hxr & _). split; [auto|].
      by rewrite (gr_ref _ _ _ _ G).
    + constructor.
      * apply G.
      * apply G.
      * intros a Ha. destruct (installed_frame mm2 (page2pa q + 8 * GET_PAGE_TABLE_INDEX va' 0) v 0)
          as (_ & _ & ->). rewrite store_entry_data, (gr_data _ _ _ _ G); auto using index_range.
        destruct (tbl !! q) eqn:Et; apply Ha; [right; by rewrite Et|left].
        apply (gr_new _ _ _ _ G); [done|]. by eexists.
      * intros x Hx. destruct (installed_frame mm2 (page2pa q + 8 * GET_PAGE_TABLE_INDEX va' 0) v x)
          as (-> & _ & _). rewrite (gr_ref _ _ _ _ G) by done. pose proof (ref_range mm x).
        rewrite (decide_False (P := None = Some x)) by done.
        case_decide as Ev; [|lia]. destruct (Hp x Ev) as (_ & Hxr & _). rewrite u32_small; lia.
      * intros x. destruct (installed_frame mm2 (page2pa q + 8 * GET_PAGE_TABLE_INDEX va' 0) v 0)
          as (_ & -> & _). auto.
      * destruct (installed_frame mm2 (page2pa q + 8 * GET_PAGE_TABLE_INDEX va' 0) v 0)
          as (_ & -> & _). pose proof (gr_used _ _ _ _ G). lia.
      * by destruct (installed_frame mm2 (page2pa q + 8 * GET_PAGE_TABLE_INDEX va' 0) v 0)
          as (_ & -> & _).
Qed.
