(* ===== verification/PageFree.v ===== *)
(** * Page.c: destroying a page directory

    [pgdirFree] walks the three levels of a directory, takes one reference off
    every page it maps and returns its tables to the free list.  While it runs
    the tables already freed are still linked from their parents, so the walk
    has an invariant of its own: what is left of the directory is read from
    memory, and the counts are those of the start less what the walk has
    dropped.  At the end the directory is forgotten and the invariant of
    PageInv.v holds for the others. *)

From S2P Require Import Prelude CType Mem Config Queue Page PageInv.

(** ** The tables and translations of one directory *)

Definition root_of (o : owner) : Z := match o with Root r | Mid r _ | Leaf r _ _ => r end.

(** The tables and the translations of the directories other than [r]. *)
Definition other_tables (r : Z) (tbl : gmap Z owner) : gmap Z owner :=
  filter (fun po : Z * owner => root_of po.2 <> r) tbl.
Definition other_maps (r : Z) (maps : gmap (Z * Z) Z) : gmap (Z * Z) Z :=
  filter (fun kv : (Z * Z) * Z => kv.1.1 <> r) maps.
(** The translations of [r] below virtual page [n]. *)
Definition maps_below (r n : Z) (maps : gmap (Z * Z) Z) : gmap (Z * Z) Z :=
  filter (fun kv : (Z * Z) * Z => kv.1.1 = r /\ kv.1.2 < n) maps.

Lemma other_tables_Some r tbl p o : other_tables r tbl !! p = Some o <-> tbl !! p = Some o /\ root_of o <> r.
Proof. unfold other_tables. by rewrite map_lookup_filter_Some. Qed.

Lemma other_maps_ne r maps x v : x <> r -> other_maps r maps !! (x, v) = maps !! (x, v).
Proof.
  intros Hx. unfold other_maps. apply option_eq. intros e. rewrite map_lookup_filter_Some. naive_solver.
Qed.

Lemma other_maps_eq r maps v : other_maps r maps !! (r, v) = None.
Proof. unfold other_maps. apply map_lookup_filter_None. right. naive_solver. Qed.

Lemma other_maps_Some r maps x v e : other_maps r maps !! (x, v) = Some e <-> maps !! (x, v) = Some e /\ x <> r.
Proof. unfold other_maps. by rewrite map_lookup_filter_Some. Qed.

Lemma child_root o i : is_dir o = true -> root_of (child o i) = root_of o.
Proof. by destruct o. Qed.

Lemma refs_to_subseteq m m' p : m ⊆ m' -> refs_to m p <= refs_to m' p.
Proof.
  intros Hs. unfold refs_to. apply inj_le, map_subseteq_size, map_subseteq_spec. intros k e.
  rewrite !map_lookup_filter_Some. intros [Hk ?]. split; [|done]. by eapply lookup_weaken.
Qed.

Lemma refs_to_union m m' p : m ##ₘ m' -> refs_to (m ∪ m') p = refs_to m p + refs_to m' p.
Proof.
  intros Hd. unfold refs_to. rewrite map_filter_union by done. rewrite map_size_disj_union; [lia|].
  eapply map_disjoint_weaken; [exact Hd| |]; apply map_filter_subseteq.
Qed.

(** The invariant does not depend on any one directory. *)
Lemma forget_root mm tbl maps r :
  pt_inv mm tbl maps -> pt_inv mm (other_tables r tbl) (other_maps r maps).
Proof.
  intros I. constructor.
  - apply I.
  - intros p o [Hp _]%other_tables_Some. by eapply (pi_tbl _ _ _ I).
  - intros p x [Hp _]%other_tables_Some. by eapply (pi_root _ _ _ I).
  - intros p q o [Hp _]%other_tables_Some [Hq _]%other_tables_Some. by eapply (pi_uniq _ _ _ I).
  - intros q o i Hd [Hq Hr]%other_tables_Some. rewrite child_root in Hr by done.
    destruct (pi_parent _ _ _ I q o i Hd Hq) as [? [p Hp]]. split; [done|]. exists p.
    by apply other_tables_Some.
  - intros p o i [Hp Hr]%other_tables_Some Hd Hi.
    destruct (pi_dir _ _ _ I p o i Hp Hd Hi) as [[He Hno]|(q & Hq & He)]; [left|right].
    + split; [done|]. intros q [Hq _]%other_tables_Some. by apply (Hno q).
    + exists q. split; [|done]. apply other_tables_Some. by rewrite child_root.
  - intros p x i2 i1 i0 [Hp Hr]%other_tables_Some Hi. rewrite other_maps_ne by done.
    by apply (pi_leaf _ _ _ I).
  - intros x v e [He Hx]%other_maps_Some. destruct (pi_maps _ _ _ I _ _ _ He) as (p & i2 & i1 & i0 & Hp & ?).
    exists p, i2, i1, i0. split; [|done]. by apply other_tables_Some.
  - intros p Hp. pose proof (pi_refs _ _ _ I p Hp).
    pose proof (refs_to_subseteq (other_maps r maps) maps p (map_filter_subseteq _ _)).
    destruct (other_tables r tbl !! p) eqn:E; [|destruct (tbl !! p); lia].
    apply other_tables_Some in E as [E _]. rewrite E in *. lia.
Qed.

(** ** Counting what the walk has dropped *)

Lemma below_step r n maps e p : maps !! (r, n) = Some e ->
  refs_to (maps_below r (n + 1) maps) p =
  refs_to (maps_below r n maps) p + (if decide (pte_page e = Some p) then 1 else 0).
Proof.
  intros He. replace (maps_below r (n + 1) maps) with (<[(r, n) := e]> (maps_below r n maps)).
  - rewrite refs_to_insert, delete_id; [done|]. apply map_lookup_filter_None. right. intros x _ [_ H]. simpl in H. lia.
  - apply map_eq. intros [a b]. apply option_eq. intros x. unfold maps_below.
    rewrite lookup_insert_Some, !map_lookup_filter_Some. simpl. split.
    + intros [[Hk <-]|(Hk & H1 & H2 & H3)]; [injection Hk as <- <-|]; split_and!; try done; lia.
    + intros (H1 & -> & H3). destruct (decide (b = n)) as [-> |]; [left; by simplify_eq|].
      right. split; [congruence|]. split_and!; try done. lia.
Qed.

Lemma below_skip r n maps : maps !! (r, n) = None -> maps_below r (n + 1) maps = maps_below r n maps.
Proof.
  intros He. unfold maps_below. apply map_filter_ext. intros [a b] x Hx. simpl. split; [|intros [??]; split; [done|lia]].
  intros [-> Hb]. split; [done|]. destruct (decide (b = n)) as [-> |]; [congruence|lia].
Qed.

Lemma below_le r n maps p : refs_to (maps_below r n maps) p <= refs_to maps p.
Proof. apply refs_to_subseteq, map_filter_subseteq. Qed.

(** All translations are those of [r] and those of the others. *)
Lemma below_all mm tbl maps r p : pt_inv mm tbl maps ->
  refs_to maps p = refs_to (maps_below r (2 ^ 27) maps) p + refs_to (other_maps r maps) p.
Proof.
  intros I. rewrite <- refs_to_union.
  - f_equal. apply map_eq. intros [a b]. apply option_eq. intros e.
    assert (Hd : maps_below r (2 ^ 27) maps ##ₘ other_maps r maps).
    { apply map_disjoint_spec. intros k x y. unfold maps_below, other_maps.
      rewrite !map_lookup_filter_Some. naive_solver. }
    rewrite lookup_union_Some by done. unfold maps_below, other_maps. rewrite !map_lookup_filter_Some. simpl.
    split; [|naive_solver]. intros He. destruct (decide (a = r)) as [-> |]; [left|by right].
    destruct (pi_maps _ _ _ I _ _ _ He) as (q & i2 & i1 & i0 & _ & ? & ? & ? & ->).
    split_and!; [done|done|]. unfold leaf_vpn. lia.
  - apply map_disjoint_spec. intros k x y. unfold maps_below, other_maps.
    rewrite !map_lookup_filter_Some. naive_solver.
Qed.

(** ** The walk *)

Lemma free_va i j k : 0 <= i < 512 -> 0 <= j < 512 -> 0 <= k < 512 ->
  Z.lor (Z.lor (Z.shiftl i 30) (Z.shiftl j 21)) (Z.shiftl k 12) = leaf_vpn i j k * 4096.
Proof.
  intros Hi Hj Hk.
  rewrite <- Z.lor_assoc, (Z.shiftl_mul_pow2 k 12), (lor_shift_add j _ 21), lor_shift_add by lia.
  unfold leaf_vpn. lia.
Qed.

(** Looking up and removing the translation at three given indices, from what the
    entries on the way hold. *)
Lemma lookup_entries mm r q1 q i j k :
  page_ok q1 -> page_ok q -> 0 <= i < 512 -> 0 <= j < 512 -> 0 <= k < 512 ->
  entry mm r i = mk_pte (page2pa q1) PTE_VALID -> entry mm q1 j = mk_pte (page2pa q) PTE_VALID ->
  pte_valid (entry mm q k) = true ->
  Page.pageLookup (page2pa r) (leaf_vpn i j k * 4096) mm =
    Ret (PTE2PA (entry mm q k), Some (page2pa q + 8 * k)) mm.
Proof.
  intros Hq1 Hq Hi Hj Hk E1 E0 Hv. destruct (leaf_index i j k Hi Hj Hk) as (_ & _ & I2 & I1 & I0).
  assert (Hw : Page.pageWalk (page2pa r) (leaf_vpn i j k * 4096) false mm = Ret (Some (page2pa q + 8 * k)) mm).
  { unfold Page.pageWalk. rewrite I2, I1, I0.
    rewrite (bind_Ret _ _ _ _ _ (walk_level_hit mm r i q1 false Hq1 E1)).
    by rewrite (bind_Ret _ _ _ _ _ (walk_level_hit mm q1 j q false Hq E0)). }
  unfold Page.pageLookup. rewrite (bind_Ret _ _ _ _ _ Hw), bind_gets.
  unfold entry, pte_valid in *. by rewrite Hv.
Qed.

Section teardown.
Context (mm0 : MM) (tbl0 : gmap Z owner) (maps0 : gmap (Z * Z) Z) (r : Z).
Hypothesis I0 : pt_inv mm0 tbl0 maps0.
Hypothesis Hroot : tbl0 !! r = Some (Root r).
Hypothesis Hone : forall q o, tbl0 !! q = Some o -> root_of o = r -> ref mm0 q = 1.

(** The tables freed so far: the leaf tables before number [a], the middle ones
    before [b], and the root when [c]. *)
Definition gone (a b : Z) (c : bool) (o : owner) : bool :=
  (root_of o =? r) &&
  match o with Root _ => c | Mid _ i => i <? b | Leaf _ i j => i * 512 + j <? a end.
Definition lost (a b : Z) (c : bool) (p : Z) : Z :=
  match tbl0 !! p with Some o => if gone a b c o then 1 else 0 | None => 0 end.

Local Notation dropped n := (refs_to (maps_below r n maps0)).

Record torn (n a b : Z) (c : bool) (mm : MM) : Prop := {
  to_leaf : forall q i j k, tbl0 !! q = Some (Leaf r i j) -> 0 <= k < 512 -> n <= leaf_vpn i j k ->
    entry mm q k = entry mm0 q k;
  to_data : forall x, (forall q i j, tbl0 !! q = Some (Leaf r i j) -> ~ in_page q x) ->
    load8 (mem mm) x = load8 (mem mm0) x;
  to_ref : forall p, ref mm p = ref mm0 p - dropped n p - lost a b c p;
  to_nodup : NoDup (freePages mm);
  to_free : forall p, p ∈ freePages mm <->
    p ∈ freePages mm0 \/ (page_ok p /\ 0 < ref mm0 p /\ ref mm p = 0);
}.

Lemma torn_start : torn 0 0 0 false mm0.
Proof.
  assert (Hz : forall p, dropped 0 p = 0).
  { intros p. unfold refs_to. replace (maps_below r 0 maps0) with (∅ : gmap (Z * Z) Z);
      [by rewrite map_filter_empty, map_size_empty|].
    symmetry. apply map_empty. intros [x v]. apply map_lookup_filter_None. right. intros e He [_ Hv]. simpl in Hv.
    destruct (pi_maps _ _ _ I0 _ _ _ He) as (q & i2 & i1 & i0 & _ & ? & ? & ? & ->). unfold leaf_vpn in Hv. lia. }
  destruct (pi_free _ _ _ I0) as [Hn Hf]. constructor; try done.
  - intros p. rewrite Hz. unfold lost. destruct (tbl0 !! p) as [o|] eqn:E; [|lia].
    assert (gone 0 0 false o = false) as ->; [|lia]. unfold gone. apply andb_false_intro2.
    destruct o as [x|x i|x i j]; [done| |]; apply Z.ltb_ge.
    + destruct (pi_parent _ _ _ I0 p (Root x) i eq_refl E). lia.
    + destruct (pi_parent _ _ _ I0 p (Mid x i) j eq_refl E) as [? [q Hq]].
      destruct (pi_parent _ _ _ I0 q (Root x) i eq_refl Hq). lia.
  - intros p. split; [by left|]. intros [?|(? & ? & ?)]; [done|lia].
Qed.

(** The tables above the leaves are as at the start. *)
Lemma torn_dir n a b c mm p o i :
  torn n a b c mm -> tbl0 !! p = Some o -> (is_dir o = true \/ root_of o <> r) -> 0 <= i < 512 ->
  entry mm p i = entry mm0 p i.
Proof.
  intros T Hp Ho Hi. unfold entry, load64. apply load_le_ext. intros x Hx. apply (to_data _ _ _ _ _ T).
  intros q i2 i1 Hq.
  apply (in_page_disjoint p q); [exact (pi_tbl _ _ _ I0 _ _ Hp)|exact (pi_tbl _ _ _ I0 _ _ Hq)| |].
  - intros ->. rewrite Hq in Hp. injection Hp as <-. by destruct Ho.
  - eapply entry_in_page; [exact Hi|exact Hx].
Qed.

Lemma torn_child n a b c mm p o i q :
  torn n a b c mm -> tbl0 !! p = Some o -> is_dir o = true -> 0 <= i < 512 -> tbl0 !! q = Some (child o i) ->
  entry mm p i = mk_pte (page2pa q) PTE_VALID.
Proof.
  intros T Hp Hd Hi Hq. rewrite (torn_dir _ _ _ _ _ _ _ _ T Hp) by auto.
  destruct (pi_dir _ _ _ I0 p o i Hp Hd Hi) as [[_ Hno]|(z & Hz & ->)]; [by destruct (Hno q)|].
  by assert (z = q) as -> by (by eapply (pi_uniq _ _ _ I0)).
Qed.

(** A page that is still counted is not on the free list. *)
Lemma torn_counted n a b c mm p : torn n a b c mm -> 1 <= ref mm p -> p ∉ freePages mm.
Proof.
  intros T Hp Hin. apply (to_free _ _ _ _ _ T) in Hin as [Hin|(_ & _ & H)]; [|lia].
  destruct (proj2 (pi_free _ _ _ I0) _ Hin) as [_ Hz]. rewrite (to_ref _ _ _ _ _ T), Hz in Hp.
  assert (0 <= dropped n p) by (unfold refs_to; lia).
  assert (0 <= lost a b c p) by (unfold lost; destruct (tbl0 !! p); [destruct (gone _ _ _ _)|]; lia). lia.
Qed.

(** One reference less, and the page freed when it was the last. *)
Lemma torn_drop n a b c mm mm' n' a' b' c' p :
  torn n a b c mm -> page_ok p -> 1 <= ref mm p ->
  (forall x, ref mm' x = if decide (x = p) then ref mm p - 1 else ref mm x) ->
  freePages mm' = (if ref mm p =? 1 then p :: freePages mm else freePages mm) ->
  (forall x, dropped n' x + lost a' b' c' x = dropped n x + lost a b c x + (if decide (x = p) then 1 else 0)) ->
  (forall q i j k, tbl0 !! q = Some (Leaf r i j) -> 0 <= k < 512 -> n' <= leaf_vpn i j k ->
     entry mm' q k = entry mm0 q k) ->
  (forall x, (forall q i j, tbl0 !! q = Some (Leaf r i j) -> ~ in_page q x) ->
     load8 (mem mm') x = load8 (mem mm) x) ->
  torn n' a' b' c' mm'.
Proof.
  intros T Hp H1 Hr Hf Hc Hl Hd. pose proof (torn_counted _ _ _ _ _ _ T H1) as Hnf.
  pose proof (to_ref _ _ _ _ _ T) as Tr.
  assert (Hp0 : 0 < ref mm0 p).
  { rewrite Tr in H1. assert (0 <= dropped n p) by (unfold refs_to; lia).
    assert (0 <= lost a b c p) by (unfold lost; destruct (tbl0 !! p); [destruct (gone _ _ _ _)|]; lia). lia. }
  constructor; try done.
  - intros x Hx. rewrite Hd by done. by apply (to_data _ _ _ _ _ T).
  - intros x. rewrite Hr. specialize (Hc x). specialize (Tr x). case_decide; subst; lia.
  - rewrite Hf. destruct (ref mm p =? 1); [|apply T]. constructor; [done|apply T].
  - intros x. rewrite Hf, Hr. pose proof (to_free _ _ _ _ _ T x) as Tx.
    destruct (decide (x = p)) as [-> |Hne].
    + destruct (Z.eqb_spec (ref mm p) 1) as [E|E].
      * split; [right; split_and!; [done|done|lia]|left].
      * split; [by intros ?|]. intros [Hx|(? & ? & ?)]; [by apply Tx; left|lia].
    + rewrite <- Tx. destruct (ref mm p =? 1); [|done]. rewrite elem_of_cons. naive_solver.
Qed.

(** Nothing counted at virtual page [n], or no table where the walk passes. *)
Lemma torn_skip n a b c n' a' b' c' mm :
  torn n a b c mm -> n <= n' ->
  (forall x, dropped n' x + lost a' b' c' x = dropped n x + lost a b c x) -> torn n' a' b' c' mm.
Proof.
  intros [Tl Td Tr Tn Tf] Hn Hc. constructor; try done.
  - intros q i j k Hq Hk Hv. apply (Tl q i j k Hq Hk). lia.
  - intros x. rewrite Tr. specialize (Hc x). lia.
Qed.

Lemma dropped_skip n x : maps0 !! (r, n) ≫= pte_page = None -> dropped (n + 1) x = dropped n x.
Proof.
  destruct (maps0 !! (r, n)) as [e|] eqn:E; simpl; intros He; [|by rewrite below_skip].
  rewrite (below_step r n maps0 e) by done. rewrite He, decide_False by done. lia.
Qed.

Lemma dropped_range n m x : (forall v, n <= v < n + Z.of_nat m -> maps0 !! (r, v) = None) ->
  dropped (n + Z.of_nat m) x = dropped n x.
Proof.
  induction m as [|m IH]; intros H; [by rewrite Z.add_0_r|].
  replace (n + Z.of_nat (S m)) with (n + Z.of_nat m + 1) by lia.
  rewrite below_skip by (apply H; lia). apply IH. intros v Hv. apply H. lia.
Qed.

Lemma no_leaf_unmapped i j v : (forall q, tbl0 !! q <> Some (Leaf r i j)) ->
  0 <= i < 512 -> 0 <= j < 512 -> leaf_vpn i j 0 <= v < leaf_vpn i j 0 + 512 -> maps0 !! (r, v) = None.
Proof.
  intros Hno Hi Hj Hv. destruct (maps0 !! (r, v)) as [e|] eqn:E; [exfalso|done].
  destruct (pi_maps _ _ _ I0 _ _ _ E) as (p & i2 & i1 & i0 & Hp & H2 & H1 & H0 & Hvv).
  assert (i2 = i /\ i1 = j) as [-> ->] by (unfold leaf_vpn in *; lia). by apply (Hno p).
Qed.

(** The reference that a translation not yet dropped still holds. *)
Lemma torn_mapped n a b c mm e p :
  torn n a b c mm -> maps0 !! (r, n) = Some e -> pte_page e = Some p -> 1 <= ref mm p.
Proof.
  intros T He Hp. rewrite (to_ref _ _ _ _ _ T). destruct (pte_page_Some _ _ Hp) as (Hok & _).
  pose proof (pi_refs _ _ _ I0 p Hok). pose proof (below_le r (n + 1) maps0 p) as Hb.
  rewrite (below_step r n maps0 e p He), decide_True in Hb by done. unfold lost.
  destruct (tbl0 !! p); [destruct (gone _ _ _ _)|]; lia.
Qed.

(** One entry of a leaf table. *)
Lemma torn_entry i j k q a b c mm :
  torn (leaf_vpn i j k) a b c mm -> 0 <= i < 512 -> 0 <= j < 512 -> 0 <= k < 512 ->
  tbl0 !! q = Some (Leaf r i j) ->
  exists mm',
    (e ← gets (fun mm => load64 (mem mm) (page2pa q + 8 * k));
     when (c_true (Z.land e PTE_VALID))
       (Page.pageRemove (page2pa r) (Z.lor (Z.lor (Z.shiftl i 30) (Z.shiftl j 21)) (Z.shiftl k 12)) ;;
        mret tt)) mm = Ret tt mm' /\
    torn (leaf_vpn i j (k + 1)) a b c mm'.
Proof.
  intros T Hi Hj Hk Hq. replace (leaf_vpn i j (k + 1)) with (leaf_vpn i j k + 1) by (unfold leaf_vpn; lia).
  pose proof (pi_leaf _ _ _ I0 _ _ _ _ _ Hq Hk) as Hl.
  assert (He : entry mm q k = entry mm0 q k) by (apply (to_leaf _ _ _ _ _ T q i j); [done|done|lia]).
  rewrite free_va, bind_gets by done. fold (entry mm q k). fold (pte_valid (entry mm q k)).
  rewrite <- He in Hl. destruct (pte_valid (entry mm q k)) eqn:Ev; cbn [when].
  2: { exists mm. split; [done|]. apply (torn_skip _ a b c _ _ _ _ _ T); [lia|].
       intros x. by rewrite dropped_skip by (by rewrite Hl). }
  destruct (pi_parent _ _ _ I0 q (Mid r i) j eq_refl Hq) as [_ [q1 Hq1]].
  pose proof (pi_tbl _ _ _ I0 _ _ Hq) as Hqok.
  pose proof (lookup_entries mm r q1 q i j k (pi_tbl _ _ _ I0 _ _ Hq1) Hqok Hi Hj Hk
    (torn_child _ _ _ _ _ _ _ _ _ T Hroot eq_refl Hi Hq1)
    (torn_child _ _ _ _ _ _ _ _ _ T Hq1 eq_refl Hj Hq) Ev) as Hlook.
  pose proof (fun p => torn_mapped _ _ _ _ _ _ p T Hl) as Hge.
  pose proof (pageRemove_run _ _ _ _ _ Hlook Hge) as Hrun.
  destruct (pte_page (entry mm q k)) as [p|] eqn:Ep.
  2: { rewrite (bind_Ret _ _ _ _ _ Hrun). exists mm. split; [done|].
       apply (torn_skip _ a b c _ _ _ _ _ T); [lia|]. intros x. by rewrite dropped_skip by (by rewrite Hl). }
  rewrite (bind_Ret _ _ _ _ _ Hrun). specialize (Hge p eq_refl).
  destruct (pte_page_Some _ _ Ep) as (Hok & _). destruct (removed_frame p (page2pa q + 8 * k) mm) as [Hm Hf].
  eexists. split; [done|].
  apply (torn_drop _ a b c mm _ _ _ _ _ p T Hok Hge (fun x => removed_ref p _ mm x Hge) Hf).
  - intros x. rewrite (below_step r _ maps0 (entry mm q k)) by done. rewrite Ep.
    destruct (decide (x = p)) as [-> |]; [rewrite decide_True by done|rewrite decide_False by congruence]; lia.
  - intros q' i' j' k' Hq' Hk' Hv. rewrite <- (to_leaf _ _ _ _ _ T q' i' j' k' Hq' Hk') by lia.
    unfold entry. rewrite Hm. apply load64_store64_ne.
    apply entry_addr_disjoint; [done|by eapply (pi_tbl _ _ _ I0)|done|done|].
    destruct (decide (q = q')) as [<- |]; [right|by left]. intros <-. rewrite Hq in Hq'. injection Hq' as <- <-. lia.
  - intros x Hx. rewrite Hm. apply store_entry_data; [done|]. by apply (Hx q i j).
Qed.

(** The table freed next, when there is one. *)
Definition next_lost (o : owner) (a b : Z) (c : bool) (a' b' : Z) (c' : bool) : Prop :=
  forall x, lost a' b' c' x = lost a b c x + (if decide (tbl0 !! x = Some o) then 1 else 0).

Lemma leaf_range q i j : tbl0 !! q = Some (Leaf r i j) -> 0 <= i < 512 /\ 0 <= j < 512.
Proof.
  intros Hq. destruct (pi_parent _ _ _ I0 q (Mid r i) j eq_refl Hq) as [? [p Hp]].
  by destruct (pi_parent _ _ _ I0 p (Root r) i eq_refl Hp) as [? _].
Qed.

Lemma next_leaf i j b c : 0 <= i < 512 -> 0 <= j < 512 ->
  next_lost (Leaf r i j) (i * 512 + j) b c (i * 512 + j + 1) b c.
Proof.
  intros Hi Hj x. unfold lost, gone. destruct (tbl0 !! x) as [[y|y i'|y i' j']|] eqn:E; cbn [root_of];
    try (rewrite decide_False by done; lia).
  destruct (Z.eqb_spec y r) as [-> |]; cbn [andb]; [|rewrite decide_False by congruence; lia].
  destruct (leaf_range _ _ _ E). destruct (Z.ltb_spec (i' * 512 + j') (i * 512 + j + 1)),
    (Z.ltb_spec (i' * 512 + j') (i * 512 + j)); try lia.
  - rewrite decide_False by (intros [= -> ->]; lia). lia.
  - assert (i' = i /\ j' = j) as [-> ->] by lia. rewrite decide_True by done. lia.
  - rewrite decide_False by (intros [= -> ->]; lia). lia.
Qed.

Lemma next_mid i a c : next_lost (Mid r i) a i c a (i + 1) c.
Proof.
  intros x. unfold lost, gone. destruct (tbl0 !! x) as [[y|y i'|y i' j']|] eqn:E; cbn [root_of];
    try (rewrite decide_False by done; lia).
  destruct (Z.eqb_spec y r) as [-> |]; cbn [andb]; [|rewrite decide_False by congruence; lia].
  destruct (Z.ltb_spec i' (i + 1)), (Z.ltb_spec i' i); try lia.
  - rewrite decide_False by (intros [= ->]; lia). lia.
  - assert (i' = i) as -> by lia. rewrite decide_True by done. lia.
  - rewrite decide_False by (intros [= ->]; lia). lia.
Qed.

Lemma next_root a b : next_lost (Root r) a b false a b true.
Proof.
  intros x. unfold lost, gone. destruct (tbl0 !! x) as [[y|y i'|y i' j']|] eqn:E; cbn [root_of];
    try (rewrite decide_False by done; lia).
  destruct (Z.eqb_spec y r) as [-> |]; cbn [andb]; [by rewrite decide_True|].
  rewrite decide_False by congruence. lia.
Qed.

(** Freeing a table: its parent held the only reference. *)
Lemma torn_table n o a b c a' b' c' mm q :
  torn n a b c mm -> tbl0 !! q = Some o -> root_of o = r -> next_lost o a b c a' b' c' ->
  exists mm', Page.paDecreaseRef (page2pa q) mm = Ret tt mm' /\ torn n a' b' c' mm'.
Proof.
  intros T Hq Ho Hnext. pose proof (pi_tbl _ _ _ I0 _ _ Hq) as Hok.
  assert (H1 : ref mm q = 1).
  { rewrite (to_ref _ _ _ _ _ T), (Hone q o Hq Ho). pose proof (pi_refs _ _ _ I0 q Hok) as Hr.
    rewrite Hq, (Hone q o Hq Ho) in Hr. pose proof (below_le r n maps0 q).
    assert (0 <= dropped n q) by (unfold refs_to; lia).
    specialize (Hnext q). rewrite decide_True in Hnext by done. unfold lost in *. rewrite Hq in *.
    destruct (gone a' b' c' o), (gone a b c o); lia. }
  exists (set_free (fun l => q :: l) (set_ref q 0 mm)). split.
  - unfold Page.paDecreaseRef. rewrite pa2page_page2pa by done.
    rewrite (bind_Ret _ _ _ _ _ (decref_eq q mm)), bind_gets, ref_set_ref, decide_True, H1 by done. done.
  - apply (torn_drop n a b c mm _ n a' b' c' q T Hok); try done.
    + lia.
    + intros x. rewrite H1. change (ref (set_free _ ?m) x) with (ref m x). by rewrite ref_set_ref.
    + by rewrite H1.
    + intros x. rewrite Hnext. destruct (decide (x = q)) as [-> |Hne]; [rewrite decide_True by done; lia|].
      rewrite decide_False; [lia|]. intros Hx. by apply Hne, (pi_uniq _ _ _ I0 x q o).
    + apply T.
Qed.

Definition free_leaf (pgdir i j pa2 : Z) : M MM unit :=
  for_up 512 0 (fun k =>
    e ← gets (fun mm => load64 (mem mm) (pa2 + 8 * k));
    when (c_true (Z.land e PTE_VALID)) (
      Page.pageRemove pgdir (Z.lor (Z.lor (Z.shiftl i 30) (Z.shiftl j 21)) (Z.shiftl k 12)) ;;
      mret tt)) ;;
  modify (set_mem (store64 (pa2 + 8 * j) 0)) ;;
  Page.paDecreaseRef pa2.

(** A leaf table: its pages, the stray store into it, and the table itself. *)
Lemma torn_leaf i j q b c mm :
  torn (leaf_vpn i j 0) (i * 512 + j) b c mm -> 0 <= i < 512 -> 0 <= j < 512 -> tbl0 !! q = Some (Leaf r i j) ->
  exists mm', free_leaf (page2pa r) i j (page2pa q) mm = Ret tt mm' /\
    torn (leaf_vpn i (j + 1) 0) (i * 512 + j + 1) b c mm'.
Proof.
  intros T Hi Hj Hq. unfold free_leaf.
  destruct (for_up_inv (fun k => torn (leaf_vpn i j k) (i * 512 + j) b c)
    (fun k => e ← gets (fun mm => load64 (mem mm) (page2pa q + 8 * k));
      when (c_true (Z.land e PTE_VALID))
        (Page.pageRemove (page2pa r) (Z.lor (Z.lor (Z.shiftl i 30) (Z.shiftl j 21)) (Z.shiftl k 12)) ;;
         mret tt)) 512 0 mm) as (mm1 & Hrun & T1); [|done|].
  { intros k s Hk Ts. by apply torn_entry; try lia. }
  rewrite (bind_Ret _ _ _ _ _ Hrun), bind_modify.
  replace (leaf_vpn i j (0 + Z.of_nat 512)) with (leaf_vpn i (j + 1) 0) in T1 by (unfold leaf_vpn; lia).
  assert (T2 : torn (leaf_vpn i (j + 1) 0) (i * 512 + j) b c (set_mem (store64 (page2pa q + 8 * j) 0) mm1)).
  { destruct T1 as [Tl Td Tr Tn Tf]. constructor; try done.
    - intros q' i' j' k' Hq' Hk' Hv. rewrite <- (Tl q' i' j' k' Hq' Hk' Hv).
      apply entry_store_ne; [by eapply (pi_tbl _ _ _ I0)|by eapply (pi_tbl _ _ _ I0)|done|done|].
      left. intros <-. rewrite Hq in Hq'. injection Hq' as <- <-. unfold leaf_vpn in Hv. lia.
    - intros x Hx. rewrite <- (Td x Hx). apply store_entry_data; [done|]. by apply (Hx q i j). }
  apply (torn_table _ (Leaf r i j) _ _ _ _ _ _ _ q T2 Hq eq_refl). by apply next_leaf.
Qed.

(** What reading a directory entry finds while the walk runs. *)
Lemma torn_read n a b c mm p o i :
  torn n a b c mm -> tbl0 !! p = Some o -> is_dir o = true -> 0 <= i < 512 ->
  (c_true (Z.land (entry mm p i) PTE_VALID) = false /\ forall q, tbl0 !! q <> Some (child o i)) \/
  (exists q, tbl0 !! q = Some (child o i) /\ c_true (Z.land (entry mm p i) PTE_VALID) = true /\
     PTE2PA (entry mm p i) = page2pa q).
Proof.
  intros T Hp Hd Hi. rewrite (torn_dir _ _ _ _ _ _ _ _ T Hp) by auto. by apply (dir_entry_read mm0 tbl0 maps0).
Qed.

Definition free_mid (pgdir i pa : Z) : M MM unit :=
  for_up 512 0 (fun j =>
    e ← gets (fun mm => load64 (mem mm) (pa + 8 * j));
    when (c_true (Z.land e PTE_VALID)) (free_leaf pgdir i j (PTE2PA e))) ;;
  Page.paDecreaseRef pa.

(** A middle table: its leaf tables and then the table itself. *)
Lemma torn_mid i q mm :
  torn (leaf_vpn i 0 0) (i * 512) i false mm -> 0 <= i < 512 -> tbl0 !! q = Some (Mid r i) ->
  exists mm', free_mid (page2pa r) i (page2pa q) mm = Ret tt mm' /\
    torn (leaf_vpn (i + 1) 0 0) ((i + 1) * 512) (i + 1) false mm'.
Proof.
  intros T Hi Hq. unfold free_mid.
  destruct (for_up_inv (fun j => torn (leaf_vpn i j 0) (i * 512 + j) i false)
    (fun j => e ← gets (fun mm => load64 (mem mm) (page2pa q + 8 * j));
       when (c_true (Z.land e PTE_VALID)) (free_leaf (page2pa r) i j (PTE2PA e))) 512 0 mm)
    as (mm1 & Hrun & T1); [|by rewrite Z.add_0_r|].
  - intros j s Hj Ts. rewrite bind_gets. fold (entry s q j).
    destruct (torn_read _ _ _ _ _ _ _ j Ts Hq eq_refl ltac:(lia)) as [[-> Hno]|(q' & Hq' & -> & ->)]; cbn [when].
    + exists s. split; [done|].
      apply (torn_skip _ _ _ _ _ _ _ _ _ Ts); [unfold leaf_vpn; lia|]. intros x.
      rewrite Z.add_assoc, (next_leaf i j i false ltac:(lia) ltac:(lia) x), decide_False by apply (Hno x).
      replace (leaf_vpn i (j + 1) 0) with (leaf_vpn i j 0 + Z.of_nat 512) by (unfold leaf_vpn; lia).
      rewrite dropped_range; [lia|]. intros v Hv. apply (no_leaf_unmapped i j); [done|lia|lia|lia].
    + rewrite Z.add_assoc. by apply torn_leaf; try lia.
  - rewrite (bind_Ret _ _ _ _ _ Hrun).
    replace (leaf_vpn i (0 + Z.of_nat 512) 0) with (leaf_vpn (i + 1) 0 0) in T1 by (unfold leaf_vpn; lia).
    replace (i * 512 + (0 + Z.of_nat 512)) with ((i + 1) * 512) in T1 by lia.
    exact (torn_table _ (Mid r i) _ _ _ _ _ _ _ q T1 Hq eq_refl (next_mid _ _ _)).
Qed.

Lemma pgdirFree_split pgdir : Page.pgdirFree pgdir =
  (for_up 512 0 (fun i =>
     e ← gets (fun mm => load64 (mem mm) (pgdir + 8 * i));
     when (c_true (Z.land e PTE_VALID)) (free_mid pgdir i (PTE2PA e))) ;;
   Page.paDecreaseRef pgdir).
Proof. unfold Page.pgdirFree, free_mid, free_leaf. reflexivity. Qed.

Lemma no_mid_unmapped i v : (forall q, tbl0 !! q <> Some (Mid r i)) -> 0 <= i < 512 ->
  leaf_vpn i 0 0 <= v < leaf_vpn (i + 1) 0 0 -> maps0 !! (r, v) = None.
Proof.
  intros Hno Hi Hv.
  assert (Hj : exists j, 0 <= j < 512 /\ leaf_vpn i j 0 <= v < leaf_vpn i j 0 + 512).
  { exists ((v - leaf_vpn i 0 0) / 512). unfold leaf_vpn in *. Z.to_euclidean_division_equations; lia. }
  destruct Hj as (j & Hj & Hvj). apply (no_leaf_unmapped i j); try done.
  intros q Hq. destruct (pi_parent _ _ _ I0 q (Mid r i) j eq_refl Hq) as [_ [p Hp]]. by apply (Hno p).
Qed.

(** A whole gigabyte without a middle table. *)
Lemma lost_no_mid i x : (forall q, tbl0 !! q <> Some (Mid r i)) ->
  lost ((i + 1) * 512) (i + 1) false x = lost (i * 512) i false x.
Proof.
  intros Hno. rewrite (next_mid i _ _ x), decide_False, Z.add_0_r by apply (Hno x).
  unfold lost, gone. destruct (tbl0 !! x) as [[y|y i'|y i' j']|] eqn:E; try done. cbn [root_of].
  destruct (Z.eqb_spec y r) as [-> |]; [|done]. cbn [andb]. destruct (leaf_range _ _ _ E) as [_ Hj].
  destruct (pi_parent _ _ _ I0 x (Mid r i') j' eq_refl E) as [_ [p Hp]].
  assert (i' <> i) by (intros ->; by apply (Hno p)).
  destruct (Z.ltb_spec (i' * 512 + j') ((i + 1) * 512)), (Z.ltb_spec (i' * 512 + j') (i * 512)); lia.
Qed.

Lemma pgdirFree_torn : exists mm', Page.pgdirFree (page2pa r) mm0 = Ret tt mm' /\
  torn (2 ^ 27) (512 * 512) 512 true mm'.
Proof.
  rewrite pgdirFree_split.
  destruct (for_up_inv (fun i => torn (leaf_vpn i 0 0) (i * 512) i false)
    (fun i => e ← gets (fun mm => load64 (mem mm) (page2pa r + 8 * i));
       when (c_true (Z.land e PTE_VALID)) (free_mid (page2pa r) i (PTE2PA e))) 512 0 mm0)
    as (mm1 & Hrun & T1); [|exact torn_start|].
  - intros i s Hi Ts. rewrite bind_gets. fold (entry s r i).
    destruct (torn_read _ _ _ _ _ _ _ i Ts Hroot eq_refl ltac:(lia)) as [[-> Hno]|(q & Hq & -> & ->)]; cbn [when].
    + exists s. split; [done|].
      apply (torn_skip _ _ _ _ _ _ _ _ _ Ts); [unfold leaf_vpn; lia|]. intros x. rewrite lost_no_mid by done.
      replace (leaf_vpn (i + 1) 0 0) with (leaf_vpn i 0 0 + Z.of_nat (Z.to_nat 262144)) by (unfold leaf_vpn; lia).
      rewrite dropped_range; [done|]. intros v Hv. apply (no_mid_unmapped i); [done|lia|unfold leaf_vpn in *; lia].
    + by apply torn_mid; try lia.
  - rewrite (bind_Ret _ _ _ _ _ Hrun).
    exact (torn_table _ (Root r) _ _ _ _ _ _ _ r T1 Hroot eq_refl (next_root _ _)).
Qed.
End teardown.

(** ** What is left *)

(** The translations of directory [r], and whether a page is one of its tables. *)
Definition maps_of (r : Z) (maps : gmap (Z * Z) Z) : gmap (Z * Z) Z :=
  filter (fun kv : (Z * Z) * Z => kv.1.1 = r) maps.
Definition table_of (tbl : gmap Z owner) (r p : Z) : bool :=
  match tbl !! p with Some o => root_of o =? r | None => false end.

Lemma below_maps_of mm tbl maps r : pt_inv mm tbl maps -> maps_below r (2 ^ 27) maps = maps_of r maps.
Proof.
  intros I. unfold maps_below, maps_of. apply map_filter_ext. intros [a b] e He. simpl.
  split; [naive_solver|]. intros ->. split; [done|].
  destruct (pi_maps _ _ _ I _ _ _ He) as (q & i2 & i1 & i0 & _ & ? & ? & ? & ->). unfold leaf_vpn. lia.
Qed.

Lemma lost_all mm tbl maps r p : pt_inv mm tbl maps ->
  lost tbl r (512 * 512) 512 true p = if table_of tbl r p then 1 else 0.
Proof.
  intros I. unfold lost, gone, table_of. destruct (tbl !! p) as [o|] eqn:E; [|done].
  destruct (Z.eqb_spec (root_of o) r) as [Ho|]; [|done]. cbn [andb].
  destruct o as [x|x i|x i j]; [done| |]; simpl in Ho; subst x.
  - destruct (pi_parent _ _ _ I p (Root r) i eq_refl E) as [? _]. by rewrite (proj2 (Z.ltb_lt _ _)) by lia.
  - destruct (leaf_range _ _ _ _ I _ _ _ E). by rewrite (proj2 (Z.ltb_lt _ _)) by lia.
Qed.

Lemma pgdirFree_spec mm tbl maps r :
  pt_inv mm tbl maps -> tbl !! r = Some (Root r) ->
  (forall q, table_of tbl r q = true -> ref mm q = 1) ->
  exists mm', Page.pgdirFree (page2pa r) mm = Ret tt mm' /\
    pt_inv mm' (other_tables r tbl) (other_maps r maps) /\
    (forall p, ref mm' p = ref mm p - refs_to (maps_of r maps) p - (if table_of tbl r p then 1 else 0)) /\
    (forall p, p ∈ freePages mm' <-> p ∈ freePages mm \/ (page_ok p /\ 0 < ref mm p /\ ref mm' p = 0)) /\
    (forall a, (forall q, is_Some (tbl !! q) -> ~ in_page q a) -> load8 (mem mm') a = load8 (mem mm) a).
Proof.
  intros I Hr Hone.
  assert (Hone' : forall q o, tbl !! q = Some o -> root_of o = r -> ref mm q = 1).
  { intros q o Hq Ho. apply Hone. unfold table_of. rewrite Hq, Ho. apply Z.eqb_refl. }
  destruct (pgdirFree_torn mm tbl maps r I Hr Hone') as (mm' & Hrun & T).
  assert (Href : forall p, ref mm' p = ref mm p - refs_to (maps_of r maps) p - (if table_of tbl r p then 1 else 0)).
  { intros p. rewrite (to_ref _ _ _ _ _ _ _ _ _ T), (below_maps_of _ _ _ _ I), (lost_all _ _ _ _ _ I). done. }
  exists mm'. split_and!; [exact Hrun| |exact Href|exact (to_free _ _ _ _ _ _ _ _ _ T)|].
  2: { intros a Ha. apply (to_data _ _ _ _ _ _ _ _ _ T). intros q i j Hq. apply Ha. by eexists. }
  apply (pt_inv_ext mm); [by apply forget_root| | |].
  - split; [apply T|]. intros p Hp.
    apply (to_free _ _ _ _ _ _ _ _ _ T) in Hp as [Hp|(? & _ & ?)]; [|done].
    destruct (proj2 (pi_free _ _ _ I) _ Hp) as [Hok Hz]. split; [done|]. specialize (Href p).
    pose proof (ref_range mm' p). assert (0 <= refs_to (maps_of r maps) p) by (unfold refs_to; lia).
    destruct (table_of tbl r p); lia.
  - intros p o i [Hp Ho]%other_tables_Some Hi. apply (torn_dir _ _ _ _ I _ _ _ _ _ _ _ _ T Hp); auto.
  - intros p Hp. rewrite Href. pose proof (pi_refs _ _ _ I p Hp) as Hrp.
    rewrite (below_all _ _ _ r _ I), (below_maps_of _ _ _ _ I) in Hrp. unfold table_of.
    destruct (other_tables r tbl !! p) as [o|] eqn:E.
    + apply other_tables_Some in E as [E Ho]. rewrite E in *. rewrite (proj2 (Z.eqb_neq _ _) Ho). lia.
    + destruct (tbl !! p) as [o|]; [destruct (root_of o =? r)|]; lia.
Qed.
