(* ===== verification/PageSpec.v ===== *)
(** * Page.c: what the operations guarantee

    New page directories, copy-on-write, and the theorems on the page tables:
    [pageInsert] and [pageRemove] refine insertion and deletion in the map of
    translations. *)

From S2P Require Import Prelude CType Mem Config Queue Page PageInv.

(** ** An empty system and new roots *)

Lemma pt_inv_empty mm : free_ok mm -> pt_inv mm ∅ ∅.
Proof.
  intros Hf. constructor; try done.
  intros p Hp. rewrite lookup_empty. unfold refs_to. rewrite map_filter_empty, map_size_empty.
  pose proof (ref_range mm p). lia.
Qed.

Definition new_root (r : Z) (mm : MM) : MM := set_ref r (ref mm r + 1) (alloc_state r mm).

Lemma allocPgdir_inv mm tbl maps r fl :
  pt_inv mm tbl maps -> freePages mm = r :: fl ->
  Page.allocPgdir mm = Ret r (new_root r mm) /\
  pt_inv (new_root r mm) (<[r := Root r]> tbl) maps /\
  freePages (new_root r mm) = fl.
Proof.
  intros I Hf. destruct (alloc_fresh _ _ _ _ _ I Hf) as (Hok & Hnt & Hrt & Hr0 & Hnin).
  pose proof (alloc_inv _ _ _ _ _ I Hf) as J.
  pose proof (alloc_state_free r fl mm (pi_free _ _ _ I) Hf) as Hfl.
  assert (Href : forall q, ref (new_root r mm) q = if decide (q = r) then 1 else ref mm q).
  { intros q. unfold new_root. rewrite ref_set_ref, Hr0. done. }
  assert (Hnoroot : forall q o i, is_dir o = true -> tbl !! q = Some (child o i) -> o <> Root r).
  { intros q o i Hd Hq ->. destruct (pi_parent _ _ _ I _ (Root r) i eq_refl Hq) as [_ [p Hp]].
    pose proof (pi_root _ _ _ I _ _ Hp). subst p. congruence. }
  split_and!.
  - unfold Page.allocPgdir, mbind, M_bind. by rewrite (pageAlloc_eq _ _ _ Hf).
  - constructor.
    + destruct (pi_free _ _ _ J) as [Hn Hz]. split; [done|]. intros x Hx. rewrite Href.
      rewrite decide_False; [by apply Hz|]. intros ->. change (freePages (new_root r mm))
        with (freePages (alloc_state r mm)) in Hx. by rewrite Hfl in Hx.
    + intros x o. rewrite lookup_insert. case_decide; [by intros; subst|apply (pi_tbl _ _ _ I)].
    + intros x r'. rewrite lookup_insert. case_decide; [naive_solver|apply (pi_root _ _ _ I)].
    + intros x y o. rewrite !lookup_insert. repeat case_decide; subst; intros; simplify_eq; try done.
      * symmetry. by eapply (pi_root _ _ _ I).
      * by eapply (pi_root _ _ _ I).
      * by eapply (pi_uniq _ _ _ I).
    + intros x o i Hd. rewrite lookup_insert. case_decide; [by destruct o|].
      intros Hx. destruct (pi_parent _ _ _ I x o i Hd Hx) as [? [p Hp]]. split; [done|].
      exists p. rewrite lookup_insert_ne; [done|]. congruence.
    + intros x o i. rewrite lookup_insert. case_decide as Hx.
      * subst x. intros [= <-] _ Hi. left. split.
        { change (entry (new_root r mm) r i) with (entry (alloc_state r mm) r i).
          by apply alloc_entry_zero. }
        intros q. rewrite lookup_insert. case_decide; [done|].
        intros Hq. by eapply (Hnoroot q (Root r) i eq_refl).
      * intros Ho Hd Hi. change (entry (new_root r mm) x i) with (entry (alloc_state r mm) x i).
        destruct (pi_dir _ _ _ J x o i Ho Hd Hi) as [[-> Hno]|(q & Hq & ->)]; [left|right].
        -- split; [done|]. intros q. rewrite lookup_insert. case_decide; [by destruct o|apply Hno].
        -- exists q. rewrite lookup_insert_ne; [done|]. congruence.
    + intros x r' i2 i1 i0. rewrite lookup_insert. case_decide; [done|]. apply (pi_leaf _ _ _ J).
    + intros r' v e He. destruct (pi_maps _ _ _ I _ _ _ He) as (p & i2 & i1 & i0 & Hp & ?).
      exists p, i2, i1, i0. rewrite lookup_insert_ne; [done|]. congruence.
    + intros x Hx. rewrite Href, lookup_insert. pose proof (pi_refs _ _ _ I x Hx) as Hr.
      destruct (decide (x = r)) as [->|]; [|by rewrite decide_False].
      rewrite decide_True by done. rewrite Hnt in Hr. lia.
  - done.
Qed.

(** ** Copy on write *)

(** The permission bits of the private copy. *)
Definition cow_perm (e : Z) : Z := Z.land (Z.lor (PTE2PERM e) PTE_WRITE) (u64 (Z.lnot PTE_COW)).

Lemma land_le_l a b : 0 <= a -> 0 <= Z.land a b <= a.
Proof.
  intros Ha. split; [apply Z.land_nonneg; by left|].
  assert (a = Z.land a b + Z.ldiff a b) as Heq.
  { rewrite Z.add_nocarry_lxor, Z.lxor_lor;
      apply Z.bits_inj'; intros n Hn;
      rewrite ?Z.lor_spec, ?Z.land_spec, ?Z.ldiff_spec, ?Z.bits_0;
      by destruct (Z.testbit a n), (Z.testbit b n). }
  assert (0 <= Z.ldiff a b) by (apply Z.ldiff_nonneg; tauto). lia.
Qed.

Lemma cow_perm_range e : 0 <= e < 2 ^ 54 -> 0 <= cow_perm e < 1024.
Proof.
  intros. unfold cow_perm. rewrite PTE2PERM_arith by done.
  assert (0 <= Z.lor (e mod 1024) PTE_WRITE < 2 ^ 10).
  { apply lor_low_bound; [lia| |done]. apply Z.mod_pos_bound. lia. }
  pose proof (land_le_l (Z.lor (e mod 1024) PTE_WRITE) (u64 (Z.lnot PTE_COW))). lia.
Qed.

Lemma pte_page_new p perm :
  page_ok p -> 0 <= perm < 1024 -> pte_page (new_pte (page2pa p) perm) = Some p.
Proof.
  intros Hp Hperm. unfold pte_page.
  assert (0 <= page2pa p < 2 ^ 56) by (rewrite page2pa_ok by done; unfold page_ok in *; lia).
  assert (page2pa p mod 4096 = 0).
  { rewrite page2pa_ok by done. Z.to_euclidean_division_equations; lia. }
  rewrite PTE2PA_new_pte, IS_RAM_page2pa by done. by apply pa2page_page2pa.
Qed.

Lemma page_align p : page_ok p -> page2pa p - page2pa p mod 4096 = page2pa p.
Proof. intros. rewrite page2pa_ok by done. Z.to_euclidean_division_equations; lia. Qed.

Lemma bcopy_page_in src n m i :
  0 <= i < 4096 -> src + 4096 <= page2pa n \/ page2pa n + 4096 <= src ->
  load8 (bcopy src (page2pa n) PAGE_SIZE m) (page2pa n + i) = load8 m (src + i).
Proof.
  intros Hi Hd. unfold bcopy.
  assert (Z.of_nat (Z.to_nat (u32 PAGE_SIZE)) = 4096) as Hl by (vm_compute; reflexivity).
  revert Hl. generalize (Z.to_nat (u32 PAGE_SIZE)) as k. intros k Hl.
  rewrite copy_loop_spec by lia. rewrite decide_True by lia. f_equal. lia.
Qed.

Lemma bcopy_page_out src n m a :
  ~ in_page n a -> load8 (bcopy src (page2pa n) PAGE_SIZE m) a = load8 m a.
Proof.
  intros Ha. unfold bcopy, in_page in *.
  assert (Z.of_nat (Z.to_nat (u32 PAGE_SIZE)) = 4096) as Hl by (vm_compute; reflexivity).
  revert Hl. generalize (Z.to_nat (u32 PAGE_SIZE)) as k. intros k Hl.
  rewrite copy_loop_outside by lia. done.
Qed.

Lemma mem_set_mem f mm : mem (set_mem f mm) = f (mem mm).
Proof. done. Qed.
Lemma free_set_mem f mm : freePages (set_mem f mm) = freePages mm.
Proof. done. Qed.
Lemma ref_set_mem f mm x : ref (set_mem f mm) x = ref mm x.
Proof. done. Qed.
Lemma alloc_state_data p mm a :
  ~ in_page p a -> load8 (mem (alloc_state p mm)) a = load8 (mem mm) a.
Proof. intros. unfold alloc_state. rewrite mem_set_mem. by apply bzero_page_data. Qed.

(** Copying a page onto a page that is neither a table nor free keeps the
    invariant. *)
Lemma bcopy_page_inv mm tbl maps n src :
  pt_inv mm tbl maps -> page_ok n -> tbl !! n = None ->
  pt_inv (set_mem (bcopy src (page2pa n) PAGE_SIZE) mm) tbl maps.
Proof.
  intros I Hn Hnt. apply (pt_inv_ext mm); [done|apply I| |apply I].
  intros p o i Hp Hi. unfold entry, load64. rewrite mem_set_mem. apply load_le_ext. intros b Hb.
  apply bcopy_page_out. pose proof (pi_tbl _ _ _ I _ _ Hp) as Hpok.
  assert (p <> n) by congruence. unfold in_page.
  rewrite !page2pa_ok in * by done. unfold page_ok in *. lia.
Qed.

Lemma leaf_entry mm tbl maps r va e q :
  pt_inv mm tbl maps -> 0 <= va < 2 ^ 39 ->
  tbl !! q = Some (Leaf r (GET_PAGE_TABLE_INDEX va 2) (GET_PAGE_TABLE_INDEX va 1)) ->
  maps !! (r, vpn va) = Some e -> entry mm q (GET_PAGE_TABLE_INDEX va 0) = e.
Proof.
  intros I Hva Hq He. pose proof (pi_leaf _ _ _ I _ _ _ _ _ Hq (index_range va 0)) as Hl.
  rewrite indices_vpn, He in Hl by done. destruct (pte_valid _) in Hl; congruence.
Qed.

Lemma cowHandler_run pgdir va mm pte0 x page mm1 pa pte mm2 mm3 y :
  Page.pageLookup pgdir va mm = Ret (x, Some pte0) mm ->
  Z.land (load64 (mem mm) pte0) PTE_COW <> 0 ->
  Page.pageAlloc mm = Ret page mm1 ->
  Page.pageLookup pgdir va mm1 = Ret (pa, Some pte) mm1 ->
  mm2 = set_mem (bcopy pa (page2pa page) PAGE_SIZE) mm1 ->
  Page.pageInsert pgdir va (page2pa page) (cow_perm (load64 (mem mm2) pte)) mm2 = Ret y mm3 ->
  Page.cowHandler pgdir va mm = Ret (page2pa page + va mod 4096) mm3.
Proof.
  intros L Hc A L1 E2 Hi. unfold Page.cowHandler. rewrite (bind_Ret _ _ _ _ _ L). cbn [snd].
  rewrite bind_gets. unfold c_true. rewrite (proj2 (Z.eqb_neq _ 0)) by done. cbn [negb].
  rewrite (bind_Ret _ _ _ _ _ A), (bind_Ret _ _ _ _ _ L1). cbn [default from_option id].
  rewrite bind_modify, <- E2, bind_gets, (bind_Ret _ _ _ _ _ Hi).
  unfold mret, M_ret. change 0xFFF with (Z.ones 12). by rewrite Z.land_ones by lia.
Qed.

Lemma cowHandler_steps mm r va e n fl q mm2 mm' :
  Z.land e PTE_COW <> 0 -> freePages mm = n :: fl ->
  entry mm q (GET_PAGE_TABLE_INDEX va 0) = e ->
  Page.pageLookup (page2pa r) va mm =
    Ret (PTE2PA e, Some (page2pa q + 8 * GET_PAGE_TABLE_INDEX va 0)) mm ->
  Page.pageLookup (page2pa r) va (alloc_state n mm) =
    Ret (PTE2PA e, Some (page2pa q + 8 * GET_PAGE_TABLE_INDEX va 0)) (alloc_state n mm) ->
  mm2 = set_mem (bcopy (PTE2PA e) (page2pa n) PAGE_SIZE) (alloc_state n mm) ->
  entry mm2 q (GET_PAGE_TABLE_INDEX va 0) = e ->
  Page.pageInsert (page2pa r) va (page2pa n) (cow_perm e) mm2 = Ret 0 mm' ->
  Page.cowHandler (page2pa r) va mm = Ret (page2pa n + va mod 4096) mm'.
Proof.
  intros Hcow Hf Hqe L L1 Emm2 Hqe2 Hins. unfold entry in Hqe, Hqe2.
  eapply cowHandler_run; [exact L| |exact (pageAlloc_eq _ _ _ Hf)|exact L1|exact Emm2|].
  - by rewrite Hqe.
  - rewrite Hqe2. exact Hins.
Qed.

Lemma cowHandler_spec mm tbl maps r va e p n fl :
  pt_inv mm tbl maps -> tbl !! r = Some (Root r) -> 0 <= va < 2 ^ 39 ->
  maps !! (r, vpn va) = Some e -> 0 <= e < 2 ^ 54 -> pte_page e = Some p ->
  Z.land e PTE_COW <> 0 ->
  freePages mm = n :: fl -> (2 <= length fl)%nat ->
  exists mm' tbl',
    Page.cowHandler (page2pa r) va mm = Ret (page2pa n + va mod 4096) mm' /\
    pt_inv mm' tbl' (<[(r, vpn va) := new_pte (page2pa n) (cow_perm e)]> maps) /\
    tbl ⊆ tbl' /\
    ref mm' n = 1 /\ ref mm' p = ref mm p - 1 /\
    (tbl !! p = None -> forall i, 0 <= i < 4096 ->
       load8 (mem mm') (page2pa n + i) = load8 (mem mm) (page2pa p + i)) /\
    (forall a, (forall q, q ∈ freePages mm \/ is_Some (tbl !! q) -> ~ in_page q a) ->
       load8 (mem mm') a = load8 (mem mm) a).
Proof.
  intros I Hr Hva He Hpe Hp Hcow Hf Hfl.
  destruct (alloc_fresh _ _ _ _ _ I Hf) as (Hnok & Hnt & Hnrt & Hn0 & Hnin).
  pose proof (alloc_inv _ _ _ _ _ I Hf) as I1.
  pose proof (alloc_state_free n fl mm (pi_free _ _ _ I) Hf) as Hf1.
  destruct (pte_page_Some _ _ Hp) as (Hpok & HR & Hpa).
  pose proof (refs_to_pos _ _ _ _ He Hp) as Hpos.
  assert (Hpn : p <> n) by (intros ->; lia).
  pose proof (mapped_not_free I _ _ _ _ He Hp Hpok) as Hpf.
  pose proof (pageLookup_spec mm tbl maps r va I Hr Hva) as L. rewrite He in L.
  destruct L as (q & Hq & Hqe & Hval & L).
  pose proof (pageLookup_spec _ tbl maps r va I1 Hr Hva) as L1. rewrite He in L1.
  destruct L1 as (q' & Hq' & Hqe' & _ & L1).
  assert (q' = q) as -> by (by eapply (pi_uniq _ _ _ I)).
  pose proof (bcopy_page_inv _ _ _ n (PTE2PA e) I1 Hnok Hnt) as I2.
  assert (Hdata : forall a, load8 (mem (set_mem (bcopy (PTE2PA e) (page2pa n) PAGE_SIZE)
                    (alloc_state n mm))) a
                  = load8 (bcopy (PTE2PA e) (page2pa n) PAGE_SIZE (mem (alloc_state n mm))) a)
    by (intros a; by rewrite mem_set_mem).
  assert (Hf2 : freePages (set_mem (bcopy (PTE2PA e) (page2pa n) PAGE_SIZE) (alloc_state n mm)) = fl)
    by (rewrite free_set_mem; exact Hf1).
  assert (Hrf2 : forall x, ref (set_mem (bcopy (PTE2PA e) (page2pa n) PAGE_SIZE) (alloc_state n mm)) x
                  = ref mm x) by (intros x; by rewrite ref_set_mem, alloc_state_ref).
  remember (set_mem (bcopy (PTE2PA e) (page2pa n) PAGE_SIZE) (alloc_state n mm)) as mm2 eqn:Emm2.
  pose proof (leaf_entry _ _ _ _ _ _ _ I2 Hva Hq He) as Hqe2.
  pose proof (cow_perm_range e Hpe) as Hperm.
  assert (Hpan : 0 <= page2pa n < 2 ^ 56) by (rewrite page2pa_ok by done; unfold page_ok in *; lia).
  destruct (pageInsert_spec mm2 tbl maps r va (page2pa n) (cow_perm e) I2 Hr Hva Hpan Hperm)
    as (mm' & tbl' & Hins & I' & F).
  { by rewrite Hf2. }
  { rewrite page_align, pte_page_new by done. intros x [= <-].
    rewrite Hf2, Hrf2, Hn0. split_and!; [done|lia|lia]. }
  rewrite page_align in I', F by done. rewrite pte_page_new in F by done.
  assert (Hold : old_page maps r va = Some p) by (unfold old_page; by rewrite He).
  rewrite Hold in F.
  exists mm', tbl'. split_and!.
  - exact (cowHandler_steps mm r va e n fl q mm2 mm' Hcow Hf Hqe L L1 Emm2 Hqe2 Hins).
  - done.
  - apply F.
  - rewrite (if_ref _ _ _ _ _ _ F) by (by rewrite Hf2).
    rewrite Hrf2, Hn0, decide_True, decide_False by congruence. done.
  - rewrite (if_ref _ _ _ _ _ _ F), decide_False, decide_True by (congruence ||
      (rewrite Hf2; intros ?; apply Hpf; rewrite Hf; by right)).
    rewrite Hrf2. lia.
  - intros Hpt i Hi. rewrite (if_data _ _ _ _ _ _ F).
    + rewrite Hdata, bcopy_page_in, Hpa; [|done|].
      * apply alloc_state_data. eapply in_page_disjoint; [exact Hpok|exact Hnok|done|].
        unfold in_page. lia.
      * rewrite Hpa, !page2pa_ok by done. unfold page_ok in *. lia.
    + intros x Hx Hin. rewrite Hf2 in Hx.
      assert (Hxok : page_ok x).
      { destruct Hx as [Hx|[o Hx]]; [|by eapply (pi_tbl _ _ _ I)].
        apply (pi_free _ _ _ I). rewrite Hf. by right. }
      assert (x = n) as ->.
      { destruct (decide (x = n)); [done|]. exfalso.
        eapply (in_page_disjoint x n); [done|done|done|exact Hin|]. unfold in_page. lia. }
      destruct Hx as [Hx|[o Hx]]; [exact (Hnin Hx)|congruence].
  - intros a Ha. rewrite (if_data _ _ _ _ _ _ F).
    + rewrite Hdata.
      assert (Hna : ~ in_page n a) by (apply Ha; left; rewrite Hf; constructor).
      rewrite bcopy_page_out by done. by apply alloc_state_data.
    + intros x Hx. apply Ha. destruct Hx as [Hx|Hx]; [left|by right].
      rewrite Hf2 in Hx. rewrite Hf. by right.
Qed.

(** ** The page tables refine a map of translations

    [translates mm r va pa]: [pageLookup] in directory [r] gives [pa] for [va]
    (0 when the page is not mapped). *)

Definition translates (mm : MM) (r va pa : Z) : Prop :=
  exists pte, Page.pageLookup (page2pa r) va mm = Ret (pa, pte) mm.

(** [pageLookup] never writes, whatever the tables hold. *)
Lemma walk_level_readonly addr mm : exists x, Page.walk_level addr false mm = Ret x mm.
Proof.
  unfold Page.walk_level. rewrite bind_gets.
  destruct (c_true _); by eexists.
Qed.

Lemma pageLookup_readonly pgdir va mm : exists x, Page.pageLookup pgdir va mm = Ret x mm.
Proof.
  unfold Page.pageLookup, Page.pageWalk, mbind, M_bind.
  destruct (walk_level_readonly (pgdir + 8 * GET_PAGE_TABLE_INDEX va 2) mm) as [[t1|] ->]; [|by eexists].
  simpl obind. destruct (walk_level_readonly (t1 + 8 * GET_PAGE_TABLE_INDEX va 1) mm) as [[t0|] ->];
    [|by eexists].
  simpl. case_match; by eexists.
Qed.

Definition lookup_pa (maps : gmap (Z * Z) Z) (r va : Z) : Z :=
  match maps !! (r, vpn va) with Some e => PTE2PA e | None => 0 end.

Lemma translates_iff mm tbl maps r va pa :
  pt_inv mm tbl maps -> tbl !! r = Some (Root r) -> 0 <= va < 2 ^ 39 ->
  translates mm r va pa <-> pa = lookup_pa maps r va.
Proof.
  intros I Hr Hva. pose proof (pageLookup_spec mm tbl maps r va I Hr Hva) as H.
  unfold translates, lookup_pa. destruct (maps !! (r, vpn va)) as [e|].
  - destruct H as (q & _ & _ & _ & ->). naive_solver.
  - rewrite H. naive_solver.
Qed.

(** The translations that an update at [(r, vpn va)] leaves alone. *)
Lemma translates_frame mm tbl maps mm' tbl' maps' r va r' va' pa :
  pt_inv mm tbl maps -> pt_inv mm' tbl' maps' -> tbl ⊆ tbl' ->
  (forall k, k <> (r, vpn va) -> maps' !! k = maps !! k) ->
  tbl !! r' = Some (Root r') -> 0 <= va' < 2 ^ 39 -> (r', vpn va') <> (r, vpn va) ->
  translates mm r' va' pa <-> translates mm' r' va' pa.
Proof.
  intros I I' Hs Hk Hr' Hva' Hne.
  rewrite (translates_iff mm tbl maps) by done.
  rewrite (translates_iff mm' tbl' maps') by (done || by eapply lookup_weaken).
  unfold lookup_pa. by rewrite Hk by done.
Qed.

(** C1. [pageInsert] returns 0 and refines insertion in the map of
    translations: afterwards [va] translates to the inserted page, every other
    page of this directory and every page of every other directory translates
    as before, and the page-table invariant holds.  It needs two free pages for
    the tables the walk may create; the inserted page must not be free, nor be
    the page already mapped at [va] with no other reference. *)
Theorem pageInsert_refines mm tbl maps r va pa perm :
  pt_inv mm tbl maps -> tbl !! r = Some (Root r) ->
  0 <= va < 2 ^ 39 -> 0 <= pa < 2 ^ 56 -> 0 <= perm < 1024 ->
  (2 <= length (freePages mm))%nat ->
  (forall p, pte_page (new_pte (pa - pa mod 4096) perm) = Some p ->
     (p ∉ freePages mm) /\ ref mm p + 1 < 2 ^ 32 /\ (old_page maps r va = Some p -> ref mm p <> 1)) ->
  exists mm' tbl',
    Page.pageInsert (page2pa r) va pa perm mm = Ret 0 mm' /\
    pt_inv mm' tbl' (<[(r, vpn va) := new_pte (pa - pa mod 4096) perm]> maps) /\
    tbl ⊆ tbl' /\
    translates mm' r va (pa - pa mod 4096) /\
    forall r' va' x, tbl !! r' = Some (Root r') -> 0 <= va' < 2 ^ 39 ->
      (r', vpn va') <> (r, vpn va) -> translates mm r' va' x <-> translates mm' r' va' x.
Proof.
  intros I Hr Hva Hpa Hperm Hfr Hp.
  destruct (pageInsert_spec mm tbl maps r va pa perm I Hr Hva Hpa Hperm Hfr Hp)
    as (mm' & tbl' & Hrun & I' & F).
  exists mm', tbl'. split_and!; [done|done|apply F| |].
  - apply (translates_iff _ _ _ _ _ _ I'); [eapply lookup_weaken; [done|apply F]|done|].
    unfold lookup_pa. rewrite lookup_insert_eq, PTE2PA_new_pte; [done| | |done];
      Z.to_euclidean_division_equations; lia.
  - intros r' va' x Hr' Hva' Hne. eapply translates_frame; try done; [apply F|].
    intros k Hk. by rewrite lookup_insert_ne.
Qed.

(** C32. [pageRemove] refines deletion: a page that is mapped in RAM is unmapped,
    its count drops by one and it goes to the head of the free list exactly when
    the count reaches zero; all other translations stay; anything else is left
    unchanged and -1 returned. *)
Theorem pageRemove_refines mm tbl maps r va :
  pt_inv mm tbl maps -> tbl !! r = Some (Root r) -> 0 <= va < 2 ^ 39 ->
  match old_page maps r va with
  | None => Page.pageRemove (page2pa r) va mm = Ret (-1) mm
  | Some p => exists mm',
      Page.pageRemove (page2pa r) va mm = Ret 0 mm' /\
      pt_inv mm' tbl (delete (r, vpn va) maps) /\
      translates mm' r va 0 /\
      ref mm' p = ref mm p - 1 /\
      freePages mm' = (if ref mm p =? 1 then p :: freePages mm else freePages mm) /\
      forall r' va' x, tbl !! r' = Some (Root r') -> 0 <= va' < 2 ^ 39 ->
        (r', vpn va') <> (r, vpn va) -> translates mm r' va' x <-> translates mm' r' va' x
  end.
Proof.
  intros I Hr Hva. pose proof (pageRemove_spec mm tbl maps r va I Hr Hva) as H.
  unfold old_page. destruct (maps !! (r, vpn va) ≫= pte_page) as [p|]; [|done].
  destruct H as (q & Hq & H1 & Hok & Hrun & I'). eexists. split_and!; [exact Hrun|exact I'| | | |].
  - apply (translates_iff _ _ _ _ _ _ I'); [done|done|]. unfold lookup_pa. by rewrite lookup_delete_eq.
  - rewrite removed_ref by done. by rewrite decide_True.
  - unfold removed. by destruct (ref mm p =? 1).
  - intros r' va' x Hr' Hva' Hne. eapply translates_frame; try done.
    intros k Hk. by rewrite lookup_delete_ne.
Qed.

(** C15. [cowHandler] on a page shared for copy-on-write returns the physical
    address of a private copy: the faulting page now translates to a page that
    was free, holds the same 4096 bytes, is referenced once and is mapped
    writable and without the COW bit; the old page keeps its contents and loses
    one reference; the rest of the memory outside the free pages and the page
    tables is unchanged. *)
Theorem cowHandler_private mm tbl maps r va e p n fl :
  pt_inv mm tbl maps -> tbl !! r = Some (Root r) -> 0 <= va < 2 ^ 39 ->
  maps !! (r, vpn va) = Some e -> 0 <= e < 2 ^ 54 -> pte_page e = Some p -> tbl !! p = None ->
  Z.land e PTE_COW <> 0 ->
  freePages mm = n :: fl -> (2 <= length fl)%nat ->
  exists mm' tbl',
    Page.cowHandler (page2pa r) va mm = Ret (page2pa n + va mod 4096) mm' /\
    pt_inv mm' tbl' (<[(r, vpn va) := new_pte (page2pa n) (cow_perm e)]> maps) /\
    translates mm' r va (page2pa n) /\
    Z.land (cow_perm e) PTE_WRITE = PTE_WRITE /\ Z.land (cow_perm e) PTE_COW = 0 /\
    ref mm' n = 1 /\ ref mm' p = ref mm p - 1 /\
    (forall i, 0 <= i < 4096 ->
       load8 (mem mm') (page2pa n + i) = load8 (mem mm) (page2pa p + i)) /\
    (forall a, (forall q, q ∈ freePages mm \/ is_Some (tbl !! q) -> ~ in_page q a) ->
       load8 (mem mm') a = load8 (mem mm) a).
Proof.
  intros I Hr Hva He Hpe Hp Hpt Hcow Hf Hfl.
  destruct (cowHandler_spec mm tbl maps r va e p n fl I Hr Hva He Hpe Hp Hcow Hf Hfl)
    as (mm' & tbl' & Hrun & I' & Hs & Hn & Hpr & Hd & Ho).
  destruct (alloc_fresh _ _ _ _ _ I Hf) as (Hnok & _).
  exists mm', tbl'. split_and!; try done.
  - apply (translates_iff _ _ _ _ _ _ I'); [by eapply lookup_weaken|done|].
    unfold lookup_pa. rewrite lookup_insert_eq, PTE2PA_new_pte; [done| | |by apply cow_perm_range];
      rewrite page2pa_ok by done; unfold page_ok in *; Z.to_euclidean_division_equations; lia.
  - unfold cow_perm. apply Z.bits_inj'. intros k Hk. rewrite !Z.land_spec, Z.lor_spec.
    change PTE_WRITE with (2 ^ 2). rewrite Z.pow2_bits_eqb by lia.
    destruct (Z.eqb_spec 2 k) as [<-|]; [|by rewrite andb_false_r].
    by rewrite orb_true_r.
  - unfold cow_perm. rewrite <- Z.land_assoc. change (Z.land (u64 (Z.lnot PTE_COW)) PTE_COW) with 0.
    apply Z.land_0_r.
  - by apply Hd.
Qed.

(** What a user address translates to: the physical address and whether the page
    is shared for copy-on-write. *)
Definition user_translation (maps : gmap (Z * Z) Z) (r va : Z) : Z * option bool :=
  match maps !! (r, vpn va) with
  | Some e => if Z.land e PTE_USER =? 0 then (0, None)
              else (PTE2PA e + va mod 4096, Some (0 <? Z.land e PTE_COW))
  | None => (0, None)
  end.

Lemma vir2phy_leaf mm tbl maps r va q :
  pt_inv mm tbl maps -> tbl !! r = Some (Root r) -> 0 <= va < MAXVA -> leaf_of tbl r va q ->
  Page.vir2phy (page2pa r) va mm = Ret (user_translation maps r va) mm.
Proof.
  intros I Hr Hva Hq. unfold Page.vir2phy, user_translation. rewrite Z.geb_leb.
  destruct (pageWalk_ro mm tbl maps r va I Hr) as (t & Ht & Hc).
  rewrite (proj2 (Z.leb_gt _ _)), (bind_Ret _ _ _ _ _ Ht) by lia.
  destruct t as [a|]; [|by destruct (Hc q)]. destruct Hc as (q' & Hq' & ->).
  assert (q' = q) as -> by (by eapply (pi_uniq _ _ _ I)).
  change MAXVA with (2 ^ 38) in Hva.
  pose proof (pi_leaf _ _ _ I _ _ _ _ _ Hq (index_range va 0)) as Hl.
  rewrite indices_vpn in Hl by lia. rewrite Hl, bind_gets.
  fold (entry mm q (GET_PAGE_TABLE_INDEX va 0)). unfold pte_valid, c_true.
  destruct (Z.land (entry mm q (GET_PAGE_TABLE_INDEX va 0)) PTE_VALID =? 0); [done|]. cbn [negb].
  destruct (Z.land _ PTE_USER =? 0); [done|].
  change 0xfff with (Z.ones 12). by rewrite Z.land_ones by lia.
Qed.

(** C37. [vir2phy], the translation every copy between kernel and user memory
    starts with: when the directory has a leaf table for the address it returns
    the physical address exactly if the page is mapped for the user, and 0
    otherwise; when the leaf table does not exist it dereferences the NULL entry
    that [pageWalk] returned, and the kernel panics. *)
Theorem vir2phy_spec mm tbl maps r va :
  pt_inv mm tbl maps -> tbl !! r = Some (Root r) -> 0 <= va ->
  (MAXVA <= va -> Page.vir2phy (page2pa r) va mm = Ret (0, None) mm) /\
  (va < MAXVA -> forall q, leaf_of tbl r va q ->
    Page.vir2phy (page2pa r) va mm = Ret (user_translation maps r va) mm) /\
  (va < MAXVA -> (forall q, ~ leaf_of tbl r va q) -> Page.vir2phy (page2pa r) va mm = Panic).
Proof.
  intros I Hr Hva. split_and!; intros Hm.
  - unfold Page.vir2phy. rewrite Z.geb_leb. by rewrite (proj2 (Z.leb_le _ _) Hm).
  - intros q Hq. by eapply vir2phy_leaf.
  - intros Hno. unfold Page.vir2phy. rewrite Z.geb_leb, (proj2 (Z.leb_gt _ _) Hm).
    destruct (pageWalk_ro mm tbl maps r va I Hr) as (t & Ht & Hc). rewrite (bind_Ret _ _ _ _ _ Ht).
    destruct t as [a|]; [|done]. destruct Hc as (q & Hq & _). by destruct (Hno q).
Qed.

(** ** Concrete states *)

(** Six free pages, nothing mapped. *)
Definition mm0 : MM := mkMM ∅ ∅ ∅ [200; 201; 202; 203; 204; 205] 0.

Lemma mm0_free_ok : free_ok mm0.
Proof. split; [by apply (bool_decide_unpack _); vm_compute|].
  intros p Hp. simpl in Hp. unfold page_ok.
  repeat (apply elem_of_cons in Hp as [-> | Hp]; [split; [lia|done]|]).
  by apply elem_of_nil in Hp.
Qed.

(** A directory at page 200 with nothing mapped. *)
Definition mm1 : MM := new_root 200 mm0.
Definition tbl1 : gmap Z owner := <[200 := Root 200]> ∅.

Lemma mm1_inv : pt_inv mm1 tbl1 ∅ /\ freePages mm1 = [201; 202; 203; 204; 205].
Proof. apply (allocPgdir_inv mm0 ∅ ∅ 200 _ (pt_inv_empty _ mm0_free_ok) eq_refl). Qed.

Lemma mm1_root : tbl1 !! 200 = Some (Root 200).
Proof. done. Qed.

Lemma mm1_ref p : p <> 200 -> ref mm1 p = 0.
Proof.
  intros. unfold mm1, new_root. rewrite ref_set_ref, decide_False by done.
  rewrite alloc_state_ref. done.
Qed.

Lemma pageInsert_refines_witness :
  exists mm', Page.pageInsert (page2pa 200) 0x1234 (page2pa 300) PTE_USER mm1 = Ret 0 mm' /\
    translates mm' 200 0x1234 (page2pa 300).
Proof.
  destruct (pageInsert_refines mm1 tbl1 ∅ 200 0x1234 (page2pa 300) PTE_USER (proj1 mm1_inv) mm1_root)
    as (mm' & tbl' & H & _ & _ & Ht & _).
  - lia.
  - vm_compute. done.
  - vm_compute. done.
  - rewrite (proj2 mm1_inv). simpl. lia.
  - intros p Hp. assert (p = 300) as -> by (vm_compute in Hp; congruence).
    rewrite (proj2 mm1_inv), mm1_ref by done. split_and!; [|done|done].
    by apply (bool_decide_unpack _); vm_compute.
  - exists mm'. split; [exact H|exact Ht].
Defined.

(** Mapping page 300 in directory 200. *)
Lemma mm1_insert_at va perm :
  0 <= va < 2 ^ 39 -> 0 <= perm < 1024 ->
  exists m tbl, Page.pageInsert (page2pa 200) va (page2pa 300) perm mm1 = Ret 0 m /\
    pt_inv m tbl (<[(200, vpn va) := new_pte (page2pa 300) perm]> ∅) /\
    tbl !! 200 = Some (Root 200) /\ tbl !! 300 = None.
Proof.
  intros Hva Hperm.
  assert (Hok : page_ok 300) by (unfold page_ok; lia).
  assert (Hal : page2pa 300 - page2pa 300 mod 4096 = page2pa 300) by (vm_compute; reflexivity).
  assert (Hpa : 0 <= page2pa 300 < 2 ^ 56) by (vm_compute; split; [discriminate|reflexivity]).
  destruct (pageInsert_spec mm1 tbl1 ∅ 200 va (page2pa 300) perm (proj1 mm1_inv) mm1_root)
    as (m & tbl & H & I & F); [lia|done|done| | |].
  - rewrite (proj2 mm1_inv). simpl. lia.
  - intros p. rewrite Hal, pte_page_new by done. intros [= <-].
    rewrite (proj2 mm1_inv), mm1_ref by done. split_and!; [|done|done].
    by apply (bool_decide_unpack _); vm_compute.
  - rewrite Hal in I. exists m, tbl. split_and!; [done|exact I| |].
    + exact (lookup_weaken _ _ _ _ mm1_root (if_tbl _ _ _ _ _ _ F)).
    + destruct (tbl !! 300) as [o|] eqn:E; [|done]. exfalso.
      assert (300 ∈ freePages mm1) as Hin
        by exact (if_new _ _ _ _ _ _ F 300 eq_refl (ex_intro _ o E)).
      rewrite (proj2 mm1_inv) in Hin. revert Hin. by apply (bool_decide_unpack _); vm_compute.
Qed.

Lemma mm1_insert perm :
  0 <= perm < 1024 ->
  exists m tbl, Page.pageInsert (page2pa 200) 0x1234 (page2pa 300) perm mm1 = Ret 0 m /\
    pt_inv m tbl (<[(200, 1) := new_pte (page2pa 300) perm]> ∅) /\
    tbl !! 200 = Some (Root 200) /\ tbl !! 300 = None.
Proof. apply (mm1_insert_at 0x1234 perm). lia. Qed.

(** Page 300 mapped for copy-on-write at 0x1000 of directory 200. *)
Definition cow_bits : Z := Z.lor PTE_USER (Z.lor PTE_READ PTE_COW).
Definition mm2 : MM :=
  match Page.pageInsert (page2pa 200) 0x1234 (page2pa 300) cow_bits mm1 with
  | Ret _ m => m
  | _ => mm1
  end.
Definition pte2 : Z := new_pte (page2pa 300) cow_bits.
Definition maps2 : gmap (Z * Z) Z := <[(200, 1) := pte2]> ∅.

Lemma mm2_free : freePages mm2 = [203; 204; 205] /\ ref mm2 300 = 1.
Proof. split; vm_compute; reflexivity. Qed.

Lemma mm2_inv : Page.pageInsert (page2pa 200) 0x1234 (page2pa 300) cow_bits mm1 = Ret 0 mm2 /\
  exists tbl, pt_inv mm2 tbl maps2 /\ tbl !! 200 = Some (Root 200) /\ tbl !! 300 = None.
Proof.
  destruct (mm1_insert cow_bits) as (m & tbl & H & I & Hr & Hp); [vm_compute; split; [discriminate|reflexivity]|].
  assert (mm2 = m) as -> by (unfold mm2; by rewrite H). split; [done|]. exists tbl. by split_and!.
Qed.

Lemma pageRemove_refines_witness :
  exists mm', Page.pageRemove (page2pa 200) 0x1abc mm2 = Ret 0 mm' /\ freePages mm' = [300; 203; 204; 205].
Proof.
  destruct mm2_inv as (_ & tbl & I & Hr & _).
  pose proof (pageRemove_refines mm2 tbl maps2 200 0x1abc I Hr ltac:(lia)) as H.
  replace (old_page maps2 200 0x1abc) with (Some 300) in H by (vm_compute; reflexivity).
  destruct H as (mm' & H & _ & _ & _ & Hf & _). exists mm'. split; [exact H|].
  rewrite Hf, (proj1 mm2_free), (proj2 mm2_free). reflexivity.
Defined.

Lemma cowHandler_private_witness :
  exists mm', Page.cowHandler (page2pa 200) 0x1008 mm2 = Ret (page2pa 203 + 8) mm' /\ ref mm' 300 = 0.
Proof.
  destruct mm2_inv as (_ & tbl & I & Hr & Hp).
  destruct (cowHandler_private mm2 tbl maps2 200 0x1008 pte2 300 203 [204; 205] I Hr)
    as (mm' & tbl' & H & _ & _ & _ & _ & _ & Hpr & _).
  - lia.
  - vm_compute. reflexivity.
  - vm_compute. split; [discriminate|reflexivity].
  - vm_compute. reflexivity.
  - exact Hp.
  - vm_compute. discriminate.
  - exact (proj1 mm2_free).
  - simpl. lia.
  - exists mm'. split; [exact H|]. rewrite Hpr, (proj2 mm2_free). reflexivity.
Defined.

Lemma vir2phy_spec_witness : Page.vir2phy (page2pa 200) 0x40000000 mm1 = Panic.
Proof.
  apply (vir2phy_spec mm1 tbl1 ∅ 200 0x40000000 (proj1 mm1_inv) mm1_root); [lia|done|].
  intros q. unfold leaf_of, tbl1. rewrite lookup_insert. case_decide; [done|]. by rewrite lookup_empty.
Defined.

(** The guard of [pageInsert] on remapping is needed: mapping a page again
    at the address where it is already mapped, with no other reference, first
    frees it ([pageRemove] drops the count to zero) and then maps it, so that
    the page is mapped, counted once and on the free list at the same time. *)
Theorem pageInsert_remap_hazard :
  exists mm', Page.pageInsert (page2pa 200) 0x1234 (page2pa 300) cow_bits mm2 = Ret 0 mm' /\
    translates mm' 200 0x1234 (page2pa 300) /\ ref mm' 300 = 1 /\ 300 ∈ freePages mm'.
Proof.
  destruct (ret_test_true (Page.pageInsert (page2pa 200) 0x1234 (page2pa 300) cow_bits mm2)
    (fun x m => (x =? 0) && ret_test (Page.pageLookup (page2pa 200) 0x1234 m)
                  (fun r _ => fst r =? page2pa 300)
                && (ref m 300 =? 1) && bool_decide (300 ∈ freePages m)))
    as (x & m & -> & Ht); [vm_compute; reflexivity|].
  apply andb_prop in Ht as [Ht Hin]. apply andb_prop in Ht as [Ht Href].
  apply andb_prop in Ht as [Hx Hl]. apply Z.eqb_eq in Hx, Href. subst x.
  exists m. split_and!; [done| |done|by apply bool_decide_eq_true in Hin].
  destruct (pageLookup_readonly (page2pa 200) 0x1234 m) as [[pa pte] Hr].
  rewrite Hr in Hl. simpl in Hl. apply Z.eqb_eq in Hl. subst pa. by exists pte.
Qed.
