(* ===== verification/Strings.v ===== *)
(** * String.c: NUL-terminated strings in memory

    The functions of kernel/utility/String.c that [Mem.v] does not have, on
    addresses of the byte memory.  [char] is unsigned on RISC-V.  A function
    that scans for a NUL byte takes an iteration bound and returns [None] when it
    is exceeded; [strlen_cstr] and the other theorems give the bound that is
    enough. *)

From S2P Require Import Prelude CType Mem.

(** ** Operations *)

Fixpoint memcmp (n : nat) (s1 s2 : Z) (m : gmap Z Z) : Z :=
  match n with
  | O => 0
  | S n =>
      if negb (load8 m s1 =? load8 m s2) then load8 m s1 - load8 m s2
      else memcmp n (s1 + 1) (s2 + 1) m
  end.

Fixpoint strncmp (n : nat) (p q : Z) (m : gmap Z Z) : Z :=
  match n with
  | O => 0
  | S n =>
      if c_true (load8 m p) && (load8 m p =? load8 m q) then strncmp n (p + 1) (q + 1) m
      else load8 m p - load8 m q
  end.

(** [n] is the number of bytes left; the bytes after a copied NUL are zeroed. *)
Fixpoint strncpy (n : nat) (s t : Z) (m : gmap Z Z) : gmap Z Z :=
  match n with
  | O => m
  | S n =>
      let c := load8 m t in
      let m := store8 s c m in
      if c =? 0 then memset_loop n (s + 1) 0 m else strncpy n (s + 1) (t + 1) m
  end.

(** The loop [while (--n > 0 && ( *s++ = *t++) != 0);] with [n] iterations
    allowed, and the final [*s = 0]. *)
Fixpoint safestrcpy_loop (n : nat) (s t : Z) (m : gmap Z Z) : gmap Z Z :=
  match n with
  | O => store8 s 0 m
  | S n =>
      let c := load8 m t in
      let m := store8 s c m in
      if c =? 0 then store8 (s + 1) 0 m else safestrcpy_loop n (s + 1) (t + 1) m
  end.
Definition safestrcpy (s t n : Z) (m : gmap Z Z) : gmap Z Z :=
  if n <=? 0 then m else safestrcpy_loop (Z.to_nat (n - 1)) s t m.

Fixpoint strlen_from (fuel : nat) (s n : Z) (m : gmap Z Z) : option Z :=
  match fuel with
  | O => None
  | S fuel => if c_true (load8 m (s + n)) then strlen_from fuel s (n + 1) m else Some n
  end.
Definition strlen (fuel : nat) (s : Z) (m : gmap Z Z) : option Z := strlen_from fuel s 0 m.

(** The pointer, or 0 when the character does not occur. *)
Fixpoint strchr (fuel : nat) (s c : Z) (m : gmap Z Z) : option Z :=
  match fuel with
  | O => None
  | S fuel =>
      if negb (c_true (load8 m s)) then Some 0
      else if load8 m s =? c then Some s
      else strchr fuel (s + 1) c m
  end.

(** [wchar] is 16 bits wide.  [len] counts down before the source character is
    tested, so the character that ends the loop uses up one position. *)
Fixpoint snstr (len : nat) (dst src : Z) (m : gmap Z Z) : gmap Z Z :=
  match len with
  | O => m
  | S len =>
      let w := load_le m src 2 in
      if c_true w then snstr len (dst + 1) (src + 2) (store8 dst (Z.land w 0xff) m)
      else memset_loop len dst 0 m
  end.

(** ** C strings *)

(** [l] are the characters of the string at [a]. *)
Definition cstr (m : gmap Z Z) (a : Z) (l : list Z) : Prop :=
  load_bytes m a (length l) = l /\ load8 m (a + Z.of_nat (length l)) = 0 /\ Forall (fun c => c <> 0) l.

Lemma cstr_nil m a : cstr m a [] <-> load8 m a = 0.
Proof. unfold cstr. simpl. rewrite Z.add_0_r. naive_solver. Qed.

Lemma cstr_cons m a c l :
  cstr m a (c :: l) <-> load8 m a = c /\ c <> 0 /\ cstr m (a + 1) l.
Proof.
  unfold cstr. simpl. rewrite Forall_cons, Nat2Z.inj_succ.
  replace (a + Z.succ (Z.of_nat (length l))) with (a + 1 + Z.of_nat (length l)) by lia.
  split; [intros ([=] & ? & ? & ?)|intros (-> & ? & -> & ? & ?)]; naive_solver.
Qed.

Lemma cstr_ext m m' a l :
  (forall b, a <= b <= a + Z.of_nat (length l) -> load8 m' b = load8 m b) ->
  cstr m a l -> cstr m' a l.
Proof.
  revert a. induction l as [|c l IH]; intros a He.
  - rewrite !cstr_nil. intros <-. apply He. simpl. lia.
  - rewrite !cstr_cons. simpl in He. intros (<- & ? & H). split_and!; [apply He; lia|done|].
    apply IH; [|done]. intros b Hb. apply He. lia.
Qed.

Lemma strlen_from_cstr fuel s n l m :
  cstr m (s + n) l -> (length l < fuel)%nat -> strlen_from fuel s n m = Some (n + Z.of_nat (length l)).
Proof.
  revert fuel n. induction l as [|c l IH]; intros [|fuel] n Hc Hf; simpl in *; try lia.
  - apply cstr_nil in Hc. rewrite Hc. simpl. f_equal. lia.
  - apply cstr_cons in Hc as (<- & Hc & Hl). unfold c_true. rewrite (proj2 (Z.eqb_neq _ 0)) by done.
    simpl. rewrite IH; [f_equal; lia| |lia]. by replace (s + (n + 1)) with (s + n + 1) by lia.
Qed.

Lemma strlen_cstr fuel s l m :
  cstr m s l -> (length l < fuel)%nat -> strlen fuel s m = Some (Z.of_nat (length l)).
Proof. intros. unfold strlen. rewrite (strlen_from_cstr fuel s 0 l); rewrite ?Z.add_0_r; done. Qed.

Lemma strncmp_cstr n p q lp lq m :
  cstr m p lp -> cstr m q lq -> strncmp n p q m = 0 <-> take n lp = take n lq.
Proof.
  revert p q lp lq. induction n as [|n IH]; intros p q lp lq Hp Hq; [done|].
  simpl. destruct lp as [|c lp], lq as [|d lq]; rewrite ?cstr_nil, ?cstr_cons in *.
  - rewrite Hp, Hq. done.
  - destruct Hq as (Hd & ? & _). rewrite Hp, Hd. simpl. split; [lia|done].
  - destruct Hp as (Hd & ? & _). rewrite Hq, Hd. unfold c_true.
    rewrite (proj2 (Z.eqb_neq c 0)) by done. simpl. split; [lia|done].
  - destruct Hp as (Hc & ? & Hp), Hq as (Hd & ? & Hq). rewrite Hc, Hd. unfold c_true.
    rewrite (proj2 (Z.eqb_neq c 0)) by done. simpl. destruct (Z.eqb_spec c d) as [->|Hne].
    + rewrite IH by done. split; [by intros ->|by intros [=]].
    + split; [lia|by intros [=]].
Qed.

Lemma strchr_cstr fuel s c l m :
  cstr m s l -> (length l < fuel)%nat ->
  strchr fuel s c m =
    Some (match list_find (fun x => x = c) l with Some (i, _) => s + Z.of_nat i | None => 0 end).
Proof.
  revert fuel s. induction l as [|d l IH]; intros [|fuel] s Hc Hf; simpl in *; try lia.
  - apply cstr_nil in Hc. by rewrite Hc.
  - apply cstr_cons in Hc as (Hd & Hnz & Hl). rewrite Hd. unfold c_true.
    rewrite (proj2 (Z.eqb_neq d 0)) by done. simpl. case_decide as Hdc.
    + rewrite (proj2 (Z.eqb_eq _ _) Hdc). simpl. f_equal. lia.
    + rewrite (proj2 (Z.eqb_neq _ _) Hdc), (IH fuel) by (done || lia).
      destruct (list_find _ l) as [[i x]|]; simpl; [f_equal; lia|done].
Qed.

(** ** Copies *)

Lemma safestrcpy_loop_outside k : forall s t m b,
  b < s \/ s + Z.of_nat k < b -> load8 (safestrcpy_loop k s t m) b = load8 m b.
Proof.
  induction k as [|k IH]; intros s t m b Hb; simpl.
  - apply load8_store8_ne. lia.
  - destruct (load8 m t =? 0).
    + rewrite !load8_store8_ne by lia. done.
    + rewrite IH by lia. apply load8_store8_ne. lia.
Qed.

Lemma safestrcpy_loop_cstr k : forall s t l m,
  cstr m t l -> s + Z.of_nat k < t \/ t + Z.of_nat (length l) < s ->
  cstr (safestrcpy_loop k s t m) s (take k l).
Proof.
  induction k as [|k IH]; intros s t l m Hl Hd; simpl.
  - apply cstr_nil. rewrite load8_store8_eq. done.
  - destruct l as [|c l]; rewrite ?cstr_nil, ?cstr_cons in *; simpl in *.
    + rewrite Hl. simpl. rewrite load8_store8_ne, load8_store8_eq by lia. done.
    + destruct Hl as (Hc & Hnz & Hl). rewrite Hc, (proj2 (Z.eqb_neq c 0)) by done.
      rewrite cstr_cons. split_and!; [|done|].
      * rewrite safestrcpy_loop_outside, load8_store8_eq by lia.
        rewrite <- Hc. apply Z.mod_small, load8_range.
      * apply IH; [|lia]. eapply cstr_ext; [|exact Hl]. intros b Hb. apply load8_store8_ne. lia.
Qed.

(** [safestrcpy] with a positive size makes the destination a C string: the
    first [n - 1] characters of the source, NUL-terminated, and it writes nothing
    outside the [n] bytes of the destination. *)
Theorem safestrcpy_spec s t n l m :
  0 < n -> cstr m t l -> s + n <= t \/ t + Z.of_nat (length l) < s ->
  cstr (safestrcpy s t n m) s (take (Z.to_nat (n - 1)) l) /\
  forall b, b < s \/ s + n <= b -> load8 (safestrcpy s t n m) b = load8 m b.
Proof.
  intros Hn Hl Hd. unfold safestrcpy. rewrite (proj2 (Z.leb_gt n 0)) by lia. split.
  - apply safestrcpy_loop_cstr; [done|lia].
  - intros b Hb. apply safestrcpy_loop_outside. lia.
Qed.

Definition str_mem : gmap Z Z := store_bytes 100 [0x61; 0x62; 0x63; 0] ∅.

Lemma safestrcpy_spec_witness : cstr (safestrcpy 10 100 3 str_mem) 10 [0x61; 0x62].
Proof.
  apply (safestrcpy_spec 10 100 3 [0x61; 0x62; 0x63] str_mem); [lia| |simpl; lia].
  split_and!; [reflexivity|reflexivity|repeat constructor; lia].
Defined.

(** [strlen] counts the characters before the NUL, [strchr] finds the first
    occurrence and [strncmp] is zero exactly on strings with equal prefixes, for
    any iteration bound above the length of the string. *)
Theorem string_scans fuel s t n c l k m :
  cstr m s l -> cstr m t k -> (length l < fuel)%nat ->
  strlen fuel s m = Some (Z.of_nat (length l)) /\
  strchr fuel s c m = Some (match list_find (fun x => x = c) l with
                            | Some (i, _) => s + Z.of_nat i | None => 0 end) /\
  (strncmp n s t m = 0 <-> take n l = take n k).
Proof.
  intros Hs Ht Hf. split_and!; [by apply strlen_cstr|by apply strchr_cstr|by apply strncmp_cstr].
Qed.

Lemma string_scans_witness : strlen 4 100 str_mem = Some 3.
Proof.
  apply (string_scans 4 100 101 2 0x62 [0x61; 0x62; 0x63] [0x62; 0x63] str_mem).
  - split_and!; [reflexivity|reflexivity|repeat constructor; lia].
  - split_and!; [reflexivity|reflexivity|repeat constructor; lia].
  - simpl. lia.
Defined.

(** [snstr] of a wide string shorter than [len] leaves the last byte of the
    destination as it was: the test of the terminating character uses up one of
    the [len] positions that were to be zeroed. *)
Theorem snstr_last_byte_kept j : forall len dst src m,
  (j < len)%nat ->
  (forall i, (i < j)%nat -> load_le m (src + 2 * Z.of_nat i) 2 <> 0) ->
  load_le m (src + 2 * Z.of_nat j) 2 = 0 ->
  src + 2 * Z.of_nat len <= dst \/ dst + Z.of_nat len <= src ->
  load8 (snstr len dst src m) (dst + Z.of_nat len - 1) = load8 m (dst + Z.of_nat len - 1).
Proof.
  induction j as [|j IH]; intros [|len] dst src m Hj Hnz Hz Hd; try lia; cbn [snstr].
  - rewrite Z.add_0_r in Hz. rewrite Hz. simpl. rewrite memset_loop_spec, decide_False by lia. done.
  - assert (load_le m src 2 <> 0) as Hne by (rewrite <- (Z.add_0_r src); apply (Hnz 0%nat); lia).
    unfold c_true. rewrite (proj2 (Z.eqb_neq _ 0)) by done. cbn [negb].
    assert (Hfr : forall i, (i < S (S len))%nat ->
      load_le (store8 dst (Z.land (load_le m src 2) 255) m) (src + 2 + 2 * Z.of_nat i) 2 =
      load_le m (src + 2 * Z.of_nat (S i)) 2 \/ (len <= i)%nat).
    { intros i Hi. destruct (decide (len <= i)%nat); [by right|left].
      replace (src + 2 * Z.of_nat (S i)) with (src + 2 + 2 * Z.of_nat i) by lia.
      apply load_le_ext. intros b Hb. apply load8_store8_ne. lia. }
    replace (dst + Z.of_nat (S len) - 1) with (dst + 1 + Z.of_nat len - 1) by lia.
    rewrite IH; [apply load8_store8_ne; lia|lia| | |lia].
    + intros i Hi. destruct (Hfr i) as [-> |]; [lia|apply Hnz; lia|lia].
    + destruct (Hfr j) as [-> |]; [lia|done|lia].
Qed.

Lemma snstr_last_byte_kept_witness :
  load8 (snstr 3 200 100 (store_bytes 200 [7; 7; 7] (store_bytes 100 [0x61; 0; 0; 0] ∅))) 202 = 7.
Proof.
  rewrite (snstr_last_byte_kept 1 3 200 100); [reflexivity|lia| |reflexivity|lia].
  intros i Hi. assert (i = 0%nat) as -> by lia. vm_compute. discriminate.
Defined.
