(* ===== verification/Print.v ===== *)
(** * Print.c: formatted output

    [printNum], [printString] and [printChar] build their text in a character
    buffer and [print] interprets the format.  The state is the memory the
    strings and the buffer live in and the characters sent with [putchar], oldest
    first.  The variadic arguments are a list of 64-bit register values; reading
    past it, undefined in C, is [panic] here. *)

From S2P Require Import Prelude CType Mem Strings.

Record PState := mkP { pmem : gmap Z Z; out : list Z }.

Module Print.

Definition set_pmem (f : gmap Z Z -> gmap Z Z) (s : PState) : PState := mkP (f (pmem s)) (out s).
Definition putchar (c : Z) : M PState unit := modify (fun s => mkP (pmem s) (out s ++ [u8 c])).

Definition IsDigit (x : Z) : bool := (x >=? 48) && (x <=? 57).

(** ** The buffer *)

Definition digit_char (upcase : bool) (tmp : Z) : Z :=
  if tmp <=? 9 then 48 + tmp else if upcase then 65 + tmp - 10 else 97 + tmp - 10.

(** The do-while loop over the digits: the end of the text and the memory. *)
Fixpoint put_digits (fuel : nat) (upcase : bool) (base p u : Z) (m : gmap Z Z) : option (Z * gmap Z Z) :=
  match fuel with
  | O => None
  | S fuel =>
      let tmp := u mod base in
      let m := store8 p (digit_char upcase tmp) m in
      let u := u / base in
      if u =? 0 then Some (p + 1, m) else put_digits fuel upcase base (p + 1) u m
  end.

(** The swap loop [while (end > begin)]; [end - begin] drops by two at each
    iteration, so [end] iterations are enough. *)
Fixpoint reverse_loop (fuel : nat) (buf begin_ end_ : Z) (m : gmap Z Z) : gmap Z Z :=
  match fuel with
  | O => m
  | S fuel =>
      if end_ >? begin_ then
        let tmp := load8 m (buf + begin_) in
        let m := store8 (buf + begin_) (load8 m (buf + end_)) m in
        let m := store8 (buf + end_) tmp m in
        reverse_loop fuel buf (begin_ + 1) (end_ - 1) m
      else m
  end.

(** [for (i = a; i < b; i++) buf[i] = c;] *)
Definition fill (buf a b c : Z) (m : gmap Z Z) : gmap Z Z :=
  memset_loop (Z.to_nat (b - a)) (buf + a) c m.

Definition printNum (buf u base : Z) (negFlag : bool) (length : Z) (ladjust : bool) (padc : Z)
    (upcase : bool) (m : gmap Z Z) : option (gmap Z Z) :=
  match put_digits 64 upcase base buf u m with
  | None => None
  | Some (p, m) =>
      let '(p, m) := if negFlag then (p + 1, store8 p 45 m) else (p, m) in
      let actualLength := p - buf in
      let length := if length <? actualLength then actualLength else length in
      let padc := if ladjust then 32 else padc in
      let m :=
        if negFlag && negb ladjust && (padc =? 48) then
          store8 (buf + (length - 1)) 45 (fill buf (actualLength - 1) (length - 1) padc m)
        else fill buf actualLength length padc m in
      let end_ := if ladjust then actualLength - 1 else length - 1 in
      let m := reverse_loop (Z.to_nat end_) buf 0 end_ m in
      Some (store8 (buf + length) 0 m)
  end.

Definition printChar (buf c length : Z) (ladjust : bool) (m : gmap Z Z) : gmap Z Z :=
  let length := if length <? 1 then 1 else length in
  let m := if ladjust then fill buf 1 length 32 (store8 buf c m)
           else store8 (buf + (length - 1)) c (fill buf 0 (length - 1) 32 m) in
  store8 (buf + length) 0 m.

Definition printString (fuel : nat) (buf s length : Z) (ladjust : bool) (m : gmap Z Z) : option (gmap Z Z) :=
  match strlen fuel s m with
  | None => None
  | Some len =>
      let length := if length <? len then len else length in
      let m := if ladjust then fill buf len length 32 (copy_loop (Z.to_nat len) s buf m)
               else copy_loop (Z.to_nat len) s (buf + (length - len)) (fill buf 0 (length - len) 32 m) in
      Some (store8 (buf + length) 0 m)
  end.

(** ** Output *)

Definition putString (fuel : nat) (s : Z) : M PState unit :=
  loop fuel (fun s =>
    c ← gets (fun st => load8 (pmem st) s);
    if c_true c then
      when (c =? 10) (putchar 13) ;;
      putchar c ;;
      mret (inl (s + 1))
    else mret (inr tt)) s.

(** The digits of [x] in the order they are produced. *)
Fixpoint int_digits (fuel : nat) (base x : Z) : list Z :=
  match fuel with
  | O => []
  | S fuel =>
      let d := digit_char false (x mod base) in
      if x / base =? 0 then [d] else d :: int_digits fuel base (x / base)
  end.

Definition printInt (xx base : Z) (sign : bool) : M PState unit :=
  let sign := sign && (xx <? 0) in
  let x := if sign then u64 (- xx) else u64 xx in
  let buf := int_digits 64 base x ++ (if sign then [45] else []) in
  mapM (fun c => putchar c) (reverse buf) ;; mret tt.

(** ** The format *)

Definition buffer (o : option (gmap Z Z)) : M PState unit :=
  match o with Some m => modify (set_pmem (fun _ => m)) | None => fun _ => NoFuel end.

(** The decimal number at [fmt + i], continued from [acc]: its value, the index
    and the character after it. *)
Definition scan_num (fuel : nat) (fmt : Z) (acc i c : Z) : M PState (Z * Z * Z) :=
  loop fuel (fun l : Z * Z * Z =>
    let '(acc, i, c) := l in
    if IsDigit c then
      c' ← gets (fun st => load8 (pmem st) (fmt + (i + 1)));
      mret (inl (i32 (acc * 10 + c - 48), i + 1, c'))
    else mret (inr (acc, i, c))) (acc, i, c).

Definition next (fmt i : Z) : M PState Z := gets (fun st => load8 (pmem st) (fmt + (i + 1))).

Definition va_arg (ap : list Z) : M PState (Z * list Z) :=
  match ap with a :: ap => mret (a, ap) | [] => panic end.

Definition i64 (x : Z) : Z := (x + 2 ^ 63) mod 2 ^ 64 - 2 ^ 63.

(** [num = longFlag ? va_arg(ap, i64) : va_arg(ap, i32)] *)
Definition va_num (longFlag : bool) (ap : list Z) : M PState (Z * list Z) :=
  r ← va_arg ap; mret (if longFlag then i64 (fst r) else i32 (fst r), snd r).

(** [null] is the address of the literal "(null)". *)
Definition conversion (fuel : nat) (buf null fmt c i width : Z) (ladjust : bool) (padc : Z)
    (longFlag : bool) (ap : list Z) : M PState (Z * list Z) :=
  let number base upcase (num : Z) (negFlag : bool) :=
    m ← gets pmem;
    buffer (printNum buf (u64 num) base negFlag width ladjust padc upcase m) ;;
    putString fuel buf in
  if c =? 99 then (* 'c' *)
    r ← va_arg ap;
    let c := u8 (fst r) in
    modify (set_pmem (printChar buf c width ladjust)) ;;
    putchar c ;; mret (i, snd r)
  else if (c =? 68) || (c =? 100) then (* 'D' 'd' *)
    r ← va_num longFlag ap;
    let num := fst r in
    (if num <? 0 then number 10 false (- num) true else number 10 false num false) ;;
    mret (i, snd r)
  else if (c =? 79) || (c =? 111) then (* 'O' 'o' *)
    r ← va_num longFlag ap; number 8 false (fst r) false ;; mret (i, snd r)
  else if (c =? 85) || (c =? 117) then (* 'U' 'u' *)
    r ← va_num longFlag ap; number 10 false (fst r) false ;; mret (i, snd r)
  else if c =? 120 then (* 'x' *)
    r ← va_num longFlag ap; number 16 false (fst r) false ;; mret (i, snd r)
  else if c =? 88 then (* 'X' *)
    r ← va_num longFlag ap; number 16 true (fst r) false ;; mret (i, snd r)
  else if c =? 115 then (* 's' *)
    r ← va_arg ap;
    let s := if fst r =? 0 then null else fst r in
    m ← gets pmem;
    buffer (printString fuel buf s width ladjust m) ;;
    putString fuel buf ;; mret (i, snd r)
  else if c =? 0 then mret (i - 1, ap)
  else putchar c ;; mret (i, ap).

Definition print_step (fuel : nat) (buf null fmt : Z) (l : Z * list Z) : M PState (Z * list Z + unit) :=
  let '(i, ap) := l in
  c ← gets (fun st => load8 (pmem st) (fmt + i));
  if negb (c_true c) then mret (inr tt)
  else if negb (c =? 37) then
    when (c =? 10) (putchar 13) ;;
    putchar c ;;
    mret (inl (i + 1, ap))
  else
    c ← next fmt i;
    r ← (if c =? 45 then c ← next fmt (i + 1); mret (c, i + 2, true) else mret (c, i + 1, false));
    let '(c, i, ladjust) := r in
    r ← (if c =? 48 then c ← next fmt i; mret (c, i + 1, 48) else mret (c, i, 32));
    let '(c, i, padc) := r in
    r ← scan_num fuel fmt 0 i c;
    let '(width, i, c) := r in
    r ← (if c =? 46 then
           c ← next fmt i; r ← scan_num fuel fmt 0 (i + 1) c;
           let '(prec, i, c) := r in mret (c, i)
         else mret (c, i));
    let '(c, i) := r in
    r ← (if c =? 108 then c ← next fmt i; mret (c, i + 1, true) else mret (c, i, false));
    let '(c, i, longFlag) := r in
    r ← conversion fuel buf null fmt c i width ladjust padc longFlag ap;
    let '(i, ap) := r in
    mret (inl (i + 1, ap)).

Definition print (fuel : nat) (buf null fmt : Z) (ap : list Z) : M PState unit :=
  loop fuel (print_step fuel buf null fmt) (0, ap).

(** The arguments after the format are the list [ap]. *)
Definition printf (fuel : nat) (buf null fmt : Z) (ap : list Z) : M PState unit := print fuel buf null fmt ap.
Definition panicPrintf (fuel : nat) (buf null fmt : Z) (ap : list Z) : M PState unit := print fuel buf null fmt ap.

(** ** Panic

    [head] and [failed] are the addresses of the literals "hartId %d panic at %s: %d in
    %s(): " and "assert failed\n".  What is printed, then the endless loop. *)
Definition panic_text (fuel : nat) (buf null head hartid file line func fmt : Z) (ap : list Z) : M PState unit :=
  panicPrintf fuel buf null head [hartid; file; line; func] ;;
  print fuel buf null fmt ap ;;
  putchar 10.
Definition _panic_ (fuel : nat) (buf null head hartid file line func fmt : Z) (ap : list Z) : M PState unit :=
  panic_text fuel buf null head hartid file line func fmt ap ;; panic.
Definition _assert_ (fuel : nat) (buf null head failed hartid file line func statement : Z) : M PState unit :=
  if negb (c_true statement) then _panic_ fuel buf null head hartid file line func failed [] else mret tt.

End Print.

(** ** The text of a number *)

Import Print.

(** The digits of [u], most significant first. *)
Definition num_digits (upcase : bool) (base u : Z) : list Z :=
  reverse ((fix go (fuel : nat) (u : Z) : list Z :=
    match fuel with
    | O => []
    | S fuel => digit_char upcase (u mod base) ::
                (if u / base =? 0 then [] else go fuel (u / base))
    end) 64%nat u).

Fixpoint rdigits (fuel : nat) (upcase : bool) (base u : Z) : list Z :=
  match fuel with
  | O => []
  | S fuel => digit_char upcase (u mod base) ::
              (if u / base =? 0 then [] else rdigits fuel upcase base (u / base))
  end.

(** What [printNum] should leave in the buffer. *)
Definition num_string (u base : Z) (neg : bool) (width : Z) (ladjust : bool) (padc : Z)
    (upcase : bool) : list Z :=
  let ds := num_digits upcase base u in
  let sign := if neg then [45] else [] in
  let pad := Z.to_nat (width - Z.of_nat (length ds + length sign)) in
  if ladjust then sign ++ ds ++ replicate pad 32
  else if neg && (padc =? 48) then sign ++ replicate pad padc ++ ds
  else replicate pad padc ++ sign ++ ds.

(** The number a digit string stands for. *)
Definition digit_val (c : Z) : Z :=
  if c <=? 57 then c - 48 else if c <=? 70 then c - 55 else c - 87.
Definition parse_num (base : Z) (ds : list Z) : Z := fold_left (fun a c => a * base + digit_val c) ds 0.

Lemma num_digits_rev upcase base u : num_digits upcase base u = reverse (rdigits 64 upcase base u).
Proof. reflexivity. Qed.

Lemma digit_char_range upcase t : 0 <= t < 16 -> 48 <= digit_char upcase t < 128 /\ digit_val (digit_char upcase t) = t.
Proof.
  intros Ht. unfold digit_char, digit_val. destruct (Z.leb_spec t 9).
  - rewrite (proj2 (Z.leb_le _ 57)) by lia. lia.
  - destruct upcase.
    + rewrite (proj2 (Z.leb_gt _ 57)), (proj2 (Z.leb_le _ 70)) by lia. lia.
    + rewrite (proj2 (Z.leb_gt _ 57)), (proj2 (Z.leb_gt _ 70)) by lia. lia.
Qed.

Lemma div_step base u k : 2 <= base -> 0 <= u < 2 ^ (Z.of_nat (S k)) -> 0 <= u / base < 2 ^ Z.of_nat k.
Proof.
  intros Hb Hu. rewrite Nat2Z.inj_succ, Z.pow_succ_r in Hu by lia.
  split; [apply Z.div_pos; lia|]. apply Z.div_lt_upper_bound; nia.
Qed.

Lemma put_digits_spec upcase base fuel : forall p u m,
  2 <= base <= 16 -> 0 <= u < 2 ^ Z.of_nat fuel -> (0 < fuel)%nat ->
  exists m', let ds := rdigits fuel upcase base u in
    put_digits fuel upcase base p u m = Some (p + Z.of_nat (length ds), m') /\
    load_bytes m' p (length ds) = ds /\
    forall b, b < p \/ p + Z.of_nat (length ds) <= b -> load8 m' b = load8 m b.
Proof.
  induction fuel as [|fuel IH]; intros p u m Hb Hu Hf; [lia|]. cbn [put_digits rdigits].
  pose proof (Z.mod_pos_bound u base ltac:(lia)) as Hm.
  destruct (digit_char_range upcase (u mod base)) as [Hd _]; [lia|].
  pose proof (div_step base u fuel ltac:(lia) Hu) as Hdiv.
  destruct (Z.eqb_spec (u / base) 0) as [Hz|Hnz].
  - eexists. split_and!; [done| |].
    + cbn [length load_bytes]. rewrite load8_store8_eq. f_equal. apply Z.mod_small. lia.
    + intros b Hbb. cbn [length] in Hbb. apply load8_store8_ne. lia.
  - destruct fuel as [|fuel]; [simpl in Hdiv; lia|].
    destruct (IH (p + 1) (u / base) (store8 p (digit_char upcase (u mod base)) m)) as (m' & Hr & Hl & Ho);
      [lia|lia|lia|].
    exists m'. cbn zeta in *. cbn [length]. split_and!.
    + rewrite Hr. do 2 f_equal. lia.
    + cbn [load_bytes]. rewrite Hl, Ho, load8_store8_eq by lia. f_equal. apply Z.mod_small. lia.
    + intros b Hbb. rewrite Ho by lia. apply load8_store8_ne. lia.
Qed.

Lemma reverse_loop_spec fuel : forall buf b e m i,
  e - b <= 2 * Z.of_nat fuel -> 
  load8 (reverse_loop fuel buf b e m) (buf + i) =
  if decide (b <= i <= e) then load8 m (buf + (b + e - i)) else load8 m (buf + i).
Proof.
  induction fuel as [|fuel IH]; intros buf b e m i Hf; cbn [reverse_loop].
  - case_decide; [|done]. f_equal. lia.
  - rewrite Z.gtb_ltb. destruct (Z.ltb_spec b e) as [Hlt|Hge].
    + rewrite IH by lia. repeat rewrite load8_store8.
      repeat case_decide; try lia; try (f_equal; lia);
        rewrite ?(Z.mod_small _ _ (load8_range _ _)); unfold u8;
        rewrite ?(Z.mod_small _ _ (load8_range _ _)); try (f_equal; lia); done.
    + case_decide; [|done]. f_equal. lia.
Qed.

Lemma reverse_loop_bytes buf e m n :
  Z.of_nat n = e + 1 ->
  load_bytes (reverse_loop (Z.to_nat e) buf 0 e m) buf n = reverse (load_bytes m buf n).
Proof.
  intros Hn. apply list_eq. intros i. destruct (decide (i < n)%nat) as [Hi|Hi].
  - rewrite reverse_lookup by (rewrite length_load_bytes; lia). rewrite length_load_bytes.
    rewrite !load_bytes_lookup by lia. f_equal. rewrite reverse_loop_spec by lia.
    rewrite decide_True by lia. f_equal. lia.
  - rewrite !lookup_ge_None_2; [done| |]; rewrite ?length_reverse, length_load_bytes; lia.
Qed.

Lemma fill_bytes m buf a b c : load_bytes (fill buf a b c m) (buf + a) (Z.to_nat (b - a)) = replicate (Z.to_nat (b - a)) (u8 c).
Proof.
  unfold fill. set (n := Z.to_nat (b - a)). apply list_eq. intros i. destruct (decide (i < n)%nat).
  - rewrite load_bytes_lookup, lookup_replicate_2 by done. f_equal.
    rewrite memset_loop_spec, decide_True by lia. done.
  - rewrite !lookup_ge_None_2; [done| |]; rewrite ?length_replicate, ?length_load_bytes; lia.
Qed.

Lemma fill_outside m buf a b c x :
  x < buf + a \/ buf + Z.max a b <= x -> load8 (fill buf a b c m) x = load8 m x.
Proof. intros. unfold fill. rewrite memset_loop_spec, decide_False by lia. done. Qed.

(** [text_at m a l]: the bytes [l] stand at [a]. *)
Definition text_at (m : gmap Z Z) (a : Z) (l : list Z) : Prop := load_bytes m a (length l) = l.

Lemma text_at_app m a l k :
  text_at m a (l ++ k) <-> text_at m a l /\ text_at m (a + Z.of_nat (length l)) k.
Proof.
  unfold text_at. rewrite length_app, load_bytes_app. split.
  - intros H. apply app_inj_1 in H as [? ?]; [done|apply length_load_bytes].
  - intros [-> ->]. done.
Qed.

Lemma text_at_ext m m' a l :
  (forall b, a <= b < a + Z.of_nat (length l) -> load8 m' b = load8 m b) ->
  text_at m a l -> text_at m' a l.
Proof. unfold text_at. intros H Ht. rewrite <- Ht at 2. by apply load_bytes_ext. Qed.

Lemma text_at_byte m a c : 0 <= c < 256 -> text_at (store8 a c m) a [c].
Proof. intros. unfold text_at. simpl. rewrite load8_store8_eq. f_equal. by apply Z.mod_small. Qed.

Lemma text_at_fill m buf a b c :
  0 <= c < 256 -> text_at (fill buf a b c m) (buf + a) (replicate (Z.to_nat (b - a)) c).
Proof.
  intros. unfold text_at. rewrite length_replicate, fill_bytes. f_equal. by apply Z.mod_small.
Qed.

Lemma text_at_reverse m buf e l :
  Z.of_nat (length l) = e + 1 -> text_at m buf l ->
  text_at (reverse_loop (Z.to_nat e) buf 0 e m) buf (reverse l).
Proof.
  intros He Hl. unfold text_at. rewrite length_reverse, reverse_loop_bytes by done. by rewrite Hl.
Qed.

Lemma reverse_loop_outside m buf e x :
  x < buf \/ buf + e < x -> load8 (reverse_loop (Z.to_nat e) buf 0 e m) x = load8 m x.
Proof.
  intros. replace x with (buf + (x - buf)) by lia. rewrite reverse_loop_spec by lia.
  by rewrite decide_False by lia.
Qed.

Lemma rdigits_length fuel upcase base u :
  (0 < fuel)%nat -> (0 < length (rdigits fuel upcase base u))%nat.
Proof. destruct fuel; simpl; lia. Qed.

(** The padding step of [printNum] on the reversed text [rd ++ sign]. *)
Definition pad_text (buf A W : Z) (neg ladjust : bool) (padc : Z) (m : gmap Z Z) : gmap Z Z :=
  let padc := if ladjust then 32 else padc in
  if neg && negb ladjust && (padc =? 48) then
    store8 (buf + (W - 1)) 45 (fill buf (A - 1) (W - 1) padc m)
  else fill buf A W padc m.

Definition sign_text (neg : bool) : list Z := if neg then [45] else [].

Lemma pad_text_spec m buf A W neg ladjust padc rd :
  0 <= padc < 256 -> A = Z.of_nat (length (rd ++ sign_text neg)) -> A <= W -> 
  text_at m buf (rd ++ sign_text neg) ->
  text_at (pad_text buf A W neg ladjust padc m) buf
    (if ladjust then rd ++ sign_text neg ++ replicate (Z.to_nat (W - A)) 32
     else if neg && (padc =? 48) then rd ++ replicate (Z.to_nat (W - A)) padc ++ sign_text neg
     else rd ++ sign_text neg ++ replicate (Z.to_nat (W - A)) padc) /\
  forall b, b < buf \/ buf + W <= b -> load8 (pad_text buf A W neg ladjust padc m) b = load8 m b.
Proof.
  intros Hp HA HW Ht. unfold pad_text.
  assert (Hgen : forall c, 0 <= c < 256 ->
    text_at (fill buf A W c m) buf (rd ++ sign_text neg ++ replicate (Z.to_nat (W - A)) c)).
  { intros c Hc. rewrite (assoc_L (++)), text_at_app. split.
    - eapply text_at_ext; [|exact Ht]. intros b Hb. apply fill_outside. lia.
    - rewrite <- HA. by apply text_at_fill. }
  destruct ladjust; cbn [negb andb]; [|destruct neg; cbn [andb]; [destruct (padc =? 48)|]].
  - rewrite andb_false_r. cbn [andb]. split; [by apply Hgen|]. intros. apply fill_outside. lia.
  - rewrite length_app in HA. cbn in HA. split.
    + apply text_at_app in Ht as [Ht _]. rewrite !text_at_app. split_and!.
      * eapply text_at_ext; [|exact Ht]. intros b Hb.
        rewrite load8_store8_ne, fill_outside by lia. done.
      * eapply text_at_ext; [intros b Hb; apply load8_store8_ne|].
        { rewrite length_replicate in Hb. lia. }
        replace (Z.of_nat (length rd)) with (A - 1) by lia.
        replace (W - A) with (W - 1 - (A - 1)) by lia. by apply text_at_fill.
      * rewrite length_replicate.
        replace (buf + Z.of_nat (length rd) + Z.of_nat (Z.to_nat (W - A))) with (buf + (W - 1)) by lia.
        apply text_at_byte. lia.
    + intros b Hb. rewrite load8_store8_ne, fill_outside by lia. done.
  - split; [by apply Hgen|]. intros. apply fill_outside. lia.
  - split; [by apply Hgen|]. intros. apply fill_outside. lia.
Qed.

Lemma printNum_unfold buf u base (neg : bool) width (ladjust : bool) padc upcase m m1 L :
  put_digits 64 upcase base buf u m = Some (buf + L, m1) ->
  let A := L + (if neg then 1 else 0) in
  let W := if width <? A then A else width in
  let m2 := if neg then store8 (buf + L) 45 m1 else m1 in
  let e := if ladjust then A - 1 else W - 1 in
  printNum buf u base neg width ladjust padc upcase m =
  Some (store8 (buf + W) 0 (reverse_loop (Z.to_nat e) buf 0 e (pad_text buf A W neg ladjust padc m2))).
Proof.
  intros H. cbv zeta. unfold printNum, pad_text. rewrite H.
  destruct neg; [replace (buf + L + 1 - buf) with (L + 1) by lia
                |replace (buf + L - buf) with (L + 0) by lia]; reflexivity.
Qed.

(** Reversing the padded text, in full or up to the sign. *)
Lemma reversed_text m buf A W (ladjust : bool) (x y : list Z) :
  A = Z.of_nat (length x) -> 0 < A -> A <= W ->
  (ladjust = true -> text_at m buf (x ++ y)) ->
  (ladjust = false -> text_at m buf (x ++ y) /\ W = Z.of_nat (length (x ++ y))) ->
  let e := if ladjust then A - 1 else W - 1 in
  text_at (reverse_loop (Z.to_nat e) buf 0 e m) buf
    (if ladjust then reverse x ++ y else reverse (x ++ y)).
Proof.
  intros HA Hpos HW Ht Hf. destruct ladjust; cbv zeta.
  - specialize (Ht eq_refl). apply text_at_app in Ht as [Hx Hy]. rewrite text_at_app. split.
    + apply text_at_reverse; [lia|done].
    + rewrite length_reverse. eapply text_at_ext; [|exact Hy]. intros b Hb.
      apply reverse_loop_outside. lia.
  - destruct (Hf eq_refl) as [Ht' HWl]. apply text_at_reverse; [lia|done].
Qed.

Lemma sign_text_reverse neg : reverse (sign_text neg) = sign_text neg.
Proof. by destruct neg. Qed.

Lemma printNum_text buf u base neg width ladjust padc upcase m :
  2 <= base <= 16 -> 0 <= u < 2 ^ 64 -> 0 <= padc < 256 ->
  let s := num_string u base neg width ladjust padc upcase in
  exists m',
    printNum buf u base neg width ladjust padc upcase m = Some m' /\
    text_at m' buf (s ++ [0]) /\
    forall b, b < buf \/ buf + Z.of_nat (length s) < b -> load8 m' b = load8 m b.
Proof.
  intros Hb Hu Hp. destruct (put_digits_spec upcase base 64 buf u m Hb Hu ltac:(lia)) as (m1 & Hr & Hd & Ho).
  cbv zeta in *. unfold num_string. rewrite num_digits_rev, length_reverse.
  pose proof (rdigits_length 64 upcase base u ltac:(lia)) as H0.
  generalize dependent (rdigits 64 upcase base u). intros rd Hr Hd Ho H0.
  set (L := Z.of_nat (length rd)) in *. assert (HL : 0 < L) by lia.
  rewrite (printNum_unfold _ _ _ _ _ _ _ _ _ _ _ Hr).
  set (A := L + (if neg then 1 else 0)). set (W := if width <? A then A else width).
  set (m2 := if neg then store8 (buf + L) 45 m1 else m1).
  assert (HAW : A <= W /\ Z.to_nat (W - A) = Z.to_nat (width - A))
    by (unfold W; destruct (Z.ltb_spec width A); lia).
  assert (Hlen : A = Z.of_nat (length (rd ++ sign_text neg)))
    by (rewrite length_app; unfold A, L, sign_text; destruct neg; simpl; lia).
  fold (sign_text neg). rewrite <- length_app, <- Hlen, <- (proj2 HAW).
  assert (Ht : text_at m2 buf (rd ++ sign_text neg)).
  { rewrite text_at_app. unfold m2, sign_text. destruct neg; [split|by split].
    - eapply text_at_ext; [|exact Hd]. intros b Hbb. apply load8_store8_ne. lia.
    - by apply text_at_byte. }
  assert (Ho2 : forall b, b < buf \/ buf + A <= b -> load8 m2 b = load8 m b).
  { intros b Hbb. unfold m2, A in *. destruct neg; [rewrite load8_store8_ne by lia|]; apply Ho; lia. }
  destruct (pad_text_spec m2 buf A W neg ladjust padc rd Hp Hlen (proj1 HAW) Ht) as [Hpt Hpo].
  eexists. split; [reflexivity|].
  set (e := if ladjust then A - 1 else W - 1).
  match goal with |- text_at _ _ (?l ++ _) /\ _ => set (s := l) end.
  assert (Hs : Z.of_nat (length s) = W /\
    text_at (reverse_loop (Z.to_nat e) buf 0 e (pad_text buf A W neg ladjust padc m2)) buf s).
  { unfold s. rewrite length_app in Hlen. destruct ladjust.
    - rewrite !length_app, length_replicate, length_reverse. split; [lia|].
      rewrite (assoc_L (++)) in Hpt |- *. rewrite <- (sign_text_reverse neg), <- reverse_app.
      apply (reversed_text _ buf A W true _ _); [by rewrite length_app|lia|lia|done|done].
    - destruct (neg && (padc =? 48)); rewrite !length_app, length_replicate, length_reverse;
        (split; [lia|]).
      + replace (sign_text neg ++ replicate (Z.to_nat (W - A)) padc ++ reverse rd)
          with (reverse (rd ++ replicate (Z.to_nat (W - A)) padc ++ sign_text neg))
          by (by rewrite !reverse_app, reverse_replicate, sign_text_reverse, (assoc_L (++))).
        apply text_at_reverse; [rewrite !length_app, length_replicate; lia|done].
      + replace (replicate (Z.to_nat (W - A)) padc ++ sign_text neg ++ reverse rd)
          with (reverse (rd ++ sign_text neg ++ replicate (Z.to_nat (W - A)) padc))
          by (by rewrite !reverse_app, reverse_replicate, sign_text_reverse, (assoc_L (++))).
        apply text_at_reverse; [rewrite !length_app, length_replicate; lia|done]. }
  destruct Hs as [HsW Hst]. split.
  - rewrite text_at_app, HsW. split; [|by apply text_at_byte].
    eapply text_at_ext; [|exact Hst]. intros b Hbb. apply load8_store8_ne. lia.
  - intros b Hbb. rewrite HsW in Hbb. rewrite load8_store8_ne by lia.
    rewrite reverse_loop_outside by (unfold e; destruct ladjust; lia).
    rewrite Hpo by lia. apply Ho2. lia.
Qed.

Lemma rdigits_val upcase base fuel : forall u,
  2 <= base <= 16 -> 0 <= u < 2 ^ Z.of_nat fuel -> (0 < fuel)%nat ->
  foldr (fun c a => a * base + digit_val c) 0 (rdigits fuel upcase base u) = u.
Proof.
  induction fuel as [|fuel IH]; intros u Hb Hu Hf; [lia|]. cbn [rdigits].
  pose proof (Z.mod_pos_bound u base ltac:(lia)) as Hm.
  destruct (digit_char_range upcase (u mod base)) as [_ Hd]; [lia|].
  pose proof (div_step base u fuel ltac:(lia) Hu) as Hdiv.
  pose proof (Z.div_mod u base ltac:(lia)) as Hdm.
  destruct (Z.eqb_spec (u / base) 0) as [Hz|Hnz]; cbn [foldr]; rewrite Hd.
  - lia.
  - destruct fuel as [|fuel]; [simpl in Hdiv; lia|]. rewrite IH by lia. lia.
Qed.

Lemma parse_num_digits upcase base u :
  2 <= base <= 16 -> 0 <= u < 2 ^ 64 -> parse_num base (num_digits upcase base u) = u.
Proof.
  intros Hb Hu. unfold parse_num. rewrite num_digits_rev.
  rewrite <- (rdigits_val upcase base 64 u Hb Hu ltac:(lia)) at 2.
  generalize (rdigits 64 upcase base u). intros l.
  rewrite <- fold_left_rev_right. unfold reverse. rewrite rev_append_rev, app_nil_r, rev_involutive. done.
Qed.

Lemma rdigits_chars upcase base fuel : forall u,
  2 <= base <= 16 -> Forall (fun c => 48 <= c < 128) (rdigits fuel upcase base u).
Proof.
  induction fuel as [|fuel IH]; intros u Hb; cbn [rdigits]; [constructor|].
  pose proof (Z.mod_pos_bound u base ltac:(lia)) as Hm. constructor.
  - apply digit_char_range. lia.
  - destruct (u / base =? 0); [constructor|by apply IH].
Qed.

(** [printNum] terminates within its 64 digits and leaves, for every base
    from 2 to 16 and every 64-bit number, exactly the padded and signed digit
    string at [buf], NUL-terminated, writing nothing else; the digits read back
    as the number. *)
Theorem printNum_spec buf u base neg width ladjust padc upcase m :
  2 <= base <= 16 -> 0 <= u < 2 ^ 64 -> 0 <= padc < 256 ->
  let s := num_string u base neg width ladjust padc upcase in
  parse_num base (num_digits upcase base u) = u /\
  exists m',
    printNum buf u base neg width ladjust padc upcase m = Some m' /\
    load_bytes m' buf (length (s ++ [0])) = s ++ [0] /\
    forall b, b < buf \/ buf + Z.of_nat (length s) < b -> load8 m' b = load8 m b.
Proof.
  intros Hb Hu Hp. split; [by apply parse_num_digits|].
  by apply (printNum_text buf u base neg width ladjust padc upcase m).
Qed.

Lemma printNum_spec_witness :
  exists m', printNum 16 42 10 true 6 false 48 false ∅ = Some m' /\
    load_bytes m' 16 7 = [45; 48; 48; 48; 52; 50; 0].
Proof.
  destruct (printNum_spec 16 42 10 true 6 false 48 false ∅) as (_ & m' & H & Ht & _); [lia|lia|lia|].
  exists m'. split; [exact H|exact Ht].
Defined.

(** ** Printing *)

(** The characters sent for a string: a carriage return before each newline. *)
Definition crlf (l : list Z) : list Z := l ≫= (fun c => if c =? 10 then [13; 10] else [c]).

Lemma putchar_run c st : 0 <= c < 256 -> putchar c st = Ret tt (mkP (pmem st) (out st ++ [c])).
Proof. intros. unfold putchar, modify, u8. by rewrite Z.mod_small by (change (2 ^ 8) with 256; lia). Qed.

Lemma putString_S fuel a st :
  putString (S fuel) a st =
  (if c_true (load8 (pmem st) a) then
     when (load8 (pmem st) a =? 10) (putchar 13) ;;
     putchar (load8 (pmem st) a) ;; putString fuel (a + 1)
   else mret tt) st.
Proof.
  unfold putString. cbn [loop]. rewrite bind_gets.
  destruct (c_true _); [|done]. by destruct (_ =? 10).
Qed.

Lemma putString_run fuel : forall a l st,
  cstr (pmem st) a l -> (length l < fuel)%nat ->
  putString fuel a st = Ret tt (mkP (pmem st) (out st ++ crlf l)).
Proof.
  induction fuel as [|fuel IH]; intros a l st Hc Hf; [lia|]. rewrite putString_S.
  destruct l as [|c l]; rewrite ?cstr_nil, ?cstr_cons in Hc.
  - rewrite Hc. simpl. unfold crlf. simpl. rewrite app_nil_r. by destruct st.
  - destruct Hc as (Hc & Hnz & Hl). rewrite Hc. unfold c_true.
    pose proof (load8_range (pmem st) a) as Hr. rewrite Hc in Hr.
    rewrite (proj2 (Z.eqb_neq c 0)) by done. cbn [negb]. simpl in Hf.
    unfold crlf. cbn [mbind list_bind]. fold (crlf l).
    destruct (Z.eqb_spec c 10) as [-> |Hn]; unfold when.
    + rewrite (bind_Ret _ _ _ _ _ (putchar_run 13 st ltac:(lia))).
      rewrite (bind_Ret _ _ _ _ _ (putchar_run 10 _ ltac:(lia))).
      rewrite (IH (a + 1) l) by (done || lia). cbn [pmem out]. by rewrite <- !(assoc_L (++)).
    + rewrite bind_mret, (bind_Ret _ _ _ _ _ (putchar_run c st ltac:(lia))).
      rewrite (IH (a + 1) l) by (done || lia). cbn [pmem out]. by rewrite <- !(assoc_L (++)).
Qed.

Lemma crlf_plain l : Forall (fun c => c <> 10) l -> crlf l = l.
Proof.
  induction 1 as [|c l Hc _ IH]; [done|]. unfold crlf. cbn [mbind list_bind].
  rewrite (proj2 (Z.eqb_neq c 10)) by done. simpl. f_equal. exact IH.
Qed.

(** The decimal text of a signed number. *)
Definition decimal (x : Z) : list Z :=
  (if x <? 0 then [45] else []) ++ num_digits false 10 (Z.abs x).

Lemma num_string_plain u neg :
  num_string u 10 neg 0 false 32 false = (if neg then [45] else []) ++ num_digits false 10 u.
Proof.
  unfold num_string. rewrite andb_false_r.
  replace (Z.to_nat _) with 0%nat by lia. done.
Qed.

Lemma num_digits_chars up base u : 2 <= base <= 16 -> Forall (fun c => 48 <= c < 128) (num_digits up base u).
Proof. intros. rewrite num_digits_rev. apply Forall_reverse. by apply rdigits_chars. Qed.

Lemma rdigits_len fuel up base u : (length (rdigits fuel up base u) <= fuel)%nat.
Proof.
  revert u. induction fuel as [|fuel IH]; intros u; cbn [rdigits]; [done|].
  cbn [length]. specialize (IH (u / base)). destruct (_ =? 0); simpl; lia.
Qed.

Lemma decimal_chars x : Forall (fun c => c <> 0 /\ c <> 10) (decimal x) /\ (length (decimal x) <= 65)%nat.
Proof.
  unfold decimal. split.
  - apply Forall_app. split; [destruct (x <? 0); repeat constructor; lia|].
    eapply Forall_impl; [apply num_digits_chars; lia|]. simpl. lia.
  - rewrite length_app, num_digits_rev, length_reverse.
    pose proof (rdigits_len 64 false 10 (Z.abs x)). destruct (x <? 0); cbn [length]; lia.
Qed.

(** One [%d] conversion with no width or flags. *)
Lemma conversion_d fuel buf null fmt i (long : bool) x ap st :
  (66 <= fuel)%nat -> - 2 ^ 63 <= x < 2 ^ 63 ->
  (if long then i64 (hd 0 ap) else i32 (hd 0 ap)) = x -> ap <> [] ->
  exists m', conversion fuel buf null fmt 100 i 0 false 32 long ap st =
      Ret (i, tail ap) (mkP m' (out st ++ decimal x)) /\
    forall b, b < buf \/ buf + 65 < b -> load8 m' b = load8 (pmem st) b.
Proof.
  intros Hf Hx Hv Hap. destruct ap as [|v ap]; [done|]. cbn [hd tail] in *.
  destruct (printNum_text buf (Z.abs x) 10 (x <? 0) 0 false 32 false (pmem st)) as (m' & Hr & Ht & Ho);
    [lia|lia|lia|].
  rewrite num_string_plain in *. fold (decimal x) in *.
  destruct (decimal_chars x) as [Hc Hlen]. exists m'. split; [|intros b Hb; apply Ho; lia].
  assert (Hva : va_num long (v :: ap) st = Ret (x, ap) st) by (by rewrite <- Hv).
  unfold conversion. cbn [Z.eqb Pos.eqb orb]. rewrite (bind_Ret _ _ _ _ _ Hva). cbn [fst snd].
  assert (Hcs : cstr m' buf (decimal x)).
  { apply text_at_app in Ht as [Ht Hz]. split_and!; [exact Ht| |].
    - unfold text_at in Hz. simpl in Hz. congruence.
    - eapply Forall_impl; [exact Hc|]. simpl. tauto. }
  assert (Hrun : forall u, u = Z.abs x ->
    (m ← gets pmem; buffer (printNum buf u 10 (x <? 0) 0 false 32 false m) ;; putString fuel buf) st
    = Ret tt (mkP m' (out st ++ decimal x))).
  { intros u ->. rewrite bind_gets, Hr. unfold buffer. rewrite bind_modify.
    rewrite (putString_run fuel buf (decimal x)) by (done || lia). unfold set_pmem. cbn [pmem out].
    rewrite crlf_plain; [done|]. eapply Forall_impl; [exact Hc|]. simpl. tauto. }
  destruct (Z.ltb_spec x 0).
  - rewrite (bind_Ret _ _ _ _ _ (Hrun (u64 (- x)) ltac:(unfold u64; rewrite Z.mod_small; lia))). done.
  - rewrite (bind_Ret _ _ _ _ _ (Hrun (u64 x) ltac:(unfold u64; rewrite Z.mod_small; lia))). done.
Qed.

Lemma i32_range x : - 2 ^ 31 <= i32 x < 2 ^ 31.
Proof. unfold i32. pose proof (Z.mod_pos_bound (x + 2 ^ 31) (2 ^ 32)). lia. Qed.

(** [printf("%d", v)] sends the decimal text of the 32-bit signed value of
    its argument, for every value, INT_MIN included; 66 iterations are enough
    for every loop. *)
Theorem print_decimal fuel buf null fmt v st :
  (66 <= fuel)%nat -> cstr (pmem st) fmt [37; 100] -> fmt + 2 < buf \/ buf + 65 < fmt ->
  exists m', print fuel buf null fmt [v] st = Ret tt (mkP m' (out st ++ decimal (i32 v))) /\
    parse_num 10 (num_digits false 10 (Z.abs (i32 v))) = Z.abs (i32 v).
Proof.
  intros Hf Hc Hd. rewrite !cstr_cons, cstr_nil in Hc. destruct Hc as (H0 & _ & H1 & _ & H2).
  pose proof (i32_range v) as Hv.
  destruct (conversion_d fuel buf null fmt 1 false (i32 v) [v] st Hf) as (m' & Hr & Ho);
    [lia|done|done|].
  exists m'. split; [|apply parse_num_digits; lia].
  destruct fuel as [|[|fuel]]; [lia|lia|]. set (f := S (S fuel)) in *.
  assert (Hstep : print_step f buf null fmt (0, [v]) st =
            Ret (inl (2, [])) (mkP m' (out st ++ decimal (i32 v)))).
  { unfold print_step. rewrite bind_gets, Z.add_0_r, H0. cbn [c_true Z.eqb negb Pos.eqb].
    unfold next. rewrite bind_gets. replace (fmt + (0 + 1)) with (fmt + 1) by lia. rewrite H1.
    cbn [Z.eqb Pos.eqb]. rewrite !bind_mret. cbn [fst snd].
    assert (Hs : scan_num f fmt 0 (0 + 1) 100 st = Ret (0, 1, 100) st) by done.
    change (100 =? 48) with false. cbv iota. rewrite bind_mret, (bind_Ret _ _ _ _ _ Hs).
    change (100 =? 46) with false. cbv iota. rewrite bind_mret.
    change (100 =? 108) with false. cbv iota. rewrite bind_mret.
    rewrite (bind_Ret _ _ _ _ _ Hr). done. }
  unfold print, f at 1. cbn [loop]. fold f. rewrite Hstep. cbn [obind loop].
  unfold print_step. rewrite bind_gets. cbn [pmem].
  rewrite Ho by lia. replace (fmt + 2) with (fmt + 1 + 1) by lia. rewrite H2. done.
Qed.

Definition fmt_state (bs : list Z) : PState := mkP (store_bytes 1000 bs ∅) [].

Lemma print_decimal_witness :
  exists m', print 66 0 500 1000 [2 ^ 32 - 7] (fmt_state [37; 100; 0]) = Ret tt (mkP m' [45; 55]).
Proof.
  destruct (print_decimal 66 0 500 1000 (2 ^ 32 - 7) (fmt_state [37; 100; 0])) as (m' & H & _).
  - lia.
  - split_and!; [reflexivity|reflexivity|repeat constructor; lia].
  - lia.
  - exists m'. exact H.
Defined.

(** The unsigned and hexadecimal conversions read an [i32] too, so a 32-bit
    value with its top bit set is printed sign-extended to 64 bits:
    [printf("%x", 0x80000000)] prints ffffffff80000000. *)
Theorem print_hex_sign_extends :
  exists m', print 66 0 500 1000 [0x80000000] (fmt_state [37; 120; 0]) =
    Ret tt (mkP m' (replicate 8 0x66 ++ [0x38] ++ replicate 7 0x30)).
Proof. eexists. vm_compute. reflexivity. Qed.
