(* ===== verification/PrintSpec.v ===== *)
(** * What a format prints

    A format as the kernel writes them, characters and the conversions [%d], [%x], [%s],
    [%ld] and [%lx], and the text [print] sends for it.  The buffer of [print] holds 128
    characters, which is the longest string [%s] may be given. *)

From S2P Require Import Prelude CType Mem Strings Print.
Import Print.

Inductive item :=
  | Lit (c : Z)
  | Dec (long : bool) (v : Z)
  | Hex (long : bool) (v : Z)
  | Str (a : Z) (l : list Z).

Definition directive (long : bool) (k : Z) : list Z := if long then [37; 108; k] else [37; k].
Definition item_fmt (it : item) : list Z :=
  match it with Lit c => [c] | Dec long _ => directive long 100 | Hex long _ => directive long 120 | Str _ _ => directive false 115 end.
Definition item_args (it : item) : list Z :=
  match it with Lit _ => [] | Dec _ v | Hex _ v => [v] | Str a _ => [a] end.
Definition signed (long : bool) (v : Z) : Z := if long then i64 v else i32 v.
Definition item_text (it : item) : list Z :=
  match it with
  | Lit c => crlf [c]
  | Dec long v => decimal (signed long v)
  | Hex long v => num_digits false 16 (u64 (signed long v))
  | Str _ l => crlf l
  end.

(** A literal character is not the end of the string and not [%]; a string fits the
    buffer and is not in it. *)
Definition item_ok (buf : Z) (m : gmap Z Z) (it : item) : Prop :=
  match it with
  | Lit c => c <> 0 /\ c <> 37
  | Dec _ _ | Hex _ _ => True
  | Str a l => a <> 0 /\ cstr m a l /\ (length l < 128)%nat /\ (a + Z.of_nat (length l) < buf \/ buf + 128 <= a)
  end.

Definition agree (buf : Z) (m m' : gmap Z Z) : Prop := forall b, b < buf \/ buf + 128 <= b -> load8 m' b = load8 m b.

(** ** Conversions *)

Lemma cstr_of_text m a l : text_at m a (l ++ [0]) -> Forall (fun c => c <> 0) l -> cstr m a l.
Proof.
  intros Ht Hl. apply text_at_app in Ht as [Ht Hz]. split_and!; [exact Ht| |done].
  unfold text_at in Hz. simpl in Hz. congruence.
Qed.

Lemma conversion_x fuel buf null fmt i long v ap st : (66 <= fuel)%nat ->
  exists m', conversion fuel buf null fmt 120 i 0 false 32 long (v :: ap) st =
      Ret (i, ap) (mkP m' (out st ++ num_digits false 16 (u64 (signed long v)))) /\ agree buf (pmem st) m'.
Proof.
  intros Hf. set (u := u64 (signed long v)).
  assert (Hu : 0 <= u < 2 ^ 64) by (unfold u, u64; apply Z.mod_pos_bound; lia).
  destruct (printNum_text buf u 16 false 0 false 32 false (pmem st)) as (m' & Hr & Ht & Ho); [lia|lia|lia|].
  assert (Hs : num_string u 16 false 0 false 32 false = num_digits false 16 u).
  { unfold num_string. cbn [andb length]. replace (Z.to_nat _) with 0%nat by lia. done. }
  rewrite Hs in *. pose proof (num_digits_chars false 16 u ltac:(lia)) as Hc.
  assert (Hlen : (length (num_digits false 16 u) <= 64)%nat) by (rewrite num_digits_rev, length_reverse; apply rdigits_len).
  exists m'. split; [|intros b Hb; apply Ho; lia].
  unfold conversion. cbn [Z.eqb Pos.eqb orb]. rewrite (bind_Ret (va_num long (v :: ap)) _ _ (signed long v, ap) st) by done.
  cbn [fst snd]. fold u. erewrite bind_Ret; [done|]. rewrite bind_gets, Hr. unfold buffer. rewrite bind_modify.
  rewrite (putString_run fuel buf (num_digits false 16 u)); cbn [pmem out set_pmem].
  - rewrite crlf_plain; [done|]. eapply Forall_impl; [exact Hc|]. simpl. lia.
  - apply cstr_of_text; [exact Ht|]. eapply Forall_impl; [exact Hc|]. simpl. lia.
  - lia.
Qed.

Lemma printString_plain fuel buf a l m : cstr m a l -> (length l < fuel)%nat ->
  a + Z.of_nat (length l) < buf \/ buf + 128 <= a -> (length l < 128)%nat ->
  exists m', printString fuel buf a 0 false m = Some m' /\ cstr m' buf l /\ agree buf m m'.
Proof.
  intros Hc Hf Hd Hlen. unfold printString. rewrite (strlen_cstr _ _ l) by done.
  replace (if 0 <? Z.of_nat (length l) then Z.of_nat (length l) else 0) with (Z.of_nat (length l)) by (destruct (Z.ltb_spec 0 (Z.of_nat (length l))); lia).
  rewrite Z.sub_diag, Z.add_0_r, Nat2Z.id. unfold fill. cbn [Z.to_nat Z.sub memset_loop].
  eexists. split; [reflexivity|]. destruct Hc as (Hl & _ & Hnz). split; [split_and!|].
  - transitivity (load_bytes (copy_loop (length l) a buf m) buf (length l)); [|by rewrite copy_loop_bytes by lia].
    apply load_bytes_ext. intros j Hj. apply load8_store8_ne. lia.
  - by rewrite load8_store8_eq.
  - done.
  - intros b Hb. rewrite load8_store8_ne, copy_loop_outside by lia. done.
Qed.

Lemma conversion_s fuel buf null fmt i a l ap st : item_ok buf (pmem st) (Str a l) -> (length l < fuel)%nat ->
  exists m', conversion fuel buf null fmt 115 i 0 false 32 false (a :: ap) st = Ret (i, ap) (mkP m' (out st ++ crlf l)) /\
    agree buf (pmem st) m'.
Proof.
  intros (Ha & Hc & Hlen & Hd) Hf. destruct (printString_plain fuel buf a l (pmem st)) as (m' & Hr & Hc' & Ho); [done..|].
  exists m'. split; [|done]. unfold conversion. cbn [Z.eqb Pos.eqb orb].
  rewrite (bind_Ret (va_arg (a :: ap)) _ _ (a, ap) st) by done. cbn [fst snd]. rewrite (proj2 (Z.eqb_neq a 0)) by done.
  rewrite bind_gets, Hr. unfold buffer. rewrite bind_modify.
  rewrite (bind_Ret _ _ _ _ _ (putString_run fuel buf l (set_pmem (fun _ => m') st) Hc' Hf)). done.
Qed.

(** ** The format *)

Lemma step_lit f buf null fmt i ap c st : load8 (pmem st) (fmt + i) = c -> c <> 0 -> c <> 37 ->
  print_step f buf null fmt (i, ap) st = Ret (inl (i + 1, ap)) (mkP (pmem st) (out st ++ crlf [c])).
Proof.
  intros Hc H0 H37. pose proof (load8_range (pmem st) (fmt + i)) as Hr. rewrite Hc in Hr. change (2 ^ 8) with 256 in Hr.
  unfold print_step. rewrite bind_gets, Hc. unfold c_true.
  rewrite (proj2 (Z.eqb_neq c 0)), (proj2 (Z.eqb_neq c 37)) by done. cbn [negb]. unfold crlf. cbn [mbind list_bind]. unfold when.
  destruct (Z.eqb_spec c 10) as [-> |].
  - rewrite (bind_Ret _ _ _ _ _ (putchar_run 13 st ltac:(lia))), (bind_Ret _ _ _ _ _ (putchar_run 10 _ ltac:(lia))).
    cbn [pmem out]. by rewrite <- app_assoc.
  - by rewrite bind_mret, (bind_Ret _ _ _ _ _ (putchar_run c st Hr)).
Qed.

Lemma step_directive f buf null fmt i ap (long : bool) k st : (0 < f)%nat -> k = 100 \/ k = 115 \/ k = 120 ->
  load8 (pmem st) (fmt + i) = 37 ->
  (if long then load8 (pmem st) (fmt + (i + 1)) = 108 /\ load8 (pmem st) (fmt + (i + 2)) = k
   else load8 (pmem st) (fmt + (i + 1)) = k) ->
  print_step f buf null fmt (i, ap) st =
  (r ← conversion f buf null fmt k (i + if long then 2 else 1) 0 false 32 long ap; let '(i, ap) := r in mret (inl (i + 1, ap))) st.
Proof.
  intros Hf Hk H0 H1. destruct f as [|f]; [lia|].
  assert (Hn : forall c, ~ (48 <= c <= 57) -> scan_num (S f) fmt 0 (i + 1) c st = Ret (0, i + 1, c) st).
  { intros c Hc. unfold scan_num. cbn [loop]. replace (IsDigit c) with false; [done|]. unfold IsDigit. symmetry. apply andb_false_iff.
    rewrite Z.geb_leb, Z.leb_gt, Z.leb_gt. lia. }
  unfold print_step. rewrite bind_gets, H0. cbn [c_true Z.eqb negb Pos.eqb]. unfold next. rewrite bind_gets.
  destruct long.
  - destruct H1 as [H1 H2]. rewrite H1. cbn [Z.eqb Pos.eqb]. rewrite bind_mret. cbn [Z.eqb Pos.eqb]. rewrite bind_mret.
    rewrite (bind_Ret _ _ _ _ _ (Hn 108 ltac:(lia))). cbn [Z.eqb Pos.eqb]. rewrite bind_mret. cbn [Z.eqb Pos.eqb].
    erewrite bind_Ret; [|rewrite bind_gets; replace (i + 1 + 1) with (i + 2) by lia; rewrite H2; reflexivity]. done.
  - rewrite H1. destruct Hk as [-> |[-> | ->]]; cbn [Z.eqb Pos.eqb]; rewrite bind_mret; cbn [Z.eqb Pos.eqb]; rewrite bind_mret;
      match goal with |- context [scan_num _ _ _ _ ?c] => rewrite (bind_Ret _ _ _ _ _ (Hn c ltac:(lia))) end; cbn [Z.eqb Pos.eqb]; rewrite bind_mret; cbn [Z.eqb Pos.eqb]; by rewrite bind_mret.
Qed.

Lemma i64_range x : - 2 ^ 63 <= i64 x < 2 ^ 63.
Proof. unfold i64. pose proof (Z.mod_pos_bound (x + 2 ^ 63) (2 ^ 64)). lia. Qed.

(** One item: the characters of its directive stand at [fmt + i]. *)
Lemma step_item f buf null fmt i ap it st : (128 <= f)%nat -> item_ok buf (pmem st) it ->
  load_bytes (pmem st) (fmt + i) (length (item_fmt it)) = item_fmt it ->
  exists m', print_step f buf null fmt (i, item_args it ++ ap) st =
      Ret (inl (i + Z.of_nat (length (item_fmt it)), ap)) (mkP m' (out st ++ item_text it)) /\ agree buf (pmem st) m'.
Proof.
  intros Hf Hok Hl. destruct it as [c|long v|long v|a l]; cbn [item_args item_fmt item_text app] in *.
  - injection Hl as Hc. destruct Hok as [H0 H37]. exists (pmem st). split; [by apply step_lit|done].
  - destruct (conversion_d f buf null fmt (i + if long then 2 else 1) long (signed long v) (v :: ap) st) as (m' & Hr & Ho);
      [lia|destruct long; cbn [signed]; [apply i64_range|pose proof (i32_range v); lia]|done|done|].
    exists m'. split; [|intros b Hb; apply Ho; lia]. rewrite (step_directive f buf null fmt i (v :: ap) long 100);
      [|lia|auto|destruct long; cbn in Hl; congruence|].
    + rewrite (bind_Ret _ _ _ _ _ Hr). destruct long; cbn [directive length]; do 3 f_equal; lia.
    + destruct long; cbn in Hl; injection Hl; intros; rewrite <- ?Z.add_assoc in *; [split|]; done.
  - destruct (conversion_x f buf null fmt (i + if long then 2 else 1) long v ap st) as (m' & Hr & Ho); [lia|].
    exists m'. split; [|done]. rewrite (step_directive f buf null fmt i (v :: ap) long 120);
      [|lia|auto|destruct long; cbn in Hl; congruence|].
    + rewrite (bind_Ret _ _ _ _ _ Hr). destruct long; cbn [directive length]; do 3 f_equal; lia.
    + destruct long; cbn in Hl; injection Hl; intros; rewrite <- ?Z.add_assoc in *; [split|]; done.
  - destruct (conversion_s f buf null fmt (i + 1) a l ap st Hok) as (m' & Hr & Ho); [destruct Hok as (_ & _ & ? & _); lia|].
    exists m'. split; [|done]. rewrite (step_directive f buf null fmt i (a :: ap) false 115);
      [|lia|auto|cbn in Hl; congruence|cbn in Hl; injection Hl; intros; rewrite <- ?Z.add_assoc in *; done].
    rewrite (bind_Ret _ _ _ _ _ Hr). cbn [directive length]. do 3 f_equal. lia.
Qed.

Lemma item_ok_agree buf m m' it : agree buf m m' -> item_ok buf m it -> item_ok buf m' it.
Proof.
  intros Ha. destruct it; try done. intros (H1 & H2 & H3 & H4). split_and!; try done.
  eapply cstr_ext; [|exact H2]. intros b Hb. apply Ha. lia.
Qed.

Lemma items_run f buf null fmt : forall its n i st, (128 <= f)%nat -> (length its < n)%nat ->
  text_at (pmem st) (fmt + i) (concat (map item_fmt its) ++ [0]) -> Forall (item_ok buf (pmem st)) its ->
  fmt + i + Z.of_nat (length (concat (map item_fmt its))) < buf \/ buf + 128 <= fmt + i ->
  exists m', loop n (print_step f buf null fmt) (i, concat (map item_args its)) st =
    Ret tt (mkP m' (out st ++ concat (map item_text its))) /\ agree buf (pmem st) m'.
Proof.
  induction its as [|it its IH]; intros n i st Hf Hn Ht Hok Hd; (destruct n as [|n]; [cbn in Hn; lia|]); cbn [loop map concat] in *.
  - exists (pmem st). split; [|done]. injection Ht as Hz. unfold print_step. rewrite bind_gets, Hz. cbn. rewrite app_nil_r. by destruct st.
  - apply Forall_cons in Hok as [Hit Hok]. rewrite <- app_assoc in Ht. apply text_at_app in Ht as [Hl Ht].
    rewrite length_app in Hd.
    destruct (step_item f buf null fmt i (concat (map item_args its)) it st Hf Hit Hl) as (m1 & E1 & A1). rewrite E1. cbn [obind].
    destruct (IH n (i + Z.of_nat (length (item_fmt it))) (mkP m1 (out st ++ item_text it))) as (m' & E & A); cbn [pmem out] in *.
    + done.
    + cbn in Hn. lia.
    + unfold text_at in *. rewrite Z.add_assoc. etransitivity; [|exact Ht]. apply load_bytes_ext. intros j Hj. apply A1. rewrite length_app in Hj. cbn in Hj. lia.
    + eapply Forall_impl; [exact Hok|]. intros it'. by apply item_ok_agree.
    + lia.
    + exists m'. split; [by rewrite E, <- app_assoc|]. intros b Hb. by rewrite A, A1.
Qed.

(** C33. [printf] sends the text of its format: for every format made of characters and the
    conversions [%d], [%x], [%s], [%ld] and [%lx], with their arguments in order, the characters sent
    are those of the items one after the other, a carriage return before each newline;
    a decimal is the value of the argument at its width, INT_MIN included, and a string may have up
    to 127 characters.  Outside its buffer memory is unchanged; every loop ends within
    128 turns, and one turn for each item. *)
Theorem print_format fuel buf null fmt its st :
  (128 <= fuel)%nat -> (length its < fuel)%nat ->
  cstr (pmem st) fmt (concat (map item_fmt its)) -> Forall (item_ok buf (pmem st)) its ->
  fmt + Z.of_nat (length (concat (map item_fmt its))) < buf \/ buf + 128 <= fmt ->
  exists m', printf fuel buf null fmt (concat (map item_args its)) st =
      Ret tt (mkP m' (out st ++ concat (map item_text its))) /\
    agree buf (pmem st) m' /\
    forall x, 0 <= x < 2 ^ 64 -> parse_num 10 (num_digits false 10 x) = x /\ parse_num 16 (num_digits false 16 x) = x.
Proof.
  intros Hf Hn (Hl & Hz & _) Hok Hd. destruct (items_run fuel buf null fmt its fuel 0 st) as (m' & E & A); rewrite ?Z.add_0_r; [done..| |done|done|].
  - apply text_at_app. split; [exact Hl|]. unfold text_at. cbn. by rewrite Hz.
  - exists m'. split; [exact E|]. split; [done|]. intros x Hx. split; apply parse_num_digits; lia.
Qed.

(** The head of the message of a panic on hart 1, in file "f" at line 7 of function "g". *)
Lemma print_format_witness :
  let its := [Lit 0x68; Lit 0x20; Dec false 1; Lit 0x20; Str 2000 [0x66]; Lit 0x3a; Dec false (2 ^ 32 - 7); Lit 0x20; Str 2002 [0x67]; Lit 10; Hex true 0x80000000] in
  let m := store_bytes 1000 (concat (map item_fmt its) ++ [0]) (store_bytes 2000 [0x66; 0; 0x67; 0] ∅) in
  exists m', printf 128 3000 0 1000 (concat (map item_args its)) (mkP m []) =
    Ret tt (mkP m' [0x68; 0x20; 0x31; 0x20; 0x66; 0x3a; 0x2d; 0x37; 0x20; 0x67; 13; 10; 0x38; 0x30; 0x30; 0x30; 0x30; 0x30; 0x30; 0x30]).
Proof.
  intros its m. destruct (print_format 128 3000 0 1000 its (mkP m [])) as (m' & H & _).
  - lia.
  - cbn. lia.
  - split_and!; [vm_compute; reflexivity|vm_compute; reflexivity|repeat constructor; lia].
  - repeat constructor; try lia; try (split_and!; [lia|split_and!; [vm_compute; reflexivity|vm_compute; reflexivity|repeat constructor; lia]|cbn; lia|cbn; lia]).
  - cbn. lia.
  - exists m'. exact H.
Defined.
