(* ===== verification/Bio.v ===== *)
(** * Bio.c: the buffer cache

    1024 groups of 16 buffers; group [g] holds the blocks whose number is [g]
    modulo 1024, in a list ordered by recency of use.  A buffer is identified by
    [16 * group + index]; the circular [prev]/[next] list of a group is the list
    of its buffers from [head.next] on.  The sleep lock of Sleeplock.c is part of
    the buffer; the calls of [wakeup] are recorded in [woken] (Thread.v gives
    their effect).  [disk] is what [sdRead] reads: the device number is not passed
    to the driver. *)

From S2P Require Import Prelude CType Queue.

Definition BSIZE : Z := 512.
Definition NBUF : nat := 16.
Definition BCACHE_GROUP_NUM : Z := 1024.

Record buf := mkBuf {
  valid : bool;
  dev : Z;
  blockno : Z;
  locked : bool;
  owner_tid : Z;
  refcnt : Z;
  data : list Z;
}.

Record BState := mkB {
  disk : gmap Z (list Z);
  bufs : gmap Z buf;
  lru : gmap Z (list Z);
  cur_tid : Z;
  woken : list Z;
}.

Definition zero_block : list Z := replicate 512 0.
Definition buf0 : buf := mkBuf false 0 0 false 0 0 zero_block.

Definition getbuf (s : BState) (b : Z) : buf := default buf0 (bufs s !! b).
Definition setbuf (b : Z) (f : buf -> buf) (s : BState) : BState :=
  mkB (disk s) (<[b := f (getbuf s b)]> (bufs s)) (lru s) (cur_tid s) (woken s).
Definition set_lru (g : Z) (l : list Z) (s : BState) : BState :=
  mkB (disk s) (bufs s) (<[g := l]> (lru s)) (cur_tid s) (woken s).
Definition group_list (s : BState) (g : Z) : list Z := default [] (lru s !! g).
Definition disk_block (s : BState) (n : Z) : list Z := default zero_block (disk s !! n).

Definition set_refcnt (r : Z) (b : buf) : buf :=
  mkBuf (valid b) (dev b) (blockno b) (locked b) (owner_tid b) (u32 r) (data b).
Definition set_lock (l : bool) (t : Z) (b : buf) : buf :=
  mkBuf (valid b) (dev b) (blockno b) l t (refcnt b) (data b).
Definition set_data (d : list Z) (b : buf) : buf :=
  mkBuf (valid b) (dev b) (blockno b) (locked b) (owner_tid b) (refcnt b) d.
Definition set_valid (v : bool) (b : buf) : buf :=
  mkBuf v (dev b) (blockno b) (locked b) (owner_tid b) (refcnt b) (data b).
Definition recycle (d n : Z) (b : buf) : buf :=
  mkBuf false d n (locked b) (owner_tid b) 1 (data b).

(** The bound on how often a waiter is woken to find the lock taken again. *)
Definition WAITS : nat := 64.

(** ** Sleeplock.c on the lock of buffer [b] *)

Definition acquiresleep (b : Z) : M BState unit :=
  loop WAITS (fun _ : unit =>
    l ← gets (fun s => locked (getbuf s b));
    if (l : bool) then sleep_on b ;; mret (inl tt) else mret (inr tt)) tt ;;
  t ← gets cur_tid;
  modify (setbuf b (set_lock true t)).

Definition releasesleep (b : Z) : M BState unit :=
  modify (setbuf b (set_lock false 0)) ;;
  modify (fun s => mkB (disk s) (bufs s) (lru s) (cur_tid s) (b :: woken s)).

Definition holdingsleep (b : Z) : M BState bool :=
  gets (fun s => locked (getbuf s b) && (owner_tid (getbuf s b) =? cur_tid s)).

(** ** The cache *)

Definition group_of (blockno : Z) : Z := Z.land blockno (BCACHE_GROUP_NUM - 1).

(** Each buffer is linked at the head of its group's list in turn. *)
Definition binit : M BState unit :=
  for_up 1024 0 (fun g =>
    modify (set_lru g []) ;;
    for_up NBUF (16 * g) (fun b =>
      modify (fun s => set_lru g (b :: group_list s g) s) ;;
      modify (setbuf b (set_lock false 0)))).

(** [b->dev == dev && b->blockno == blockno] *)
Definition matches (s : BState) (dv n b : Z) : bool :=
  (dev (getbuf s b) =? dv) && (blockno (getbuf s b) =? n).

(** [dev] is [int] here and [uint] in [bread]. *)
Definition bget (dv n : Z) : M BState Z :=
  let group := group_of n in
  s ← gets id;
  let hit := if 0 <=? dv then
      list_find (fun b => matches s (u32 dv) n b = true)
        (group_list s group)
    else None in
  match hit with
  | Some (_, b) =>
      modify (setbuf b (fun x => set_refcnt (refcnt x + 1) x)) ;;
      acquiresleep b ;; mret b
  | None =>
      match list_find (fun b => (refcnt (getbuf s b) =? 0) = true) (reverse (group_list s group)) with
      | Some (_, b) =>
          modify (setbuf b (recycle (u32 dv) n)) ;;
          acquiresleep b ;; mret b
      | None => panic
      end
  end.

Definition bread (dv n : Z) : M BState Z :=
  b ← bget (i32 dv) (u32 n);
  x ← gets (fun s => getbuf s b);
  when (negb (valid x))
    (modify (fun s => setbuf b (set_data (disk_block s (blockno x))) s) ;;
     modify (setbuf b (set_valid true))) ;;
  mret b.

(** The call of [sdWrite] is commented out. *)
Definition bwrite (b : Z) : M BState unit := h ← holdingsleep b; assert h.

Definition brelse (b : Z) : M BState unit :=
  h ← holdingsleep b;
  assert h ;;
  releasesleep b ;;
  g ← gets (fun s => group_of (blockno (getbuf s b)));
  modify (setbuf b (fun x => set_refcnt (refcnt x - 1) x)) ;;
  r ← gets (fun s => refcnt (getbuf s b));
  when (r =? 0) (modify (fun s => set_lru g (b :: Queue.list_remove b (group_list s g)) s)).

Definition bpin (b : Z) : M BState unit := modify (setbuf b (fun x => set_refcnt (refcnt x + 1) x)).
Definition bunpin (b : Z) : M BState unit := modify (setbuf b (fun x => set_refcnt (refcnt x - 1) x)).

(** Changing the data of a held buffer, as the clients of [bread] do. *)
Definition buf_update (b : Z) (f : list Z -> list Z) : M BState unit :=
  modify (setbuf b (fun x => set_data (f (data x)) x)).

(** ** The cache as a function from blocks to contents *)

(** What a read of block [n] gives: the first buffer of the block in its group's
    list, if it is valid, and the disk otherwise. *)
Definition content (s : BState) (dv n : Z) : list Z :=
  match list_find (fun b => matches s dv n b = true) (group_list s (group_of n)) with
  | Some (_, b) => if valid (getbuf s b) then data (getbuf s b) else disk_block s n
  | None => disk_block s n
  end.

(** Every buffer is listed in its own group only. *)
Definition bc_inv (s : BState) : Prop := forall g b, b ∈ group_list s g -> b / 16 = g.

Definition bc_quiet (s : BState) : Prop := forall b, locked (getbuf s b) = false.

(** The buffer [bget] picks. *)
Definition victim (s : BState) (dv n : Z) : option (Z * bool) :=
  match list_find (fun b => matches s dv n b = true) (group_list s (group_of n)) with
  | Some (_, b) => Some (b, true)
  | None =>
      match list_find (fun b => (refcnt (getbuf s b) =? 0) = true) (reverse (group_list s (group_of n))) with
      | Some (_, b) => Some (b, false)
      | None => None
      end
  end.

Lemma getbuf_insert s b x c d l t w :
  getbuf (mkB d (<[b := x]> (bufs s)) l t w) c = if decide (c = b) then x else getbuf s c.
Proof. unfold getbuf. simpl. rewrite lookup_insert. repeat case_decide; naive_solver. Qed.

Lemma setbuf_setbuf b f h s : setbuf b f (setbuf b h s) = setbuf b (fun x => f (h x)) s.
Proof.
  unfold setbuf. simpl. rewrite (getbuf_insert s b). rewrite decide_True by done.
  by rewrite insert_insert_eq.
Qed.

Lemma setbuf_ext b f h s : f (getbuf s b) = h (getbuf s b) -> setbuf b f s = setbuf b h s.
Proof. intros H. unfold setbuf. by rewrite H. Qed.

Lemma getbuf_setbuf_eq b f s : getbuf (setbuf b f s) b = f (getbuf s b).
Proof. unfold setbuf. rewrite getbuf_insert. by rewrite decide_True. Qed.

Lemma getbuf_setbuf_ne b c f s : c <> b -> getbuf (setbuf b f s) c = getbuf s c.
Proof. intros. unfold setbuf. rewrite getbuf_insert. by rewrite decide_False. Qed.

Lemma acquiresleep_free b s :
  locked (getbuf s b) = false -> acquiresleep b s = Ret tt (setbuf b (set_lock true (cur_tid s)) s).
Proof.
  intros H. unfold acquiresleep, mbind, M_bind. simpl loop. unfold mbind, M_bind, gets. simpl.
  by rewrite H.
Qed.

(** The state of the buffer of block [n] while its reader holds it. *)
Definition held (s : BState) (dv n b : Z) (hit : bool) : buf :=
  mkBuf true dv n true (cur_tid s) (if hit then u32 (refcnt (getbuf s b) + 1) else 1) (content s dv n).

Lemma victim_hit s dv n b :
  victim s dv n = Some (b, true) ->
  dev (getbuf s b) = dv /\ blockno (getbuf s b) = n /\ b ∈ group_list s (group_of n) /\
  content s dv n = if valid (getbuf s b) then data (getbuf s b) else disk_block s n.
Proof.
  unfold victim, content. destruct (list_find _ (group_list _ _)) as [[i b']|] eqn:E;
    [|by destruct (list_find _ (reverse _)) as [[]|]].
  intros [= ->]. apply list_find_Some in E as (Hi & Hm & _). unfold matches in Hm.
  apply andb_prop in Hm as [H1 H2]. bsplit. split_and!; [done|done|by eapply list_elem_of_lookup_2|done].
Qed.

Lemma victim_miss s dv n b :
  victim s dv n = Some (b, false) ->
  b ∈ group_list s (group_of n) /\ refcnt (getbuf s b) = 0 /\ content s dv n = disk_block s n /\
  forall c, c ∈ group_list s (group_of n) -> matches s dv n c = false.
Proof.
  unfold victim, content. destruct (list_find _ (group_list _ _)) as [[i b']|] eqn:E; [done|].
  destruct (list_find _ (reverse _)) as [[i b']|] eqn:E2; [|done]. intros [= ->].
  apply list_find_Some in E2 as (Hi & Hm & _). apply Z.eqb_eq in Hm.
  apply list_find_None in E. rewrite Forall_forall in E. split_and!; [|done|done|].
  - apply list_elem_of_lookup_2 in Hi. by rewrite elem_of_reverse in Hi.
  - intros c Hc. apply not_true_is_false. by apply E.
Qed.

(** [bread] of an available block returns a buffer that holds its content. *)
Lemma bread_eq s dv n b hit :
  bc_quiet s -> 0 <= dv < 2 ^ 31 -> 0 <= n < 2 ^ 32 -> victim s dv n = Some (b, hit) ->
  bread dv n s = Ret b (setbuf b (fun _ => held s dv n b hit) s).
Proof.
  intros Hq Hd Hn Hv. unfold bread.
  assert (Hi : i32 dv = dv) by (unfold i32; rewrite Z.mod_small; lia).
  assert (Hu : u32 n = n /\ u32 dv = dv) by (unfold u32; rewrite !Z.mod_small; lia).
  destruct Hu as [Hu Hud]. rewrite Hi, Hu.
  assert (acq : forall f, (forall x, locked (f x) = locked x) -> locked (getbuf (setbuf b f s) b) = false)
    by (intros f Hf; rewrite getbuf_setbuf_eq, Hf; apply Hq).
  assert (Hget : bget dv n s = Ret b (setbuf b (fun x =>
     set_lock true (cur_tid s) (if hit then set_refcnt (refcnt x + 1) x else recycle dv n x)) s)).
  { unfold bget. rewrite bind_gets. unfold id. rewrite (proj2 (Z.leb_le 0 dv)) by lia. rewrite Hud.
    unfold victim in Hv.
    destruct (list_find (fun b0 => matches s dv n b0 = true) _) as [[i b']|].
    - injection Hv as -> <-. rewrite bind_modify.
      rewrite (bind_Ret (acquiresleep b) _ _ tt _ (acquiresleep_free b _ (acq (fun x => set_refcnt (refcnt x + 1) x) (fun _ => eq_refl)))).
      rewrite setbuf_setbuf. done.
    - destruct (list_find _ (reverse _)) as [[i b']|]; [|done]. injection Hv as -> <-.
      rewrite bind_modify.
      rewrite (bind_Ret (acquiresleep b) _ _ tt _ (acquiresleep_free b _ (acq (recycle dv n) (fun _ => eq_refl)))).
      rewrite setbuf_setbuf. done. }
  rewrite (bind_Ret _ _ _ _ _ Hget), bind_gets, getbuf_setbuf_eq. unfold held.
  destruct hit.
  - destruct (victim_hit _ _ _ _ Hv) as (Hdv & Hbn & _ & ->). cbn [valid set_lock set_refcnt].
    destruct (valid (getbuf s b)) eqn:Ev; cbn [negb when].
    + rewrite bind_mret. unfold mret, M_ret. f_equal. apply setbuf_ext.
      unfold set_lock, set_refcnt. simpl. by rewrite Ev, Hdv, Hbn.
    + unfold mbind, M_bind, modify, mret, M_ret. cbn [obind]. rewrite !setbuf_setbuf. f_equal.
      apply setbuf_ext. unfold set_lock, set_refcnt, set_data, set_valid, disk_block. simpl.
      by rewrite Hdv, Hbn.
  - destruct (victim_miss _ _ _ _ Hv) as (_ & _ & -> & _). cbn [valid set_lock recycle negb when].
    unfold mbind, M_bind, modify, mret, M_ret. cbn [obind]. by rewrite !setbuf_setbuf.
Qed.

(** ** Releasing a buffer *)

Definition released (x : buf) : buf :=
  mkBuf (valid x) (dev x) (blockno x) false 0 (u32 (refcnt x - 1)) (data x).

Definition release_state (b : Z) (s : BState) : BState :=
  let x := getbuf s b in
  let g := group_of (blockno x) in
  mkB (disk s) (<[b := released x]> (bufs s))
    (if u32 (refcnt x - 1) =? 0 then <[g := b :: Queue.list_remove b (group_list s g)]> (lru s) else lru s)
    (cur_tid s) (b :: woken s).

Lemma brelse_eq s b :
  locked (getbuf s b) = true -> owner_tid (getbuf s b) = cur_tid s ->
  brelse b s = Ret tt (release_state b s).
Proof.
  intros Hl Ho. unfold brelse, holdingsleep. rewrite bind_gets, Hl, Ho, Z.eqb_refl. cbn [andb assert].
  rewrite bind_mret. unfold releasesleep, release_state.
  set (x := getbuf s b).
  unfold modify, mbind, M_bind, gets. cbn [obind].
  assert (E : setbuf b (set_lock false 0) s =
    mkB (disk s) (<[b := set_lock false 0 x]> (bufs s)) (lru s) (cur_tid s) (woken s)) by done.
  rewrite E. cbn [disk bufs lru cur_tid woken]. rewrite getbuf_insert, decide_True by done.
  cbn [blockno set_lock]. unfold setbuf. rewrite !getbuf_insert, decide_True by done.
  cbn [disk bufs lru cur_tid woken]. rewrite insert_insert_eq.
  rewrite ?getbuf_insert, ?decide_True by done. cbn [refcnt set_refcnt set_lock].
  unfold when. destruct (u32 (refcnt x - 1) =? 0); done.
Qed.

(** ** Accesses: read, update and release one block *)

Definition access (dv n : Z) (f : list Z -> list Z) : M BState unit :=
  b ← bread dv n; buf_update b f ;; bwrite b ;; brelse b.

Lemma list_find_head {A} (P : A -> Prop) `{forall x, Decision (P x)} (l : list A) :
  snd <$> list_find P l = head (filter P l).
Proof.
  induction l as [|x l IH]; [done|]. simpl. rewrite filter_cons. case_decide; [done|].
  rewrite <- IH. by destruct (list_find P l) as [[]|].
Qed.

Lemma content_head s dv n :
  content s dv n =
  match head (filter (fun b => matches s dv n b = true) (group_list s (group_of n))) with
  | Some b => if valid (getbuf s b) then data (getbuf s b) else disk_block s n
  | None => disk_block s n
  end.
Proof. unfold content. rewrite <- list_find_head. by destruct (list_find _ _) as [[]|]. Qed.

(** The state after an access, and its content. *)
Definition accessed (s : BState) (dv n b : Z) (hit : bool) (f : list Z -> list Z) : BState :=
  let x := held s dv n b hit in
  mkB (disk s) (<[b := released (set_data (f (content s dv n)) x)]> (bufs s))
    (if u32 (refcnt x - 1) =? 0 then
       <[group_of n := b :: Queue.list_remove b (group_list s (group_of n))]> (lru s) else lru s)
    (cur_tid s) (b :: woken s).

Lemma access_eq s dv n b hit f :
  bc_quiet s -> 0 <= dv < 2 ^ 31 -> 0 <= n < 2 ^ 32 -> victim s dv n = Some (b, hit) ->
  access dv n f s = Ret tt (accessed s dv n b hit f).
Proof.
  intros Hq Hd Hn Hv. unfold access. rewrite (bind_Ret _ _ _ _ _ (bread_eq s dv n b hit Hq Hd Hn Hv)).
  unfold buf_update. rewrite bind_modify, setbuf_setbuf.
  set (s1 := setbuf b _ s).
  assert (G : getbuf s1 b = set_data (f (content s dv n)) (held s dv n b hit))
    by (unfold s1; by rewrite getbuf_setbuf_eq).
  unfold bwrite, holdingsleep, mbind, M_bind, gets. cbn [obind]. rewrite G. cbn [locked owner_tid set_data held].
  change (cur_tid s1) with (cur_tid s). rewrite Z.eqb_refl. cbn [andb assert]. unfold mret, M_ret. cbn [obind].
  rewrite brelse_eq by (by rewrite G). unfold release_state, accessed. rewrite G.
  cbn [blockno refcnt set_data held]. change (group_list s1) with (group_list s).
  change (bufs s1) with (<[b := set_data (f (content s dv n)) (held s dv n b hit)]> (bufs s)).
  rewrite insert_insert_eq. done.
Qed.

Section accessed.
Context (s : BState) (dv n b : Z) (hit : bool) (f : list Z -> list Z).
Hypothesis Hinv : bc_inv s.
Hypothesis Hv : victim s dv n = Some (b, hit).
Hypothesis Hrc : 0 <= refcnt (getbuf s b) < 2 ^ 32 - 1.

Lemma victim_in : b ∈ group_list s (group_of n).
Proof. destruct hit; [by apply victim_hit in Hv as (_ & _ & ? & _)|by apply victim_miss in Hv as (? & _)]. Qed.

Lemma accessed_buf c : getbuf (accessed s dv n b hit f) c =
  if decide (c = b) then released (set_data (f (content s dv n)) (held s dv n b hit)) else getbuf s c.
Proof. unfold accessed. apply getbuf_insert. Qed.

Lemma accessed_list g : group_list (accessed s dv n b hit f) g = group_list s g \/
  (g = group_of n /\ group_list (accessed s dv n b hit f) g = b :: Queue.list_remove b (group_list s g)).
Proof.
  unfold accessed, group_list. cbn [lru]. destruct (_ =? 0); [|by left].
  rewrite lookup_insert. case_decide; [subst; by right|by left].
Qed.

Lemma accessed_inv : bc_inv (accessed s dv n b hit f).
Proof.
  intros g c. destruct (accessed_list g) as [-> | [-> ->]]; [apply Hinv|].
  rewrite elem_of_cons. intros [-> | Hc]; [apply Hinv, victim_in|].
  apply Hinv. unfold Queue.list_remove in Hc. by apply list_elem_of_filter in Hc as [_ ?].
Qed.

Lemma accessed_quiet : bc_quiet s -> bc_quiet (accessed s dv n b hit f).
Proof. intros Hq c. rewrite accessed_buf. by case_decide. Qed.

Lemma released_refcnt : hit = true \/ refcnt (getbuf s b) = 0 ->
  refcnt (getbuf (accessed s dv n b hit f) b) = refcnt (getbuf s b).
Proof.
  intros Hh. rewrite accessed_buf, decide_True by done. cbn [refcnt released set_data held].
  destruct hit; unfold u32.
  - rewrite (Z.mod_small (refcnt (getbuf s b) + 1)) by lia. rewrite Z.mod_small; lia.
  - destruct Hh as [?|Hh]; [done|]. rewrite Hh. done.
Qed.

(** Other blocks keep their contents, up to the one the buffer held before. *)
Lemma accessed_other dv' n' :
  (dv', n') <> (dv, n) -> (dv', n') <> (dev (getbuf s b), blockno (getbuf s b)) ->
  content (accessed s dv n b hit f) dv' n' = content s dv' n'.
Proof.
  intros Hne Hnb. rewrite !content_head. set (s' := accessed s dv n b hit f).
  assert (Hm : forall c, matches s' dv' n' c = matches s dv' n' c).
  { intros c. unfold matches, s'. rewrite accessed_buf. case_decide as Hc; [|done]. subst c.
    cbn [dev blockno released set_data held].
    destruct (Z.eqb_spec dv dv'), (Z.eqb_spec n n'), (Z.eqb_spec (dev (getbuf s b)) dv'),
      (Z.eqb_spec (blockno (getbuf s b)) n'); simpl; congruence. }
  assert (Hb : matches s dv' n' b = false).
  { unfold matches. destruct (Z.eqb_spec (dev (getbuf s b)) dv'), (Z.eqb_spec (blockno (getbuf s b)) n');
      simpl; congruence. }
  assert (Hf : filter (fun c => matches s' dv' n' c = true) (group_list s' (group_of n')) =
               filter (fun c => matches s dv' n' c = true) (group_list s (group_of n'))).
  { transitivity (filter (fun c => matches s dv' n' c = true) (group_list s' (group_of n'))).
    - apply list_filter_iff. intros c. by rewrite Hm.
    - unfold s'. destruct (accessed_list (group_of n')) as [-> | [_ ->]]; [done|].
      rewrite filter_cons, decide_False by (by rewrite Hb). unfold Queue.list_remove.
      rewrite list_filter_filter. apply list_filter_iff. intros c. split; [tauto|].
      intros Hc. split; [done|]. intros ->. congruence. }
  rewrite Hf. destruct (head _) as [c|] eqn:Eh; [|done].
  apply head_Some_elem_of in Eh. apply list_elem_of_filter in Eh as [Hmc _].
  unfold s'. rewrite accessed_buf. rewrite decide_False by congruence. done.
Qed.

Lemma accessed_self : content (accessed s dv n b hit f) dv n = f (content s dv n).
Proof.
  rewrite (content_head (accessed s dv n b hit f)). set (s' := accessed s dv n b hit f).
  assert (Hmb : matches s' dv n b = true).
  { unfold matches, s'. rewrite accessed_buf, decide_True by done. simpl. by rewrite !Z.eqb_refl. }
  assert (Hh : head (filter (fun c => matches s' dv n c = true) (group_list s' (group_of n))) = Some b).
  { destruct hit eqn:Eh.
    2: { assert (group_list s' (group_of n) = b :: Queue.list_remove b (group_list s (group_of n))) as ->
           by (unfold s', accessed, group_list; cbn [lru refcnt held];
               change (u32 (1 - 1) =? 0) with true; cbv iota; by rewrite lookup_insert_eq).
         rewrite filter_cons, decide_True by done. done. }
    assert (Hl := accessed_list (group_of n)). rewrite Eh in Hl. fold s' in Hl.
    destruct Hl as [El | [_ El]]; rewrite El.
    2: { rewrite filter_cons, decide_True by done. done. }
    destruct (victim_hit _ _ _ _ Hv) as (Hdb & Hnb & _).
    transitivity (head (filter (fun c => matches s dv n c = true) (group_list s (group_of n)))).
    - f_equal. apply list_filter_iff. intros c. unfold s'. unfold matches at 1.
      rewrite <- Eh, accessed_buf. case_decide as Hc; [|done]. subst c. cbn.
      unfold matches. by rewrite Hdb, Hnb, !Z.eqb_refl.
    - rewrite <- list_find_head. unfold victim in Hv.
      destruct (list_find _ (group_list _ _)) as [[i c]|]; [simpl; congruence|].
      by destruct (list_find _ (reverse _)) as [[]|]. }
  rewrite Hh. unfold s'. rewrite accessed_buf, decide_True by done. done.
Qed.
End accessed.

(** ** What the cache promises its clients

    Reading, changing and releasing block [n] refines the update of a function
    from blocks to contents at [n]. *)

(** C31. Between calls (no buffer locked), when the group of block [n] holds the
    block or an unused buffer, a [bread], an update of the data and a [brelse]
    return; the update is applied to the current content of the block, and a
    later read sees the result; every other block keeps its content, except the
    one whose buffer was recycled. *)
Theorem access_refines s dv n b hit f :
  bc_inv s -> bc_quiet s -> 0 <= dv < 2 ^ 31 -> 0 <= n < 2 ^ 32 ->
  victim s dv n = Some (b, hit) -> 0 <= refcnt (getbuf s b) < 2 ^ 32 - 1 ->
  exists s', access dv n f s = Ret tt s' /\ bc_inv s' /\ bc_quiet s' /\ disk s' = disk s /\
    content s' dv n = f (content s dv n) /\
    refcnt (getbuf s' b) = refcnt (getbuf s b) /\
    forall dv' n', (dv', n') <> (dv, n) ->
      (hit = false -> (dv', n') <> (dev (getbuf s b), blockno (getbuf s b))) ->
      content s' dv' n' = content s dv' n'.
Proof.
  intros Hi Hq Hd Hn Hv Hr. exists (accessed s dv n b hit f).
  split_and!; [by apply access_eq|by apply accessed_inv|by apply accessed_quiet|done| | |].
  - by apply accessed_self.
  - apply released_refcnt; try done.
    destruct hit; [by left|right]. by apply victim_miss in Hv as (_ & ? & _).
  - intros dv' n' Hne Hnb. apply accessed_other; [done|done|].
    destruct hit; [|by apply Hnb]. destruct (victim_hit _ _ _ _ Hv) as (-> & -> & _). done.
Qed.

(** Two buffers in group 5, the first holding block 5 of device 0. *)
Definition bs0 : BState :=
  mkB ∅ (<[80 := mkBuf true 0 5 false 0 0 (replicate 512 9)]> ∅) (<[5 := [80; 81]]> ∅) 1 [].

Lemma bs0_inv : bc_inv bs0.
Proof.
  intros g b. unfold group_list, bs0. cbn [lru]. rewrite lookup_insert. case_decide as Hg.
  + subst g. cbn. rewrite !elem_of_cons, elem_of_nil. by intros [-> | [-> | []]].
  + rewrite lookup_empty. cbn. by intros ?%elem_of_nil.
Qed.
Lemma bs0_quiet : bc_quiet bs0.
Proof.
  intros b. unfold getbuf, bs0. cbn [bufs]. rewrite lookup_insert. case_decide; [done|].
  by rewrite lookup_empty.
Qed.

Lemma access_refines_witness :
  exists s', access 0 1029 (fun _ => replicate 512 7) bs0 = Ret tt s' /\
    content s' 0 1029 = replicate 512 7 /\ content s' 0 5 = replicate 512 9.
Proof.
  destruct (access_refines bs0 0 1029 81 false (fun _ => replicate 512 7))
    as (s' & Hr & _ & _ & _ & Hc & _ & Ho).
  - exact bs0_inv.
  - exact bs0_quiet.
  - lia.
  - lia.
  - vm_compute. reflexivity.
  - vm_compute. split; [discriminate|reflexivity].
  - exists s'. split_and!; [exact Hr|rewrite Hc; reflexivity|].
    rewrite Ho; [vm_compute; reflexivity|discriminate|]. intros _. vm_compute. discriminate.
Defined.

(** ** The order of a group

    Between accesses the list of a group starts with the buffers [l1] of the blocks used last,
    each in one buffer; [l2] are the others. *)
Record front (s : BState) (dv g : Z) (l1 l2 : list Z) : Prop := {
  fr_list : group_list s g = l1 ++ l2;
  fr_nodup : NoDup (l1 ++ l2);
  fr_idle : forall b, b ∈ l1 ++ l2 -> refcnt (getbuf s b) = 0;
  fr_held : forall b, b ∈ l1 -> valid (getbuf s b) = true /\ dev (getbuf s b) = dv;
  fr_apart : forall b c, b ∈ l1 -> c ∈ l1 -> blockno (getbuf s b) = blockno (getbuf s c) -> b = c;
}.

Section front.
Context (s : BState) (dv g n : Z) (l1 l2 : list Z) (f : list Z -> list Z).
Hypothesis Hinv : bc_inv s.
Hypothesis Hfr : front s dv g l1 l2.
Hypothesis Hg : group_of n = g.

Lemma front_matches b : matches s dv n b = true <-> dev (getbuf s b) = dv /\ blockno (getbuf s b) = n.
Proof. unfold matches. rewrite andb_true_iff, !Z.eqb_eq. done. Qed.

(** The buffer an access to [n] takes: that of [n] in [l1], or one of [l2]. *)
Lemma front_victim : (exists b, b ∈ l1 /\ blockno (getbuf s b) = n) \/ l2 <> [] ->
  exists b hit, victim s dv n = Some (b, hit) /\
    (b ∈ l1 /\ blockno (getbuf s b) = n /\ hit = true \/
     b ∈ l2 /\ forall c, c ∈ l1 -> blockno (getbuf s c) <> n).
Proof.
  intros Hor. destruct Hfr as [Hl Hnd Hidle Hheld Hap]. unfold victim. rewrite Hg, Hl.
  destruct (list_find _ (l1 ++ l2)) as [[i b]|] eqn:E.
  - exists b, true. split; [done|]. apply list_find_Some in E as (Hi & Hm & Hfirst). apply front_matches in Hm as [Hd Hn].
    destruct (decide (i < length l1)%nat).
    + left. rewrite lookup_app_l in Hi by done. split_and!; [by eapply list_elem_of_lookup_2|done|done].
    + right. rewrite lookup_app_r in Hi by lia. split; [by eapply list_elem_of_lookup_2|]. intros c Hc Hcn.
      apply list_elem_of_lookup_1 in Hc as [j Hj]. pose proof (lookup_lt_Some _ _ _ Hj).
      apply (Hfirst j c); [by rewrite lookup_app_l|lia|]. apply front_matches. split; [|done].
      by apply Hheld, (list_elem_of_lookup_2 _ j).
  - apply list_find_None in E. rewrite Forall_forall in E.
    assert (Hno : forall c, c ∈ l1 -> blockno (getbuf s c) <> n).
    { intros c Hc Hcn. apply (E c); [apply elem_of_app; by left|]. apply front_matches. split; [by apply Hheld|done]. }
    assert (Hne : l2 <> []) by (destruct Hor as [(b & Hb & Hbn)|]; [by destruct (Hno b)|done]).
    destruct (exists_last Hne) as (l & b & ->). exists b, false. rewrite app_assoc, reverse_snoc. cbn [list_find].
    rewrite decide_True; [split; [done|]; right; split; [apply elem_of_app; right; by left|done]|].
    apply Z.eqb_eq, Hidle. rewrite !elem_of_app. right. right. by left.
Qed.

Lemma accessed_front b hit : victim s dv n = Some (b, hit) ->
  (b ∈ l1 /\ blockno (getbuf s b) = n /\ hit = true \/ b ∈ l2 /\ forall c, c ∈ l1 -> blockno (getbuf s c) <> n) ->
  let s' := accessed s dv n b hit f in
  front s' dv g (b :: Queue.list_remove b l1) (Queue.list_remove b l2) /\
  (forall c, c <> b -> getbuf s' c = getbuf s c) /\
  valid (getbuf s' b) = true /\ dev (getbuf s' b) = dv /\ blockno (getbuf s' b) = n /\
  data (getbuf s' b) = f (content s dv n).
Proof.
  intros Hv Hb s'. destruct Hfr as [Hl Hnd Hidle Hheld Hap].
  assert (Hbuf : forall c, getbuf s' c = if decide (c = b) then released (set_data (f (content s dv n)) (held s dv n b hit)) else getbuf s c)
    by (intros c; apply accessed_buf).
  assert (Hin : b ∈ l1 ++ l2) by (rewrite <- Hl, <- Hg; by eapply victim_in).
  assert (Hr0 : refcnt (getbuf s b) = 0) by by apply Hidle.
  assert (Hrb : u32 (refcnt (held s dv n b hit) - 1) = 0) by (unfold held; cbn; destruct hit; rewrite ?Hr0; done).
  assert (Hglist : group_list s' g = b :: Queue.list_remove b (l1 ++ l2)).
  { unfold s', accessed, group_list. cbn [lru]. rewrite Hrb. cbn [Z.eqb]. rewrite Hg, lookup_insert_eq. cbn.
    unfold group_list in Hl. by rewrite Hl. }
  unfold Queue.list_remove in *. rewrite filter_app in Hglist.
  split; [|split_and!; [intros c Hc; by rewrite Hbuf, decide_False|by rewrite Hbuf, decide_True..]].
  constructor.
  - done.
  - cbn [app]. rewrite <- filter_app. constructor; [by rewrite list_elem_of_filter; intros [? _]|by apply NoDup_filter].
  - intros c. cbn [app]. rewrite <- filter_app, elem_of_cons, list_elem_of_filter. rewrite Hbuf.
    intros [-> |[Hne Hc]]; [by rewrite decide_True|]. rewrite decide_False by done. by apply Hidle.
  - intros c. rewrite elem_of_cons, list_elem_of_filter, Hbuf. intros [-> |[Hne Hc]]; [by rewrite decide_True|].
    rewrite decide_False by done. by apply Hheld.
  - assert (Hno : forall c, c <> b -> c ∈ l1 -> blockno (getbuf s c) <> n).
    { intros c Hne Hc Hcn. destruct Hb as [(Hb1 & Hbn & _)|[_ Hno]]; [|by apply (Hno c)]. apply Hne, Hap; congruence. }
    intros c d. rewrite !elem_of_cons, !list_elem_of_filter, !Hbuf. intros [-> |[Hc1 Hc]] [-> |[Hd1 Hd]]; try done.
    + rewrite decide_True, decide_False by done. cbn. intros E. by destruct (Hno d).
    + rewrite decide_False, decide_True by done. cbn. intros E. by destruct (Hno c).
    + rewrite !decide_False by done. by apply Hap.
Qed.

(** What a read gives: the data of the block's buffer in [l1], or else that of [l2]. *)
Lemma front_content_in b : b ∈ l1 -> blockno (getbuf s b) = n -> content s dv n = data (getbuf s b).
Proof.
  intros Hb Hn. destruct Hfr as [Hl Hnd Hidle Hheld Hap]. unfold content. rewrite Hg, Hl.
  destruct (list_find _ (l1 ++ l2)) as [[i c]|] eqn:E.
  - apply list_find_Some in E as (Hi & Hm & Hfirst). apply front_matches in Hm as [Hd Hc].
    assert (c = b) as ->; [|by destruct (Hheld b Hb) as [-> _]].
    apply Hap; [|done|congruence]. apply list_elem_of_lookup_1 in Hb as [j Hj]. pose proof (lookup_lt_Some _ _ _ Hj).
    destruct (decide (i < length l1)%nat); [rewrite lookup_app_l in Hi by done; by eapply list_elem_of_lookup_2|].
    exfalso. apply (Hfirst j b); [by rewrite lookup_app_l|lia|]. apply front_matches. split; [|done].
    by apply Hheld, (list_elem_of_lookup_2 _ j).
  - apply list_find_None in E. rewrite Forall_forall in E. exfalso. apply (E b); [apply elem_of_app; by left|].
    apply front_matches. split; [by apply Hheld|done].
Qed.
Lemma front_content_out : (forall c, c ∈ l1 -> blockno (getbuf s c) <> n) ->
  (forall c, c ∈ l2 -> valid (getbuf s c) = true -> dev (getbuf s c) = dv -> blockno (getbuf s c) = n ->
     data (getbuf s c) = disk_block s n) -> content s dv n = disk_block s n.
Proof.
  intros Hno Hclean. unfold content. rewrite Hg, (fr_list _ _ _ _ _ Hfr).
  destruct (list_find _ (l1 ++ l2)) as [[i c]|] eqn:E; [|done].
  apply list_find_Some in E as (Hi & Hm & _). apply front_matches in Hm as [Hd Hc].
  apply list_elem_of_lookup_2, elem_of_app in Hi as [Hi|Hi]; [by destruct (Hno c)|].
  destruct (valid (getbuf s c)) eqn:Ev; [|done]. by apply Hclean.
Qed.
End front.

Lemma list_remove_length (b : Z) l : NoDup l -> b ∈ l -> S (length (Queue.list_remove b l)) = length l.
Proof.
  intros Hn (x & y & ->)%list_elem_of_split. rewrite Queue.list_remove_split by done. rewrite !length_app. simpl. lia.
Qed.

(** An access to a block that is not in [l1] moves a buffer of [l2] to [l1]. *)
Lemma access_fresh s dv g n l1 l2 f :
  bc_inv s -> bc_quiet s -> 0 <= dv < 2 ^ 31 -> 0 <= n < 2 ^ 32 -> group_of n = g -> front s dv g l1 l2 ->
  (forall c, c ∈ l1 -> blockno (getbuf s c) <> n) -> l2 <> [] ->
  exists b s' l2', access dv n f s = Ret tt s' /\ bc_inv s' /\ bc_quiet s' /\ disk s' = disk s /\
    front s' dv g (b :: l1) l2' /\ S (length l2') = length l2 /\ blockno (getbuf s' b) = n /\
    data (getbuf s' b) = f (content s dv n) /\ forall c, c ∈ l1 -> getbuf s' c = getbuf s c.
Proof.
  intros Hi Hq Hd Hn Hg Hfr Hno Hne.
  destruct (front_victim s dv g n l1 l2 Hfr Hg (or_intror Hne)) as (b & hit & Hv & Hb).
  assert (Hb2 : b ∈ l2) by (destruct Hb as [(Hb1 & Hbn & _)|[? _]]; [by destruct (Hno b)|done]).
  pose proof (fr_nodup _ _ _ _ _ Hfr) as Hnd. apply NoDup_app in Hnd as (_ & Hap & Hnd2).
  assert (Hb1 : b ∉ l1) by (intros Hc; by apply (Hap b)).
  destruct (accessed_front s dv g n l1 l2 f Hfr Hg b hit Hv Hb) as (F1 & F2 & _ & _ & F3 & F4).
  rewrite (Queue.list_remove_notin b l1 Hb1) in F1.
  exists b, (accessed s dv n b hit f), (Queue.list_remove b l2).
  split_and!; [by apply access_eq|by apply accessed_inv|by apply accessed_quiet|done|done|by apply list_remove_length|done|done|].
  intros c Hc. apply F2. by intros ->.
Qed.

(** Accesses to a list of blocks, one after the other. *)
Fixpoint access_all (dv : Z) (u : Z -> list Z -> list Z) (ns : list Z) : M BState unit :=
  match ns with [] => mret tt | n :: ns => access dv n (u n) ;; access_all dv u ns end.

Lemma access_all_front dv g u (P : Z -> Prop) ns : forall s l1 l2,
  bc_inv s -> bc_quiet s -> 0 <= dv < 2 ^ 31 -> front s dv g l1 l2 -> NoDup ns ->
  (forall m, m ∈ ns -> 0 <= m < 2 ^ 32 /\ group_of m = g /\ P m) ->
  (forall m c, m ∈ ns -> c ∈ l1 -> blockno (getbuf s c) <> m) ->
  (forall c, c ∈ l1 -> P (blockno (getbuf s c))) -> (length ns <= length l2)%nat ->
  exists s' l1' l2', access_all dv u ns s = Ret tt s' /\ bc_inv s' /\ bc_quiet s' /\ disk s' = disk s /\
    front s' dv g l1' l2' /\ (length l2' + length ns = length l2)%nat /\
    (length l1' = length l1 + length ns)%nat /\ forall c, c ∈ l1' -> P (blockno (getbuf s' c)).
Proof.
  induction ns as [|n ns IH]; intros s l1 l2 Hi Hq Hd Hfr Hnd Hns Hno HP Hlen.
  { exists s, l1, l2. cbn. split_and!; try done; lia. }
  apply NoDup_cons in Hnd as [Hn Hnd]. destruct (Hns n ltac:(by left)) as (Hr & Hg & Pn).
  destruct (access_fresh s dv g n l1 l2 (u n) Hi Hq Hd Hr Hg Hfr) as (b & s1 & l2' & E & Hi1 & Hq1 & Hdk & Hf1 & Hl & Hb & _ & Hk).
  { intros c Hc. apply Hno; [by left|done]. }
  { intros ->. simpl in Hlen. lia. }
  destruct (IH s1 (b :: l1) l2' Hi1 Hq1 Hd Hf1 Hnd) as (s' & l1'' & l2'' & E' & Hi' & Hq' & Hdk' & Hf' & Hl' & Hl1' & HP').
  - intros m Hm. apply Hns. by right.
  - intros m c Hm [-> |Hc]%elem_of_cons; [rewrite Hb; by intros ->|]. rewrite Hk by done. apply Hno; [by right|done].
  - intros c [-> |Hc]%elem_of_cons; [by rewrite Hb|]. rewrite Hk by done. by apply HP.
  - simpl in Hlen. lia.
  - exists s', l1'', l2''. split_and!; try done; [|congruence|simpl; lia|simpl in *; lia].
    cbn [access_all]. by rewrite (bind_Ret _ _ _ _ _ E).
Qed.

(** After [binit] each of the 1024 groups has 16 buffers, none of them locked; their contents
    are what they were. *)
Lemma binit_spec s : exists s', binit s = Ret tt s' /\ disk s' = disk s /\
  (forall g, 0 <= g < 1024 -> group_list s' g = reverse (seqZ (16 * g) 16)) /\
  (forall g, ~ (0 <= g < 1024) -> group_list s' g = group_list s g) /\
  (forall b, (exists l t, getbuf s' b = set_lock l t (getbuf s b)) /\ (0 <= b < 16384 \/ locked (getbuf s b) = false -> locked (getbuf s' b) = false)).
Proof.
  unfold binit.
  match goal with |- exists s', for_up _ _ ?body s = _ /\ _ =>
    destruct (for_up_inv (fun i s' => disk s' = disk s /\
      (forall g, 0 <= g < i -> group_list s' g = reverse (seqZ (16 * g) 16)) /\
      (forall g, ~ (0 <= g < i) -> group_list s' g = group_list s g) /\
      (forall b, (exists l t, getbuf s' b = set_lock l t (getbuf s b)) /\ (0 <= b < 16 * i \/ locked (getbuf s b) = false -> locked (getbuf s' b) = false)))
      body 1024 0 s) as (s' & Hrun & H1 & H2 & H3 & H4) end.
  - intros i s1 Hi (A1 & A2 & A3 & A4). rewrite bind_modify.
    match goal with |- exists s', for_up _ _ ?body ?s0 = _ /\ _ =>
      destruct (for_up_inv (fun j s' => disk s' = disk s /\
        group_list s' i = reverse (seqZ (16 * i) (j - 16 * i)) /\
        (forall g, g <> i -> group_list s' g = group_list s1 g) /\
        (forall b, (exists l t, getbuf s' b = set_lock l t (getbuf s b)) /\ (0 <= b < j \/ locked (getbuf s b) = false -> locked (getbuf s' b) = false)))
        body NBUF (16 * i) s0) as (s' & Hrun & H1 & H2 & H3 & H4) end.
    + intros j s2 Hj (B1 & B2 & B3 & B4). unfold NBUF in Hj. rewrite bind_modify. eexists. split; [reflexivity|].
      split_and!; [done| | |].
      * unfold set_lru, setbuf, group_list. cbn [lru]. rewrite lookup_insert_eq. cbn. fold (group_list s2 i). rewrite B2.
        replace (j + 1 - 16 * i) with ((j - 16 * i) + 1) by lia. rewrite seqZ_app by lia.
        replace (16 * i + (j - 16 * i)) with j by lia. rewrite (seqZ_cons j 1), (seqZ_nil (Z.succ j)) by lia. by rewrite reverse_snoc.
      * intros g Hg. rewrite <- B3 by done. unfold set_lru, setbuf, group_list. cbn [lru]. by rewrite lookup_insert_ne.
      * intros b. destruct (decide (b = j)) as [-> |Hne].
        -- rewrite getbuf_setbuf_eq. split; [|done]. destruct (B4 j) as [(l & t & E) _]. exists false, 0.
           change (getbuf (set_lru _ _ s2) j) with (getbuf s2 j). by rewrite E.
        -- rewrite getbuf_setbuf_ne by done. change (getbuf (set_lru _ _ s2) b) with (getbuf s2 b).
           split; [apply B4|]. intros [Hb|Hb]; apply B4; [left; lia|by right].
    + split_and!; [done| | |].
      * rewrite Z.sub_diag. unfold set_lru, group_list. cbn [lru]. by rewrite lookup_insert_eq.
      * intros g Hg. unfold set_lru, group_list. cbn [lru]. by rewrite lookup_insert_ne.
      * exact A4.
    + exists s'. split; [exact Hrun|]. change (16 * i + Z.of_nat NBUF) with (16 * i + 16) in *.
      replace (16 * i + 16 - 16 * i) with 16 in H2 by lia. split_and!; [done| | |].
      * intros g Hg. destruct (decide (g = i)) as [-> |]; [done|]. rewrite H3 by done. apply A2. lia.
      * intros g Hg. rewrite H3 by lia. apply A3. lia.
      * intros b. split; [apply H4|]. intros [Hb|Hb]; apply H4; [left; lia|by right].
  - split_and!; try done; [intros; lia|]. intros b. split; [|intros [?|?]; [lia|done]].
    exists (locked (getbuf s b)), (owner_tid (getbuf s b)). by destruct (getbuf s b).
  - exists s'. done.
Qed.

(** C38. A write does not survive the recycling of its buffer.  [bwrite] does not reach the disk
    ([sdWrite] is commented out), and [bget] takes the buffer of a block for another one without
    writing it back.  In any state of the cache between calls in which the buffers of a group are
    unused, for every block [n] of the group and all data [d]: once [n] was written and
    released, a read of [n] gives [d]; but after as many other blocks of its group were
    used as the group has buffers, whatever was done to them, the disk is unchanged, and
    the next [bread] of [n] gives the content of the disk from before the write. *)
Theorem bwrite_lost_on_eviction s dv n d u ns :
  let g := group_of n in
  bc_inv s -> bc_quiet s -> NoDup (group_list s g) -> (forall b, b ∈ group_list s g -> refcnt (getbuf s b) = 0) ->
  0 <= dv < 2 ^ 31 -> 0 <= n < 2 ^ 32 -> NoDup ns -> ns <> [] -> length ns = length (group_list s g) ->
  (forall m, m ∈ ns -> 0 <= m < 2 ^ 32 /\ group_of m = g /\ m <> n) ->
  exists s1 s2 b s3, access dv n (fun _ => d) s = Ret tt s1 /\ content s1 dv n = d /\
    access_all dv u ns s1 = Ret tt s2 /\ disk s2 = disk s /\
    bread dv n s2 = Ret b s3 /\ data (getbuf s3 b) = disk_block s n.
Proof.
  intros g Hi Hq Hnd Hidle Hd Hn Hns Hne Hlen Hm.
  assert (Hfr : front s dv g [] (group_list s g)) by (constructor; [done|done|done|by intros b ?%elem_of_nil|by intros b c ?%elem_of_nil]).
  assert (Hl0 : group_list s g <> []) by (intros E; rewrite E in Hlen; by destruct ns).
  destruct (access_fresh s dv g n [] _ (fun _ => d) Hi Hq Hd Hn eq_refl Hfr) as (b0 & s1 & l2 & E1 & Hi1 & Hq1 & Hdk1 & Hf1 & Hl1 & Hb1 & Hdat & _);
    [by intros c ?%elem_of_nil|done|].
  assert (Hf1' : front s1 dv g [] (b0 :: l2)).
  { destruct Hf1 as [F1 F2 F3 F4 F5]. constructor; [done|done|done|by intros b ?%elem_of_nil|by intros b c ?%elem_of_nil]. }
  destruct (access_all_front dv g u (fun m => m <> n) ns s1 [] (b0 :: l2)) as (s2 & l1' & l2' & E2 & Hi2 & Hq2 & Hdk2 & Hf2 & Hl2 & Hl1' & HP);
    try done; [by intros m c _ ?%elem_of_nil|by intros c ?%elem_of_nil|simpl; lia|].
  assert (l2' = []) as -> by (apply nil_length_inv; simpl in Hl2; lia).
  assert (Hf2' : front s2 dv g [] l1').
  { destruct Hf2 as [F1 F2 F3 F4 F5]. rewrite app_nil_r in *. constructor; [done|done|done|by intros b ?%elem_of_nil|by intros b c ?%elem_of_nil]. }
  assert (Hne1 : l1' <> []) by (intros ->; by destruct ns).
  destruct (front_victim s2 dv g n [] l1' Hf2' eq_refl (or_intror Hne1)) as (b & hit & Hv & _).
  exists s1, s2, b, (setbuf b (fun _ => held s2 dv n b hit) s2). split_and!; [done| |done|congruence|by apply bread_eq|].
  - rewrite (front_content_in s1 dv g n _ _ Hf1 eq_refl b0); [done|by left|done].
  - rewrite getbuf_setbuf_eq. cbn [data held]. rewrite (front_content_out s2 dv g n _ _ Hf2 eq_refl); [|done|by intros c ?%elem_of_nil].
    unfold disk_block. by rewrite Hdk2, Hdk1.
Qed.

(** Group 5 of the state above has two buffers: two other blocks of it are enough. *)
Lemma bwrite_lost_on_eviction_witness :
  exists s1 s2 b s3, access 0 2053 (fun _ => replicate 512 7) bs0 = Ret tt s1 /\ content s1 0 2053 = replicate 512 7 /\
    access_all 0 (fun _ x => x) [1029; 5] s1 = Ret tt s2 /\
    bread 0 2053 s2 = Ret b s3 /\ data (getbuf s3 b) = zero_block.
Proof.
  destruct (bwrite_lost_on_eviction bs0 0 2053 (replicate 512 7) (fun _ x => x) [1029; 5])
    as (s1 & s2 & b & s3 & H1 & H2 & H3 & _ & H4 & H5).
  - exact bs0_inv.
  - exact bs0_quiet.
  - apply (bool_decide_unpack _). vm_compute. exact Logic.I.
  - change (group_list bs0 (group_of 2053)) with [80; 81]. intros b.
    rewrite !elem_of_cons, elem_of_nil. intros [-> | [-> | []]]; reflexivity.
  - lia.
  - lia.
  - apply (bool_decide_unpack _). vm_compute. exact Logic.I.
  - discriminate.
  - reflexivity.
  - intros m. rewrite !elem_of_cons, elem_of_nil. intros [-> | [-> | []]]; split_and!; try lia; reflexivity.
  - exists s1, s2, b, s3. split; [exact H1|]. split; [exact H2|]. split; [exact H3|]. split; [exact H4|].
    rewrite H5. vm_compute. reflexivity.
Defined.
