(* ===== verification/Fat.v ===== *)
(** * Fat.c, Inode.c, Dirent.c: the FAT and the index of a file's clusters

    The state of the file system: the buffer cache, the mounted file systems,
    the in-memory directory entries and the index blocks ([inodes]) that record
    which clusters a file has.  A [Dirent*] into [dirents] is its index plus one,
    the root of file system [p] (a pointer into [fileSystem], index plus one) is
    [-p], NULL is 0.  Reading or writing outside an array, undefined in C, is
    [panic]. *)

From S2P Require Import Prelude CType Queue Bio.

(** ** Data *)

Record superblock := mkSb {
  first_data_sec : Z; data_sec_cnt : Z; data_clus_cnt : Z; byts_per_clus : Z;
  byts_per_sec : Z; sec_per_clus : Z; rsvd_sec_cnt : Z; fat_cnt : Z;
  hidd_sec : Z; tot_sec : Z; fat_sz : Z; root_clus : Z;
}.
Definition sb0 : superblock := mkSb 0 0 0 0 0 0 0 0 0 0 0 0.

Record Dirent := mkDe {
  filename : list Z;
  attribute : Z;
  first_clus : Z;
  file_size : Z;
  cur_clus : Z;
  inodeMaxCluster : Z;
  clus_cnt : Z;
  inode : list Z;
  nt_res : Z;
  fileSystem : Z;
  de_dev : Z;
  de_head : Z;
  de_off : Z;
  parent : Z;
  nextBrother : Z;
  firstChild : Z;
}.

Definition INODE_NUM : Z := 1024.
Definition INODE_ITEM_NUM : Z := 64.
Definition INODE_SECOND_ITEM_BASE : Z := 8.
Definition INODE_THIRD_ITEM_BASE : Z := 24.
Definition INODE_SECOND_LEVEL_BOTTOM : Z := INODE_SECOND_ITEM_BASE.
Definition INODE_SECOND_LEVEL_TOP : Z :=
  INODE_SECOND_LEVEL_BOTTOM + (INODE_THIRD_ITEM_BASE - INODE_SECOND_ITEM_BASE) * INODE_ITEM_NUM.
Definition INODE_THIRD_LEVEL_BOTTOM : Z := INODE_SECOND_LEVEL_TOP.
Definition INODE_THIRD_LEVEL_TOP : Z :=
  INODE_THIRD_LEVEL_BOTTOM + (INODE_ITEM_NUM - INODE_THIRD_ITEM_BASE) * INODE_ITEM_NUM * INODE_ITEM_NUM.

Definition inode0 : list Z := replicate 64 0.
Definition dirent0 : Dirent := mkDe [] 0 0 0 0 0 0 inode0 0 0 0 0 0 0 0 0.

(** [image] of a file system: a device number or the directory entry of an
    image file. *)
Inductive image_t := ImgNone | ImgDevice (major : Z) | ImgEntry (ep : Z).

(** The two functions [fs->read] can point at. *)
Inductive reader := BlockRead | MountBlockRead.

Record FileSystem := mkFs {
  fs_valid : bool;
  fs_name : list Z;
  superBlock : superblock;
  fs_image : image_t;
  fs_next : Z;
  deviceNumber : Z;
  fs_reader : reader;
}.
Definition fs0 : FileSystem := mkFs false [] sb0 ImgNone 0 0 BlockRead.

Record FatS := mkFatS {
  bio : BState;
  fss : gmap Z FileSystem;
  dents : gmap Z Dirent;
  direntHead : Z;
  inodes : gmap Z (list Z);
  inodeBitmap : list Z;
  clusBitmap : gmap Z (list Z);
}.

Definition set_bio (b : BState) (s : FatS) : FatS :=
  mkFatS b (fss s) (dents s) (direntHead s) (inodes s) (inodeBitmap s) (clusBitmap s).
Definition set_fss (f : gmap Z FileSystem -> gmap Z FileSystem) (s : FatS) : FatS :=
  mkFatS (bio s) (f (fss s)) (dents s) (direntHead s) (inodes s) (inodeBitmap s) (clusBitmap s).
Definition set_dents (f : gmap Z Dirent -> gmap Z Dirent) (s : FatS) : FatS :=
  mkFatS (bio s) (fss s) (f (dents s)) (direntHead s) (inodes s) (inodeBitmap s) (clusBitmap s).
Definition set_direntHead (h : Z) (s : FatS) : FatS :=
  mkFatS (bio s) (fss s) (dents s) h (inodes s) (inodeBitmap s) (clusBitmap s).
Definition set_inodes (f : gmap Z (list Z) -> gmap Z (list Z)) (s : FatS) : FatS :=
  mkFatS (bio s) (fss s) (dents s) (direntHead s) (f (inodes s)) (inodeBitmap s) (clusBitmap s).
Definition set_inodeBitmap (l : list Z) (s : FatS) : FatS :=
  mkFatS (bio s) (fss s) (dents s) (direntHead s) (inodes s) l (clusBitmap s).
Definition set_clusBitmap (f : gmap Z (list Z) -> gmap Z (list Z)) (s : FatS) : FatS :=
  mkFatS (bio s) (fss s) (dents s) (direntHead s) (inodes s) (inodeBitmap s) (f (clusBitmap s)).

#[export] Program Instance FatS_BState : Part FatS BState :=
  {| part := bio; set_part := set_bio |}.
Solve Obligations with by (intros; try match goal with s : FatS |- _ => destruct s end).

Definition getfs (s : FatS) (p : Z) : FileSystem := default fs0 (fss s !! p).
Definition sb (s : FatS) (p : Z) : superblock := superBlock (getfs s p).
Definition getde (s : FatS) (e : Z) : Dirent := default dirent0 (dents s !! e).
Definition setde (e : Z) (f : Dirent -> Dirent) (s : FatS) : FatS :=
  set_dents (fun m => <[e := f (getde s e)]> m) s.
Definition root_of (fs : Z) : Z := - fs.

Definition with_pos (cur cnt : Z) (d : Dirent) : Dirent :=
  mkDe (filename d) (attribute d) (first_clus d) (file_size d) cur (inodeMaxCluster d) cnt (inode d)
    (nt_res d) (fileSystem d) (de_dev d) (de_head d) (de_off d) (parent d) (nextBrother d) (firstChild d).
Definition with_index (mx : Z) (it : list Z) (d : Dirent) : Dirent :=
  mkDe (filename d) (attribute d) (first_clus d) (file_size d) (cur_clus d) mx (clus_cnt d) it
    (nt_res d) (fileSystem d) (de_dev d) (de_head d) (de_off d) (parent d) (nextBrother d) (firstChild d).
Definition with_file (first size : Z) (d : Dirent) : Dirent :=
  mkDe (filename d) (attribute d) first size (cur_clus d) (inodeMaxCluster d) (clus_cnt d) (inode d)
    (nt_res d) (fileSystem d) (de_dev d) (de_head d) (de_off d) (parent d) (nextBrother d) (firstChild d).
Definition with_links (p n c : Z) (d : Dirent) : Dirent :=
  mkDe (filename d) (attribute d) (first_clus d) (file_size d) (cur_clus d) (inodeMaxCluster d) (clus_cnt d)
    (inode d) (nt_res d) (fileSystem d) (de_dev d) (de_head d) (de_off d) p n c.
Definition with_meta (name : list Z) (attr nt : Z) (fs off : Z) (d : Dirent) : Dirent :=
  mkDe name attr (first_clus d) (file_size d) (cur_clus d) (inodeMaxCluster d) (clus_cnt d) (inode d)
    nt fs (de_dev d) (de_head d) off (parent d) (nextBrother d) (firstChild d).

(** ** Inode.c *)

(** [sizeof(inodeBitmap)], the bound of the loop, is 128; the array has 16
    words. *)
Definition inodeAlloc : M FatS Z :=
  bm ← gets inodeBitmap;
  match bitmap_alloc 128 bm with
  | BGot x bm => modify (set_inodeBitmap bm) ;; mret x
  | BFull => mret (-1)
  | BOob => panic
  end.

Definition inodeFree (x : Z) : M FatS unit :=
  bm ← gets inodeBitmap;
  assert (bitmap_used bm x) ;;
  modify (set_inodeBitmap (bitmap_free x bm)).

(** [inodes[x].item[j]] *)
Definition inode_item (x j : Z) : M FatS Z :=
  l ← gets (fun s => default inode0 (inodes s !! x));
  if (0 <=? x) && (x <? INODE_NUM) then
    match l !! Z.to_nat j with Some v => mret v | None => panic end
  else panic.
Definition set_inode_item (x j v : Z) : M FatS unit :=
  if (0 <=? x) && (x <? INODE_NUM) then
    modify (fun s => set_inodes (fun m => <[x := <[Z.to_nat j := v]> (default inode0 (m !! x))]> m) s)
  else panic.
(** [entry->inode.item[i]] *)
Definition de_item (e i : Z) : M FatS Z :=
  l ← gets (fun s => inode (getde s e));
  match l !! Z.to_nat i with Some v => mret v | None => panic end.
Definition set_de_item (e i v : Z) : M FatS unit :=
  modify (setde e (fun d => with_index (inodeMaxCluster d) (<[Z.to_nat i := v]> (inode d)) d)).

(** ** Dirent.c *)

Definition direntAlloc : M FatS Z :=
  d ← gets direntHead;
  assert (negb (d =? 0)) ;;
  n ← gets (fun s => nextBrother (getde s d));
  modify (set_direntHead n) ;; mret d.

Definition set_nextBrother (e n : Z) : M FatS unit :=
  modify (setde e (fun d => with_links (parent d) n (firstChild d) d)).
Definition set_firstChild (e c : Z) : M FatS unit :=
  modify (setde e (fun d => with_links (parent d) (nextBrother d) c d)).

Definition direntFree (d : Z) : M FatS unit :=
  h ← gets direntHead; set_nextBrother d h ;; modify (set_direntHead d).

Definition DIRENT_NUM : Z := 8192.
Definition direntInit : M FatS unit :=
  for_up (Z.to_nat DIRENT_NUM) 1 (fun d =>
    h ← gets direntHead; set_nextBrother d h ;; modify (set_direntHead d)).

(** ** The index of a file's clusters *)

(** [for (i = from; i < from + n; i++) if (cond i) body i else break;] *)
Fixpoint for_while (n : nat) (i : Z) (cond : Z -> bool) (body : Z -> M FatS unit) : M FatS unit :=
  match n with
  | O => mret tt
  | S n => if cond i then body i ;; for_while n (i + 1) cond body else mret tt
  end.

Definition eFreeInode (ep : Z) : M FatS unit :=
  mx ← gets (fun s => inodeMaxCluster (getde s ep));
  for_while 16 INODE_SECOND_ITEM_BASE
    (fun i => mx >? INODE_SECOND_LEVEL_BOTTOM + (i - INODE_SECOND_ITEM_BASE) * INODE_ITEM_NUM)
    (fun i => x ← de_item ep i; inodeFree x) ;;
  for_while 40 INODE_THIRD_ITEM_BASE
    (fun i => mx >? INODE_THIRD_LEVEL_BOTTOM + (i - INODE_SECOND_ITEM_BASE) * INODE_ITEM_NUM * INODE_ITEM_NUM)
    (fun i =>
      let base := INODE_THIRD_LEVEL_BOTTOM + (i - INODE_SECOND_ITEM_BASE) * INODE_ITEM_NUM * INODE_ITEM_NUM in
      for_while 64 0 (fun j => mx >? base + j * INODE_ITEM_NUM)
        (fun j => x ← de_item ep i; y ← inode_item x j; inodeFree y) ;;
      x ← de_item ep i; inodeFree x) ;;
  modify (setde ep (fun d => with_index 0 (inode d) d)).

(** The cluster at position [pos] of the index. *)
Definition index_get (entry pos : Z) : M FatS Z :=
  if pos <? INODE_SECOND_LEVEL_BOTTOM then de_item entry pos
  else if pos <? INODE_THIRD_LEVEL_BOTTOM then
    x ← de_item entry (INODE_SECOND_ITEM_BASE + (pos - INODE_SECOND_LEVEL_BOTTOM) / INODE_ITEM_NUM);
    inode_item x ((pos - INODE_SECOND_LEVEL_BOTTOM) mod INODE_ITEM_NUM)
  else if pos <? INODE_THIRD_LEVEL_TOP then
    x ← de_item entry (INODE_THIRD_ITEM_BASE + (pos - INODE_THIRD_LEVEL_BOTTOM) / INODE_ITEM_NUM / INODE_ITEM_NUM);
    y ← inode_item x ((pos - INODE_THIRD_LEVEL_BOTTOM) / INODE_ITEM_NUM mod INODE_ITEM_NUM);
    inode_item y ((pos - INODE_THIRD_LEVEL_BOTTOM) mod INODE_ITEM_NUM)
  else panic.

Definition eFindInode (entry pos : Z) : M FatS unit :=
  d ← gets (fun s => getde s entry);
  assert (u32 pos <? inodeMaxCluster d) ;;
  modify (setde entry (fun d => with_pos (cur_clus d) (u32 pos) d)) ;;
  c ← index_get entry pos;
  modify (setde entry (fun d => with_pos c (clus_cnt d) d)).

(** The part of [reloc_clus] that records cluster [clus] at position [pos]. *)
Definition index_put (entry pos clus : Z) : M FatS unit :=
  if pos <? INODE_SECOND_LEVEL_BOTTOM then set_de_item entry pos clus
  else if pos <? INODE_THIRD_LEVEL_BOTTOM then
    let idx1 := INODE_SECOND_ITEM_BASE + (pos - INODE_SECOND_LEVEL_BOTTOM) / INODE_ITEM_NUM in
    let idx2 := (pos - INODE_SECOND_LEVEL_BOTTOM) mod INODE_ITEM_NUM in
    when (idx2 =? 0) (x ← inodeAlloc; set_de_item entry idx1 (u32 x)) ;;
    x ← de_item entry idx1;
    set_inode_item x idx2 clus
  else if pos <? INODE_THIRD_LEVEL_TOP then
    let idx1 := INODE_THIRD_ITEM_BASE + (pos - INODE_THIRD_LEVEL_BOTTOM) / INODE_ITEM_NUM / INODE_ITEM_NUM in
    let idx2 := (pos - INODE_THIRD_LEVEL_BOTTOM) / INODE_ITEM_NUM mod INODE_ITEM_NUM in
    let idx3 := (pos - INODE_THIRD_LEVEL_BOTTOM) mod INODE_ITEM_NUM in
    when (idx3 =? 0)
      (when (idx2 =? 0) (x ← inodeAlloc; set_de_item entry idx1 (u32 x)) ;;
       x ← de_item entry idx1;
       y ← inodeAlloc;
       set_inode_item x idx2 (u32 y)) ;;
    x ← de_item entry idx1;
    y ← inode_item x idx2;
    set_inode_item y idx3 clus
  else panic.

(** ** Clusters and sectors *)

Definition FAT32_EOC : Z := 0x0ffffff8.

Definition first_sec_of_clus (b : superblock) (cluster : Z) : Z :=
  u32 (u32 (cluster - 2) * sec_per_clus b + first_data_sec b).
Definition fat_sec_of_clus (b : superblock) (cluster fat_num : Z) : Z :=
  u32 (rsvd_sec_cnt b + u32 (Z.shiftl cluster 2) / byts_per_sec b + fat_sz b * (fat_num - 1)).
Definition fat_offset_of_clus (b : superblock) (cluster : Z) : Z :=
  u32 (Z.shiftl cluster 2) mod byts_per_sec b.

(** 32-bit little-endian words of a data block. *)
Definition get8 (d : list Z) (off : Z) : Z := default 0 (d !! Z.to_nat off).
Definition get32 (d : list Z) (off : Z) : Z :=
  get8 d off + 2 ^ 8 * (get8 d (off + 1) + 2 ^ 8 * (get8 d (off + 2) + 2 ^ 8 * get8 d (off + 3))).
Definition put8 (off v : Z) (d : list Z) : list Z := <[Z.to_nat off := u8 v]> d.
Definition put32 (off v : Z) (d : list Z) : list Z :=
  put8 (off + 3) (v / 2 ^ 24) (put8 (off + 2) (v / 2 ^ 16) (put8 (off + 1) (v / 2 ^ 8) (put8 off v d))).

Section fat.
(** [fs->read(fs, blockNum)]: a locked buffer, or NULL. *)
Context (fs_read : Z -> Z -> M FatS (option Z)).

Definition read_block (fs n : Z) : M FatS Z :=
  r ← fs_read fs n;
  match r with Some b => mret b | None => panic end.

Definition buf_data (b : Z) : M FatS (list Z) := gets (fun s => data (getbuf (bio s) b)).

Definition read_fat (fs cluster : Z) : M FatS Z :=
  b ← gets (fun s => sb s fs);
  if cluster >=? FAT32_EOC then mret cluster
  else if cluster >? u32 (data_clus_cnt b + 1) then mret 0
  else
    bp ← read_block fs (fat_sec_of_clus b cluster 1);
    d ← buf_data bp;
    lift (brelse bp) ;;
    mret (get32 d (fat_offset_of_clus b cluster)).

Definition write_fat (fs cluster content : Z) : M FatS Z :=
  b ← gets (fun s => sb s fs);
  if cluster >? u32 (data_clus_cnt b + 1) then mret (-1)
  else
    bp ← read_block fs (fat_sec_of_clus b cluster 1);
    lift (buf_update bp (put32 (fat_offset_of_clus b cluster) content)) ;;
    lift (bwrite bp) ;;
    lift (brelse bp) ;;
    mret 0.

Definition zero_clus (fs cluster : Z) : M FatS unit :=
  b ← gets (fun s => sb s fs);
  for_up (Z.to_nat (sec_per_clus b)) 0 (fun i =>
    bp ← read_block fs (u32 (first_sec_of_clus b cluster + i));
    lift (buf_update bp (fun _ => zero_block)) ;;
    lift (bwrite bp) ;;
    lift (brelse bp)).

Definition totalClusterNumber (b : superblock) : Z := i32 (u32 (fat_sz b * byts_per_sec b) / 4).

(** The [dev] argument is not used. *)
Definition alloc_clus (fs : Z) : M FatS Z :=
  b ← gets (fun s => sb s fs);
  bm ← gets (fun s => default [] (clusBitmap s !! fs));
  match bitmap_alloc (Z.to_nat (totalClusterNumber b / 64)) bm with
  | BGot cluster bm =>
      modify (set_clusBitmap (fun m => <[fs := bm]> m)) ;;
      let ent_per_sec := byts_per_sec b / 4 in
      bp ← read_block fs (u32 (rsvd_sec_cnt b + cluster / ent_per_sec));
      lift (buf_update bp (put32 (4 * (cluster mod ent_per_sec)) (FAT32_EOC + 7))) ;;
      lift (bwrite bp) ;;
      lift (brelse bp) ;;
      zero_clus fs cluster ;;
      mret cluster
  | BFull | BOob => panic
  end.

Definition free_clus (fs cluster : Z) : M FatS unit :=
  write_fat fs cluster 0 ;;
  modify (set_clusBitmap (fun m => <[fs := bitmap_free cluster (default [] (m !! fs))]> m)).

(** One iteration of the loop of [reloc_clus]. *)
Definition reloc_step (fs entry clus_num : Z) (alloc : bool) : M FatS (unit + bool) :=
  d ← gets (fun s => getde s entry);
  if negb (u32 clus_num >? clus_cnt d) then mret (inr true)
  else
    c ← read_fat fs (cur_clus d);
    let clus := i32 c in
    r ← (if clus >=? FAT32_EOC then
           if alloc then
             c ← alloc_clus fs; write_fat fs (cur_clus d) c ;; mret (Some c)
           else
             modify (setde entry (fun d => with_pos (first_clus d) 0 d)) ;; mret None
         else mret (Some clus));
    match r with
    | None => mret (inr false)
    | Some clus =>
        modify (setde entry (fun d => with_pos (u32 clus) (u32 (clus_cnt d + 1)) d)) ;;
        let pos := u32 (clus_cnt d + 1) in
        assert (pos =? inodeMaxCluster d) ;;
        modify (setde entry (fun d => with_index (u32 (inodeMaxCluster d + 1)) (inode d) d)) ;;
        index_put entry pos (u32 clus) ;;
        mret (inl tt)
    end.

Definition reloc_clus (fs entry off : Z) (alloc : bool) : M FatS Z :=
  d ← gets (fun s => getde s entry);
  assert (negb (first_clus d =? 0)) ;;
  assert (inodeMaxCluster d >? 0) ;;
  i0 ← de_item entry 0;
  assert (first_clus d =? i0) ;;
  b ← gets (fun s => sb s fs);
  let clus_num := i32 (off / byts_per_clus b) in
  let ret := i32 (off mod byts_per_clus b) in
  if u32 clus_num <? inodeMaxCluster d then eFindInode entry clus_num ;; mret ret
  else
    eFindInode entry (i32 (inodeMaxCluster d - 1)) ;;
    ok ← loop (S (Z.to_nat (u32 clus_num))) (fun _ => reloc_step fs entry clus_num alloc) tt;
    mret (if (ok : bool) then ret else -1).

Definition getBlockNumber (entry dataBlockNum : Z) : M FatS Z :=
  let offset := i32 (Z.shiftl dataBlockNum 9) in
  d ← gets (fun s => getde s entry);
  if u32 offset >? file_size d then mret (-1)
  else
    let fs := fileSystem d in
    reloc_clus fs entry (u32 offset) false ;;
    d ← gets (fun s => getde s entry);
    b ← gets (fun s => sb s fs);
    mret (i32 (first_sec_of_clus b (cur_clus d) + u32 offset mod byts_per_clus b / byts_per_sec b)).

Definition etrunc (fuel : nat) (entry : Z) : M FatS unit :=
  d ← gets (fun s => getde s entry);
  let fs := fileSystem d in
  loop fuel (fun clus =>
    if (clus >=? 2) && (clus <? FAT32_EOC) then
      next ← read_fat fs clus;
      free_clus fs clus ;;
      mret (inl next)
    else mret (inr tt)) (first_clus d) ;;
  modify (setde entry (with_file 0 0)) ;;
  eFreeInode entry.
End fat.

(** ** Bio.c: the block readers of a file system

    [depth] bounds the nesting of mounted images. *)

Definition blockRead (fs n : Z) : M FatS (option Z) :=
  dv ← gets (fun s => deviceNumber (getfs s fs));
  b ← lift (bread (u32 dv) (u32 n)); mret (Some b).

Fixpoint fs_read (depth : nat) (fs n : Z) : M FatS (option Z) :=
  match depth with
  | O => fun _ => NoFuel
  | S depth =>
      f ← gets (fun s => getfs s fs);
      match fs_reader f with
      | BlockRead => blockRead fs n
      | MountBlockRead =>
          match fs_image f with
          | ImgDevice major => b ← lift (bread (u32 major) (u32 n)); mret (Some b)
          | ImgNone => panic
          | ImgEntry image =>
              d ← gets (fun s => getde s image);
              p ← getBlockNumber (fs_read depth) image (i32 n);
              if p <? 0 then mret None else fs_read depth (fileSystem d) (u64 p)
          end
      end
  end.
