(* ===== verification/FatIndex.v ===== *)
(** * The three-level index of a file's clusters

    [index_put] and [index_get] (the index parts of [reloc_clus] and
    [eFindInode]) refine appending to and indexing a list of clusters: the first
    8 positions are in the entry itself, the next 1024 in 16 index blocks, the
    rest in 40 trees of 64 blocks.  The invariant names the index block behind
    each path and says that blocks in use are marked in the bitmap and distinct. *)

From S2P Require Import Prelude CType Queue Bio Fat.

(** ** The inode allocator *)

Lemma bitmap_scan_more t t' i bm x bm' :
  bitmap_scan t i bm = BGot x bm' -> (t <= t')%nat -> bitmap_scan t' i bm = BGot x bm'.
Proof.
  revert t' i. induction t as [|t IH]; intros t' i H Ht; [done|].
  destruct t' as [|t']; [lia|]. simpl in *. destruct (bm !! i) as [w|]; [|done].
  destruct (c_true _); [done|]. apply IH; [done|lia].
Qed.

(** The pool of index blocks. *)
Record pool_ok (bm : list Z) : Prop := {
  po_len : length bm = 16%nat;
  po_wf : bitmap_wf bm;
}.

Definition pool_free (bm : list Z) (x : Z) : Prop := 0 <= x < 1024 /\ bitmap_used bm x = false.

Lemma inodeAlloc_spec s y :
  pool_ok (inodeBitmap s) -> pool_free (inodeBitmap s) y ->
  exists x bm, inodeAlloc s = Ret x (set_inodeBitmap bm s) /\ pool_ok bm /\
    pool_free (inodeBitmap s) x /\
    forall z, 0 <= z -> bitmap_used bm z = (bitmap_used (inodeBitmap s) z || (z =? x))%bool.
Proof.
  intros [Hl Hw] [Hy Hf]. pose proof (bitmap_alloc_spec 16 (inodeBitmap s) Hw ltac:(lia)) as H.
  destruct (bitmap_alloc 16 (inodeBitmap s)) as [x bm| |] eqn:E; [| |done].
  - destruct H as (Hx & Hu & _ & Hw' & Hl' & Hz). exists x, bm. split_and!; [|split; [lia|done]|split; [lia|done]|done].
    unfold inodeAlloc. rewrite bind_gets. unfold bitmap_alloc in *.
    rewrite (bitmap_scan_more _ 128 _ _ _ _ E) by lia. done.
  - specialize (H y ltac:(lia)). congruence.
Qed.

Lemma inodeFree_spec s x :
  pool_ok (inodeBitmap s) -> 0 <= x -> bitmap_used (inodeBitmap s) x = true ->
  exists bm, inodeFree x s = Ret tt (set_inodeBitmap bm s) /\ pool_ok bm /\
    forall z, 0 <= z -> bitmap_used bm z = (bitmap_used (inodeBitmap s) z && negb (z =? x))%bool.
Proof.
  intros [Hl Hw] Hx Hu. exists (bitmap_free x (inodeBitmap s)). split_and!.
  - unfold inodeFree. rewrite bind_gets, Hu. done.
  - split; [by rewrite bitmap_free_length|by apply bitmap_free_wf].
  - intros z Hz. by apply bitmap_free_used.
Qed.

(** The allocator of index blocks gives out the lowest unused number and
    marks exactly it, and [inodeFree] unmarks exactly it, so that a block is
    never handed out twice; but when all 1024 are in use [inodeAlloc] reads past
    the end of its 16-word array (its loop runs to [sizeof], 128) instead of
    returning -1. *)
Theorem inode_pool s :
  pool_ok (inodeBitmap s) ->
  match bitmap_alloc 16 (inodeBitmap s) with
  | BGot x bm =>
      inodeAlloc s = Ret x (set_inodeBitmap bm s) /\ pool_ok bm /\ 0 <= x < 1024 /\
      bitmap_used (inodeBitmap s) x = false /\
      (forall y, 0 <= y < x -> bitmap_used (inodeBitmap s) y = true) /\
      exists bm', inodeFree x (set_inodeBitmap bm s) = Ret tt (set_inodeBitmap bm' s) /\
        forall z, 0 <= z -> bitmap_used bm' z = bitmap_used (inodeBitmap s) z
  | _ => inodeAlloc s = Panic
  end.
Proof.
  intros [Hl Hw]. pose proof (bitmap_alloc_spec 16 (inodeBitmap s) Hw ltac:(lia)) as H.
  destruct (bitmap_alloc 16 (inodeBitmap s)) as [x bm| |] eqn:E; [| |done].
  - destruct H as (Hx & Hu & Hlow & Hw' & Hl' & Hz).
    split_and!; [|split; [lia|done]|lia|lia|done|done|].
    + unfold inodeAlloc. rewrite bind_gets. unfold bitmap_alloc in *.
      rewrite (bitmap_scan_more _ 128 _ _ _ _ E) by lia. done.
    + destruct (inodeFree_spec (set_inodeBitmap bm s) x) as (bm' & Hr & _ & Hz').
      * split; [simpl; lia|done].
      * lia.
      * simpl. rewrite Hz, Z.eqb_refl, orb_true_r by lia. done.
      * exists bm'. split; [exact Hr|]. intros z Hz0. rewrite Hz' by done. simpl. rewrite Hz by done.
        destruct (Z.eqb_spec z x) as [->|]; simpl; [by rewrite Hu, andb_false_r|].
        by rewrite orb_false_r, andb_true_r.
  - unfold inodeAlloc. rewrite bind_gets. unfold bitmap_alloc in *.
    assert (Hfull : forall t i, (i + t = 16)%nat -> bitmap_scan t i (inodeBitmap s) = BFull ->
              bitmap_scan (112 + t) i (inodeBitmap s) = BOob).
    { induction t as [|t IH]; intros i Hi Hs.
      - simpl. rewrite lookup_ge_None_2 by lia. done.
      - replace (112 + S t)%nat with (S (112 + t)) by lia. cbn [bitmap_scan] in *.
        destruct (inodeBitmap s !! i); [|done]. destruct (c_true _); [done|]. apply IH; [lia|done]. }
    pose proof (Hfull 16%nat 0%nat eq_refl E) as Ho. change (112 + 16)%nat with 128%nat in Ho.
    by rewrite Ho.
Qed.

Lemma inode_pool_witness :
  inodeAlloc (mkFatS (mkB ∅ ∅ ∅ 0 []) ∅ ∅ 0 ∅ (replicate 16 (2 ^ 64 - 1)) ∅) = Panic.
Proof.
  apply (inode_pool (mkFatS (mkB ∅ ∅ ∅ 0 []) ∅ ∅ 0 ∅ (replicate 16 (2 ^ 64 - 1)) ∅)).
  split; [reflexivity|]. apply Forall_replicate. lia.
Defined.

(** ** The invariant *)

Inductive path := P2 (k : Z) | P3 (k : Z) | P4 (k j : Z).
#[export] Instance path_eq_dec : EqDecision path.
Proof. solve_decision. Defined.

(** The paths that exist when the file has [n] clusters. *)
Definition active (n : Z) (p : path) : Prop :=
  match p with
  | P2 k => 0 <= k < 16 /\ 8 + 64 * k < n
  | P3 k => 0 <= k < 40 /\ 1032 + 4096 * k < n
  | P4 k j => 0 <= k < 40 /\ 0 <= j < 64 /\ 1032 + 4096 * k + 64 * j < n
  end.

(** The index block on whose items position [pos >= 8] is, and its item. *)
Definition leaf (pos : Z) : path :=
  if pos <? 1032 then P2 ((pos - 8) / 64) else P4 ((pos - 1032) / 64 / 64) ((pos - 1032) / 64 mod 64).
Definition slot (pos : Z) : Z := if pos <? 1032 then (pos - 8) mod 64 else (pos - 1032) mod 64.

Definition blk (s : FatS) (x : Z) : list Z := default inode0 (inodes s !! x).

Definition path_ok (p : path) : Prop :=
  match p with P2 k => 0 <= k < 16 | P3 k => 0 <= k < 40 | P4 k j => 0 <= k < 40 /\ 0 <= j < 64 end.

(** [A]: the paths that exist; [f]: the index block of each. *)
Record idx_inv (s : FatS) (e : Z) (A : path -> Prop) (l : list Z) (f : path -> Z) : Prop := {
  ii_len : length (inode (getde s e)) = 64%nat;
  ii_blk : forall x, length (blk s x) = 64%nat;
  ii_pool : pool_ok (inodeBitmap s);
  ii_ok : forall p, A p -> path_ok p;
  ii_parent : forall k j, A (P4 k j) -> A (P3 k);
  ii_used : forall p, A p -> 0 <= f p < 1024 /\ bitmap_used (inodeBitmap s) (f p) = true;
  ii_inj : forall p q, A p -> A q -> f p = f q -> p = q;
  ii_p2 : forall k, A (P2 k) -> inode (getde s e) !! Z.to_nat (8 + k) = Some (f (P2 k));
  ii_p3 : forall k, A (P3 k) -> inode (getde s e) !! Z.to_nat (24 + k) = Some (f (P3 k));
  ii_p4 : forall k j, A (P4 k j) -> blk s (f (P3 k)) !! Z.to_nat j = Some (f (P4 k j));
  ii_cover : forall pos, 8 <= pos < Z.of_nat (length l) -> A (leaf pos);
  ii_top : forall pos, 0 <= pos < 8 -> pos < Z.of_nat (length l) ->
    inode (getde s e) !! Z.to_nat pos = l !! Z.to_nat pos;
  ii_leaf : forall pos, 8 <= pos < Z.of_nat (length l) ->
    blk s (f (leaf pos)) !! Z.to_nat (slot pos) = l !! Z.to_nat pos;
}.

(** Entry [e] records the clusters [l]. *)
Definition index_of (s : FatS) (e : Z) (l : list Z) (f : path -> Z) : Prop :=
  idx_inv s e (active (Z.of_nat (length l))) l f /\ Z.of_nat (length l) <= 164872.

Lemma leaf_active n pos : 8 <= pos < n -> n <= 164872 -> active n (leaf pos) /\ 0 <= slot pos < 64.
Proof.
  intros Hp Hn. unfold leaf, slot. destruct (Z.ltb_spec pos 1032); simpl;
    Z.to_euclidean_division_equations; lia.
Qed.

Lemma de_item_ret s e i v :
  inode (getde s e) !! Z.to_nat i = Some v -> de_item e i s = Ret v s.
Proof. intros H. unfold de_item. by rewrite bind_gets, H. Qed.

Lemma inode_item_ret s x j v :
  0 <= x < 1024 -> blk s x !! Z.to_nat j = Some v -> inode_item x j s = Ret v s.
Proof.
  intros Hx H. unfold inode_item, INODE_NUM. rewrite bind_gets. fold (blk s x).
  rewrite (proj2 (Z.leb_le 0 x)), (proj2 (Z.ltb_lt x 1024)) by lia. simpl. by rewrite H.
Qed.

Lemma set_inode_item_ret s x j v :
  0 <= x < 1024 ->
  set_inode_item x j v s = Ret tt (set_inodes (fun m => <[x := <[Z.to_nat j := v]> (blk s x)]> m) s).
Proof.
  intros Hx. unfold set_inode_item, INODE_NUM.
  rewrite (proj2 (Z.leb_le 0 x)), (proj2 (Z.ltb_lt x 1024)) by lia. done.
Qed.

Lemma blk_set s x l y : blk (set_inodes (fun m => <[x := l]> m) s) y = if decide (y = x) then l else blk s y.
Proof. unfold blk. simpl. rewrite lookup_insert. repeat case_decide; naive_solver. Qed.

(** [index_get] reads the list. *)
Lemma index_get_spec s e l f pos v :
  index_of s e l f -> 0 <= pos -> l !! Z.to_nat pos = Some v -> index_get e pos s = Ret v s.
Proof.
  intros [I Hb] Hp Hv. pose proof (lookup_lt_Some _ _ _ Hv) as Hlt.
  assert (Hn : pos < Z.of_nat (length l)) by lia. unfold index_get.
  change INODE_SECOND_LEVEL_BOTTOM with 8. change INODE_THIRD_LEVEL_BOTTOM with 1032.
  change INODE_THIRD_LEVEL_TOP with 164872. change INODE_ITEM_NUM with 64.
  change INODE_SECOND_ITEM_BASE with 8. change INODE_THIRD_ITEM_BASE with 24.
  destruct (Z.ltb_spec pos 8).
  { apply de_item_ret. rewrite (ii_top _ _ _ _ _ I) by lia. done. }
  pose proof (ii_cover _ _ _ _ _ I pos ltac:(lia)) as Ha.
  pose proof (ii_leaf _ _ _ _ _ I pos ltac:(lia)) as Hl. unfold leaf, slot in *.
  destruct (Z.ltb_spec pos 1032).
  - rewrite (bind_Ret _ _ _ _ _ (de_item_ret _ _ _ _ (ii_p2 _ _ _ _ _ I _ Ha))).
    apply inode_item_ret; [by apply (ii_used _ _ _ _ _ I)|by rewrite Hl].
  - rewrite (proj2 (Z.ltb_lt pos 164872)) by lia.
    pose proof (ii_parent _ _ _ _ _ I _ _ Ha) as Ha3.
    rewrite (bind_Ret _ _ _ _ _ (de_item_ret _ _ _ _ (ii_p3 _ _ _ _ _ I _ Ha3))).
    rewrite (bind_Ret _ _ _ _ _ (inode_item_ret _ _ _ _ (proj1 (ii_used _ _ _ _ _ I _ Ha3)) (ii_p4 _ _ _ _ _ I _ _ Ha))).
    apply inode_item_ret; [by apply (ii_used _ _ _ _ _ I)|by rewrite Hl].
Qed.

(** ** Growing the index *)

Lemma idx_inv_iff s e A A' l f : (forall p, A p <-> A' p) -> idx_inv s e A l f -> idx_inv s e A' l f.
Proof.
  intros H I. constructor; try apply I; intros *; rewrite <- ?H; try apply I;
    (intros ?; apply (ii_cover _ _ _ _ _ I) || (intros ?; apply I)); done.
Qed.

Definition fset (f : path -> Z) (p : path) (x : Z) (q : path) : Z := if decide (q = p) then x else f q.

(** A fresh index block marked as used. *)
Lemma idx_inv_alloc s e A l f x bm :
  idx_inv s e A l f -> pool_ok bm ->
  (forall z, 0 <= z -> bitmap_used bm z = (bitmap_used (inodeBitmap s) z || (z =? x))%bool) ->
  idx_inv (set_inodeBitmap bm s) e A l f.
Proof.
  intros I Hp Hz. constructor; try apply I; [done|]. intros p Ha.
  destruct (ii_used _ _ _ _ _ I p Ha) as [Hr Hu]. split; [done|]. simpl. rewrite Hz by lia. by rewrite Hu.
Qed.

Lemma fresh_path s e A l f p x : idx_inv s e A l f -> A p -> pool_free (inodeBitmap s) x -> f p <> x.
Proof. intros I Ha [_ Hx] <-. destruct (ii_used _ _ _ _ _ I p Ha). congruence. Qed.

Lemma getde_set_de_item s e i v d :
  getde (setde e (fun d => with_index (inodeMaxCluster d) (<[Z.to_nat i := v]> (inode d)) d) s) d =
  if decide (d = e) then with_index (inodeMaxCluster (getde s e)) (<[Z.to_nat i := v]> (inode (getde s e))) (getde s e)
  else getde s d.
Proof. unfold getde, setde. simpl. rewrite lookup_insert. repeat case_decide; naive_solver. Qed.

(** A path below the entry: [P2 k] at item [8 + k] and [P3 k] at item [24 + k]. *)
Definition top_item (p : path) : option Z :=
  match p with P2 k => Some (8 + k) | P3 k => Some (24 + k) | P4 _ _ => None end.

Lemma idx_inv_top s e A l f p i x :
  idx_inv s e A l f -> top_item p = Some i -> path_ok p -> ~ A p ->
  0 <= x < 1024 -> bitmap_used (inodeBitmap s) x = true -> (forall q, A q -> f q <> x) ->
  (forall k, p = P3 k -> forall j, ~ A (P4 k j)) ->
  exists s', set_de_item e i x s = Ret tt s' /\ inodeBitmap s' = inodeBitmap s /\ inodes s' = inodes s /\
    inode (getde s' e) !! Z.to_nat i = Some x /\
    idx_inv s' e (fun q => A q \/ q = p) l (fset f p x).
Proof.
  intros I Hi Hok Hna Hx Hu Hfr Hpar. eexists. split; [reflexivity|]. split; [done|]. split; [done|].
  assert (Hir : 8 <= i < 64) by (destruct p; simpl in *; simplify_eq; lia).
  assert (Hin : forall q, A q -> fset f p x q = f q)
    by (intros q Hq; unfold fset; rewrite decide_False; [done|congruence]).
  assert (Hp : fset f p x p = x) by (unfold fset; by rewrite decide_True).
  assert (Hleaf : forall pos, 8 <= pos < Z.of_nat (length l) -> fset f p x (leaf pos) = f (leaf pos))
    by (intros; apply Hin, (ii_cover _ _ _ _ _ I); done).
  assert (Hself : inode (with_index (inodeMaxCluster (getde s e)) (<[Z.to_nat i := x]> (inode (getde s e)))
      (getde s e)) !! Z.to_nat i = Some x)
    by (simpl; apply list_lookup_insert_eq; rewrite (ii_len _ _ _ _ _ I); lia).
  split; [rewrite getde_set_de_item, decide_True by done; exact Hself|].
  constructor; rewrite ?getde_set_de_item, ?decide_True by done; try apply I.
  - simpl. rewrite length_insert. apply I.
  - intros q [Hq | ->]; [by apply I|done].
  - intros k j [Hq | Hq]; [left; by eapply (ii_parent _ _ _ _ _ I)|by destruct p; simplify_eq].
  - intros q [Hq | ->]; [rewrite Hin by done; by apply (ii_used _ _ _ _ _ I)|by rewrite Hp].
  - intros q r [Hq | ->] [Hr | ->]; rewrite ?Hp, ?Hin by done; try done.
    + by apply I.
    + intros E. by destruct (Hfr q).
    + intros E. by destruct (Hfr r).
  - intros k [Hq | Hq].
    + rewrite Hin by done. simpl. rewrite list_lookup_insert_ne; [by apply I|].
      pose proof (ii_ok _ _ _ _ _ I _ Hq) as Hk. simpl in Hk. destruct p; simpl in *; simplify_eq; try lia.
      intros E. assert (k = k0) as -> by lia. done.
    + subst p. simpl in Hi. injection Hi as <-. rewrite Hp. exact Hself.
  - intros k [Hq | Hq].
    + rewrite Hin by done. simpl. rewrite list_lookup_insert_ne; [by apply I|].
      pose proof (ii_ok _ _ _ _ _ I _ Hq) as Hk. simpl in Hk. destruct p; simpl in *; simplify_eq; try lia.
      intros E. assert (k = k0) as -> by lia. done.
    + subst p. simpl in Hi. injection Hi as <-. rewrite Hp. exact Hself.
  - intros k j [Hq | Hq]; [|by destruct p; simplify_eq]. rewrite !Hin by (done || by eapply (ii_parent _ _ _ _ _ I)).
    by apply I.
  - intros pos Hpos. left. by apply (ii_cover _ _ _ _ _ I).
  - intros pos Hpos Hlt. simpl. rewrite list_lookup_insert_ne by lia. by apply I.
  - intros pos Hpos. rewrite Hleaf by done. by apply (ii_leaf _ _ _ _ _ I).
Qed.

(** A block below an index block. *)
Lemma idx_inv_sub s e A l f k j x :
  idx_inv s e A l f -> A (P3 k) -> 0 <= j < 64 -> ~ A (P4 k j) ->
  0 <= x < 1024 -> bitmap_used (inodeBitmap s) x = true -> (forall q, A q -> f q <> x) ->
  exists s', set_inode_item (f (P3 k)) j x s = Ret tt s' /\ inodeBitmap s' = inodeBitmap s /\
    (forall y, y <> f (P3 k) -> blk s' y = blk s y) /\
    idx_inv s' e (fun q => A q \/ q = P4 k j) l (fset f (P4 k j) x).
Proof.
  intros I Ha Hj Hna Hx Hu Hfr. destruct (ii_used _ _ _ _ _ I _ Ha) as [Hr _].
  eexists. split; [by apply set_inode_item_ret|]. split; [done|]. set (s' := set_inodes _ s).
  split; [intros y Hy; unfold s'; by rewrite blk_set, decide_False|].
  assert (Hin : forall q, A q -> fset f (P4 k j) x q = f q)
    by (intros q Hq; unfold fset; rewrite decide_False; [done|congruence]).
  assert (Hp : fset f (P4 k j) x (P4 k j) = x) by (unfold fset; by rewrite decide_True).
  constructor; try apply I.
  - intros y. unfold s'. rewrite blk_set. case_decide; [rewrite length_insert|]; apply I.
  - intros q [Hq | ->]; [by apply I|]. pose proof (ii_ok _ _ _ _ _ I _ Ha). simpl in *. lia.
  - intros k' j' [Hq | [= -> ->]]; left; [by eapply (ii_parent _ _ _ _ _ I)|done].
  - intros q [Hq | ->]; [rewrite Hin by done; by apply (ii_used _ _ _ _ _ I)|by rewrite Hp].
  - intros q r [Hq | ->] [Hr' | ->]; rewrite ?Hp, ?Hin by done; try done.
    + by apply I.
    + intros E. by destruct (Hfr q).
    + intros E. by destruct (Hfr r).
  - intros k' [Hq | Hq]; [|done]. rewrite Hin by done. by apply I.
  - intros k' [Hq | Hq]; [|done]. rewrite Hin by done. by apply I.
  - intros k' j' Hq. unfold s'. rewrite blk_set.
    assert (Ha3 : A (P3 k')) by (destruct Hq as [Hq | [= -> ->]]; [by eapply (ii_parent _ _ _ _ _ I)|done]).
    rewrite (Hin (P3 k')) by done. case_decide as Hk.
    + apply (ii_inj _ _ _ _ _ I) in Hk; [|done|done]. injection Hk as ->.
      destruct (decide (j' = j)) as [-> | Hne].
      * rewrite Hp. apply list_lookup_insert_eq. rewrite (ii_blk _ _ _ _ _ I). lia.
      * destruct Hq as [Hq | [= ->]]; [|done]. rewrite Hin by done.
        pose proof (ii_ok _ _ _ _ _ I _ Hq) as Hjk. simpl in Hjk.
        rewrite list_lookup_insert_ne by lia. by apply I.
    + destruct Hq as [Hq | [= -> ->]]; [|done]. rewrite Hin by done. by apply I.
  - intros pos Hpos. left. by apply (ii_cover _ _ _ _ _ I).
  - intros pos Hpos. pose proof (ii_cover _ _ _ _ _ I pos Hpos) as Hc. rewrite Hin by done.
    unfold s'. rewrite blk_set, decide_False; [by apply (ii_leaf _ _ _ _ _ I)|].
    intros E. apply (ii_inj _ _ _ _ _ I) in E; [|done|done]. unfold leaf in E. by destruct (pos <? 1032).
Qed.

(** What a step on the index of one file leaves alone: it keeps its blocks, takes only free
    ones, frees none, and writes only into blocks it has. *)
Record idx_step (s s' : FatS) (A A' : path -> Prop) (f f' : path -> Z) : Prop := {
  is_used : forall x, 0 <= x -> bitmap_used (inodeBitmap s) x = true -> bitmap_used (inodeBitmap s') x = true;
  is_keep : forall p, A p -> A' p /\ f' p = f p;
  is_new : forall p, A' p -> A p \/ pool_free (inodeBitmap s) (f' p);
  is_blk : forall x, (forall p, A' p -> f' p <> x) -> blk s' x = blk s x;
}.

Lemma idx_step_trans s s1 s2 A A1 A2 f f1 f2 :
  idx_step s s1 A A1 f f1 -> idx_step s1 s2 A1 A2 f1 f2 -> idx_step s s2 A A2 f f2.
Proof.
  intros [U1 K1 N1 B1] [U2 K2 N2 B2]. constructor.
  - auto.
  - intros p Hp. destruct (K1 p Hp) as [Hp1 E1], (K2 p Hp1) as [Hp2 E2]. split; [done|congruence].
  - intros p Hp. destruct (N2 p Hp) as [Hp1|[Hr Hf]].
    + destruct (K2 p Hp1) as [_ ->]. by apply N1.
    + right. split; [done|]. destruct (bitmap_used (inodeBitmap s) (f2 p)) eqn:E; [|done].
      apply U1 in E; [congruence|lia].
  - intros x Hx. rewrite B2, B1; [done| |done]. intros p Hp. destruct (K2 p Hp) as [Hp2 <-]. by apply Hx.
Qed.
Lemma idx_step_iff s s' A A' B B' f f' : (forall p, A p <-> B p) -> (forall p, A' p <-> B' p) ->
  idx_step s s' A A' f f' -> idx_step s s' B B' f f'.
Proof.
  intros H H' [U K N W]. constructor; [done| | |].
  - intros p Hp%H. destruct (K p Hp). by rewrite <- H'.
  - intros p Hp%H'. rewrite <- H. by apply N.
  - intros x Hx. apply W. intros p Hp%H'. by apply Hx.
Qed.
(** A step that takes no block and writes at most into block [x]. *)
Lemma idx_step_write s s' (A : path -> Prop) f q : A q -> inodeBitmap s' = inodeBitmap s ->
  (forall x, x <> f q -> blk s' x = blk s x) -> idx_step s s' A A f f.
Proof. intros Hq E H. constructor; [by rewrite E|done|by left|]. intros x Hx. apply H. intros ->. by apply (Hx q). Qed.
Lemma idx_step_same s s' (A : path -> Prop) f : inodeBitmap s' = inodeBitmap s -> inodes s' = inodes s -> idx_step s s' A A f f.
Proof. intros E H. constructor; [by rewrite E|done|by left|]. intros x _. unfold blk. by rewrite H. Qed.
(** A step that takes the free block [x] for path [p]. *)
Lemma idx_step_take s s' (A : path -> Prop) f p x : ~ A p -> pool_free (inodeBitmap s) x ->
  (forall z, 0 <= z -> bitmap_used (inodeBitmap s') z = (bitmap_used (inodeBitmap s) z || (z =? x))%bool) ->
  (forall y, (forall q, A q -> f q <> y) -> blk s' y = blk s y) ->
  idx_step s s' A (fun q => A q \/ q = p) f (fset f p x).
Proof.
  intros Hp Hx Hz Hb.
  assert (Hin : forall q, A q -> fset f p x q = f q) by (intros q Hq; unfold fset; rewrite decide_False; [done|congruence]).
  constructor.
  - intros z Hz0 Hu. by rewrite Hz, Hu.
  - intros q Hq. auto.
  - intros q [Hq| ->]; [by left|right]. unfold fset. by rewrite decide_True.
  - intros y Hy. apply Hb. intros q Hq. rewrite <- Hin by done. apply Hy. by left.
Qed.

(** The slots of the leaves: position and slot determine each other. *)
Lemma leaf_slot_inj pos pos' :
  8 <= pos -> 8 <= pos' -> leaf pos = leaf pos' -> slot pos = slot pos' -> pos = pos'.
Proof.
  intros Hp Hp' Hl Hs. unfold leaf, slot in *.
  destruct (Z.ltb_spec pos 1032), (Z.ltb_spec pos' 1032); try done; simplify_eq;
    Z.to_euclidean_division_equations; lia.
Qed.

Lemma slot_range pos : 0 <= slot pos < 64.
Proof. unfold slot. destruct (pos <? 1032); apply Z.mod_pos_bound; lia. Qed.

(** Recording cluster [c] at the position after the last. *)
Lemma idx_inv_push s e A l f c :
  let pos := Z.of_nat (length l) in
  idx_inv s e A l f -> 8 <= pos -> A (leaf pos) ->
  exists s', set_inode_item (f (leaf pos)) (slot pos) c s = Ret tt s' /\
    idx_step s s' A A f f /\ idx_inv s' e A (l ++ [c]) f.
Proof.
  intros pos I Hp Ha. destruct (ii_used _ _ _ _ _ I _ Ha) as [Hr _].
  eexists. split; [by apply set_inode_item_ret|]. set (s' := set_inodes _ s).
  split; [apply (idx_step_write _ _ _ _ (leaf pos)); [done|done|]; intros x Hx; unfold s'; by rewrite blk_set, decide_False|]. pose proof (slot_range pos) as Hs.
  constructor; try apply I.
  - intros y. unfold s'. rewrite blk_set. case_decide; [rewrite length_insert|]; apply I.
  - intros k j Hq. pose proof (ii_parent _ _ _ _ _ I _ _ Hq) as H3. unfold s'. rewrite blk_set, decide_False.
    + by apply I.
    + intros E. apply (ii_inj _ _ _ _ _ I) in E; [|done|done]. unfold leaf in E. by destruct (pos <? 1032).
  - intros q Hq. rewrite length_app in Hq. cbn in Hq.
    destruct (decide (q = pos)) as [-> |]; [done|]. apply (ii_cover _ _ _ _ _ I). lia.
  - intros q Hq Hlt. rewrite lookup_app_l by lia. apply (ii_top _ _ _ _ _ I); lia.
  - intros q Hq. rewrite length_app in Hq. cbn in Hq. unfold s'. rewrite blk_set.
    destruct (decide (q = pos)) as [-> | Hne].
    + rewrite decide_True by done. rewrite list_lookup_insert_eq by (rewrite (ii_blk _ _ _ _ _ I); lia).
      unfold pos. rewrite Nat2Z.id. by rewrite list_lookup_middle.
    + assert (Hc : A (leaf q)) by (apply (ii_cover _ _ _ _ _ I); lia).
      rewrite lookup_app_l by lia. rewrite <- (ii_leaf _ _ _ _ _ I) by lia.
      case_decide as E; [|done]. apply (ii_inj _ _ _ _ _ I) in E; [|done|done]. rewrite E.
      pose proof (slot_range q). rewrite list_lookup_insert_ne; [done|]. intros Es.
      apply Hne. apply leaf_slot_inj; [lia|lia|done|lia].
Qed.

Lemma idx_inv_push_top s e A l f c :
  let pos := Z.of_nat (length l) in
  idx_inv s e A l f -> pos < 8 ->
  exists s', set_de_item e pos c s = Ret tt s' /\ idx_step s s' A A f f /\ idx_inv s' e A (l ++ [c]) f.
Proof.
  intros pos I Hp. eexists. split; [reflexivity|]. split; [by apply idx_step_same|].
  constructor; rewrite ?getde_set_de_item, ?decide_True by done; try apply I.
  - simpl. rewrite length_insert. apply I.
  - intros k Hk. simpl. rewrite list_lookup_insert_ne; [by apply I|].
    pose proof (ii_ok _ _ _ _ _ I _ Hk) as Ho. simpl in Ho. lia.
  - intros k Hk. simpl. rewrite list_lookup_insert_ne; [by apply I|].
    pose proof (ii_ok _ _ _ _ _ I _ Hk) as Ho. simpl in Ho. lia.
  - intros q Hq. rewrite length_app in Hq. cbn in Hq. lia.
  - intros q Hq Hlt. rewrite length_app in Hlt. cbn in Hlt. simpl.
    destruct (decide (q = pos)) as [-> |].
    + rewrite list_lookup_insert_eq by (rewrite (ii_len _ _ _ _ _ I); lia).
      unfold pos. rewrite Nat2Z.id. by rewrite list_lookup_middle.
    + rewrite list_lookup_insert_ne by lia. rewrite lookup_app_l by lia. apply (ii_top _ _ _ _ _ I); lia.
  - intros q Hq. rewrite length_app in Hq. cbn in Hq. lia.
Qed.

(** Which paths one more cluster needs. *)
Lemma active_same n p :
  0 <= n -> n < 8 \/ (8 <= n < 1032 /\ (n - 8) mod 64 <> 0) \/ (1032 <= n /\ (n - 1032) mod 64 <> 0) ->
  active n p <-> active (n + 1) p.
Proof. intros Hn Hc. destruct p; simpl; Z.to_euclidean_division_equations; lia. Qed.

Lemma active_P2 n p :
  8 <= n < 1032 -> (n - 8) mod 64 = 0 -> active n p \/ p = P2 ((n - 8) / 64) <-> active (n + 1) p.
Proof.
  intros Hn Hm. assert (Hk : n = 8 + 64 * ((n - 8) / 64)) by (Z.to_euclidean_division_equations; lia).
  set (q := (n - 8) / 64) in *. clearbody q. subst n. split.
  - intros [H | ->]; [destruct p; simpl in *|simpl]; lia.
  - destruct p as [k| |]; simpl; intros H; [|left; lia..].
    destruct (decide (k = q)) as [-> |]; [by right|left; lia].
Qed.

Lemma active_P4 n p :
  1032 <= n < 164872 -> (n - 1032) mod 64 = 0 -> (n - 1032) / 64 mod 64 <> 0 ->
  active n p \/ p = P4 ((n - 1032) / 64 / 64) ((n - 1032) / 64 mod 64) <-> active (n + 1) p.
Proof.
  intros Hn Hm Hj.
  assert (Hk : n = 1032 + 4096 * ((n - 1032) / 64 / 64) + 64 * ((n - 1032) / 64 mod 64) /\
    0 <= (n - 1032) / 64 / 64 < 40 /\ 0 < (n - 1032) / 64 mod 64 < 64)
    by (Z.to_euclidean_division_equations; lia).
  set (q := (n - 1032) / 64 / 64) in *. set (r := (n - 1032) / 64 mod 64) in *. clearbody q r.
  destruct Hk as (-> & Hq & Hr). split.
  - intros [H | ->]; [destruct p; simpl in *|simpl]; lia.
  - destruct p as [k|k|k j]; simpl; intros H; [left; lia..|].
    destruct (decide (k = q /\ j = r)) as [[-> ->] |]; [by right|left; lia].
Qed.

Lemma active_P34 n p :
  1032 <= n < 164872 -> (n - 1032) mod 64 = 0 -> (n - 1032) / 64 mod 64 = 0 ->
  (active n p \/ p = P3 ((n - 1032) / 64 / 64)) \/ p = P4 ((n - 1032) / 64 / 64) 0 <-> active (n + 1) p.
Proof.
  intros Hn Hm Hj.
  assert (Hk : n = 1032 + 4096 * ((n - 1032) / 64 / 64) /\ 0 <= (n - 1032) / 64 / 64 < 40)
    by (Z.to_euclidean_division_equations; lia).
  set (q := (n - 1032) / 64 / 64) in *. clearbody q. destruct Hk as (-> & Hq). split.
  - intros [[H | ->] | ->]; [destruct p; simpl in *|simpl..]; lia.
  - destruct p as [k|k|k j]; simpl; intros H; [left; left; lia| |].
    + left. destruct (decide (k = q)) as [-> |]; [by right|left; lia].
    + destruct (decide (k = q /\ j = 0)) as [[-> ->] |]; [by right|left; left; lia].
Qed.

Definition pool_two (bm : list Z) : Prop := exists x y, x <> y /\ pool_free bm x /\ pool_free bm y.

Lemma u32_block x : 0 <= x < 1024 -> u32 x = x.
Proof. intros. apply Z.mod_small. lia. Qed.

Lemma index_of_push s e l f c :
  idx_inv s e (active (Z.of_nat (length l) + 1)) (l ++ [c]) f -> Z.of_nat (length l) < 164872 ->
  index_of s e (l ++ [c]) f.
Proof.
  intros I Hb. unfold index_of. rewrite length_app. cbn [length]. split; [|lia].
  by replace (Z.of_nat (length l + 1)) with (Z.of_nat (length l) + 1) by lia.
Qed.

(** Allocating the index block that a new second-level path needs. *)
Lemma grow_top s e A l f p i :
  idx_inv s e A l f -> top_item p = Some i -> path_ok p -> ~ A p ->
  (forall k, p = P3 k -> forall j, ~ A (P4 k j)) ->
  (exists y, pool_free (inodeBitmap s) y) ->
  exists s' x, (x ← inodeAlloc; set_de_item e i (u32 x)) s = Ret tt s' /\
    pool_free (inodeBitmap s) x /\ inode (getde s' e) !! Z.to_nat i = Some x /\
    (forall z, 0 <= z -> bitmap_used (inodeBitmap s') z = (bitmap_used (inodeBitmap s) z || (z =? x))%bool) /\
    idx_step s s' A (fun q => A q \/ q = p) f (fset f p x) /\ idx_inv s' e (fun q => A q \/ q = p) l (fset f p x).
Proof.
  intros I Hi Hok Hna Hpar [y Hy].
  destruct (inodeAlloc_spec s y (ii_pool _ _ _ _ _ I) Hy) as (x & bm & Hr & Hpo & Hx & Hz).
  pose proof (idx_inv_alloc _ _ _ _ _ x bm I Hpo Hz) as I1.
  destruct (idx_inv_top _ _ _ _ _ p i x I1 Hi Hok Hna (proj1 Hx)) as (s' & Hs & Hb & Hin & Hit & I2).
  - simpl. rewrite Hz by (destruct Hx; lia). by rewrite Z.eqb_refl, orb_true_r.
  - intros q Hq. exact (fresh_path _ _ _ _ _ _ _ I Hq Hx).
  - done.
  - exists s', x. rewrite (bind_Ret _ _ _ _ _ Hr), u32_block by apply Hx.
    assert (Hz' : forall z, 0 <= z -> bitmap_used (inodeBitmap s') z = (bitmap_used (inodeBitmap s) z || (z =? x))%bool)
      by (intros z Hz0; rewrite Hb; by apply Hz).
    split_and!; try done. apply idx_step_take; try done. intros z _. unfold blk. by rewrite Hin.
Qed.

(** The same for a block below an index block. *)
Lemma grow_sub s e A l f k j :
  idx_inv s e A l f -> A (P3 k) -> 0 <= j < 64 -> ~ A (P4 k j) ->
  (exists y, pool_free (inodeBitmap s) y) ->
  exists s' y, (y ← inodeAlloc; set_inode_item (f (P3 k)) j (u32 y)) s = Ret tt s' /\
    idx_step s s' A (fun q => A q \/ q = P4 k j) f (fset f (P4 k j) y) /\
    idx_inv s' e (fun q => A q \/ q = P4 k j) l (fset f (P4 k j) y).
Proof.
  intros I Ha Hj Hna [y0 Hy].
  destruct (inodeAlloc_spec s y0 (ii_pool _ _ _ _ _ I) Hy) as (x & bm & Hr & Hpo & Hx & Hz).
  pose proof (idx_inv_alloc _ _ _ _ _ x bm I Hpo Hz) as I1.
  destruct (idx_inv_sub _ _ _ _ _ k j x I1 Ha Hj Hna (proj1 Hx)) as (s' & Hs & Hb & Hd & I2).
  - simpl. rewrite Hz by (destruct Hx; lia). by rewrite Z.eqb_refl, orb_true_r.
  - intros q Hq. exact (fresh_path _ _ _ _ _ _ _ I Hq Hx).
  - exists s', x. rewrite (bind_Ret _ _ _ _ _ Hr), u32_block by apply Hx. split_and!; [done| |done].
    apply idx_step_take; [done|done|intros z Hz0; rewrite Hb; by apply Hz|].
    intros z Hz'. rewrite Hd; [done|]. intros ->. by apply (Hz' (P3 k)).
Qed.

(** Appending a cluster: [index_put] at the first free position. *)
Lemma index_put_spec s e l f c :
  let pos := Z.of_nat (length l) in
  index_of s e l f -> pos < 164872 -> pool_two (inodeBitmap s) ->
  exists s' f', index_put e pos c s = Ret tt s' /\ index_of s' e (l ++ [c]) f' /\
    idx_step s s' (active pos) (active (pos + 1)) f f'.
Proof.
  intros pos [I _] Hb (x & y & Hxy & Hx & Hy).
  unfold index_put. change INODE_SECOND_LEVEL_BOTTOM with 8. change INODE_THIRD_LEVEL_BOTTOM with 1032.
  change INODE_THIRD_LEVEL_TOP with 164872. change INODE_ITEM_NUM with 64.
  change INODE_SECOND_ITEM_BASE with 8. change INODE_THIRD_ITEM_BASE with 24.
  assert (Hpos : 0 <= pos) by lia. fold pos in I.
  destruct (Z.ltb_spec pos 8).
  { assert (Hiff : forall p, active pos p <-> active (pos + 1) p) by (intros p; apply active_same; [done|by left]).
    destruct (idx_inv_push_top _ _ _ _ _ c (idx_inv_iff _ _ _ _ _ _ Hiff I)) as (s' & Hs & T & I'); [done|].
    exists s', f. split; [exact Hs|]. split; [by apply index_of_push|]. eapply idx_step_iff; [| |exact T]; [|done].
    intros p. by rewrite Hiff. }
  destruct (Z.ltb_spec pos 1032).
  - destruct (Z.eqb_spec ((pos - 8) mod 64) 0) as [Hm|Hm]; unfold when.
    + destruct (grow_top s e _ l f (P2 ((pos - 8) / 64)) (8 + (pos - 8) / 64) I) as
        (s1 & z & Hr & _ & Hit & _ & T1 & I1); [done| | |done|by exists x|].
      { simpl. Z.to_euclidean_division_equations; lia. }
      { simpl. Z.to_euclidean_division_equations; lia. }
      assert (Hiff := fun p => active_P2 pos p ltac:(lia) Hm). apply (idx_inv_iff _ _ _ _ _ _ Hiff) in I1.
      apply (idx_step_iff _ _ _ _ (active pos) _ _ _ (fun p => iff_refl _) Hiff) in T1.
      rewrite (bind_Ret _ _ _ _ _ Hr).
      rewrite (bind_Ret _ _ _ _ _ (de_item_ret _ _ _ _ Hit)).
      destruct (idx_inv_push _ _ _ _ _ c I1) as (s' & Hs & T2 & I'); [done| |].
      { apply leaf_active; fold pos; lia. }
      fold pos in Hs. unfold leaf, slot in Hs. rewrite (proj2 (Z.ltb_lt pos 1032)) in Hs by done.
      unfold fset in Hs at 1. rewrite decide_True in Hs by done.
      eexists s', _. split; [exact Hs|]. split; [by apply index_of_push|exact (idx_step_trans _ _ _ _ _ _ _ _ _ T1 T2)].
    + rewrite bind_mret.
      assert (Hiff : forall p, active pos p <-> active (pos + 1) p) by (intros p; apply active_same; [done|right; left; lia]).
      apply (idx_inv_iff _ _ _ _ _ _ Hiff) in I.
      assert (Ha : active (pos + 1) (leaf pos)) by (apply leaf_active; lia).
      destruct (idx_inv_push _ _ _ _ _ c I) as (s' & Hs & T & I'); [done|done|].
      fold pos in Hs. unfold leaf, slot in Hs, Ha. rewrite (proj2 (Z.ltb_lt pos 1032)) in Hs, Ha by done.
      rewrite (bind_Ret _ _ _ _ _ (de_item_ret _ _ _ _ (ii_p2 _ _ _ _ _ I _ Ha))).
      exists s', f. split; [exact Hs|]. split; [by apply index_of_push|]. eapply idx_step_iff; [| |exact T]; [|done].
      intros p. by rewrite Hiff.
  - rewrite (proj2 (Z.ltb_lt pos 164872)) by done.
    set (k := (pos - 1032) / 64 / 64) in *. set (j := (pos - 1032) / 64 mod 64) in *.
    assert (Hkj : 0 <= k < 40 /\ 0 <= j < 64) by (unfold k, j; Z.to_euclidean_division_equations; lia).
    assert (Hleaf : leaf pos = P4 k j /\ slot pos = (pos - 1032) mod 64)
      by (unfold leaf, slot; rewrite (proj2 (Z.ltb_ge pos 1032)) by lia; done).
    (* the common tail: the cluster goes into its leaf *)
    assert (Htail : forall s1 f1, idx_inv s1 e (active (pos + 1)) l f1 ->
      exists s' f', (x ← de_item e (24 + k); y ← inode_item x j;
                     set_inode_item y ((pos - 1032) mod 64) c) s1 = Ret tt s' /\
                    index_of s' e (l ++ [c]) f' /\
                    idx_step s1 s' (active (pos + 1)) (active (pos + 1)) f1 f').
    { intros s1 f1 I1. assert (Ha : active (pos + 1) (leaf pos)) by (apply leaf_active; lia).
      destruct (idx_inv_push _ _ _ _ _ c I1) as (s' & Hs & T & I'); [done|done|].
      fold pos in Hs. destruct Hleaf as [Hlf Hsl]. rewrite Hlf, Hsl in Hs. rewrite Hlf in Ha.
      pose proof (ii_parent _ _ _ _ _ I1 _ _ Ha) as Ha3.
      rewrite (bind_Ret _ _ _ _ _ (de_item_ret _ _ _ _ (ii_p3 _ _ _ _ _ I1 _ Ha3))).
      rewrite (bind_Ret _ _ _ _ _ (inode_item_ret _ _ _ _ (proj1 (ii_used _ _ _ _ _ I1 _ Ha3))
                 (ii_p4 _ _ _ _ _ I1 _ _ Ha))).
      exists s', f1. split; [exact Hs|]. split; [by apply index_of_push|done]. }
    assert (Hend : forall s1 f1, idx_inv s1 e (active (pos + 1)) l f1 -> idx_step s s1 (active pos) (active (pos + 1)) f f1 ->
      exists s' f', (x ← de_item e (24 + k); y ← inode_item x j;
                     set_inode_item y ((pos - 1032) mod 64) c) s1 = Ret tt s' /\
                    index_of s' e (l ++ [c]) f' /\ idx_step s s' (active pos) (active (pos + 1)) f f').
    { intros s1 f1 I1 T1. destruct (Htail s1 f1 I1) as (s' & f' & Hs & I' & T2). exists s', f'.
      split_and!; [done|done|exact (idx_step_trans _ _ _ _ _ _ _ _ _ T1 T2)]. }
    destruct (Z.eqb_spec ((pos - 1032) mod 64) 0) as [Hm|Hm]; unfold when.
    2: { rewrite bind_mret. assert (Hiff : forall p, active pos p <-> active (pos + 1) p)
           by (intros p; apply active_same; [done|right; right; lia]).
         apply (Hend s f); [by eapply idx_inv_iff|]. eapply idx_step_iff; [|exact Hiff|by apply idx_step_same]. done. }
    destruct (Z.eqb_spec j 0) as [Hj|Hj].
    + destruct (grow_top s e _ l f (P3 k) (24 + k) I) as (s1 & z & Hr & Hz & Hit & Hbm & T1 & I1);
        [done|simpl; lia| | |by exists x|].
      { unfold k. simpl. Z.to_euclidean_division_equations; lia. }
      { intros k' [= <-] j' Ha'. unfold k in *. simpl in Ha'. Z.to_euclidean_division_equations; lia. }
      assert (Hfk : fset f (P3 k) z (P3 k) = z) by (unfold fset; by rewrite decide_True).
      destruct (grow_sub s1 e _ l _ k 0 I1) as (s2 & y2 & Hr2 & T2 & I2); [by right|lia| | |].
      { intros [Ha' | Ha']; [|done]. unfold k in *. simpl in Ha'. Z.to_euclidean_division_equations; lia. }
      { assert (Hc : pool_free (inodeBitmap s1) x \/ pool_free (inodeBitmap s1) y).
        { unfold pool_free in *. rewrite !Hbm by lia. destruct Hx as [? ->], Hy as [? ->].
          destruct (Z.eqb_spec x z), (Z.eqb_spec y z); simpl; subst; tauto. }
        destruct Hc; eauto. }
      rewrite Hfk in Hr2. rewrite Hj.
      assert (Hg : ((x ← inodeAlloc; set_de_item e (24 + k) (u32 x)) ;;
                    x ← de_item e (24 + k); y ← inodeAlloc; set_inode_item x 0 (u32 y)) s = Ret tt s2)
        by (rewrite (bind_Ret _ _ _ _ _ Hr), (bind_Ret _ _ _ _ _ (de_item_ret _ _ _ _ Hit)); exact Hr2).
      assert (Hiff : forall p, (active pos p \/ p = P3 k) \/ p = P4 k 0 <-> active (pos + 1) p)
        by (intros p; unfold k; by rewrite active_P34 by (lia || done)).
      rewrite (bind_Ret _ _ _ _ _ Hg). rewrite <- Hj. eapply Hend; [eapply idx_inv_iff; [exact Hiff|exact I2]|].
      eapply idx_step_iff; [|exact Hiff|exact (idx_step_trans _ _ _ _ _ _ _ _ _ T1 T2)]. done.
    + assert (Ha3 : active pos (P3 k)) by (unfold k, j in *; simpl; Z.to_euclidean_division_equations; lia).
      destruct (grow_sub s e _ l f k j I Ha3) as (s2 & y2 & Hr2 & T2 & I2); [lia| |by exists x|].
      { unfold k, j in *. simpl. Z.to_euclidean_division_equations; lia. }
      assert (Hg : (mret tt ;; x ← de_item e (24 + k); y ← inodeAlloc; set_inode_item x j (u32 y)) s = Ret tt s2)
        by (rewrite bind_mret, (bind_Ret _ _ _ _ _ (de_item_ret _ _ _ _ (ii_p3 _ _ _ _ _ I _ Ha3))); exact Hr2).
      assert (Hiff : forall p, active pos p \/ p = P4 k j <-> active (pos + 1) p)
        by (intros p; unfold k, j; by rewrite active_P4 by (lia || done)).
      rewrite (bind_Ret _ _ _ _ _ Hg). eapply Hend; [eapply idx_inv_iff; [exact Hiff|exact I2]|].
      eapply idx_step_iff; [|exact Hiff|exact T2]. done.
Qed.

(** ** What [index_put] uses and leaves alone *)

(** The index blocks a file of [n] clusters has. *)
Definition index_blocks (n : Z) : Z :=
  if n <=? 8 then 0 else if n <=? 1032 then (n - 8 + 63) / 64
  else 16 + (n - 1032 + 63) / 64 + (n - 1032 + 4095) / 4096.

(** [k] blocks of the pool are free. *)
Definition pool_room (bm : list Z) : nat -> Prop := has_room (pool_free bm).

Lemma pool_room_two bm k : pool_room bm (k + 2) -> pool_two bm.
Proof.
  intros (xs & Hl & Hn & Hf). destruct xs as [|x [|y xs]]; [cbn in Hl; lia..|].
  rewrite !NoDup_cons, elem_of_cons in Hn. rewrite !Forall_cons in Hf. exists x, y. naive_solver.
Qed.

(** Only the index of [e] and [n] blocks of the pool changed. *)
Record indexed (e : Z) (n : nat) (s s' : FatS) : Prop := {
  ix_bio : bio s' = bio s;
  ix_fss : fss s' = fss s;
  ix_clus : clusBitmap s' = clusBitmap s;
  ix_other : forall x, x <> e -> getde s' x = getde s x;
  ix_entry : exists it, getde s' e = with_index (inodeMaxCluster (getde s e)) it (getde s e);
  ix_pool : forall m, pool_ok (inodeBitmap s) -> pool_room (inodeBitmap s) (n + m) ->
    pool_ok (inodeBitmap s') /\ pool_room (inodeBitmap s') m;
}.

Lemma indexed_refl e s : indexed e 0 s s.
Proof. constructor; try done. exists (inode (getde s e)). by destruct (getde s e). Qed.

Lemma indexed_trans e n m s s1 s2 : indexed e n s s1 -> indexed e m s1 s2 -> indexed e (n + m) s s2.
Proof.
  intros [A1 A2 A3 A4 (it & A5) A6] [B1 B2 B3 B4 (it' & B5) B6]. constructor; try congruence.
  - intros x Hx. by rewrite B4, A4.
  - exists it'. by rewrite B5, A5.
  - intros k Hp Hr. rewrite <- Nat.add_assoc in Hr. destruct (A6 _ Hp Hr) as [Hp1 Hr1]. by apply B6.
Qed.

Lemma set_de_item_indexed e i v s s' : set_de_item e i v s = Ret tt s' -> indexed e 0 s s'.
Proof.
  intros [= <-]. constructor; try done.
  - intros x Hx. by rewrite getde_set_de_item, decide_False.
  - eexists. by rewrite getde_set_de_item, decide_True.
Qed.
Lemma set_inode_item_indexed e x i v s s' : set_inode_item x i v s = Ret tt s' -> indexed e 0 s s'.
Proof.
  unfold set_inode_item. destruct (_ && _); [|done]. intros [= <-]. constructor; try done.
  exists (inode (getde s e)). unfold getde. cbn. by destruct (default dirent0 (dents s !! e)).
Qed.
Lemma de_item_state e i v s s' : de_item e i s = Ret v s' -> s' = s.
Proof. unfold de_item. rewrite bind_gets. case_match; [|done]. by intros [= <- <-]. Qed.
Lemma inode_item_state x i v s s' : inode_item x i s = Ret v s' -> s' = s.
Proof. unfold inode_item. rewrite bind_gets. destruct (_ && _); [|done]. case_match; [|done]. by intros [= <- <-]. Qed.

Lemma pool_room_take bm bm' x k :
  (forall z, 0 <= z -> bitmap_used bm' z = (bitmap_used bm z || (z =? x))%bool) ->
  pool_room bm (S k) -> pool_room bm' k.
Proof.
  intros Hz. apply (has_room_take _ _ x). intros y Hy [Hr Hu]. split; [done|]. rewrite Hz, Hu by lia. by apply Z.eqb_neq.
Qed.

Lemma inodeAlloc_indexed e x s s' : inodeAlloc s = Ret x s' -> indexed e 1 s s'.
Proof.
  intros H. assert (E : exists bm, s' = set_inodeBitmap bm s).
  { unfold inodeAlloc in H. rewrite bind_gets in H. destruct (bitmap_alloc _ _); [|injection H as _ <-|done].
    - rewrite bind_modify in H. injection H as _ <-. by eexists.
    - exists (inodeBitmap s). by destruct s. }
  destruct E as [bm ->]. constructor; try done.
  - exists (inode (getde s e)). unfold getde. cbn. by destruct (default dirent0 (dents s !! e)).
  - intros m Hp Hr. pose proof Hr as (xs & Hl & _ & Hf). destruct xs as [|y xs]; [done|]. apply Forall_cons in Hf as [Hf _].
    destruct (inodeAlloc_spec s y Hp Hf) as (x' & bm' & E' & Hp' & _ & Hz). rewrite H in E'. injection E' as -> ->.
    split; [done|]. by eapply pool_room_take.
Qed.

Lemma alloc_top_indexed e i s s' : (x ← inodeAlloc; set_de_item e i (u32 x)) s = Ret tt s' -> indexed e 1 s s'.
Proof.
  intros H. apply bind_Ret_inv in H as (x & s1 & H1 & H2).
  exact (indexed_trans _ 1 0 _ _ _ (inodeAlloc_indexed e _ _ _ H1) (set_de_item_indexed _ _ _ _ _ H2)).
Qed.
Lemma index_blocks_step pos : 0 <= pos < 164872 -> index_blocks (pos + 1) - index_blocks pos =
  if pos <? 8 then 0 else if pos <? 1032 then (if (pos - 8) mod 64 =? 0 then 1 else 0)
  else if (pos - 1032) mod 64 =? 0 then (if (pos - 1032) / 64 mod 64 =? 0 then 2 else 1) else 0.
Proof.
  intros Hp. unfold index_blocks.
  destruct (Z.ltb_spec pos 8), (Z.ltb_spec pos 1032), (Z.leb_spec (pos + 1) 8), (Z.leb_spec pos 8), (Z.leb_spec (pos + 1) 1032),
    (Z.leb_spec pos 1032); try lia;
    repeat match goal with |- context [?a =? 0] => destruct (Z.eqb_spec a 0) end; Z.to_euclidean_division_equations; lia.
Qed.

Lemma index_put_indexed e pos c s s' : 0 <= pos < 164872 -> index_put e pos c s = Ret tt s' ->
  indexed e (Z.to_nat (index_blocks (pos + 1) - index_blocks pos)) s s'.
Proof.
  intros Hp. rewrite index_blocks_step by done. unfold index_put.
  change INODE_SECOND_LEVEL_BOTTOM with 8. change INODE_THIRD_LEVEL_BOTTOM with 1032. change INODE_ITEM_NUM with 64.
  change INODE_THIRD_LEVEL_TOP with 164872.
  destruct (pos <? 8); [by apply set_de_item_indexed|]. destruct (pos <? 1032).
  { intros H. apply bind_Ret_inv in H as ([] & s1 & H1 & H). apply bind_Ret_inv in H as (x & s2 & H2 & H).
    apply de_item_state in H2 as ->. apply (set_inode_item_indexed e) in H. rewrite <- (Nat.add_0_r (Z.to_nat _)).
    eapply indexed_trans; [|exact H]. destruct (_ =? 0); [exact (alloc_top_indexed _ _ _ _ H1)|].
    injection H1 as <-. apply indexed_refl. }
  destruct (pos <? 164872); [|done]. intros H. apply bind_Ret_inv in H as ([] & s1 & H1 & H).
  apply bind_Ret_inv in H as (x & s2 & H2 & H). apply de_item_state in H2 as ->.
  apply bind_Ret_inv in H as (y & s3 & H3 & H). apply inode_item_state in H3 as ->.
  apply (set_inode_item_indexed e) in H. rewrite <- (Nat.add_0_r (Z.to_nat _)). eapply indexed_trans; [|exact H]. clear H.
  destruct ((pos - 1032) mod 64 =? 0); [|injection H1 as <-; apply indexed_refl].
  cbn [when] in H1. apply bind_Ret_inv in H1 as ([] & sa & Ha & H1). apply bind_Ret_inv in H1 as (x2 & sb' & Hb & H1).
  apply de_item_state in Hb as ->. apply bind_Ret_inv in H1 as (y2 & sc & Hc & H1).
  apply (set_inode_item_indexed e) in H1. apply (inodeAlloc_indexed e) in Hc.
  pose proof (indexed_trans _ _ _ _ _ _ Hc H1) as Hi.
  destruct (_ =? 0); [exact (indexed_trans _ _ _ _ _ _ (alloc_top_indexed _ _ _ _ Ha) Hi)|].
  injection Ha as <-. exact Hi.
Qed.

Lemma index_blocks_mono n m : 0 <= n <= m -> m <= 164872 -> index_blocks n <= index_blocks m.
Proof.
  intros Hn Hm. unfold index_blocks.
  destruct (Z.leb_spec n 8), (Z.leb_spec n 1032), (Z.leb_spec m 8), (Z.leb_spec m 1032); try lia;
    Z.to_euclidean_division_equations; lia.
Qed.

(** The index is part of the entry and of the index blocks. *)
Lemma index_of_same s s' e l f : inode (getde s' e) = inode (getde s e) -> inodes s' = inodes s ->
  inodeBitmap s' = inodeBitmap s -> index_of s e l f -> index_of s' e l f.
Proof.
  intros E1 E2 E3 [I Hl]. split; [|done]. assert (Eb : forall x, blk s' x = blk s x) by (intros; unfold blk; by rewrite E2).
  destruct I. constructor; intros; rewrite ?E1, ?E3, ?Eb; eauto.
Qed.

(** ** The blocks of different entries *)

(** The index block behind a path of entry [e]. *)
Definition block_of (s : FatS) (e : Z) (p : path) : option Z :=
  match p with
  | P2 k => inode (getde s e) !! Z.to_nat (8 + k)
  | P3 k => inode (getde s e) !! Z.to_nat (24 + k)
  | P4 k j => x ← inode (getde s e) !! Z.to_nat (24 + k); blk s x !! Z.to_nat j
  end.
Definition owns (s : FatS) (e x : Z) : Prop :=
  exists p, active (inodeMaxCluster (getde s e)) p /\ block_of s e p = Some x.

Lemma block_of_index s e l f p : index_of s e l f -> active (Z.of_nat (length l)) p -> block_of s e p = Some (f p).
Proof.
  intros [I _] Hp. destruct p as [k|k|k j]; cbn [block_of].
  - by apply (ii_p2 _ _ _ _ _ I).
  - by apply (ii_p3 _ _ _ _ _ I).
  - rewrite (ii_p3 _ _ _ _ _ I) by (by eapply (ii_parent _ _ _ _ _ I)). by apply (ii_p4 _ _ _ _ _ I).
Qed.

(** A step on entry [e]: a block in use that is not [e]'s stays so, and keeps its items. *)
Definition kept (e : Z) (s s' : FatS) : Prop := forall x, 0 <= x < 1024 -> bitmap_used (inodeBitmap s) x = true ->
  ~ owns s e x -> bitmap_used (inodeBitmap s') x = true /\ ~ owns s' e x /\ blk s' x = blk s x.

Lemma kept_trans e s s1 s2 : kept e s s1 -> kept e s1 s2 -> kept e s s2.
Proof.
  intros H1 H2 x Hx Hu Ho. destruct (H1 x Hx Hu Ho) as (Hu1 & Ho1 & E1). destruct (H2 x Hx Hu1 Ho1) as (Hu2 & Ho2 & E2).
  split_and!; [done|done|congruence].
Qed.
Lemma kept_same e s s' : inodes s' = inodes s -> inodeBitmap s' = inodeBitmap s -> inode (getde s' e) = inode (getde s e) ->
  inodeMaxCluster (getde s' e) = inodeMaxCluster (getde s e) -> kept e s s'.
Proof.
  intros E1 E2 E3 E4 x Hx Hu Ho. assert (Eb : forall y, blk s' y = blk s y) by (intros; unfold blk; by rewrite E1).
  rewrite E2. split_and!; [done| |done]. intros (p & Hp & Hb). apply Ho. exists p. rewrite <- E4. split; [done|].
  destruct p; cbn [block_of] in *; rewrite E3 in Hb; [done..|]. destruct (_ !! _); [|done]. cbn in *. by rewrite <- Eb.
Qed.
Lemma kept_step e s s' l l' f f' : index_of s e l f -> inodeMaxCluster (getde s e) = Z.of_nat (length l) ->
  index_of s' e l' f' -> inodeMaxCluster (getde s' e) = Z.of_nat (length l') ->
  idx_step s s' (active (Z.of_nat (length l))) (active (Z.of_nat (length l'))) f f' -> kept e s s'.
Proof.
  intros I E I' E' [U K N B] x Hx Hu Ho.
  assert (Hne : forall p, active (Z.of_nat (length l')) p -> f' p <> x).
  { intros p Hp Ex. destruct (N p Hp) as [Ha|[_ Hf]]; [|congruence]. destruct (K p Ha) as [_ Ef].
    apply Ho. exists p. rewrite E. split; [done|]. rewrite (block_of_index s e l f p I Ha). congruence. }
  split_and!; [apply U; [lia|done]| |by apply B]. intros (p & Hp & Hb). rewrite E' in Hp.
  rewrite (block_of_index s' e l' f' p I' Hp) in Hb. injection Hb as Hb. by apply (Hne p).
Qed.

(** Another entry keeps its index, and its blocks. *)
Lemma kept_index e e' s s' l f : kept e s s' -> e' <> e -> getde s' e' = getde s e' -> index_of s e' l f ->
  inodeMaxCluster (getde s e') = Z.of_nat (length l) -> pool_ok (inodeBitmap s') -> (forall x, length (blk s' x) = 64%nat) ->
  (forall x, owns s e x -> owns s e' x -> False) ->
  index_of s' e' l f /\ forall x, owns s' e' x <-> owns s e' x.
Proof.
  intros HK Hne Ed I E Hpo Hlen Hap. pose proof I as [J Hl].
  assert (Hf : forall p, active (Z.of_nat (length l)) p -> owns s e' (f p)).
  { intros p Hp. exists p. rewrite E. split; [done|]. by apply (block_of_index s e' l f p I). }
  assert (Hk : forall p, active (Z.of_nat (length l)) p -> bitmap_used (inodeBitmap s') (f p) = true /\ blk s' (f p) = blk s (f p)).
  { intros p Hp. destruct (ii_used _ _ _ _ _ J p Hp) as [Hr Hu].
    destruct (HK (f p) Hr Hu) as (H1 & _ & H2); [|done]. intros Ho. by apply (Hap (f p)), Hf. }
  assert (I' : index_of s' e' l f).
  { split; [|done]. constructor; rewrite ?Ed; try apply J; try done.
    - intros p Hp. split; [by apply (ii_used _ _ _ _ _ J)|by apply Hk].
    - intros k j Hp. rewrite (proj2 (Hk (P3 k) (ii_parent _ _ _ _ _ J _ _ Hp))). by apply (ii_p4 _ _ _ _ _ J).
    - intros pos Hp. rewrite (proj2 (Hk (leaf pos) (ii_cover _ _ _ _ _ J _ Hp))). by apply (ii_leaf _ _ _ _ _ J). }
  split; [done|]. intros x. split; intros (p & Hp & Hb); exists p; rewrite ?Ed, E in *; split; try done.
  - rewrite (block_of_index s' e' l f p I' Hp) in Hb. by rewrite (block_of_index s e' l f p I Hp).
  - rewrite (block_of_index s e' l f p I Hp) in Hb. by rewrite (block_of_index s' e' l f p I' Hp).
Qed.

(** C5. The three-level index is a list: recording a cluster at the first free
    position returns, and afterwards looking up any position gives the recorded
    cluster, the old ones unchanged, up to the 164872 clusters the index can
    hold, as long as two index blocks are free. *)
Theorem index_append s e l f c :
  index_of s e l f -> Z.of_nat (length l) < 164872 -> pool_two (inodeBitmap s) ->
  exists s' f', index_put e (Z.of_nat (length l)) c s = Ret tt s' /\ index_of s' e (l ++ [c]) f' /\
    forall i v, (l ++ [c]) !! i = Some v -> index_get e (Z.of_nat i) s' = Ret v s'.
Proof.
  intros I Hb Hp. destruct (index_put_spec s e l f c I Hb Hp) as (s' & f' & Hr & I' & _).
  exists s', f'. split_and!; [done|done|]. intros i v Hv.
  eapply index_get_spec; [exact I'|lia|]. by rewrite Nat2Z.id.
Qed.

(** An entry without clusters and an empty pool. *)
Definition fs_empty : FatS := mkFatS (mkB ∅ ∅ ∅ 0 []) ∅ ∅ 0 ∅ (replicate 16 0) ∅.

Lemma index_of_empty e : index_of fs_empty e [] (fun _ => 0).
Proof.
  split; [|simpl; lia]. constructor; try done; try (intros []; simpl; lia);
    try (intros; simpl in *; lia).
  split; [done|]. apply Forall_replicate. lia.
Qed.

Lemma index_append_witness : exists s', index_put 1 0 77 fs_empty = Ret tt s' /\ index_get 1 0 s' = Ret 77 s'.
Proof.
  destruct (index_append fs_empty 1 [] (fun _ => 0) 77 (index_of_empty 1)) as (s' & f' & Hr & _ & Hg).
  - simpl. lia.
  - exists 0, 1. split; [lia|]. split; (split; [lia|reflexivity]).
  - exists s'. split; [exact Hr|]. apply (Hg 0%nat). reflexivity.
Defined.

(** [eFreeInode] computes the base of the third level with the item base of
    the second, so a file that reaches the third level leaks: after recording
    1033 clusters and freeing the index, the two third-level blocks (ids 16 and
    17) are still marked as used although the entry no longer has an index. *)
Theorem eFreeInode_leaks :
  exists s', (for_up 1033 0 (fun p => index_put 1 p (p + 100)) ;;
     modify (setde 1 (fun d => with_index 1033 (inode d) d)) ;;
     eFreeInode 1) fs_empty = Ret tt s' /\
    inodeMaxCluster (getde s' 1) = 0 /\
    filter (fun x => bitmap_used (inodeBitmap s') x = true) (seqZ 0 1024) = [16; 17].
Proof.
  match goal with |- exists s', ?o = _ /\ _ =>
    destruct (ret_test_true o (fun _ s' => (inodeMaxCluster (getde s' 1) =? 0) &&
      bool_decide (filter (fun x => bitmap_used (inodeBitmap s') x = true) (seqZ 0 1024) = [16; 17])))
      as ([] & s' & Ho & Hd); [vm_compute; reflexivity|] end.
  apply andb_prop in Hd as [Hm Hd]. apply Z.eqb_eq in Hm. apply bool_decide_eq_true in Hd.
  exists s'. split; [exact Ho|]. split; [exact Hm|exact Hd].
Qed.
