(* ===== verification/UserCopy.v ===== *)
(** * Page.c: copies between the kernel and user memory

    [copyin], [copyout] and [memsetOut] translate a user address page by page,
    fault pages in with [pageout] and break copy-on-write sharing before they
    write.  Kernel buffers are byte lists.  [pageout] reads the executable through
    the file system, so it is an argument here. *)

From S2P Require Import Prelude CType Mem Config Queue Page PageInv PageSpec.

Section user_copy.
Context {S : Type} `{!Part S MM}.
Context (pageout : Z -> Z -> M S Z).

(** The physical address of an address in the kernel's page table [kpgdir]. *)
Definition kaddr (kpgdir va : Z) : M S Z :=
  r ← lift (Page.pageLookup kpgdir (DOWN_ALIGN va PAGE_SIZE));
  if fst r =? 0 then panic else mret (fst r + PAGE_OFFSET va PAGE_SIZE).

Definition set_memory (f : gmap Z Z -> gmap Z Z) : M S unit := lift (modify (set_mem f)).
Definition read_memory {A} (f : gmap Z Z -> A) : M S A := lift (gets (fun mm => f (mem mm))).

(** The physical address to read at, for the page of [va]. *)
Definition resolve_read (pgdir va : Z) : M S Z :=
  r ← lift (Page.vir2phy pgdir va);
  if fst r =? 0 then pageout pgdir va else mret (fst r).

(** The physical address to write at: a shared page is copied first. *)
Definition resolve_write (pgdir va : Z) : M S Z :=
  r ← lift (Page.vir2phy pgdir va);
  if fst r =? 0 then pageout pgdir va
  else if default false (snd r) then lift (Page.cowHandler pgdir va)
  else mret (fst r).

(** Every iteration copies at least one byte. *)
Fixpoint copyin_loop (fuel : nat) (pgdir srcva len : Z) : M S (list Z) :=
  match fuel with
  | O => fun _ => NoFuel
  | Datatypes.S fuel =>
      if len >? 0 then
        let va0 := DOWN_ALIGN srcva PGSIZE in
        pa0 ← resolve_read pgdir srcva;
        let n := PGSIZE - (srcva - va0) in
        let n := if n >? len then len else n in
        bs ← read_memory (fun m => load_bytes m pa0 (Z.to_nat n));
        rest ← copyin_loop fuel pgdir (u64 (va0 + PGSIZE)) (len - n);
        mret (bs ++ rest)
      else mret []
  end.
Definition copyin (pgdir srcva len : Z) : M S (list Z) :=
  copyin_loop (Datatypes.S (Z.to_nat len)) pgdir srcva len.

Fixpoint copyout_loop (fuel : nat) (pgdir dstva : Z) (src : list Z) : M S unit :=
  match fuel with
  | O => fun _ => NoFuel
  | Datatypes.S fuel =>
      let len := Z.of_nat (length src) in
      if len >? 0 then
        let va0 := DOWN_ALIGN dstva PGSIZE in
        pa0 ← resolve_write pgdir dstva;
        let n := PGSIZE - (dstva - va0) in
        let n := if n >? len then len else n in
        set_memory (store_bytes pa0 (take (Z.to_nat n) src)) ;;
        copyout_loop fuel pgdir (u64 (va0 + PGSIZE)) (drop (Z.to_nat n) src)
      else mret tt
  end.
Definition copyout (pgdir dstva : Z) (src : list Z) : M S unit :=
  copyout_loop (Datatypes.S (length src)) pgdir dstva src.

Fixpoint memsetOut_loop (fuel : nat) (pgdir dst value len : Z) : M S unit :=
  match fuel with
  | O => fun _ => NoFuel
  | Datatypes.S fuel =>
      if len >? 0 then
        let va0 := DOWN_ALIGN dst PGSIZE in
        pa0 ← resolve_write pgdir dst;
        let n := PGSIZE - (dst - va0) in
        let n := if n >? len then len else n in
        set_memory (memset pa0 value n) ;;
        memsetOut_loop fuel pgdir (u64 (va0 + PGSIZE)) value (len - n)
      else mret tt
  end.
Definition memsetOut (pgdir dst value len : Z) : M S unit :=
  memsetOut_loop (Datatypes.S (Z.to_nat len)) pgdir dst value len.

(** [growproc(n)] for a process with heap bottom [brk]: the new bottom, or [None]
    when it returns -1. *)
Definition growproc (pgdir brk n : Z) : M S (option Z) :=
  if u64 (brk + n) >=? USER_BRK_HEAP_TOP then mret None
  else
    let start := UP_ALIGN brk PAGE_SIZE in
    let fin := UP_ALIGN (u64 (brk + n)) PAGE_SIZE in
    assert (fin <? USER_STACK_BOTTOM) ;;
    loop (Datatypes.S (Z.to_nat ((fin - start) / PGSIZE + 1))) (fun start =>
      if start <? fin then
        r ← lift (Page.pageLookup pgdir start);
        e ← read_memory (fun m => match snd r with Some pte => load64 m pte | None => 0 end);
        when ((fst r >? 0) && c_true (Z.land e PTE_COW)) (lift (Page.cowHandler pgdir start) ;; mret tt) ;;
        page ← lift Page.pageAlloc;
        lift (Page.pageInsert pgdir start (page2pa page)
          (Z.lor (Z.lor PTE_USER PTE_READ) (Z.lor PTE_WRITE PTE_EXECUTE))) ;;
        mret (inl (start + PGSIZE))
      else mret (inr tt)) start ;;
    mret (Some fin).
End user_copy.

(** ** The page-table state on its own *)

#[export] Instance MM_MM : Part MM MM := {|
  part := fun s => s;
  set_part := fun t _ => t;
  part_set := fun _ _ => eq_refl;
  set_part_set := fun _ _ _ => eq_refl;
  set_part_part := fun _ => eq_refl;
|}.

(** ** User memory *)

(** An address the kernel has mapped. *)
Lemma kaddr_mapped {S} `{!Part S MM} (s : S) tbl maps kr va e :
  pt_inv (part s) tbl maps -> tbl !! kr = Some (Root kr) -> 0 <= va < 2 ^ 39 ->
  maps !! (kr, vpn va) = Some e -> PTE2PA e <> 0 ->
  kaddr (page2pa kr) va s = Ret (PTE2PA e + va mod 4096) s.
Proof.
  intros I Hk Hva He Hne. unfold kaddr. change PAGE_SIZE with 4096. rewrite DOWN_ALIGN_4096 by lia.
  set (va' := va - va mod 4096). assert (Hva' : 0 <= va' < 2 ^ 39) by (unfold va'; Z.to_euclidean_division_equations; lia).
  pose proof (pageLookup_spec _ tbl maps kr va' I Hk Hva') as L.
  assert (vpn va' = vpn va) as Ev by by apply align_vpn. rewrite Ev, He in L. destruct L as (q & _ & _ & _ & L).
  rewrite (bind_lift_Ret _ _ _ _ _ L), set_part_part. cbn [fst]. rewrite (proj2 (Z.eqb_neq _ 0)) by done.
  by rewrite PAGE_OFFSET_4096.
Qed.

(** The user page [v] of directory [r] is mapped for writing, privately, to the
    data page [p]. *)
Definition user_page (tbl : gmap Z owner) (maps : gmap (Z * Z) Z) (r v p : Z) : Prop :=
  exists e, maps !! (r, v) = Some e /\ pte_page e = Some p /\ tbl !! p = None /\
    Z.land e PTE_USER <> 0 /\ Z.land e PTE_COW = 0.

(** The bytes of [va .. va + n) are in such pages, distinct ones for distinct
    virtual pages. *)
Definition user_range (tbl : gmap Z owner) (maps : gmap (Z * Z) Z) (r va n : Z) (f : Z -> Z) : Prop :=
  0 <= va /\ va + n <= MAXVA /\
  (forall a, va <= a < va + n -> user_page tbl maps r (vpn a) (f (vpn a))) /\
  (forall a b, va <= a < va + n -> va <= b < va + n -> f (vpn a) = f (vpn b) -> vpn a = vpn b).

Definition user_addr (f : Z -> Z) (a : Z) : Z := page2pa (f (vpn a)) + a mod 4096.
Definition user_bytes (mm : MM) (f : Z -> Z) (va : Z) (n : nat) : list Z :=
  map (fun i => load8 (mem mm) (user_addr f (va + i))) (seqZ 0 (Z.of_nat n)).

Lemma user_page_vir2phy mm tbl maps r a p :
  pt_inv mm tbl maps -> tbl !! r = Some (Root r) -> 0 <= a < MAXVA -> user_page tbl maps r (vpn a) p ->
  page_ok p /\ Page.vir2phy (page2pa r) a mm = Ret (page2pa p + a mod 4096, Some false) mm.
Proof.
  intros I Hr Ha (e & He & Hp & Hnt & Hu & Hc). change MAXVA with (2 ^ 38) in Ha.
  destruct (pte_page_Some _ _ Hp) as (Hok & _ & Hpa). split; [done|].
  pose proof (pageLookup_spec mm tbl maps r a I Hr ltac:(lia)) as L. rewrite He in L.
  destruct L as (q & Hq & _).
  rewrite (vir2phy_leaf mm tbl maps r a q I Hr ltac:(change MAXVA with (2 ^ 38); lia) Hq).
  unfold user_translation. rewrite He, Hpa, Hc.
  by rewrite (proj2 (Z.eqb_neq _ 0)) by done.
Qed.

(** Writing into a data page keeps the tables. *)
Lemma store_bytes_inv mm tbl maps p o bs :
  pt_inv mm tbl maps -> page_ok p -> tbl !! p = None ->
  0 <= o -> o + Z.of_nat (length bs) <= 4096 ->
  pt_inv (set_mem (store_bytes (page2pa p + o) bs) mm) tbl maps.
Proof.
  intros I Hp Hnt Ho Hl. apply (pt_inv_ext mm); [done|apply I| |apply I].
  intros q w i Hq Hi. unfold entry, load64. rewrite mem_set_mem. apply load_le_ext. intros b Hb.
  apply load8_store_bytes_ne. pose proof (pi_tbl _ _ _ I _ _ Hq) as Hqok.
  assert (q <> p) by congruence. rewrite !page2pa_ok in * by done. unfold page_ok in *. lia.
Qed.

Lemma user_addr_page f a : user_addr f a = page2pa (f (vpn a)) + a mod 4096.
Proof. done. Qed.

(** The first step of a copy: the part of the range in the first page. *)
Definition first_part (va n : Z) : Z := if 4096 - va mod 4096 >? n then n else 4096 - va mod 4096.

Lemma first_part_range va n : 0 < n -> 0 < first_part va n <= n /\ va mod 4096 + first_part va n <= 4096.
Proof.
  intros. unfold first_part. rewrite Z.gtb_ltb. pose proof (Z.mod_pos_bound va 4096 ltac:(lia)).
  destruct (Z.ltb_spec n (4096 - va mod 4096)); lia.
Qed.

Lemma first_part_vpn va n a : 0 < n -> va <= a < va + first_part va n -> vpn a = vpn va /\ a mod 4096 = va mod 4096 + (a - va).
Proof.
  intros Hn Ha. destruct (first_part_range va n Hn) as [_ H]. unfold vpn.
  Z.to_euclidean_division_equations; lia.
Qed.

Lemma next_page va n : 0 <= va -> va + n <= MAXVA -> 0 < n ->
  let va0 := DOWN_ALIGN va PGSIZE in
  va0 = va - va mod 4096 /\ PGSIZE - (va - va0) = 4096 - va mod 4096 /\
  (first_part va n < n -> u64 (va0 + PGSIZE) = va + first_part va n).
Proof.
  intros Hv Hn Hp va0. change MAXVA with (2 ^ 38) in Hn.
  assert (E : va0 = va - va mod 4096) by (apply DOWN_ALIGN_4096; lia).
  change PGSIZE with 4096. split_and!; [done|lia|]. unfold first_part. rewrite Z.gtb_ltb.
  destruct (Z.ltb_spec n (4096 - va mod 4096)); [lia|]. intros _. rewrite E.
  pose proof (Z.mod_pos_bound va 4096 ltac:(lia)). rewrite u64_small; lia.
Qed.

Lemma user_range_next tbl maps r va n f :
  user_range tbl maps r va n f -> 0 < n ->
  user_range tbl maps r (va + first_part va n) (n - first_part va n) f.
Proof.
  intros (H0 & H1 & H2 & H3) Hn. destruct (first_part_range va n Hn) as [? _].
  split_and!; [lia|lia|intros; apply H2; lia|intros; apply H3; try lia; done].
Qed.

Lemma user_bytes_app mm f va n k :
  user_bytes mm f va (n + k) = user_bytes mm f va n ++ user_bytes mm f (va + Z.of_nat n) k.
Proof.
  unfold user_bytes. rewrite Nat2Z.inj_add, seqZ_app, map_app by lia. f_equal.
  rewrite Z.add_0_l. rewrite <- (Z.add_0_l (Z.of_nat n)) at 1. 
  apply list_eq. intros i. rewrite !list_lookup_fmap.
  destruct (decide (i < k)%nat).
  - rewrite !lookup_seqZ_lt by lia. simpl. do 3 f_equal. lia.
  - rewrite !lookup_seqZ_ge by lia. done.
Qed.

Lemma user_bytes_first mm f va n k :
  0 <= va -> 0 < n -> Z.of_nat k <= first_part va n ->
  user_bytes mm f va k = load_bytes (mem mm) (user_addr f va) k.
Proof.
  intros Hv Hn Hk. apply list_eq. intros i. unfold user_bytes. rewrite list_lookup_fmap.
  destruct (decide (i < k)%nat).
  - rewrite lookup_seqZ_lt, load_bytes_lookup by lia. simpl. do 2 f_equal. unfold user_addr.
    destruct (first_part_vpn va n (va + (0 + Z.of_nat i)) Hn ltac:(lia)) as [-> ->]. lia.
  - rewrite lookup_seqZ_ge by lia. rewrite lookup_ge_None_2; [done|]. rewrite length_load_bytes. lia.
Qed.

(** ** Buffers of the kernel and of the user

    A system call is given a buffer of the user; the kernel itself uses buffers of its own.
    Byte [a] of a buffer lies at [buf_addr isUser f a]. *)

Definition buf_addr (isUser : bool) (f : Z -> Z) (a : Z) : Z := if isUser then user_addr f a else a.
Definition buf_bytes (isUser : bool) (mm : MM) (f : Z -> Z) (a : Z) (n : nat) : list Z :=
  map (fun i => load8 (mem mm) (buf_addr isUser f (a + i))) (seqZ 0 (Z.of_nat n)).
Definition buffer (isUser : bool) (tbl : gmap Z owner) (maps : gmap (Z * Z) Z) (r a n : Z) (f : Z -> Z) : Prop :=
  if isUser then user_range tbl maps r a n f else 0 <= a /\ a + n <= 2 ^ 64.

(** Storing the bytes [bs] one after the other from byte [a] of the buffer on. *)
Fixpoint put_bytes (isUser : bool) (f : Z -> Z) (a : Z) (bs : list Z) (m : gmap Z Z) : gmap Z Z :=
  match bs with
  | [] => m
  | b :: bs => put_bytes isUser f (a + 1) bs (store8 (buf_addr isUser f a) b m)
  end.

Lemma set_mem_id mm : set_mem (fun m => m) mm = mm.
Proof. by destruct mm. Qed.

Lemma user_addr_inj tbl maps r f va n a b :
  user_range tbl maps r va n f -> va <= a < va + n -> va <= b < va + n ->
  user_addr f a = user_addr f b -> a = b.
Proof.
  intros (_ & _ & Hp & Hinj) Ha Hb E. unfold user_addr in E.
  destruct (Hp a Ha) as (e & _ & Hpa & _), (Hp b Hb) as (e' & _ & Hpb & _).
  destruct (pte_page_Some _ _ Hpa) as (Hoka & _), (pte_page_Some _ _ Hpb) as (Hokb & _).
  rewrite !page2pa_ok in E by done. unfold page_ok in *.
  assert (f (vpn a) = f (vpn b)) as Ef by (Z.to_euclidean_division_equations; lia).
  specialize (Hinj a b Ha Hb Ef). unfold vpn in *. Z.to_euclidean_division_equations; lia.
Qed.

Lemma buf_addr_inj tbl maps r isUser f va n a b :
  buffer isUser tbl maps r va n f -> va <= a < va + n -> va <= b < va + n ->
  buf_addr isUser f a = buf_addr isUser f b -> a = b.
Proof. destruct isUser; [apply user_addr_inj|done]. Qed.

Lemma user_range_sub tbl maps r f va n va' n' :
  user_range tbl maps r va n f -> va <= va' -> va' + n' <= va + n -> user_range tbl maps r va' n' f.
Proof.
  intros (H0 & H1 & H2 & H3) Hl Hh. split_and!; [lia|lia|intros; apply H2; lia|intros; apply H3; try lia; done].
Qed.
Lemma buffer_sub tbl maps r isUser f va n va' n' :
  buffer isUser tbl maps r va n f -> va <= va' -> va' + n' <= va + n -> buffer isUser tbl maps r va' n' f.
Proof. destruct isUser; [apply user_range_sub|simpl; lia]. Qed.

Lemma put_bytes_app isUser f x y : forall a m,
  put_bytes isUser f a (x ++ y) m = put_bytes isUser f (a + Z.of_nat (length x)) y (put_bytes isUser f a x m).
Proof.
  induction x as [|b x IH]; intros a m; cbn [app put_bytes length]; [by rewrite Z.add_0_r|].
  rewrite IH. f_equal. lia.
Qed.

Lemma set_mem_put_app isUser f a x y mm :
  set_mem (put_bytes isUser f a (x ++ y)) mm =
  set_mem (put_bytes isUser f (a + Z.of_nat (length x)) y) (set_mem (put_bytes isUser f a x) mm).
Proof. unfold set_mem. cbn [mem page_ref page_hart freePages hartid]. by rewrite put_bytes_app. Qed.

(** Within a page, and in the kernel, these are consecutive bytes of memory. *)
Lemma put_bytes_page f va bs m : va mod 4096 + Z.of_nat (length bs) <= 4096 ->
  put_bytes true f va bs m = store_bytes (user_addr f va) bs m.
Proof.
  revert va m. induction bs as [|b bs IH]; intros va m Hl; [done|]. cbn [put_bytes store_bytes length buf_addr] in *.
  destruct bs as [|b' bs]; [done|]. cbn [length] in *.
  assert (E : vpn (va + 1) = vpn va /\ (va + 1) mod 4096 = va mod 4096 + 1)
    by (unfold vpn; Z.to_euclidean_division_equations; lia).
  destruct E as [E1 E2]. rewrite IH by lia. f_equal. rewrite !user_addr_page, E1, E2. lia.
Qed.
Lemma put_bytes_kernel f bs : forall a m, put_bytes false f a bs m = store_bytes a bs m.
Proof. induction bs as [|b bs IH]; intros a m; [done|]. apply IH. Qed.
Lemma buf_bytes_kernel mm f a n : buf_bytes false mm f a n = load_bytes (mem mm) a n.
Proof.
  apply list_eq. intros i. unfold buf_bytes. rewrite list_lookup_fmap. destruct (decide (i < n)%nat).
  - by rewrite lookup_seqZ_lt, load_bytes_lookup by lia.
  - rewrite lookup_seqZ_ge, lookup_ge_None_2; [done|rewrite length_load_bytes; lia|lia].
Qed.

Lemma length_buf_bytes isUser mm f a n : length (buf_bytes isUser mm f a n) = n.
Proof. unfold buf_bytes. rewrite length_map, length_seqZ. lia. Qed.
Lemma buf_bytes_lookup isUser mm f a n i : (i < n)%nat ->
  buf_bytes isUser mm f a n !! i = Some (load8 (mem mm) (buf_addr isUser f (a + Z.of_nat i))).
Proof. intros. unfold buf_bytes. rewrite list_lookup_fmap, lookup_seqZ_lt by lia. done. Qed.
Lemma buf_bytes_cons isUser mm f a n : buf_bytes isUser mm f a (Datatypes.S n) =
  load8 (mem mm) (buf_addr isUser f a) :: buf_bytes isUser mm f (a + 1) n.
Proof.
  apply list_eq. intros [|i].
  - rewrite buf_bytes_lookup by lia. change (Z.of_nat 0) with 0. by rewrite Z.add_0_r.
  - change ((?x :: ?l) !! Datatypes.S i) with (l !! i). destruct (decide (i < n)%nat).
    + rewrite !buf_bytes_lookup by lia. do 3 f_equal. lia.
    + rewrite !lookup_ge_None_2 by (rewrite length_buf_bytes; lia). done.
Qed.
Lemma take_buf_bytes isUser mm f a n k : (k <= n)%nat ->
  take k (buf_bytes isUser mm f a n) = buf_bytes isUser mm f a k.
Proof.
  intros Hk. apply list_eq. intros i. destruct (decide (i < k)%nat).
  - by rewrite lookup_take_lt, !buf_bytes_lookup by lia.
  - rewrite !lookup_ge_None_2; [done|rewrite length_buf_bytes; lia|rewrite length_take, length_buf_bytes; lia].
Qed.

Lemma load8_put_out isUser f bs b : forall a m,
  (forall j, a <= j < a + Z.of_nat (length bs) -> b <> buf_addr isUser f j) ->
  load8 (put_bytes isUser f a bs m) b = load8 m b.
Proof.
  induction bs as [|x bs IH]; intros a m H; [done|]. cbn [put_bytes length] in *.
  rewrite IH by (intros j Hj; apply H; lia). apply load8_store8_ne. apply not_eq_sym, H. lia.
Qed.

Lemma load8_put_in tbl maps r isUser f bs j x : forall a m,
  buffer isUser tbl maps r a (Z.of_nat (length bs)) f -> bs !! j = Some x ->
  load8 (put_bytes isUser f a bs m) (buf_addr isUser f (a + Z.of_nat j)) = u8 x.
Proof.
  revert j. induction bs as [|y bs IH]; intros j a m H Hj; [done|]. cbn [put_bytes length] in *.
  destruct j as [|j]; cbn in Hj.
  - injection Hj as ->. rewrite Z.add_0_r, load8_put_out; [apply load8_store8_eq|].
    intros i Hi E. eapply (buf_addr_inj tbl maps r isUser f) in E; [|exact H|lia|lia]. lia.
  - replace (a + Z.of_nat (Datatypes.S j)) with (a + 1 + Z.of_nat j) by lia. apply IH; [|done].
    eapply buffer_sub; [exact H|lia|lia].
Qed.

Lemma buf_bytes_put tbl maps r isUser f a bs mm :
  buffer isUser tbl maps r a (Z.of_nat (length bs)) f -> Forall (fun b => 0 <= b < 2 ^ 8) bs ->
  buf_bytes isUser (set_mem (put_bytes isUser f a bs) mm) f a (length bs) = bs.
Proof.
  intros H Hb. apply list_eq. intros i. destruct (decide (i < length bs)%nat) as [Hi|Hi].
  - rewrite buf_bytes_lookup by done. destruct (lookup_lt_is_Some_2 bs i Hi) as [x Hx]. rewrite Hx. f_equal.
    rewrite mem_set_mem, (load8_put_in tbl maps r isUser f bs i x) by done.
    rewrite Forall_lookup in Hb. by apply u8_small, (Hb i).
  - rewrite !lookup_ge_None_2; [done|lia|rewrite length_buf_bytes; lia].
Qed.

Lemma put_bytes_inv mm tbl maps r f bs : forall a, pt_inv mm tbl maps ->
  user_range tbl maps r a (Z.of_nat (length bs)) f -> pt_inv (set_mem (put_bytes true f a bs) mm) tbl maps.
Proof.
  revert mm. induction bs as [|b bs IH]; intros mm a I Hu; cbn [put_bytes length] in *; [by rewrite set_mem_id|].
  pose proof Hu as (_ & _ & Hp & _). destruct (Hp a ltac:(lia)) as (e & _ & Hpa & Hnt & _).
  destruct (pte_page_Some _ _ Hpa) as (Hok & _). pose proof (Z.mod_pos_bound a 4096 ltac:(lia)).
  apply (IH (set_mem (store_bytes (user_addr f a) [b]) mm)).
  - unfold user_addr. apply store_bytes_inv; [done|done|done|lia|simpl; lia].
  - eapply user_range_sub; [exact Hu|lia|lia].
Qed.

Section copies.
Context {S : Type} `{!Part S MM} (pageout : Z -> Z -> M S Z) (tbl : gmap Z owner) (maps : gmap (Z * Z) Z) (r : Z) (f : Z -> Z).
Hypothesis Hr : tbl !! r = Some (Root r).

Lemma resolve_read_spec (s : S) a n :
  pt_inv (part s) tbl maps -> user_range tbl maps r a n f -> 0 < n ->
  page_ok (f (vpn a)) /\ resolve_read pageout (page2pa r) a s = Ret (user_addr f a) s /\
  resolve_write pageout (page2pa r) a s = Ret (user_addr f a) s.
Proof.
  intros I (H0 & H1 & H2 & _) Hn.
  destruct (user_page_vir2phy (part s) tbl maps r a _ I Hr ltac:(lia) (H2 a ltac:(lia))) as [Hok Hv].
  split; [done|]. unfold resolve_read, resolve_write.
  rewrite !(bind_lift_Ret _ _ _ _ _ Hv), !set_part_part. cbn [fst snd default from_option id].
  rewrite (proj2 (Z.eqb_neq _ 0)); [done|]. rewrite page2pa_ok by done. unfold page_ok in Hok.
  pose proof (Z.mod_pos_bound a 4096 ltac:(lia)). lia.
Qed.

Lemma copyin_loop_spec (s : S) fuel : forall va n,
  pt_inv (part s) tbl maps -> user_range tbl maps r va n f -> 0 <= n -> n < Z.of_nat fuel ->
  copyin_loop pageout fuel (page2pa r) va n s = Ret (user_bytes (part s) f va (Z.to_nat n)) s.
Proof.
  induction fuel as [|fuel IH]; intros va n I Hu Hn Hf; [lia|]. cbn [copyin_loop].
  rewrite Z.gtb_ltb. destruct (Z.ltb_spec 0 n) as [Hp|Hp].
  2: { assert (n = 0) as -> by lia. done. }
  destruct (resolve_read_spec s va n I Hu Hp) as (Hok & Hrd & _).
  rewrite (bind_Ret _ _ _ _ _ Hrd). pose proof Hu as (H0 & H1 & _).
  destruct (next_page va n H0 H1 Hp) as (E0 & E1 & E2). rewrite E1. fold (first_part va n).
  destruct (first_part_range va n Hp) as [Hfp _].
  unfold read_memory. rewrite bind_lift_gets.
  assert (Hsplit : Z.to_nat n = (Z.to_nat (first_part va n) + Z.to_nat (n - first_part va n))%nat) by lia.
  rewrite Hsplit, user_bytes_app, Z2Nat.id, (user_bytes_first (part s) f va n) by lia.
  assert (Hrest : copyin_loop pageout fuel (page2pa r) (u64 (DOWN_ALIGN va PGSIZE + PGSIZE))
            (n - first_part va n) s
          = Ret (user_bytes (part s) f (va + first_part va n) (Z.to_nat (n - first_part va n))) s).
  { destruct (decide (first_part va n = n)) as [-> |Hne].
    - rewrite Z.sub_diag. destruct fuel; [lia|]. done.
    - rewrite E2 by lia. apply IH; [done| |lia|lia].
      by apply user_range_next. }
  by rewrite (bind_Ret _ _ _ _ _ Hrest).
Qed.

Lemma copyin_spec (s : S) va n :
  pt_inv (part s) tbl maps -> user_range tbl maps r va n f -> 0 <= n ->
  copyin pageout (page2pa r) va n s = Ret (user_bytes (part s) f va (Z.to_nat n)) s.
Proof. intros. unfold copyin. apply copyin_loop_spec; try done. lia. Qed.

Lemma copyout_loop_eq fuel : forall va src (s : S),
  pt_inv (part s) tbl maps -> user_range tbl maps r va (Z.of_nat (length src)) f -> (length src < fuel)%nat ->
  copyout_loop pageout fuel (page2pa r) va src s = Ret tt (set_part (set_mem (put_bytes true f va src) (part s)) s).
Proof.
  induction fuel as [|fuel IH]; intros va src s I Hu Hf; [lia|]. cbn [copyout_loop].
  rewrite Z.gtb_ltb. destruct (Z.ltb_spec 0 (Z.of_nat (length src))) as [Hp|Hp].
  2: { destruct src; [|simpl in Hp; lia]. cbn [put_bytes]. by rewrite set_mem_id, set_part_part. }
  set (n := Z.of_nat (length src)) in *.
  destruct (resolve_read_spec s va n I Hu Hp) as (Hok & _ & Hwr).
  rewrite (bind_Ret _ _ _ _ _ Hwr). pose proof Hu as (H0 & H1 & _).
  destruct (next_page va n H0 H1 Hp) as (E0 & E1 & E2). rewrite E1. fold (first_part va n).
  destruct (first_part_range va n Hp) as [Hfp Hfit]. set (k := first_part va n) in *.
  assert (Hlen : length (take (Z.to_nat k) src) = Z.to_nat k) by (rewrite length_take; lia).
  unfold set_memory. rewrite bind_lift_modify.
  assert (Eh : set_mem (store_bytes (user_addr f va) (take (Z.to_nat k) src)) (part s) =
    set_mem (put_bytes true f va (take (Z.to_nat k) src)) (part s)) by (unfold set_mem; by rewrite put_bytes_page by lia).
  rewrite Eh. rewrite <- (take_drop (Z.to_nat k) src) at 3.
  assert (Ew : set_mem (put_bytes true f va (take (Z.to_nat k) src ++ drop (Z.to_nat k) src)) (part s) =
    set_mem (put_bytes true f (va + k) (drop (Z.to_nat k) src))
      (set_mem (put_bytes true f va (take (Z.to_nat k) src)) (part s))).
  { rewrite set_mem_put_app, Hlen. by replace (va + Z.of_nat (Z.to_nat k)) with (va + k) by lia. }
  rewrite Ew. destruct (decide (k = n)) as [Ek|Ek].
  - rewrite (drop_ge src) by lia. destruct fuel; [lia|]. cbn [copyout_loop put_bytes length]. by rewrite set_mem_id.
  - rewrite E2 by lia. rewrite IH, set_part_set, part_set; rewrite ?part_set; [done| | |rewrite length_drop; lia].
    + apply (put_bytes_inv _ tbl maps r); [done|]. eapply user_range_sub; [exact Hu|lia|lia].
    + replace (Z.of_nat (length (drop (Z.to_nat k) src))) with (n - k) by (rewrite length_drop; lia).
      by apply user_range_next.
Qed.

Lemma copyout_loop_spec fuel va src (s : S) : let mm := part s in
  pt_inv mm tbl maps -> user_range tbl maps r va (Z.of_nat (length src)) f ->
  Forall (fun b => 0 <= b < 2 ^ 8) src -> (length src < fuel)%nat ->
  exists mm', copyout_loop pageout fuel (page2pa r) va src s = Ret tt (set_part mm' s) /\ pt_inv mm' tbl maps /\
    user_bytes mm' f va (length src) = src /\
    (freePages mm' = freePages mm /\ forall q, ref mm' q = ref mm q) /\
    forall b, (forall a, va <= a < va + Z.of_nat (length src) -> b <> user_addr f a) ->
      load8 (mem mm') b = load8 (mem mm) b.
Proof.
  intros mm I Hu Hb Hf. exists (set_mem (put_bytes true f va src) mm).
  split_and!; [by apply copyout_loop_eq|by apply (put_bytes_inv _ tbl maps r)| |done|done|].
  - by apply (buf_bytes_put tbl maps r true).
  - intros b Hbb. rewrite mem_set_mem. by apply load8_put_out.
Qed.
End copies.

(** C16. What the kernel writes to user memory it reads back: over any range of
    private writable user pages, [copyout] returns, leaves exactly the given
    bytes there (also across page boundaries), changes no other byte of memory,
    no reference count, no translation and no other part of the kernel's state,
    and [copyin] of the same range then
    returns these bytes. *)
Theorem copyout_copyin {S} `{!Part S MM} (pageout : Z -> Z -> M S Z) tbl maps r f va src (s : S) :
  let mm := part s in
  pt_inv mm tbl maps -> tbl !! r = Some (Root r) ->
  user_range tbl maps r va (Z.of_nat (length src)) f -> Forall (fun b => 0 <= b < 2 ^ 8) src ->
  exists mm', copyout pageout (page2pa r) va src s = Ret tt (set_part mm' s) /\
    copyin pageout (page2pa r) va (Z.of_nat (length src)) (set_part mm' s) = Ret src (set_part mm' s) /\
    pt_inv mm' tbl maps /\
    freePages mm' = freePages mm /\ (forall q, ref mm' q = ref mm q) /\
    forall b, (forall a, va <= a < va + Z.of_nat (length src) -> b <> user_addr f a) ->
      load8 (mem mm') b = load8 (mem mm) b.
Proof.
  intros mm I Hr Hu Hb.
  destruct (copyout_loop_spec pageout tbl maps r f Hr (Datatypes.S (length src)) va src s I Hu Hb ltac:(lia))
    as (mm' & R1 & R2 & R3 & R4 & R5).
  exists mm'. split_and!; [done| |done|apply R4|apply R4|done].
  rewrite (copyin_spec pageout tbl maps r f Hr); rewrite ?part_set; [|done|done|lia].
  by rewrite Nat2Z.id, R3.
Qed.

Lemma copyout_copyin_witness :
  exists mm mm', copyout (fun _ _ => panic) (page2pa 200) 0x1ff0 [1; 2; 3] mm = Ret tt mm' /\
    copyin (fun _ _ => panic) (page2pa 200) 0x1ff0 3 mm' = Ret [1; 2; 3] mm'.
Proof.
  destruct (mm1_insert (Z.lor PTE_USER (Z.lor PTE_READ PTE_WRITE))) as (mm & tbl & _ & I & Hr & Hp);
    [vm_compute; split; [discriminate|reflexivity]|].
  set (e := new_pte (page2pa 300) (Z.lor PTE_USER (Z.lor PTE_READ PTE_WRITE))) in I.
  destruct (@copyout_copyin MM MM_MM (fun _ _ => panic) tbl (<[(200, 1) := e]> ∅) 200 (fun _ => 300) 0x1ff0 [1; 2; 3] mm
    I Hr) as (mm' & H1 & H2 & _).
  - assert (Hv : forall a, 0x1ff0 <= a < 0x1ff0 + 3 -> vpn a = 1)
      by (intros a Ha; unfold vpn; Z.to_euclidean_division_equations; lia).
    split_and!; [lia|vm_compute; discriminate| |].
    + intros a Ha. rewrite Hv by exact Ha. exists e.
      split_and!; [by rewrite lookup_insert_eq|vm_compute; reflexivity|exact Hp|vm_compute; discriminate|
        vm_compute; reflexivity].
    + intros a b Ha Hb _. rewrite !Hv; [reflexivity|exact Hb|exact Ha].
  - repeat constructor; lia.
  - exists mm, mm'. split; [exact H1|exact H2].
Defined.

(** Page 300 mapped privately at 0x1000 in directory 200. *)
Lemma user_ex : exists mm tbl maps, pt_inv mm tbl maps /\ tbl !! 200 = Some (Root 200) /\
  user_range tbl maps 200 0x1234 64 (fun _ => 300).
Proof.
  destruct (mm1_insert (Z.lor PTE_USER (Z.lor PTE_READ PTE_WRITE))) as (mm & tbl & _ & I & Hr & Hp);
    [vm_compute; split; [discriminate|reflexivity]|].
  exists mm, tbl, (<[(200, 1) := new_pte (page2pa 300) (Z.lor PTE_USER (Z.lor PTE_READ PTE_WRITE))]> ∅).
  assert (Hv : forall a, 0x1234 <= a < 0x1234 + 64 -> vpn a = 1)
    by (intros a Ha; unfold vpn; Z.to_euclidean_division_equations; lia).
  unfold user_range. split_and!; [exact I|exact Hr|lia|vm_compute; discriminate| |].
  - intros a Ha. rewrite Hv by exact Ha. eexists.
    split_and!; [by rewrite lookup_insert_eq|vm_compute; reflexivity|exact Hp|vm_compute; discriminate|vm_compute; reflexivity].
  - intros a b Ha Hb _. rewrite !Hv; [reflexivity|exact Hb|exact Ha].
Qed.
