(* ===== verification/FatFile.v ===== *)
(** * Fat.c: files, directories and paths

    Reading and writing files cluster by cluster, the directory tree and path
    lookup.  The operations run in any state that has the file system and the
    memory as parts; how user memory is reached and what the current process is
    comes through the interface [FsEnv].  Names and paths are the characters of a
    C string before the NUL; comparing the first [n] characters with [strncmp] is
    comparing prefixes (Strings.v).  Kernel addresses of local variables are
    arguments. *)

From S2P Require Import Prelude CType Mem Strings Config Queue Page Bio Fat.

(** What file operations need from the process that calls them. *)
Class FsEnv (S : Type) := {
  user_copyout : Z -> list Z -> M S unit;
  user_copyin : Z -> Z -> M S (list Z);
  user_memset : Z -> Z -> Z -> M S unit;
  my_cwd : M S Z;
  (** [ofile[fd]->ep], [None] when the descriptor is closed *)
  my_file_ep : Z -> M S (option Z);
}.

Definition ATTR_READ_ONLY : Z := 0x01.
Definition ATTR_DIRECTORY : Z := 0x10.
Definition ATTR_ARCHIVE : Z := 0x20.
Definition ATTR_LINK : Z := 0x40.
Definition ATTR_CHARACTER_DEVICE : Z := 0x80.
Definition LAST_LONG_ENTRY : Z := 0x40.
Definition FAT32_MAX_FILENAME : nat := 255.
Definition DT_LNK : Z := 10.
Definition T_DIR : Z := 1.
Definition T_FILE : Z := 2.
Definition T_LINK : Z := 4.
Definition T_CHAR : Z := 5.
Definition O_RDONLY : Z := 0.
Definition AT_FDCWD : Z := -100.
Definition NOFILE : Z := 1024.
Definition DEV_ZERO : Z := 10.
Definition DEV_OSRELEASE : Z := 12.
Definition DEV_NONE : Z := 15.

Definition has (a flag : Z) : bool := c_true (Z.land a flag).

(** ** Names *)

Definition illegal : list Z := [0x22; 0x2a; 0x2f; 0x3a; 0x3c; 0x3e; 0x3f; 0x5c; 0x7c].

Fixpoint skip_leading (name : list Z) : list Z :=
  match name with
  | c :: l => if (c =? 0x20) || (c =? 0x2e) then skip_leading l else name
  | [] => []
  end.

(** The scan from the end stops at the last character that is not a space. *)
Fixpoint trim_spaces (r : list Z) : list Z :=
  match r with c :: l => if c =? 0x20 then trim_spaces l else r | [] => [] end.

Definition formatname (name : list Z) : option (list Z) :=
  let name := skip_leading name in
  if existsb (fun c => (c <? 0x20) || bool_decide (c ∈ illegal)) name then None
  else
    match trim_spaces (reverse name) with
    | [] => Some name
    | r => Some (reverse r)
    end.

Definition cal_checksum (shortname : list Z) : Z :=
  fold_left (fun sum c => u8 ((if c_true (Z.land sum 1) then 0x80 else 0) + Z.shiftr sum 1 + c))
    (take 11 shortname) 0.

Fixpoint skip_slashes (path : list Z) : list Z :=
  match path with c :: l => if c =? 0x2f then skip_slashes l else path | [] => [] end.
Fixpoint elem_of_path (path : list Z) : list Z * list Z :=
  match path with
  | [] => ([], [])
  | c :: l => if c =? 0x2f then ([], path) else let '(e, r) := elem_of_path l in (c :: e, r)
  end.

(** The rest of the path and the name, [None] at the end of the path. *)
Definition skipelem (path : list Z) : option (list Z * list Z) :=
  let path := skip_slashes path in
  match path with
  | [] => None
  | _ => let '(e, rest) := elem_of_path path in
         Some (skip_slashes rest, take FAT32_MAX_FILENAME e)
  end.

(** [strncmp(a, b, FAT32_MAX_FILENAME) == 0] *)
Definition name_eq (a b : list Z) : bool := bool_decide (take FAT32_MAX_FILENAME a = take FAT32_MAX_FILENAME b).

Definition splice (pos : Z) (bs d : list Z) : list Z :=
  take (Z.to_nat pos) d ++ bs ++ drop (Z.to_nat pos + length bs) d.

Section files.
Context {S : Type} `{!Part S FatS} `{!Part S MM} `{!FsEnv S}.
Context (fs_read : Z -> Z -> M FatS (option Z)).

(** ** Process.c: copies that can go either way *)

Definition kstore (dst : Z) (bs : list Z) : M S unit := lift (modify (set_mem (store_bytes dst bs))).
Definition kload (src : Z) (n : Z) : M S (list Z) :=
  lift (gets (fun mm => load_bytes (mem mm) src (Z.to_nat n))).

Definition either_copyout (user_dst : bool) (dst : Z) (src : list Z) : M S Z :=
  if user_dst then user_copyout dst src ;; mret 0 else kstore dst src ;; mret 0.
Definition either_copyin (user_src : bool) (src len : Z) : M S (Z * list Z) :=
  bs ← (if user_src then user_copyin src len else kload src len); mret (0, bs).
Definition either_memset (user : bool) (dst value len : Z) : M S Z :=
  if user then user_memset dst value len ;; mret 0
  else lift (modify (set_mem (memset dst value len))) ;; mret 0.

Definition de (e : Z) : M S Dirent := lift (gets (fun s => getde s e)).
Definition upd_de (e : Z) (f : Dirent -> Dirent) : M S unit := lift (modify (setde e f)).
Definition get_sb (fs : Z) : M S superblock := lift (gets (fun s => sb s fs)).

(** ** Data *)

(** Local variables of the loop: [tot], [off], [data], [sec]. *)
Definition rw_step (fs : Z) (write user : bool) (n : Z) (l : Z * Z * Z * Z) :
    M S ((Z * Z * Z * Z) + Z) :=
  let '(tot, off, data_, sec) := l in
  if tot <? n then
    bp ← lift (read_block fs_read fs sec);
    let m := BSIZE - off mod BSIZE in
    let m := if n - tot <? m then n - tot else m in
    bad ← (if write then
             r ← either_copyin user data_ m;
             lift (lift (buf_update bp (splice (off mod BSIZE) (snd r)))) ;;
             when (negb (fst r =? -1)) (lift (lift (bwrite bp))) ;;
             mret (fst r)
           else
             d ← lift (buf_data bp);
             either_copyout user data_ (take (Z.to_nat m) (drop (Z.to_nat (off mod BSIZE)) d)));
    lift (lift (brelse bp)) ;;
    if bad =? -1 then mret (inr tot)
    else mret (inl (tot + m, u32 (off + m), u64 (data_ + m), u32 (sec + 1)))
  else mret (inr tot).

Definition rw_clus (fs cluster : Z) (write user : bool) (data_ off n : Z) : M S Z :=
  b ← get_sb fs;
  if u32 (off + n) >? byts_per_clus b then panic
  else
    let sec := u32 (first_sec_of_clus b cluster + off / byts_per_sec b) in
    loop (Datatypes.S (Z.to_nat n)) (rw_step fs write user n) (0, off mod byts_per_sec b, data_, sec).

(** "10.2.0" and its NUL *)
Definition osrelease : list Z := [0x31; 0x30; 0x2e; 0x32; 0x2e; 0x30; 0].

Definition eread_step (fs entry : Z) (user_dst : bool) (n : Z) (l : Z * Z * Z) : M S ((Z * Z * Z) + Z) :=
  let '(tot, off, dst) := l in
  d ← de entry;
  if (cur_clus d <? FAT32_EOC) && (tot <? n) then
    lift (reloc_clus fs_read fs entry off false) ;;
    b ← get_sb fs;
    let m := byts_per_clus b - off mod byts_per_clus b in
    let m := if n - tot <? m then n - tot else m in
    d ← de entry;
    k ← rw_clus fs (cur_clus d) false user_dst dst (off mod byts_per_clus b) m;
    if negb (k =? m) then mret (inr tot)
    else mret (inl (tot + m, u32 (off + m), u64 (dst + m)))
  else mret (inr tot).

Definition eread (entry : Z) (user_dst : bool) (dst off n : Z) : M S Z :=
  d ← de entry;
  if de_dev d =? DEV_ZERO then
    r ← either_memset user_dst dst 0 n; if r =? 0 then mret n else panic
  else if de_dev d =? DEV_OSRELEASE then
    r ← either_copyout user_dst dst osrelease; if r =? 0 then mret 7 else panic
  else if (off >? file_size d) || (u32 (off + n) <? off) || has (attribute d) ATTR_DIRECTORY then mret 0
  else
    let n := if u32 (off + n) >? file_size d then file_size d - off else n in
    loop (Datatypes.S (Z.to_nat n)) (eread_step (fileSystem d) entry user_dst n) (0, off, dst).

Definition ewrite_step (fs entry : Z) (user_src : bool) (n : Z) (l : Z * Z * Z) :
    M S ((Z * Z * Z) + Z * Z) :=
  let '(tot, off, src) := l in
  if tot <? n then
    lift (reloc_clus fs_read fs entry off true) ;;
    b ← get_sb fs;
    let m := byts_per_clus b - off mod byts_per_clus b in
    let m := if n - tot <? m then n - tot else m in
    d ← de entry;
    k ← rw_clus fs (cur_clus d) true user_src src (off mod byts_per_clus b) m;
    if negb (k =? m) then mret (inr (tot, off))
    else mret (inl (tot + m, u32 (off + m), u64 (src + m)))
  else mret (inr (tot, off)).

Definition ewrite (entry : Z) (user_src : bool) (src off n : Z) : M S Z :=
  d ← de entry;
  if de_dev d =? DEV_NONE then mret n
  else if (u32 (off + n) <? off) || (off + n >? 0xffffffff) || has (attribute d) ATTR_READ_ONLY then mret (-1)
  else
    let fs := fileSystem d in
    when (first_clus d =? 0)
      (c ← lift (alloc_clus fs_read fs);
       upd_de entry (fun d => with_file c (file_size d)
         (with_pos c 0 (with_index 1 (<[0%nat := c]> (inode d)) d)))) ;;
    r ← loop (Datatypes.S (Z.to_nat n)) (ewrite_step fs entry user_src n) (0, off, src);
    let '(tot, off) := r in
    when (n >? 0)
      (d ← de entry;
       when (off >? file_size d) (upd_de entry (fun d => with_file (first_clus d) off d))) ;;
    mret tot.

(** ** Directories *)

(** At most [DIRENT_NUM] entries can be linked. *)
Definition DIR_FUEL : nat := Z.to_nat (DIRENT_NUM + 1).

Definition find_child (filename_ : list Z) (first : Z) : M S Z :=
  loop DIR_FUEL (fun ep =>
    if ep =? 0 then mret (inr 0)
    else
      d ← de ep;
      if name_eq (filename d) filename_ then mret (inr ep) else mret (inl (nextBrother d))) first.

Definition dirlookup (dp : Z) (name : list Z) : M S Z :=
  d ← de dp;
  if negb (has (attribute d) ATTR_DIRECTORY) then panic
  else if name_eq name [0x2e] then mret dp
  else if name_eq name [0x2e; 0x2e] then
    if dp =? root_of (fileSystem d) then mret (root_of (fileSystem d)) else mret (parent d)
  else find_child name (firstChild d).

Definition ealloc (dp : Z) (name : list Z) (attr : Z) : M S Z :=
  d ← de dp;
  if negb (has (attribute d) ATTR_DIRECTORY) then panic
  else
    ep ← dirlookup dp name;
    if negb (ep =? 0) then mret ep
    else
      ep ← lift direntAlloc;
      let '(at_, nt) := if attr =? ATTR_LINK then (0, DT_LNK) else (u8 attr, 0) in
      upd_de ep (fun e => with_file 0 0 (with_meta (filename e) at_ nt (fileSystem e) (de_off e) e)) ;;
      lift (eFreeInode ep) ;;
      d ← de dp;
      upd_de ep (fun e => with_links dp (firstChild d) (firstChild e) e) ;;
      upd_de dp (fun e => with_links (parent e) (nextBrother e) ep e) ;;
      upd_de ep (with_pos 0 0) ;;
      upd_de ep (fun e => with_meta (take FAT32_MAX_FILENAME name) (attribute e) (nt_res e)
                            (fileSystem d) (de_off e) e) ;;
      (if attr =? ATTR_DIRECTORY then
         upd_de ep (fun e => with_meta (filename e) (Z.lor (attribute e) ATTR_DIRECTORY) (nt_res e)
                               (fileSystem e) (de_off e) e) ;;
         c ← lift (alloc_clus fs_read (fileSystem d));
         upd_de ep (fun e => with_file c (file_size e)
           (with_pos c (clus_cnt e) (with_index 1 (<[0%nat := c]> (inode e)) e)))
       else
         upd_de ep (fun e => with_meta (filename e) (Z.lor (attribute e) ATTR_ARCHIVE) (nt_res e)
                               (fileSystem e) (de_off e) e)) ;;
      mret ep.

Definition eremove (entry : Z) : M S unit :=
  d ← de entry;
  assert (negb (parent d =? 0)) ;;
  p ← de (parent d);
  (if firstChild p =? entry then
     upd_de (parent d) (fun e => with_links (parent e) (nextBrother e) (nextBrother d) e)
   else
     loop DIR_FUEL (fun i =>
       assert (negb (i =? 0)) ;;
       di ← de i;
       if nextBrother di =? 0 then mret (inr tt)
       else if nextBrother di =? entry then
         upd_de i (fun e => with_links (parent e) (nextBrother d) (firstChild e) e) ;; mret (inr tt)
       else mret (inl (nextBrother di))) (firstChild p)) ;;
  lift (direntFree entry).

(** ** Times and status *)

(** The short-name entry of [entry] on disk: its 32 bytes are read to [de_]; the
    cluster and the offset in it.  [cnt] is the address of [entcnt]. *)
Definition read_dentry (entry cnt de_ : Z) : M S (Z * Z) :=
  d ← de entry;
  let fs := fileSystem d in
  kstore cnt [0; 0; 0; 0] ;;
  off ← lift (reloc_clus fs_read fs (parent d) (de_off d) false);
  p ← de (parent d);
  rw_clus fs (cur_clus p) false false cnt (u32 off) 1 ;;
  e ← lift (gets (fun mm => load32 (mem mm) cnt));
  let entcnt := Z.land e (u32 (Z.lnot LAST_LONG_ENTRY)) in
  off ← lift (reloc_clus fs_read fs (parent d) (u32 (de_off d + u32 (Z.shiftl entcnt 5))) false);
  p ← de (parent d);
  rw_clus fs (cur_clus p) false false de_ (u32 off) 32 ;;
  mret (cur_clus p, u32 off).

Definition UTIME_NOW : Z := Z.shiftl 1 30 - 1.
Definition UTIME_OMIT : Z := Z.shiftl 1 30 - 2.

(** Little-endian fields of a directory entry, by offset and width. *)
Definition put_field (off : nat) (bs : list Z) (d : list Z) : list Z := splice (Z.of_nat off) bs d.
Definition le16 (v : Z) : list Z := [u8 v; u8 (Z.shiftr v 8)].

(** [ts]: the two (second, nanoSecond) pairs; [time] is [r_time()]. *)
Definition eSetTime (entry cnt de_ time : Z) (ts : (Z * Z) * (Z * Z)) : M S unit :=
  r ← read_dentry entry cnt de_;
  let '(clus, off) := r in
  bs ← kload de_ 32;
  let now := time / 1000000 in
  let '((s0, n0), (s1, n1)) := ts in
  let bs :=
    if n0 =? UTIME_OMIT then bs
    else let s0 := if n0 =? UTIME_NOW then now else s0 in
      put_field 13 [u8 (Z.land (Z.shiftr s0 32) 0xff)]
        (put_field 14 (le16 (Z.land (Z.shiftr s0 16) 0xffff)) (put_field 16 (le16 (Z.land s0 0xffff)) bs)) in
  let bs :=
    if n1 =? UTIME_OMIT then bs
    else let s1 := if n1 =? UTIME_NOW then now else s1 in
      put_field 18 (le16 (Z.land (Z.shiftr s1 32) 0xffff))
        (put_field 22 (le16 (Z.land (Z.shiftr s1 16) 0xffff)) (put_field 24 (le16 (Z.land s1 0xffff)) bs)) in
  kstore de_ bs ;;
  d ← de entry;
  p ← de (parent d);
  rw_clus (fileSystem d) (cur_clus p) true false de_ off 32 ;;
  mret tt.

Record stat := mkStat {
  st_dev : Z; st_size : Z; st_ino : Z; st_mode : Z; st_blksize : Z; st_blocks : Z;
  st_atime_sec : Z; st_mtime_sec : Z;
}.

Definition REG_TYPE : Z := 0x8000.
Definition DIR_TYPE : Z := 0x4000.
Definition CHR_TYPE : Z := 0x2000.

(** The remaining fields are constants: one link, the rest zero. *)
Definition estat (ep cnt de_ : Z) : M S stat :=
  d ← de ep;
  b ← get_sb (fileSystem d);
  let mode := if has (attribute d) ATTR_DIRECTORY then DIR_TYPE
              else if has (attribute d) ATTR_CHARACTER_DEVICE then CHR_TYPE else REG_TYPE in
  let st := mkStat (de_dev d) (file_size d) (ep - 1) mode (byts_per_sec b) (file_size d / byts_per_sec b) in
  if negb (parent d =? 0) then
    read_dentry ep cnt de_ ;;
    bs ← kload de_ 32;
    let w i := get8 bs i + 256 * get8 bs (i + 1) in
    mret (st (Z.shiftl (get8 bs 13) 32 + Z.shiftl (w 14) 16 + w 16)
             (Z.shiftl (w 18) 32 + Z.shiftl (w 22) 16 + w 24))
  else mret (st 0 0).

(** ** Paths *)

(** The C string at a kernel address, [fuel] bytes at most. *)
Fixpoint kstr (fuel : nat) (a : Z) : M S (list Z) :=
  match fuel with
  | O => fun _ => NoFuel
  | Datatypes.S fuel =>
      c ← lift (gets (fun mm => load8 (mem mm) a));
      if c_true c then rest ← kstr fuel (a + 1); mret (c :: rest) else mret []
  end.

(** [jumpToLinkDirent] and [lookup_path] call each other; [fuel] bounds the
    nesting and the length of chains of links, [buf] is the address of the buffer
    the text of a link is read into, [rootfs] is [rootFileSystem].  The result is
    the entry, NULL (0) when there is none, and the last name [skipelem] wrote. *)
Fixpoint lookup_path (fuel : nat) (buf_ rootfs fd : Z) (path : list Z) (parent_ jump : bool) :
    M S (Z * list Z) :=
  match fuel with
  | O => fun _ => NoFuel
  | Datatypes.S fuel =>
      let jumpToLinkDirent (link : Z) : M S Z :=
        loop fuel (fun link =>
          if link =? 0 then panic
          else
            d ← de link;
            if nt_res d =? DT_LNK then
              eread link false buf_ 0 255 ;;
              p ← kstr fuel buf_;
              r ← lookup_path fuel buf_ rootfs AT_FDCWD p false true;
              mret (inl (fst r))
            else mret (inr link)) link in
      let slash := match path with c :: _ => c =? 0x2f | [] => false end in
      start ← (if negb slash && negb (fd =? AT_FDCWD) && (0 <=? fd) && (fd <? NOFILE) then my_file_ep fd
               else if slash then mret (Some (root_of rootfs))
               else if negb (bool_decide (path = [])) && (fd =? AT_FDCWD) then c ← my_cwd; mret (Some c)
               else mret None);
      match start with
      | None => mret (0, [])
      | Some start =>
          r ← loop (Datatypes.S (length path)) (fun l : Z * list Z * list Z =>
            let '(entry, path, name) := l in
            match skipelem path with
            | None => mret (inr (entry, name, true))
            | Some (path, name) =>
                entry ← jumpToLinkDirent entry;
                d ← de entry;
                if negb (has (attribute d) ATTR_DIRECTORY) then mret (inr (0, name, false))
                else
                  let entry := if de_head d =? 0 then entry else root_of (de_head d) in
                  if parent_ && bool_decide (path = []) then mret (inr (entry, name, false))
                  else
                    next ← dirlookup entry name;
                    if next =? 0 then mret (inr (0, name, false)) else mret (inl (next, path, name))
            end) (start, path, []);
          let '(entry, name, at_end) := r in
          if (at_end : bool) then
            entry ← (if jump then jumpToLinkDirent entry else mret entry);
            mret (if parent_ then (0, name) else (entry, name))
          else mret (entry, name)
      end
  end.

Definition ename (fuel : nat) (buf_ rootfs fd : Z) (path : list Z) (jump : bool) : M S Z :=
  r ← lookup_path fuel buf_ rootfs fd path false jump; mret (fst r).
Definition enameparent (fuel : nat) (buf_ rootfs fd : Z) (path : list Z) : M S (Z * list Z) :=
  lookup_path fuel buf_ rootfs fd path true true.

Definition create (fuel : nat) (buf_ rootfs fd : Z) (path : list Z) (type mode : Z) : M S Z :=
  r ← enameparent fuel buf_ rootfs fd path;
  let '(dp, name) := r in
  if dp =? 0 then mret 0
  else
    let mode := if type =? T_DIR then ATTR_DIRECTORY
                else if type =? T_LINK then ATTR_LINK
                else if type =? T_CHAR then ATTR_CHARACTER_DEVICE
                else if c_true (Z.land mode O_RDONLY) then ATTR_READ_ONLY else 0 in
    ep ← ealloc dp name mode;
    if ep =? 0 then mret 0
    else
      d ← de ep;
      if ((type =? T_DIR) && negb (has (attribute d) ATTR_DIRECTORY)) ||
         ((type =? T_FILE) && has (attribute d) ATTR_DIRECTORY) then mret 0
      else mret ep.
End files.
