(* ===== verification/BlockStore.v ===== *)
(** * Clusters on a block store

    The interface [BlockStore] states what the file system needs from the block
    reader: the sectors of a working set can be read, changed and released one at a
    time, and no other sector of the device changes.  [rw_clus] is proved against
    the interface, for buffers of the kernel and of the user, and the buffer cache
    (Bio.v) implements it for every working set of which a group of the cache has no
    more sectors than buffers: 16, wherever they are on the device.  Beyond that a
    write can be lost (Bio.v). *)

From S2P Require Import Prelude CType Mem Config Queue Page PageInv PageSpec UserCopy Bio Fat FatFile.

(** Changing the data of a held buffer and releasing it. *)
Definition put_block (b : Z) (f : list Z -> list Z) : M FatS unit :=
  lift (buf_update b f) ;; lift (bwrite b) ;; lift (brelse b).

(** [view s n] is the content of sector [n]; [dom] is the working set; [ok] holds between
    accesses. *)
Class BlockStore (rd : Z -> Z -> M FatS (option Z)) (fs : Z) (dom : Z -> Prop)
    (ok : FatS -> Prop) (view : FatS -> Z -> list Z) := {
  bs_len : forall s n, ok s -> length (view s n) = 512%nat;
  bs_read : forall s n, ok s -> dom n -> exists b s1,
    rd fs n s = Ret (Some b) s1 /\ data (getbuf (bio s1) b) = view s n /\ fss s1 = fss s /\
    (exists s2, lift (brelse b) s1 = Ret tt s2 /\ ok s2 /\ fss s2 = fss s /\
       forall k, view s2 k = view s k) /\
    (forall f, length (f (view s n)) = 512%nat ->
       exists s2, put_block b f s1 = Ret tt s2 /\ ok s2 /\ fss s2 = fss s /\
       view s2 n = f (view s n) /\ forall k, k <> n -> view s2 k = view s k);
  bs_frame : forall s n b s1, ok s -> rd fs n s = Ret (Some b) s1 -> s1 = set_bio (bio s1) s;
}.

(** ** File system and memory together *)

Record FK := mkFK { fk_fat : FatS; fk_mm : MM }.

#[export] Instance FK_FatS : Part FK FatS := {|
  part := fk_fat;
  set_part := fun t s => mkFK t (fk_mm s);
  part_set := fun _ _ => eq_refl;
  set_part_set := fun _ _ _ => eq_refl;
  set_part_part := fun s => match s with mkFK _ _ => eq_refl end;
|}.
#[export] Instance FK_MM : Part FK MM := {|
  part := fk_mm;
  set_part := fun t s => mkFK (fk_fat s) t;
  part_set := fun _ _ => eq_refl;
  set_part_set := fun _ _ _ => eq_refl;
  set_part_part := fun s => match s with mkFK _ _ => eq_refl end;
|}.

(** The process that makes the call: its page directory, and how its pages are brought in. *)
Class Caller := { caller_pageout : Z -> Z -> M FK Z; caller_dir : Z }.
#[export] Instance FK_env `{!Caller} : FsEnv FK := {|
  user_copyout := copyout caller_pageout (page2pa caller_dir);
  user_copyin := copyin caller_pageout (page2pa caller_dir);
  user_memset := memsetOut caller_pageout (page2pa caller_dir);
  my_cwd := panic;
  my_file_ep := fun _ => panic;
|}.

Lemma lift_fat {A} (m : M FatS A) F mm a F' : m F = Ret a F' -> lift m (mkFK F mm) = Ret a (mkFK F' mm).
Proof. intros H. by rewrite (lift_Ret m (mkFK F mm) a F'). Qed.
Lemma lift_mm {A} (m : M MM A) F mm a mm' : m mm = Ret a mm' -> lift m (mkFK F mm) = Ret a (mkFK F mm').
Proof. intros H. by rewrite (lift_Ret m (mkFK F mm) a mm'). Qed.
Lemma lift_bio_frame {A} (m : M BState A) F a F' : lift m F = Ret a F' -> F' = set_bio (bio F') F.
Proof. unfold lift. destruct (m (part F)); cbn [olift]; try done. by intros [= <- <-]. Qed.

(** Only the cache changed. *)
Definition cached (F F' : FatS) : Prop := F' = set_bio (bio F') F.
Lemma cached_refl F : cached F F.
Proof. by destruct F. Qed.
Lemma cached_trans F F1 F2 : cached F F1 -> cached F1 F2 -> cached F F2.
Proof. unfold cached. intros E1 E2. rewrite E2, E1. done. Qed.
Lemma cached_fss F F' : cached F F' -> fss F' = fss F.
Proof. by intros ->. Qed.

Lemma put_block_frame bp f F F' : put_block bp f F = Ret tt F' -> cached F F'.
Proof.
  unfold put_block. intros Hp. apply bind_Ret_inv in Hp as ([] & sa & Ha & Hp).
  apply bind_Ret_inv in Hp as ([] & sb' & Hb & Hrel). apply lift_bio_frame in Ha, Hb, Hrel.
  eapply cached_trans; [exact Ha|]. by eapply cached_trans.
Qed.
Lemma put_block_then {A} bp f F F' (k : M FatS A) : put_block bp f F = Ret tt F' ->
  (lift (buf_update bp f) ;; lift (bwrite bp) ;; lift (brelse bp) ;; k) F = k F'.
Proof.
  unfold put_block. intros Hp. apply bind_Ret_inv in Hp as ([] & sa & Ha & Hp).
  apply bind_Ret_inv in Hp as ([] & sb' & Hb & Hrel).
  by rewrite (bind_Ret _ _ _ _ _ Ha), (bind_Ret _ _ _ _ _ Hb), (bind_Ret _ _ _ _ _ Hrel).
Qed.

Lemma lift_bio {A} (m : M BState A) F a B : m (bio F) = Ret a B -> lift m F = Ret a (set_bio B F).
Proof. intros H. by rewrite (lift_Ret m F a B). Qed.

Lemma length_splice pos bs d :
  0 <= pos -> (Z.to_nat pos + length bs <= length d)%nat -> length (splice pos bs d) = length d.
Proof. intros. unfold splice. rewrite !length_app, length_take, length_drop. lia. Qed.

Lemma lookup_splice pos bs d i :
  0 <= pos -> (Z.to_nat pos + length bs <= length d)%nat ->
  splice pos bs d !! i =
    if decide (Z.to_nat pos <= i < Z.to_nat pos + length bs)%nat then bs !! (i - Z.to_nat pos)%nat else d !! i.
Proof.
  intros Hp Hl. unfold splice. destruct (decide (i < Z.to_nat pos)%nat).
  { rewrite lookup_app_l by (rewrite length_take; lia). rewrite lookup_take_lt by done.
    by rewrite decide_False by lia. }
  rewrite lookup_app_r by (rewrite length_take; lia). rewrite length_take, Nat.min_l by lia.
  destruct (decide (i < Z.to_nat pos + length bs)%nat).
  - rewrite lookup_app_l by lia. by rewrite decide_True by lia.
  - rewrite lookup_app_r, lookup_drop by lia. rewrite decide_False by lia. f_equal. lia.
Qed.

(** ** The buffer of a transfer *)

(** The [n] bytes at [a] in the kernel, or in private pages of the caller. *)
Definition io_buffer `{!Caller} (isUser : bool) (tbl : gmap Z owner) (maps : gmap (Z * Z) Z) (f : Z -> Z) (mm : MM) (a n : Z) : Prop :=
  0 <= a /\ a + n < 2 ^ 64 /\ buffer isUser tbl maps caller_dir a n f /\
  (isUser = true -> pt_inv mm tbl maps /\ tbl !! caller_dir = Some (Root caller_dir)).

Section io.
Context {CA : Caller} (isUser : bool) (tbl : gmap Z owner) (maps : gmap (Z * Z) Z) (f : Z -> Z).
Local Notation io_buffer := (io_buffer isUser tbl maps f).

Lemma io_buffer_sub mm a n a' n' : io_buffer mm a n -> a <= a' -> a' + n' <= a + n -> io_buffer mm a' n'.
Proof. intros (H1 & H2 & H3 & H4) Hl Hh. split_and!; [lia|lia|by eapply buffer_sub|done]. Qed.

Lemma io_buffer_put mm a n a' bs : io_buffer mm a n -> a <= a' -> a' + Z.of_nat (length bs) <= a + n ->
  io_buffer (set_mem (put_bytes isUser f a' bs) mm) a n.
Proof.
  intros (H1 & H2 & H3 & H4) Hl Hh. split_and!; [done|done|done|]. intros Eu. destruct (H4 Eu) as [I Hr]. split; [|done].
  subst isUser. apply (put_bytes_inv _ tbl maps caller_dir); [done|]. eapply user_range_sub; [exact H3|lia|lia].
Qed.

Lemma copyin_run F mm a n : io_buffer mm a n -> 0 <= n ->
  either_copyin isUser a n (mkFK F mm) = Ret (0, buf_bytes isUser mm f a (Z.to_nat n)) (mkFK F mm).
Proof.
  intros (H1 & H2 & H3 & H4) Hn. unfold either_copyin. destruct isUser.
  - destruct (H4 eq_refl) as [I Hr].
    exact (bind_Ret _ _ _ _ _ (@copyin_spec FK FK_MM caller_pageout tbl maps caller_dir f Hr (mkFK F mm) a n I H3 Hn)).
  - rewrite buf_bytes_kernel. done.
Qed.

Lemma copyout_run F mm a bs : io_buffer mm a (Z.of_nat (length bs)) ->
  either_copyout isUser a bs (mkFK F mm) = Ret 0 (mkFK F (set_mem (put_bytes isUser f a bs) mm)).
Proof.
  intros (H1 & H2 & H3 & H4). unfold either_copyout. destruct isUser.
  - destruct (H4 eq_refl) as [I Hr].
    exact (bind_Ret _ _ _ _ _ (@copyout_loop_eq FK FK_MM caller_pageout tbl maps caller_dir f Hr (S (length bs)) a bs
      (mkFK F mm) I H3 ltac:(lia))).
  - assert (E : set_mem (put_bytes false f a bs) mm = set_mem (store_bytes a bs) mm)
      by (unfold set_mem; by rewrite put_bytes_kernel).
    by rewrite E.
Qed.
End io.

(** The values of [g] at [o .. o + n). *)
Definition bytes_at (g : Z -> Z) (o n : Z) : list Z := map g (seqZ o n).
Lemma length_bytes_at g o n : length (bytes_at g o n) = Z.to_nat n.
Proof. unfold bytes_at. by rewrite length_map, length_seqZ. Qed.
Lemma bytes_at_app g o m n : 0 <= m -> 0 <= n -> bytes_at g o (m + n) = bytes_at g o m ++ bytes_at g (o + m) n.
Proof. intros. unfold bytes_at. by rewrite seqZ_app, map_app by lia. Qed.
Lemma bytes_at_lookup g o n i : (i < Z.to_nat n)%nat -> bytes_at g o n !! i = Some (g (o + Z.of_nat i)).
Proof. intros. unfold bytes_at. rewrite list_lookup_fmap, lookup_seqZ_lt by lia. done. Qed.
Lemma bytes_at_ext g h o n : (forall i, o <= i < o + n -> g i = h i) -> bytes_at g o n = bytes_at h o n.
Proof. intros H. apply map_ext_in. intros i Hi%list_elem_of_In%elem_of_seqZ. apply H. lia. Qed.
Lemma bytes_at_zero g o : bytes_at g o 0 = [].
Proof. done. Qed.

Section clusters.
Context (rd : Z -> Z -> M FatS (option Z)) (fs : Z) (dom : Z -> Prop) (ok : FatS -> Prop)
  (view : FatS -> Z -> list Z) `{!BlockStore rd fs dom ok view}.
Context {CA : Caller} (isUser : bool) (tbl : gmap Z owner) (maps : gmap (Z * Z) Z) (f : Z -> Z).
Local Notation io_buffer := (io_buffer isUser tbl maps f).
Local Notation addr a := (buf_addr isUser f a).

(** One iteration of the loop of [rw_clus], on one sector. *)
Definition chunk (p n : Z) : Z := if n <? 512 - p mod 512 then n else 512 - p mod 512.

Lemma chunk_range p n : 0 < n -> 0 < chunk p n <= n /\ p mod 512 + chunk p n <= 512.
Proof.
  intros. unfold chunk. pose proof (Z.mod_pos_bound p 512 ltac:(lia)). destruct (Z.ltb_spec n (512 - p mod 512)); lia.
Qed.

Lemma read_block_eq F n b s1 : rd fs n F = Ret (Some b) s1 -> read_block rd fs n F = Ret b s1.
Proof. intros H. unfold read_block. by rewrite (bind_Ret _ _ _ _ _ H). Qed.

Lemma rw_step_write F mm n tot off data_ sec :
  ok F -> dom sec -> 0 <= tot < n -> io_buffer mm data_ (n - tot) ->
  exists F', let m := chunk off (n - tot) in
    rw_step rd fs true isUser n (tot, off, data_, sec) (mkFK F mm) =
      Ret (inl (tot + m, u32 (off + m), u64 (data_ + m), u32 (sec + 1))) (mkFK F' mm) /\
    ok F' /\ cached F F' /\
    view F' sec = splice (off mod 512) (buf_bytes isUser mm f data_ (Z.to_nat m)) (view F sec) /\
    forall k, k <> sec -> view F' k = view F k.
Proof.
  intros Ho Hd Ht Hbuf. destruct (bs_read F sec Ho Hd) as (b & s1 & Hr & Hdat & _ & _ & Hput).
  pose proof (bs_frame _ _ _ _ Ho Hr) as Hfr.
  destruct (chunk_range off (n - tot) ltac:(lia)) as [Hc Hfit]. set (m := chunk off (n - tot)) in *.
  set (bs := buf_bytes isUser mm f data_ (Z.to_nat m)).
  pose proof (Z.mod_pos_bound off 512 ltac:(lia)) as Hmod.
  pose proof (bs_len (view := view) F sec Ho) as Hlen.
  destruct (Hput (splice (off mod 512) bs)) as (s2 & Hp & Hok2 & _ & Hv & Hk).
  { rewrite length_splice; [done|lia|]. unfold bs. rewrite length_buf_bytes. lia. }
  exists s2. cbv zeta. fold m. split_and!; [|done|exact (cached_trans _ _ _ Hfr (put_block_frame _ _ _ _ Hp))|done|done].
  unfold put_block in Hp. apply bind_Ret_inv in Hp as ([] & sa & Ha & Hp).
  apply bind_Ret_inv in Hp as ([] & sb' & Hb & Hrel).
  unfold rw_step. rewrite (proj2 (Z.ltb_lt tot n)) by lia. change BSIZE with 512.
  fold (chunk off (n - tot)). fold m.
  rewrite (bind_Ret _ _ _ _ _ (lift_fat _ F mm _ _ (read_block_eq _ _ _ _ Hr))).
  assert (Hin : (r ← either_copyin isUser data_ m;
             lift (lift (buf_update b (splice (off mod 512) (snd r)))) ;;
             when (negb (fst r =? -1)) (lift (lift (bwrite b))) ;;
             mret (fst r)) (mkFK s1 mm) = Ret 0 (mkFK sb' mm)).
  { pose proof (copyin_run isUser tbl maps f s1 mm data_ m ltac:(by eapply io_buffer_sub; [exact Hbuf|lia|lia]) ltac:(lia)) as Hc2.
    rewrite (bind_Ret _ _ _ _ _ Hc2). cbn [fst snd].
    rewrite (bind_Ret _ _ _ _ _ (lift_fat _ s1 mm _ _ Ha)). change (negb (0 =? -1)) with true. unfold when.
    by rewrite (bind_Ret _ _ _ _ _ (lift_fat _ sa mm _ _ Hb)). }
  rewrite (bind_Ret _ _ _ _ _ Hin), (bind_Ret _ _ _ _ _ (lift_fat _ sb' mm _ _ Hrel)). done.
Qed.

Lemma rw_step_read F mm n tot off data_ sec :
  ok F -> dom sec -> 0 <= tot < n -> io_buffer mm data_ (n - tot) ->
  exists F', let m := chunk off (n - tot) in
    rw_step rd fs false isUser n (tot, off, data_, sec) (mkFK F mm) =
      Ret (inl (tot + m, u32 (off + m), u64 (data_ + m), u32 (sec + 1)))
        (mkFK F' (set_mem (put_bytes isUser f data_ (take (Z.to_nat m) (drop (Z.to_nat (off mod 512)) (view F sec)))) mm)) /\
    ok F' /\ cached F F' /\ forall k, view F' k = view F k.
Proof.
  intros Ho Hd Ht Hbuf. destruct (bs_read F sec Ho Hd) as (b & s1 & Hr & Hdat & _ & (s2 & Hrel & Hok2 & _ & Hk) & _).
  pose proof (bs_frame _ _ _ _ Ho Hr) as Hfr.
  exists s2. cbv zeta. set (m := chunk off (n - tot)). split_and!; [|done| |done].
  2: { eapply cached_trans; [exact Hfr|exact (lift_bio_frame _ _ _ _ Hrel)]. }
  unfold rw_step. rewrite (proj2 (Z.ltb_lt tot n)) by lia. change BSIZE with 512.
  fold (chunk off (n - tot)). fold m.
  rewrite (bind_Ret _ _ _ _ _ (lift_fat _ F mm _ _ (read_block_eq _ _ _ _ Hr))).
  set (bs := take (Z.to_nat m) (drop (Z.to_nat (off mod 512)) (view F sec))).
  assert (Hin : (d ← lift (buf_data b);
             either_copyout isUser data_ (take (Z.to_nat m) (drop (Z.to_nat (off mod 512)) d))) (mkFK s1 mm)
            = Ret 0 (mkFK s1 (set_mem (put_bytes isUser f data_ bs) mm))).
  { rewrite (bind_Ret _ _ _ _ _ (lift_fat (buf_data b) s1 mm _ _ eq_refl)). rewrite Hdat.
    apply copyout_run with (tbl := tbl) (maps := maps). eapply io_buffer_sub; [exact Hbuf|lia|].
    destruct (chunk_range off (n - tot) ltac:(lia)) as [Hc _]. unfold bs. rewrite length_take. lia. }
  rewrite (bind_Ret _ _ _ _ _ Hin), (bind_Ret _ _ _ _ _ (lift_fat _ s1 _ _ _ Hrel)). done.
Qed.

(** ** Whole transfers

    Byte [i] of the cluster whose first sector is [first]. *)
Definition clus_byte (F : FatS) (first i : Z) : option Z := view F (first + i / 512) !! Z.to_nat (i mod 512).

(** The sectors of the cluster are in the store. *)
Definition clus_ok (first size : Z) : Prop :=
  0 <= first /\ first + size / 512 < 2 ^ 32 /\ 0 <= size < 2 ^ 31 /\ forall i, 0 <= i < size -> dom (first + i / 512).

Lemma chunk_next p n : 0 <= p -> 0 < n -> chunk p n < n -> (p + chunk p n) mod 512 = 0.
Proof.
  intros Hp Hn. unfold chunk. destruct (Z.ltb_spec n (512 - p mod 512)); [lia|]. intros _.
  Z.to_euclidean_division_equations; lia.
Qed.

Lemma chunk_sector p n i : 0 <= p -> 0 < n -> p <= i < p + chunk p n -> i / 512 = p / 512 /\ i mod 512 = p mod 512 + (i - p).
Proof.
  intros Hp Hn Hi. destruct (chunk_range p n Hn) as [_ H]. Z.to_euclidean_division_equations; lia.
Qed.

(** Where the loop stands after a chunk. *)
Lemma next_sector first p n :
  0 <= first -> 0 <= p -> 0 < n -> chunk p n < n -> first + p / 512 + 1 < 2 ^ 32 ->
  u32 (u32 (first + p / 512) + 1) = u32 (first + (p + chunk p n) / 512).
Proof.
  intros Hf Hp Hn Hc Hb. pose proof (Z.div_pos p 512 Hp ltac:(lia)) as Hd.
  unfold u32. rewrite (Z.mod_small (first + p / 512)) by lia. f_equal.
  unfold chunk in *. destruct (Z.ltb_spec n (512 - p mod 512)); [lia|].
  Z.to_euclidean_division_equations; lia.
Qed.

Lemma rw_write_loop first size n o src mm fuel : forall tot off data_ sec F,
  clus_ok first size -> 0 <= o -> o + n <= size -> io_buffer mm src n ->
  ok F -> 0 <= tot <= n -> n - tot < Z.of_nat fuel ->
  data_ = src + tot -> 0 <= off < 2 ^ 31 + tot -> off mod 512 = (o + tot) mod 512 ->
  (tot < n -> sec = u32 (first + (o + tot) / 512)) ->
  exists F', loop fuel (rw_step rd fs true isUser n) (tot, off, data_, sec) (mkFK F mm)
      = Ret n (mkFK F' mm) /\ ok F' /\ cached F F' /\
    (forall i, 0 <= i < size -> clus_byte F' first i =
       if decide (o + tot <= i < o + n) then Some (load8 (mem mm) (addr (src + (i - o)))) else clus_byte F first i) /\
    (forall k, (forall i, 0 <= i < size -> k <> first + i / 512) -> view F' k = view F k).
Proof.
  induction fuel as [|fuel IH]; intros tot off data_ sec F Hcl Ho Hon Hbuf Hok Ht Hf Hd Hoff Hmod Hsec; [lia|].
  cbn [loop]. destruct (decide (tot = n)) as [-> |Hne].
  { exists F. unfold rw_step. rewrite (proj2 (Z.ltb_ge n n)) by lia.
    split_and!; [done|done|apply cached_refl| |done]. intros i Hi. by rewrite decide_False by lia. }
  assert (Hlt : 0 < n - tot) by lia. pose proof Hcl as (Hf0 & Hfb & Hsz & Hdom).
  assert (Hs0 : sec = first + (o + tot) / 512).
  { rewrite Hsec by lia. unfold u32. rewrite Z.mod_small; [done|].
    pose proof (Z.div_pos (o + tot) 512 ltac:(lia) ltac:(lia)).
    pose proof (Z.div_le_mono (o + tot) size 512 ltac:(lia) ltac:(lia)). lia. }
  assert (Hdo : dom sec) by (rewrite Hs0; apply Hdom; lia).
  pose proof Hbuf as (Hs & Hsn & _).
  destruct (rw_step_write F mm n tot off data_ sec Hok Hdo ltac:(lia)) as (F1 & Hst & Hok1 & Hfs1 & Hv & Hk);
    [eapply io_buffer_sub; [exact Hbuf|lia|lia]|].
  cbv zeta in *. assert (Ech : chunk off (n - tot) = chunk (o + tot) (n - tot)) by (unfold chunk; by rewrite Hmod).
  rewrite Ech in *. set (m := chunk (o + tot) (n - tot)) in *.
  destruct (chunk_range (o + tot) (n - tot) Hlt) as [Hm Hfit]. fold m in Hm, Hfit.
  rewrite Hst. cbn [obind].
  destruct (IH (tot + m) (u32 (off + m)) (u64 (data_ + m)) (u32 (sec + 1)) F1) as (F' & Hr & Hok' & Hfs' & Hb & Hout);
    try done; try lia.
  { rewrite Hd, u64_small; lia. }
  { unfold u32. rewrite Z.mod_small; lia. }
  { unfold u32. rewrite (Z.mod_small (off + m)) by lia.
    rewrite Z.add_assoc, <- (Z.add_mod_idemp_l (o + tot)), <- Hmod, Z.add_mod_idemp_l by lia. done. }
  { intros Hlt2. rewrite Hsec by lia. rewrite Z.add_assoc. apply next_sector; try lia.
    assert ((o + tot) / 512 + 1 <= size / 512); [|lia].
    assert (Hfull : m = 512 - (o + tot) mod 512)
      by (unfold m, chunk in *; destruct (Z.ltb_spec (n - tot) (512 - (o + tot) mod 512)); lia).
    clear - Hfull Hlt2 Ho Ht Hon. Z.to_euclidean_division_equations; lia. }
  pose proof (Z.mod_pos_bound (o + tot) 512 ltac:(lia)) as Hm0.
  exists F'. split_and!; [done|done|by eapply cached_trans| |].
  2: { intros k Hout2. rewrite Hout by done. apply Hk. rewrite Hs0. apply Hout2. lia. }
  intros i Hi. rewrite Hb by done.
  destruct (decide (o + (tot + m) <= i < o + n)) as [H1|H1]; [by rewrite decide_True by lia|].
  unfold clus_byte. destruct (decide (first + i / 512 = sec)) as [E|E].
  - rewrite E, Hv, lookup_splice.
    2: { apply Z.mod_pos_bound. lia. }
    2: { rewrite length_buf_bytes, (bs_len (view := view) F sec Hok), Hmod. lia. }
    rewrite length_buf_bytes, Hmod.
    assert (Esec : i / 512 = (o + tot) / 512) by lia.
    destruct (decide (o + tot <= i < o + n)) as [H2|H2].
    + destruct (chunk_sector (o + tot) (n - tot) i) as [_ E2]; [lia|lia|fold m; lia|].
      rewrite decide_True by lia. rewrite buf_bytes_lookup by lia. do 3 f_equal. lia.
    + rewrite decide_False; [done|]. Z.to_euclidean_division_equations; lia.
  - rewrite Hk by done.
    rewrite decide_False; [done|]. intros H2.
    destruct (chunk_sector (o + tot) (n - tot) i) as [E2 _]; [lia|lia|fold m; lia|]. lia.
Qed.

(** The bytes of a sector that one chunk moves. *)
Lemma chunk_bytes F first p n : ok F -> 0 <= p -> 0 < n ->
  take (Z.to_nat (chunk p n)) (drop (Z.to_nat (p mod 512)) (view F (first + p / 512))) =
  bytes_at (fun i => default 0 (clus_byte F first i)) p (chunk p n).
Proof.
  intros Hok Hp Hn. destruct (chunk_range p n Hn) as [Hc Hfit]. pose proof (bs_len (view := view) F (first + p / 512) Hok) as Hlen.
  pose proof (Z.mod_pos_bound p 512 ltac:(lia)) as Hmod.
  apply list_eq. intros i. destruct (decide (i < Z.to_nat (chunk p n))%nat) as [Hi|Hi].
  - rewrite lookup_take_lt, lookup_drop, bytes_at_lookup by done.
    destruct (chunk_sector p n (p + Z.of_nat i) Hp Hn ltac:(lia)) as [E1 E2]. unfold clus_byte. rewrite E1, E2.
    replace (Z.to_nat (p mod 512 + (p + Z.of_nat i - p))) with (Z.to_nat (p mod 512) + i)%nat by lia.
    destruct (lookup_lt_is_Some_2 (view F (first + p / 512)) (Z.to_nat (p mod 512) + i)%nat) as [x ->]; [lia|done].
  - rewrite !lookup_ge_None_2; [done|rewrite length_bytes_at; lia|rewrite length_take, length_drop; lia].
Qed.

Lemma rw_read_loop first size n o dst fuel : forall tot off data_ sec F mm,
  clus_ok first size -> 0 <= o -> o + n <= size -> io_buffer mm dst n ->
  ok F -> 0 <= tot <= n -> n - tot < Z.of_nat fuel ->
  data_ = dst + tot -> 0 <= off < 2 ^ 31 + tot -> off mod 512 = (o + tot) mod 512 ->
  (tot < n -> sec = u32 (first + (o + tot) / 512)) ->
  exists F', loop fuel (rw_step rd fs false isUser n) (tot, off, data_, sec) (mkFK F mm)
      = Ret n (mkFK F' (set_mem (put_bytes isUser f (dst + tot)
          (bytes_at (fun i => default 0 (clus_byte F first i)) (o + tot) (n - tot))) mm)) /\
    ok F' /\ cached F F' /\ forall k, view F' k = view F k.
Proof.
  induction fuel as [|fuel IH]; intros tot off data_ sec F mm Hcl Ho Hon Hbuf Hok Ht Hf Hd Hoff Hmod Hsec; [lia|].
  cbn [loop]. destruct (decide (tot = n)) as [-> |Hne].
  { exists F. unfold rw_step. rewrite (proj2 (Z.ltb_ge n n)) by lia. rewrite Z.sub_diag, bytes_at_zero. cbn [put_bytes].
    split_and!; [by rewrite set_mem_id|done|apply cached_refl|done]. }
  assert (Hlt : 0 < n - tot) by lia. pose proof Hcl as (Hf0 & Hfb & Hsz & Hdom).
  assert (Hs0 : sec = first + (o + tot) / 512).
  { rewrite Hsec by lia. unfold u32. rewrite Z.mod_small; [done|].
    pose proof (Z.div_pos (o + tot) 512 ltac:(lia) ltac:(lia)).
    pose proof (Z.div_le_mono (o + tot) size 512 ltac:(lia) ltac:(lia)). lia. }
  assert (Hdo : dom sec) by (rewrite Hs0; apply Hdom; lia). pose proof Hbuf as (Hs & Hsn & _).
  destruct (rw_step_read F mm n tot off data_ sec Hok Hdo ltac:(lia)) as (F1 & Hst & Hok1 & Hfs1 & Hk);
    [eapply io_buffer_sub; [exact Hbuf|lia|lia]|].
  cbv zeta in *. assert (Ech : chunk off (n - tot) = chunk (o + tot) (n - tot)) by (unfold chunk; by rewrite Hmod).
  rewrite Ech, Hmod, Hs0, chunk_bytes in Hst by (done || lia). rewrite <- Hs0 in Hst. set (m := chunk (o + tot) (n - tot)) in *.
  destruct (chunk_range (o + tot) (n - tot) Hlt) as [Hm Hfit]. fold m in Hm, Hfit.
  rewrite Hst. cbn [obind]. set (byte := fun i => default 0 (clus_byte F first i)) in *.
  set (mm1 := set_mem (put_bytes isUser f data_ (bytes_at byte (o + tot) m)) mm).
  assert (Hlb : Z.of_nat (length (bytes_at byte (o + tot) m)) = m) by (rewrite length_bytes_at; lia).
  assert (Hbuf1 : io_buffer mm1 dst n) by (apply io_buffer_put; [done|lia|lia]).
  destruct (IH (tot + m) (u32 (off + m)) (u64 (data_ + m)) (u32 (sec + 1)) F1 mm1)
    as (F' & Hr & Hok' & Hfs' & Hv'); try done; try lia.
  { rewrite Hd, u64_small; lia. }
  { unfold u32. rewrite Z.mod_small; lia. }
  { unfold u32. rewrite (Z.mod_small (off + m)) by lia.
    rewrite Z.add_assoc, <- (Z.add_mod_idemp_l (o + tot)), <- Hmod, Z.add_mod_idemp_l by lia. done. }
  { intros Hlt2. rewrite Hsec by lia. rewrite Z.add_assoc. apply next_sector; try lia.
    assert ((o + tot) / 512 + 1 <= size / 512); [|lia].
    assert (Hfull : m = 512 - (o + tot) mod 512)
      by (unfold m, chunk in *; destruct (Z.ltb_spec (n - tot) (512 - (o + tot) mod 512)); lia).
    clear - Hfull Hlt2 Ho Ht Hon. Z.to_euclidean_division_equations; lia. }
  exists F'. split_and!; [|done|by eapply cached_trans|intros k; by rewrite Hv', Hk].
  rewrite Hr. f_equal. f_equal. unfold mm1. rewrite Hd.
  replace (n - tot) with (m + (n - (tot + m))) by lia. rewrite bytes_at_app, set_mem_put_app, Hlb by lia.
  replace (dst + tot + m) with (dst + (tot + m)) by lia. replace (o + tot + m) with (o + (tot + m)) by lia.
  do 2 f_equal. apply bytes_at_ext. intros i _. unfold byte, clus_byte. by rewrite Hk.
Qed.
End clusters.

(** ** Transfers within a cluster *)

Lemma rw_clus_start {CA : Caller} rd fs clus write isUser F mm o n src b size :
  sb F fs = b -> byts_per_sec b = 512 -> byts_per_clus b = size -> size < 2 ^ 31 -> 0 <= o -> 0 <= n -> o + n <= size ->
  rw_clus rd fs clus write isUser src o n (mkFK F mm) =
  loop (Datatypes.S (Z.to_nat n)) (rw_step rd fs write isUser n)
    (0, o mod 512, src, u32 (first_sec_of_clus b clus + o / 512)) (mkFK F mm).
Proof.
  intros Hb Hs Hc Hsz Ho Hn Hon. unfold rw_clus, get_sb.
  rewrite (bind_Ret _ _ _ _ _ (lift_fat (gets (fun s => sb s fs)) F mm _ _ eq_refl)), Hb, Hs, Hc.
  unfold u32 at 1. rewrite Z.mod_small by lia. rewrite Z.gtb_ltb, (proj2 (Z.ltb_ge size (o + n))) by lia. done.
Qed.

(** ** The buffer cache is a block store *)

Lemma filter_ext_in {A} (P Q : A -> Prop) `{!forall x, Decision (P x), !forall x, Decision (Q x)} (l : list A) :
  (forall x, x ∈ l -> P x <-> Q x) -> filter P l = filter Q l.
Proof.
  induction l as [|x l IH]; intros HPQ; [done|]. rewrite !filter_cons.
  rewrite IH by (intros y Hy; apply HPQ; by right). pose proof (HPQ x ltac:(left)).
  repeat case_decide; tauto || done.
Qed.

(** An access to one group leaves the others. *)
Lemma accessed_apart B dv n g b hit f c :
  bc_inv B -> victim B dv n = Some (b, hit) -> g <> group_of n -> c ∈ group_list B g ->
  getbuf (accessed B dv n b hit f) c = getbuf B c.
Proof.
  intros Hi Hv Hg Hc. rewrite accessed_buf, decide_False; [done|]. intros ->. apply Hg.
  by rewrite <- (Hi _ _ Hc), (Hi _ _ (victim_in B dv n b hit Hv)).
Qed.
Lemma accessed_group B dv n g b hit f : g <> group_of n -> group_list (accessed B dv n b hit f) g = group_list B g.
Proof. intros Hg. by destruct (accessed_list B dv n b hit f g) as [? |[? _]]. Qed.
Lemma accessed_far B dv n n' b hit f :
  bc_inv B -> victim B dv n = Some (b, hit) -> group_of n' <> group_of n ->
  content (accessed B dv n b hit f) dv n' = content B dv n'.
Proof.
  intros Hi Hv Hg. rewrite !content_head, accessed_group by done.
  pose proof (fun c => accessed_apart B dv n (group_of n') b hit f c Hi Hv Hg) as Hsame.
  assert (Hf : filter (fun c => matches (accessed B dv n b hit f) dv n' c = true) (group_list B (group_of n')) =
               filter (fun c => matches B dv n' c = true) (group_list B (group_of n'))).
  { apply filter_ext_in. intros c Hc. unfold matches. by rewrite (Hsame c Hc). }
  rewrite Hf. destruct (head _) as [c|] eqn:Eh; [|done].
  apply head_Some_elem_of in Eh. apply list_elem_of_filter in Eh as [_ Hc]. by rewrite (Hsame c Hc).
Qed.

(** The group [g] serves the working set [dom]: the buffers [l1] hold sectors of it, the others
    hold nothing that is not on the disk, and there is a buffer for each sector of [dom]. *)
Definition group_ok (B : BState) (dv : Z) (dom : Z -> Prop) (g : Z) : Prop :=
  exists l1 l2, front B dv g l1 l2 /\
    (forall b, b ∈ l1 -> dom (blockno (getbuf B b)) /\ group_of (blockno (getbuf B b)) = g) /\
    (forall c, c ∈ l2 -> valid (getbuf B c) = true -> dev (getbuf B c) = dv ->
       data (getbuf B c) = disk_block B (blockno (getbuf B c))) /\
    (forall ns, NoDup ns -> (forall n, n ∈ ns -> dom n /\ group_of n = g) -> (length ns <= length (group_list B g))%nat).

Lemma blocks_apart B dv g l1 l2 : front B dv g l1 l2 -> NoDup (map (fun b => blockno (getbuf B b)) l1).
Proof.
  intros [_ Hnd _ _ Hap]. apply NoDup_app in Hnd as (Hnd & _ & _). induction l1 as [|b l1 IH]; cbn [map]; [apply NoDup_nil_2|].
  apply NoDup_cons in Hnd as [Hb Hnd]. constructor.
  - intros (c & E & Hc)%list_elem_of_fmap. assert (b = c) as -> by (apply Hap; [by left|by right|done]). done.
  - apply IH; [done|]. intros c d Hc Hd. apply Hap; by right.
Qed.

(** An access to a sector of the working set: the group still serves it, and no other sector of
    the group changes. *)
Lemma group_access B dv dom n : dom n -> group_ok B dv dom (group_of n) ->
  exists b hit, victim B dv n = Some (b, hit) /\ forall f, let B' := accessed B dv n b hit f in
    group_ok B' dv dom (group_of n) /\
    forall k, group_of k = group_of n -> k <> n -> content B' dv k = content B dv k.
Proof.
  intros Hd (l1 & l2 & Hfr & Hin & Hcl & Hcap).
  assert (Hor : (exists b, b ∈ l1 /\ blockno (getbuf B b) = n) \/ l2 <> []).
  { destruct l2 as [|c l2]; [left|by right].
    destruct (decide (n ∈ map (fun b => blockno (getbuf B b)) l1)) as [(b & E & Hb)%list_elem_of_fmap|Hno]; [by exists b|].
    exfalso. assert (Hl : (length (n :: map (fun b => blockno (getbuf B b)) l1) <= length (group_list B (group_of n)))%nat).
    { apply Hcap; [constructor; [done|by eapply blocks_apart]|].
      intros m [-> |(b & -> & Hb)%list_elem_of_fmap]%elem_of_cons; [done|by apply Hin]. }
    rewrite (fr_list _ _ _ _ _ Hfr), app_nil_r in Hl. simpl in Hl. rewrite length_map in Hl. lia. }
  destruct (front_victim B dv _ n l1 l2 Hfr eq_refl Hor) as (b & hit & Hv & Hb). exists b, hit. split; [done|].
  intros f B'. destruct (accessed_front B dv _ n l1 l2 f Hfr eq_refl b hit Hv Hb) as (F1 & F2 & _ & F3 & F4 & _). fold B' in F1, F2, F3, F4.
  assert (Hin' : forall c, c ∈ b :: Queue.list_remove b l1 -> dom (blockno (getbuf B' c)) /\ group_of (blockno (getbuf B' c)) = group_of n).
  { intros c [-> |Hc]%elem_of_cons; [by rewrite F4|]. apply list_elem_of_filter in Hc as [Hne Hc]. rewrite F2 by done. by apply Hin. }
  assert (Hcl' : forall c, c ∈ Queue.list_remove b l2 -> valid (getbuf B' c) = true -> dev (getbuf B' c) = dv ->
     data (getbuf B' c) = disk_block B' (blockno (getbuf B' c))).
  { intros c Hc. apply list_elem_of_filter in Hc as [Hne Hc]. rewrite F2 by done. by apply Hcl. }
  split.
  - exists (b :: Queue.list_remove b l1), (Queue.list_remove b l2). split_and!; [done|done|done|].
    intros ns Hn Hns. etrans; [by apply Hcap|]. rewrite (fr_list _ _ _ _ _ F1), (fr_list _ _ _ _ _ Hfr).
    pose proof (fr_nodup _ _ _ _ _ Hfr) as Hnd. assert (Hbl : b ∈ l1 ++ l2) by (apply elem_of_app; tauto).
    rewrite <- (list_remove_length b (l1 ++ l2) Hnd Hbl). unfold Queue.list_remove. rewrite filter_app. done.
  - intros k Hg Hk. destruct (decide (k ∈ map (fun b => blockno (getbuf B b)) l1)) as [(c & E & Hc)%list_elem_of_fmap|Hno].
    + assert (Hcb : c <> b).
      { intros ->. destruct Hb as [(_ & E' & _)|[Hb _]]; [congruence|].
        pose proof (fr_nodup _ _ _ _ _ Hfr) as Hnd. apply NoDup_app in Hnd as (_ & Hap & _). by apply (Hap b). }
      rewrite (front_content_in B dv _ k _ _ Hfr Hg c Hc) by done.
      rewrite (front_content_in B' dv _ k _ _ F1 Hg c); [by rewrite F2|right; by apply list_elem_of_filter|by rewrite F2].
    + rewrite (front_content_out B dv _ k _ _ Hfr Hg).
      2: { intros c Hc E. apply Hno, list_elem_of_fmap. by exists c. }
      2: { intros c Hc H1 H2 <-. by apply Hcl. }
      rewrite (front_content_out B' dv _ k _ _ F1 Hg); [done| |].
      * intros c [-> |Hc]%elem_of_cons; [by rewrite F4|]. apply list_elem_of_filter in Hc as [Hne Hc]. rewrite F2 by done.
        intros E. apply Hno, list_elem_of_fmap. by exists c.
      * intros c Hc H1 H2 <-. by apply Hcl'.
Qed.
Lemma group_far B dv dom n g b hit f : bc_inv B -> victim B dv n = Some (b, hit) -> g <> group_of n ->
  group_ok B dv dom g -> group_ok (accessed B dv n b hit f) dv dom g.
Proof.
  intros Hi Hv Hg (l1 & l2 & [F1 F2 F3 F4 F5] & Hin & Hcl & Hcap). set (B' := accessed B dv n b hit f).
  assert (E : forall c, c ∈ l1 ++ l2 -> getbuf B' c = getbuf B c) by (intros c Hc; apply (accessed_apart B dv n g); [done|done|done|by rewrite F1]).
  assert (E1 : forall c, c ∈ l1 -> getbuf B' c = getbuf B c) by (intros c Hc; apply E, elem_of_app; by left).
  assert (E2 : forall c, c ∈ l2 -> getbuf B' c = getbuf B c) by (intros c Hc; apply E, elem_of_app; by right).
  assert (El : group_list B' g = group_list B g) by by apply accessed_group.
  exists l1, l2. split_and!.
  - constructor; [by rewrite El|done|intros c Hc; rewrite E by done; by apply F3|intros c Hc; rewrite E1 by done; by apply F4|].
    intros c d Hc Hd'. rewrite !E1 by done. by apply F5.
  - intros c Hc. rewrite E1 by done. by apply Hin.
  - intros c Hc. rewrite E2 by done. by apply Hcl.
  - intros ns. rewrite El. by apply Hcap.
Qed.

Section cache.
Context (fs dv : Z) (dom : Z -> Prop) (depth : nat).

(** The file system reads its device through the cache, which is unused between calls and serves
    the working set. *)
Record cache_ok (F : FatS) : Prop := {
  co_reader : fs_reader (getfs F fs) = BlockRead;
  co_dev : deviceNumber (getfs F fs) = dv;
  co_inv : bc_inv (bio F);
  co_quiet : bc_quiet (bio F);
  co_data : forall b, length (data (getbuf (bio F) b)) = 512%nat;
  co_disk : forall n, length (disk_block (bio F) n) = 512%nat;
  co_groups : forall n, dom n -> group_ok (bio F) dv dom (group_of n);
}.

Definition cache_view (F : FatS) (n : Z) : list Z := content (bio F) dv n.

Hypothesis Hdv : 0 <= dv < 2 ^ 31.
Hypothesis Hdom : forall n, dom n -> 0 <= n < 2 ^ 32.

Lemma content_len F n : cache_ok F -> length (cache_view F n) = 512%nat.
Proof.
  intros C. unfold cache_view, content. destruct (list_find _ _) as [[i b]|]; [|apply C].
  destruct (valid _); apply C.
Qed.

Lemma accessed_ok F n : cache_ok F -> dom n -> exists b hit, victim (bio F) dv n = Some (b, hit) /\
  forall f, length (f (cache_view F n)) = 512%nat -> let F' := set_bio (accessed (bio F) dv n b hit f) F in
    cache_ok F' /\ cache_view F' n = f (cache_view F n) /\ forall k, k <> n -> cache_view F' k = cache_view F k.
Proof.
  intros C Hd. destruct (group_access (bio F) dv dom n Hd (co_groups _ C n Hd)) as (b & hit & Hv & Hacc).
  exists b, hit. split; [done|]. intros f Hl F'. destruct (Hacc f) as [Hg Hk]. split_and!; [|by apply accessed_self|].
  - constructor; try apply C.
    + apply accessed_inv; [apply C|done].
    + by apply accessed_quiet, C.
    + intros c. unfold F'. cbn [bio set_bio]. rewrite accessed_buf. case_decide; [|apply C]. done.
    + intros k Hdk. destruct (decide (group_of k = group_of n)) as [-> |Hne]; [done|].
      apply group_far; [apply C|done|done|by apply C].
  - intros k Hne. destruct (decide (group_of k = group_of n)); [by apply Hk|]. apply accessed_far; [apply C|done|done].
Qed.

#[export] Instance cache_store : BlockStore (fs_read (S depth)) fs dom cache_ok cache_view.
Proof.
  constructor; [intros; by apply content_len| |].
  2: { intros F n b s1 C. cbn [fs_read]. rewrite bind_gets, (co_reader _ C). unfold blockRead. rewrite bind_gets.
       intros H. apply bind_Ret_inv in H as (x & s2 & H & [= <- <-]). by apply lift_bio_frame in H. }
  intros F n C Hd. destruct (accessed_ok F n C Hd) as (b & hit & Hv & Hlen). pose proof (Hdom n Hd) as Hn.
  pose proof (bread_eq (bio F) dv n b hit (co_quiet F C) Hdv Hn Hv) as Hbr.
  set (B1 := setbuf b (fun _ => held (bio F) dv n b hit) (bio F)) in *.
  assert (Hput : forall f, (buf_update b f ;; bwrite b ;; brelse b) B1 = Ret tt (accessed (bio F) dv n b hit f)).
  { intros f. pose proof (access_eq (bio F) dv n b hit f (co_quiet F C) Hdv Hn Hv) as Ha. unfold access in Ha.
    by rewrite (bind_Ret _ _ _ _ _ Hbr) in Ha. }
  exists b, (set_bio B1 F). split_and!.
  - cbn [fs_read]. rewrite bind_gets, (co_reader F C). unfold blockRead. rewrite bind_gets, (co_dev F C).
    assert (u32 dv = dv /\ u32 n = n) as [-> ->] by (unfold u32; rewrite !Z.mod_small; lia).
    by rewrite (bind_Ret _ _ _ _ _ (lift_bio _ F _ _ Hbr)).
  - unfold B1. cbn [bio set_bio]. by rewrite getbuf_setbuf_eq.
  - done.
  - exists (set_bio (accessed (bio F) dv n b hit id) F).
    destruct (Hlen id (content_len F n C)) as (H1 & H2 & H3). split_and!; [|done|done|].
    + assert (Hrel : brelse b B1 = Ret tt (accessed (bio F) dv n b hit id)).
      { rewrite brelse_eq by (unfold B1; by rewrite getbuf_setbuf_eq). f_equal.
        unfold release_state, accessed, B1. rewrite getbuf_setbuf_eq. cbn [blockno held].
        change (group_list (setbuf b (fun _ => held (bio F) dv n b hit) (bio F))) with (group_list (bio F)).
        unfold setbuf. cbn [disk bufs lru cur_tid woken]. rewrite insert_insert_eq. done. }
      by rewrite (lift_bio _ (set_bio B1 F) _ _ Hrel).
    + intros j. destruct (decide (j = n)) as [-> |]; [by rewrite H2|by apply H3].
  - intros f Hf. exists (set_bio (accessed (bio F) dv n b hit f) F).
    destruct (Hlen f Hf) as (H1 & H2 & H3). split_and!; [|done|done|done|done].
    unfold put_block. specialize (Hput f). apply bind_Ret_inv in Hput as ([] & Ba & Ha & Hput).
    apply bind_Ret_inv in Hput as ([] & Bb & Hb & Hrel).
    rewrite (bind_Ret _ _ _ _ _ (lift_bio _ (set_bio B1 F) _ _ Ha)).
    rewrite (bind_Ret _ _ _ _ _ (lift_bio _ (set_bio Ba (set_bio B1 F)) _ _ Hb)).
    by rewrite (lift_bio _ (set_bio Bb (set_bio Ba (set_bio B1 F))) _ _ Hrel).
Qed.
End cache.

(** ** The working sets of the cache *)

Lemma group_of_mod n : group_of n = n mod 1024.
Proof. unfold group_of. change (BCACHE_GROUP_NUM - 1) with (Z.ones 10). by rewrite Z.land_ones by lia. Qed.

(** At most 16 sectors of [dom] are in the same group. *)
Definition fits_cache (dom : Z -> Prop) : Prop :=
  forall g ns, NoDup ns -> (forall n, n ∈ ns -> dom n /\ group_of n = g) -> (length ns <= NBUF)%nat.

(** Any 16384 consecutive sectors do: 8 MB anywhere on the device. *)
Lemma run_fits_cache lo : fits_cache (fun n => lo <= n < lo + 16384).
Proof.
  intros g ns Hnd Hns. pose (h := fun n => (n - lo) / 1024).
  assert (Hsub : map h ns ⊆+ seqZ 0 16).
  { apply NoDup_submseteq.
    - revert Hnd Hns. induction ns as [|n ns IH]; intros Hnd Hns; [apply NoDup_nil_2|]. apply NoDup_cons in Hnd as [Hn Hnd].
      cbn [map]. constructor; [|apply IH; [done|]; intros m Hm; apply Hns; by right].
      intros (m & E & Hm)%list_elem_of_fmap. assert (n = m) as -> ; [|done].
      destruct (Hns n ltac:(by left)) as [R1 G1]. destruct (Hns m ltac:(by right)) as [R2 G2].
      rewrite group_of_mod in G1, G2. unfold h in E. Z.to_euclidean_division_equations; lia.
    - intros x (n & -> & Hn)%list_elem_of_fmap. destruct (Hns n Hn) as [R _]. apply elem_of_seqZ. unfold h.
      Z.to_euclidean_division_equations; lia. }
  apply submseteq_length in Hsub. by rewrite length_map in Hsub.
Qed.

(** After [binit] the cache serves every working set that fits it: the buffers are in the zeroed
    data of the kernel. *)
Lemma binit_cache_ok fs dv dom F B : (forall b, getbuf (bio F) b = buf0) -> (forall g, ~ 0 <= g < 1024 -> group_list (bio F) g = []) ->
  fs_reader (getfs F fs) = BlockRead -> deviceNumber (getfs F fs) = dv ->
  (forall n, length (disk_block (bio F) n) = 512%nat) -> fits_cache dom ->
  binit (bio F) = Ret tt B -> cache_ok fs dv dom (set_bio B F).
Proof.
  intros Hz Hg Hr Hdv Hdk Hfit Hb. destruct (binit_spec (bio F)) as (B' & Hb' & Edk & El & El' & Ebuf).
  rewrite Hb in Hb'. injection Hb' as <-.
  assert (Hbuf : forall b, exists l t, getbuf B b = set_lock l t buf0) by (intros b; rewrite <- (Hz b); apply Ebuf).
  assert (Elen : forall n, disk_block B n = disk_block (bio F) n) by (intros; unfold disk_block; by rewrite Edk).
  assert (Hin : forall g b, b ∈ group_list B g -> 0 <= g < 1024 /\ 16 * g <= b < 16 * g + 16).
  { intros g b Hb'. destruct (decide (0 <= g < 1024)) as [H|H].
    - split; [done|]. rewrite El, elem_of_reverse in Hb' by done. by apply elem_of_seqZ in Hb'.
    - rewrite El', Hg in Hb' by done. by apply elem_of_nil in Hb'. }
  constructor; [done|done| | | |intros n; by rewrite Elen|].
  - intros g b Hb'. destruct (Hin g b Hb') as [_ H]. symmetry. apply (Z.div_unique_pos b 16 g (b - 16 * g)); lia.
  - intros b. apply Ebuf. right. by rewrite Hz.
  - intros b. destruct (Hbuf b) as (l & t & E). cbn [bio set_bio]. by rewrite E.
  - intros n Hd. pose proof (Z.mod_pos_bound n 1024 ltac:(lia)) as Hm. rewrite <- group_of_mod in Hm.
    exists [], (group_list B (group_of n)). split_and!.
    + constructor; [done| | |by intros b ?%elem_of_nil|by intros b c ?%elem_of_nil].
      * cbn [app]. rewrite El by done. rewrite reverse_Permutation. apply NoDup_seqZ.
      * intros b _. destruct (Hbuf b) as (l & t & E). cbn [bio set_bio]. by rewrite E.
    + by intros b ?%elem_of_nil.
    + intros c _. destruct (Hbuf c) as (l & t & E). cbn [bio set_bio]. by rewrite E.
    + intros ns Hn Hns. rewrite El, length_reverse, length_seqZ by done. by apply (Hfit (group_of n)).
Qed.

(** A file system on device 0 with clusters of two sectors and an empty cache
    with one buffer for each sector of cluster 2. *)
Definition sb_ex : superblock := mkSb 100 1000 500 1024 512 2 32 1 0 1100 8 2.
Definition fat_ex : FatS :=
  mkFatS (mkB ∅ ∅ (<[100 := [1600]]> (<[101 := [1616]]> ∅)) 1 [])
    (<[1 := mkFs true [] sb_ex ImgNone 0 0 BlockRead]> ∅) ∅ 0 ∅ [] ∅.

(** A cache of which the groups that are used have one buffer serves one sector of each. *)
Lemma group_ok_one B dv dom g b : (forall c, getbuf B c = buf0) -> group_list B g = [b] ->
  (forall n m, dom n -> dom m -> group_of n = g -> group_of m = g -> n = m) -> group_ok B dv dom g.
Proof.
  intros Hz Hl Hone. exists [], [b]. split_and!.
  - constructor; [done|apply NoDup_singleton|intros c _; by rewrite Hz|by intros c ?%elem_of_nil|by intros c d ?%elem_of_nil].
  - by intros c ?%elem_of_nil.
  - intros c _. by rewrite Hz.
  - intros ns Hn Hns. rewrite Hl. destruct ns as [|n [|m ns]]; cbn; [lia|lia|]. exfalso.
    apply NoDup_cons in Hn as [Hn _]. apply Hn. destruct (Hns n ltac:(by left)), (Hns m ltac:(right; by left)).
    rewrite (Hone n m) by done. by left.
Qed.
Lemma run_apart lo k n m : k <= 1024 -> lo <= n < lo + k -> lo <= m < lo + k -> group_of n = group_of m -> n = m.
Proof. rewrite !group_of_mod. intros. Z.to_euclidean_division_equations; lia. Qed.
