(* ===== verification/FatTable.v ===== *)
(** * The file allocation table on a block store

    [read_fat] and [write_fat] implement a map from clusters to 32-bit entries. *)

From S2P Require Import Prelude CType Mem Config Queue Page Bio Fat FatFile BlockStore.

(** ** Words of a block *)

Lemma get8_put8 d off v i :
  0 <= off < Z.of_nat (length d) -> 0 <= i ->
  get8 (put8 off v d) i = if decide (i = off) then u8 v else get8 d i.
Proof.
  intros Ho Hi. unfold get8, put8. case_decide as H.
  - subst. by rewrite list_lookup_insert_eq by lia.
  - by rewrite list_lookup_insert_ne by lia.
Qed.

Lemma length_put8 off v d : length (put8 off v d) = length d.
Proof. apply length_insert. Qed.
Lemma length_put32 off v d : length (put32 off v d) = length d.
Proof. unfold put32. by rewrite !length_put8. Qed.

Lemma bytes_of_word v :
  0 <= v < 2 ^ 32 ->
  u8 v + 2 ^ 8 * (u8 (v / 2 ^ 8) + 2 ^ 8 * (u8 (v / 2 ^ 16) + 2 ^ 8 * u8 (v / 2 ^ 24))) = v.
Proof. intros. unfold u8. Z.to_euclidean_division_equations; lia. Qed.

Lemma get32_put32_eq d off v :
  0 <= off -> off + 3 < Z.of_nat (length d) -> 0 <= v < 2 ^ 32 -> get32 (put32 off v d) off = v.
Proof.
  intros Ho Hl Hv. unfold get32, put32.
  repeat rewrite get8_put8 by (rewrite ?length_put8; lia).
  repeat (rewrite decide_True by lia) || (rewrite decide_False by lia).
  by apply bytes_of_word.
Qed.

Lemma get32_put32_ne d off off' v :
  0 <= off -> off + 3 < Z.of_nat (length d) -> 0 <= off' -> off + 4 <= off' \/ off' + 4 <= off ->
  get32 (put32 off v d) off' = get32 d off'.
Proof.
  intros Ho Hl Ho' Hd. unfold get32, put32.
  repeat rewrite get8_put8 by (rewrite ?length_put8; lia).
  repeat (rewrite decide_False by lia). done.
Qed.

(** ** The table *)

Section table.
Context (rd : Z -> Z -> M FatS (option Z)) (fs : Z) (dom : Z -> Prop) (ok : FatS -> Prop)
  (view : FatS -> Z -> list Z) `{!BlockStore rd fs dom ok view}.

(** The clusters whose entry is stored in the table. *)
Definition in_table (b : superblock) (c : Z) : Prop :=
  0 <= c < FAT32_EOC /\ c <= u32 (data_clus_cnt b + 1) /\ dom (fat_sec_of_clus b c 1).

Definition fat_entry (F : FatS) (b : superblock) (c : Z) : Z :=
  get32 (view F (fat_sec_of_clus b c 1)) (fat_offset_of_clus b c).

Lemma fat_place b c :
  byts_per_sec b = 512 -> 0 <= c < FAT32_EOC ->
  fat_offset_of_clus b c = 4 * (c mod 128) /\ fat_sec_of_clus b c 1 = u32 (rsvd_sec_cnt b + c / 128).
Proof.
  intros Hb Hc. unfold FAT32_EOC in Hc. unfold fat_offset_of_clus, fat_sec_of_clus. rewrite Hb.
  assert (E : u32 (Z.shiftl c 2) = 4 * c)
    by (rewrite Z.shiftl_mul_pow2 by lia; unfold u32; rewrite Z.mod_small; lia).
  rewrite E. split; [|f_equal]; Z.to_euclidean_division_equations; lia.
Qed.

Lemma read_fat_spec F b c :
  ok F -> sb F fs = b -> in_table b c ->
  exists F', read_fat rd fs c F = Ret (fat_entry F b c) F' /\ ok F' /\ cached F F' /\
    forall k, view F' k = view F k.
Proof.
  intros Hok Hb (Hc & Hm & Hd).
  destruct (bs_read F _ Hok Hd) as (bp & s1 & Hr & Hdat & _ & (s2 & Hrel & Hok2 & Hfs2 & Hk) & _).
  exists s2. split_and!; [|done|exact (cached_trans _ _ _ (bs_frame _ _ _ _ Hok Hr) (lift_bio_frame _ _ _ _ Hrel))|done]. unfold read_fat. rewrite bind_gets, Hb.
  rewrite Z.geb_leb, (proj2 (Z.leb_gt _ _)) by lia. rewrite Z.gtb_ltb, (proj2 (Z.ltb_ge _ _)) by lia.
  rewrite (bind_Ret _ _ _ _ _ (read_block_eq rd fs _ _ _ _ Hr)). unfold buf_data. rewrite bind_gets, Hdat.
  by rewrite (bind_Ret _ _ _ _ _ Hrel).
Qed.

Lemma write_fat_spec F b c v :
  ok F -> sb F fs = b -> byts_per_sec b = 512 -> in_table b c -> 0 <= v < 2 ^ 32 ->
  exists F', write_fat rd fs c v F = Ret 0 F' /\ ok F' /\ cached F F' /\ fat_entry F' b c = v /\
    (forall c', 0 <= c' < FAT32_EOC -> c' <> c -> fat_entry F' b c' = fat_entry F b c') /\
    forall k, k <> fat_sec_of_clus b c 1 -> view F' k = view F k.
Proof.
  intros Hok Hb H512 (Hc & Hm & Hd) Hv.
  destruct (fat_place b c H512 Hc) as [Eo Es]. pose proof (Z.mod_pos_bound c 128 ltac:(lia)) as Hmod.
  destruct (bs_read F _ Hok Hd) as (bp & s1 & Hr & Hdat & _ & _ & Hput).
  pose proof (bs_len (view := view) F (fat_sec_of_clus b c 1) Hok) as Hlen.
  destruct (Hput (put32 (fat_offset_of_clus b c) v)) as (s2 & Hp & Hok2 & Hfs2 & Hview & Hk);
    [by rewrite length_put32|].
  exists s2. split_and!; [|done|exact (cached_trans _ _ _ (bs_frame _ _ _ _ Hok Hr) (put_block_frame _ _ _ _ Hp))| | |done].
  - unfold write_fat. rewrite bind_gets, Hb. rewrite Z.gtb_ltb, (proj2 (Z.ltb_ge _ _)) by lia.
    rewrite (bind_Ret _ _ _ _ _ (read_block_eq rd fs _ _ _ _ Hr)). by rewrite (put_block_then _ _ _ _ _ Hp).
  - unfold fat_entry. rewrite Hview, get32_put32_eq; [done|lia|lia|done].
  - intros c' Hc' Hne. unfold fat_entry. destruct (fat_place b c' H512 Hc') as [Eo' Es'].
    pose proof (Z.mod_pos_bound c' 128 ltac:(lia)) as Hmod'.
    destruct (decide (fat_sec_of_clus b c' 1 = fat_sec_of_clus b c 1)) as [E|E]; [|by rewrite Hk].
    rewrite E, Hview, get32_put32_ne; [done|lia|lia|lia|]. rewrite Eo, Eo'.
    assert (c mod 128 <> c' mod 128); [|lia]. intros Em. apply Hne.
    rewrite Es, Es' in E. unfold FAT32_EOC, u32 in *. Z.to_euclidean_division_equations; lia.
Qed.
End table.

(** The FAT is a map from clusters to entries: after [write_fat] of an entry,
    [read_fat] of the cluster returns it and [read_fat] of every other cluster
    returns what it returned before, on every block store that holds the
    sectors of the table; a cluster number beyond the table is refused. *)
Theorem fat_is_a_map rd fs dom ok view `{!BlockStore rd fs dom ok view} F b c v :
  ok F -> sb F fs = b -> byts_per_sec b = 512 -> 0 <= v < 2 ^ 32 ->
  (u32 (data_clus_cnt b + 1) < c -> write_fat rd fs c v F = Ret (-1) F) /\
  (in_table dom b c ->
   exists F1, write_fat rd fs c v F = Ret 0 F1 /\ ok F1 /\
     (exists F2, read_fat rd fs c F1 = Ret v F2) /\
     forall c', in_table dom b c' -> c' <> c ->
       exists e F2 F3, read_fat rd fs c' F = Ret e F2 /\ read_fat rd fs c' F1 = Ret e F3).
Proof.
  intros Hok Hb H512 Hv. split.
  - intros Hc. unfold write_fat. rewrite bind_gets, Hb, Z.gtb_ltb, (proj2 (Z.ltb_lt _ _)) by lia. done.
  - intros Hin. destruct (write_fat_spec rd fs dom ok view F b c v Hok Hb H512 Hin Hv)
      as (F1 & Hw & Hok1 & Hca & He & Ho & _).
    assert (Hb1 : sb F1 fs = b) by (unfold sb, getfs; rewrite (cached_fss _ _ Hca); exact Hb).
    exists F1. split_and!; [done|done| |].
    + destruct (read_fat_spec rd fs dom ok view F1 b c Hok1 Hb1 Hin) as (F2 & Hr & _).
      exists F2. rewrite Hr, He. done.
    + intros c' Hin' Hne. destruct (read_fat_spec rd fs dom ok view F b c' Hok Hb Hin') as (F2 & Hr & _).
      destruct (read_fat_spec rd fs dom ok view F1 b c' Hok1 Hb1 Hin') as (F3 & Hr' & _).
      eexists _, F2, F3. split; [exact Hr|]. rewrite Hr'. rewrite Ho; [done|apply Hin'|done].
Qed.

(** The example file system of BlockStore.v with its FAT at sector 100. *)
Definition sb_tab : superblock := mkSb 102 1000 250 1024 512 2 100 1 0 1100 2 2.
Definition fat_tab : FatS :=
  mkFatS (bio fat_ex) (<[1 := mkFs true [] sb_tab ImgNone 0 0 BlockRead]> ∅) ∅ 0 ∅ [] ∅.

Lemma fat_is_a_map_witness :
  exists F1 F2, write_fat (fs_read 1) 1 5 6 fat_tab = Ret 0 F1 /\ read_fat (fs_read 1) 1 5 F1 = Ret 6 F2.
Proof.
  pose (dom := fun n => 100 <= n < 100 + 2).
  assert (Hg : forall b, getbuf (bio fat_tab) b = buf0) by (intros b; unfold getbuf; simpl; by rewrite lookup_empty).
  assert (Hok : cache_ok 1 0 dom fat_tab).
  { constructor; try done.
    - intros g b. unfold group_list, fat_tab, fat_ex. cbn [bio lru]. rewrite !lookup_insert, lookup_empty.
      repeat case_decide; subst; cbn; rewrite ?elem_of_cons, ?elem_of_nil; naive_solver.
    - intros n Hn. apply (group_ok_one _ _ _ _ (16 * n)); [done| |].
      + unfold dom in Hn. by assert (n = 100 \/ n = 101) as [-> | ->] by lia.
      + intros a c Ha Hc E1 E2. apply (run_apart 100 2); [lia|done|done|congruence]. }
  destruct (fat_is_a_map (fs_read 1) 1 dom (cache_ok 1 0 dom) (cache_view 0)
    (BlockStore0 := cache_store 1 0 dom 0 ltac:(lia) ltac:(unfold dom; lia)) fat_tab sb_tab 5 6 Hok eq_refl eq_refl ltac:(lia))
    as [_ Hm].
  destruct Hm as (F1 & H1 & _ & (F2 & H2) & _).
  - split; [split; [lia|reflexivity]|split; [vm_compute; discriminate|]].
    unfold dom. replace (fat_sec_of_clus sb_tab 5 1) with 100 by (vm_compute; reflexivity). lia.
  - exists F1, F2. split; [exact H1|exact H2].
Defined.
