(* ===== verification/Sched.v ===== *)
(** * Thread.c, Yield.c, Futex.c and the tables of Process.c

    Threads and processes are entries of the arrays [threads[]] and
    [processes[]], named by their index; the linked lists of them are lists of
    indices (Queue.v).  A [Trapframe] is its words by position.  The timer is a
    stream of readings: [r_time] consumes one.  Sets of signals are their first
    word, the only one the kernel uses.  [acquireLock] and [releaseLock] are
    commented out at every call here.

    [yield] ends in [threadRun], which never returns to its caller: its outcome
    is [Switch].  [sleep] gives the processor up in a [Sleep] outcome: [yield]
    runs in its state, and the rest of the caller runs when a later [threadRun]
    of the thread finds [KERNEL_GIVE_UP]. *)

From S2P Require Import Prelude CType Queue Config.

Inductive ProcessState := UNUSED | SLEEPING | RUNNABLE | RUNNING | ZOMBIE.
#[export] Instance ProcessState_eq : EqDecision ProcessState.
Proof. solve_decision. Defined.

Definition Trapframe : Type := gmap Z Z.
Definition tf_kernelSatp : Z := 0.
Definition tf_kernelSp : Z := 1.
Definition tf_epc : Z := 3.
Definition tf_ra : Z := 5.
Definition tf_sp : Z := 6.
Definition tf_tp : Z := 8.
Definition tf_a0 : Z := 14.
Definition reg (tf : Trapframe) (r : Z) : Z := default 0 (tf !! r).

Record Thread := mkThread {
  trapframe : Trapframe;
  awakeTime : Z;
  id : Z;
  state : ProcessState;
  chan : Z;
  reason : Z;
  retValue : Z;
  blocked : Z;
  processing : Z;
  setChildTid : Z;
  clearChildTid : Z;
  process : Z;
  robustHeadPointer : Z;
  killed : bool;
  waitingSignal : list Z;
}.

Record Process := mkProcess {
  pgdir : Z;
  processId : Z;
  parentId : Z;
  priority : Z;
  pstate : ProcessState;
  ofile : gmap Z Z;
  p_retValue : Z;
  brkHeapBottom : Z;
  mmapHeapBottom : Z;
  execFile : Z;
  cwd : Z;
  threadCount : Z;
  fd_hard : Z;
  fd_soft : Z;
  segmentMaps : list Z;
  cpu_user : Z;
  cpu_kernel : Z;
  dead_user : Z;
  dead_kernel : Z;
}.

Record FutexQueue := mkFutex { f_addr : Z; f_thread : Z; f_valid : bool }.

(** The arrays and lists of Thread.c, Process.c, Yield.c and Futex.c; [cpu] is
    the number of the hart that runs. *)
Record PState := mkP {
  threads : gmap Z Thread;
  freeThreads : list Z;
  usedThreads : list Z;
  scheduleList : gmap Z (list Z);
  currentThread : gmap Z Z;
  nextTid : Z;
  processes : gmap Z Process;
  freeProcesses : list Z;
  usedProcesses : list Z;
  nextPid : Z;
  futexQueue : list FutexQueue;
  processTimeCount : gmap Z Z;
  processBelongList : gmap Z Z;
  hartTrapframe : gmap Z Trapframe;
  cpu : Z;
  timer : nat -> Z;
  ticks : nat;
  first : bool;
}.

Definition LOG_PROCESS_NUM : Z := 10.
Definition PROCESS_TOTAL_NUMBER : Z := 1024.
Definition PROCESS_OFFSET (i : Z) : Z := Z.land i (PROCESS_TOTAL_NUMBER - 1).
Definition KERNEL_GIVE_UP : Z := 1.
Definition FUTEX_COUNT : nat := 64.
Definition ESRCH : Z := 3.
Definition EPERM : Z := 1.
Definition INVALID_PROCESS_STATUS : Z := 7.
Definition INVALID_PERM : Z := 8.

Definition thread0 : Thread := mkThread ∅ 0 0 UNUSED 0 0 0 0 0 0 0 0 0 false [].
Definition process0 : Process := mkProcess 0 0 0 0 UNUSED ∅ 0 0 0 0 0 0 0 0 [] 0 0 0 0.

(** ** Field updates *)

Definition t_state (x : ProcessState) (t : Thread) : Thread :=
  mkThread (trapframe t) (awakeTime t) (id t) x (chan t) (reason t) (retValue t) (blocked t) (processing t)
    (setChildTid t) (clearChildTid t) (process t) (robustHeadPointer t) (killed t) (waitingSignal t).
Definition t_frame (f : Trapframe -> Trapframe) (t : Thread) : Thread :=
  mkThread (f (trapframe t)) (awakeTime t) (id t) (state t) (chan t) (reason t) (retValue t) (blocked t)
    (processing t) (setChildTid t) (clearChildTid t) (process t) (robustHeadPointer t) (killed t) (waitingSignal t).
Definition t_awake (x : Z) (t : Thread) : Thread :=
  mkThread (trapframe t) x (id t) (state t) (chan t) (reason t) (retValue t) (blocked t) (processing t)
    (setChildTid t) (clearChildTid t) (process t) (robustHeadPointer t) (killed t) (waitingSignal t).
Definition t_id (x : Z) (t : Thread) : Thread :=
  mkThread (trapframe t) (awakeTime t) x (state t) (chan t) (reason t) (retValue t) (blocked t) (processing t)
    (setChildTid t) (clearChildTid t) (process t) (robustHeadPointer t) (killed t) (waitingSignal t).
Definition t_chan (x : Z) (t : Thread) : Thread :=
  mkThread (trapframe t) (awakeTime t) (id t) (state t) x (reason t) (retValue t) (blocked t) (processing t)
    (setChildTid t) (clearChildTid t) (process t) (robustHeadPointer t) (killed t) (waitingSignal t).
Definition t_reason (x : Z) (t : Thread) : Thread :=
  mkThread (trapframe t) (awakeTime t) (id t) (state t) (chan t) x (retValue t) (blocked t) (processing t)
    (setChildTid t) (clearChildTid t) (process t) (robustHeadPointer t) (killed t) (waitingSignal t).
Definition t_masks (b p : Z) (t : Thread) : Thread :=
  mkThread (trapframe t) (awakeTime t) (id t) (state t) (chan t) (reason t) (retValue t) b p
    (setChildTid t) (clearChildTid t) (process t) (robustHeadPointer t) (killed t) (waitingSignal t).
Definition t_signals (k : bool) (w : list Z) (t : Thread) : Thread :=
  mkThread (trapframe t) (awakeTime t) (id t) (state t) (chan t) (reason t) (retValue t) (blocked t) (processing t)
    (setChildTid t) (clearChildTid t) (process t) (robustHeadPointer t) k w.
Definition t_owner (p ctid : Z) (t : Thread) : Thread :=
  mkThread (trapframe t) (awakeTime t) (id t) (state t) (chan t) (reason t) (retValue t) (blocked t) (processing t)
    (setChildTid t) ctid p (robustHeadPointer t) (killed t) (waitingSignal t).
Definition t_ret (r : Z) (t : Thread) : Thread :=
  mkThread (trapframe t) (awakeTime t) (id t) (state t) (chan t) (reason t) r (blocked t) (processing t)
    (setChildTid t) (clearChildTid t) (process t) (robustHeadPointer t) (killed t) (waitingSignal t).

Definition p_state (x : ProcessState) (p : Process) : Process :=
  mkProcess (pgdir p) (processId p) (parentId p) (priority p) x (ofile p) (p_retValue p) (brkHeapBottom p)
    (mmapHeapBottom p) (execFile p) (cwd p) (threadCount p) (fd_hard p) (fd_soft p) (segmentMaps p)
    (cpu_user p) (cpu_kernel p) (dead_user p) (dead_kernel p).
Definition p_ids (pid parent : Z) (p : Process) : Process :=
  mkProcess (pgdir p) pid parent (priority p) (pstate p) (ofile p) (p_retValue p) (brkHeapBottom p)
    (mmapHeapBottom p) (execFile p) (cwd p) (threadCount p) (fd_hard p) (fd_soft p) (segmentMaps p)
    (cpu_user p) (cpu_kernel p) (dead_user p) (dead_kernel p).
Definition p_heap (brk mmap : Z) (p : Process) : Process :=
  mkProcess (pgdir p) (processId p) (parentId p) (priority p) (pstate p) (ofile p) (p_retValue p) brk
    mmap (execFile p) (cwd p) (threadCount p) (fd_hard p) (fd_soft p) (segmentMaps p)
    (cpu_user p) (cpu_kernel p) (dead_user p) (dead_kernel p).
Definition p_files (o : gmap Z Z) (c prio : Z) (p : Process) : Process :=
  mkProcess (pgdir p) (processId p) (parentId p) prio (pstate p) o (p_retValue p) (brkHeapBottom p)
    (mmapHeapBottom p) (execFile p) c (threadCount p) (fd_hard p) (fd_soft p) (segmentMaps p)
    (cpu_user p) (cpu_kernel p) (dead_user p) (dead_kernel p).
Definition p_threads (n r : Z) (p : Process) : Process :=
  mkProcess (pgdir p) (processId p) (parentId p) (priority p) (pstate p) (ofile p) r (brkHeapBottom p)
    (mmapHeapBottom p) (execFile p) (cwd p) n (fd_hard p) (fd_soft p) (segmentMaps p)
    (cpu_user p) (cpu_kernel p) (dead_user p) (dead_kernel p).
Definition p_space (dir : Z) (exec : Z) (segs : list Z) (p : Process) : Process :=
  mkProcess dir (processId p) (parentId p) (priority p) (pstate p) (ofile p) (p_retValue p) (brkHeapBottom p)
    (mmapHeapBottom p) exec (cwd p) (threadCount p) (fd_hard p) (fd_soft p) segs
    (cpu_user p) (cpu_kernel p) (dead_user p) (dead_kernel p).
Definition p_limits (soft hard : Z) (p : Process) : Process :=
  mkProcess (pgdir p) (processId p) (parentId p) (priority p) (pstate p) (ofile p) (p_retValue p) (brkHeapBottom p)
    (mmapHeapBottom p) (execFile p) (cwd p) (threadCount p) hard soft (segmentMaps p)
    (cpu_user p) (cpu_kernel p) (dead_user p) (dead_kernel p).
Definition p_dead (du dk : Z) (p : Process) : Process :=
  mkProcess (pgdir p) (processId p) (parentId p) (priority p) (pstate p) (ofile p) (p_retValue p) (brkHeapBottom p)
    (mmapHeapBottom p) (execFile p) (cwd p) (threadCount p) (fd_hard p) (fd_soft p) (segmentMaps p)
    (cpu_user p) (cpu_kernel p) du dk.

Definition th_of (s : PState) (t : Z) : Thread := default thread0 (threads s !! t).
Definition pr_of (s : PState) (p : Z) : Process := default process0 (processes s !! p).
Definition sched (s : PState) (point : Z) : list Z := default [] (scheduleList s !! point).
Definition hart_tf (s : PState) : Trapframe := default ∅ (hartTrapframe s !! cpu s).

Definition upd_threads (f : gmap Z Thread -> gmap Z Thread) (s : PState) : PState :=
  mkP (f (threads s)) (freeThreads s) (usedThreads s) (scheduleList s) (currentThread s) (nextTid s)
    (processes s) (freeProcesses s) (usedProcesses s) (nextPid s) (futexQueue s) (processTimeCount s)
    (processBelongList s) (hartTrapframe s) (cpu s) (timer s) (ticks s) (first s).
Definition upd_lists (fr us : list Z) (s : PState) : PState :=
  mkP (threads s) fr us (scheduleList s) (currentThread s) (nextTid s)
    (processes s) (freeProcesses s) (usedProcesses s) (nextPid s) (futexQueue s) (processTimeCount s)
    (processBelongList s) (hartTrapframe s) (cpu s) (timer s) (ticks s) (first s).
Definition upd_sched (f : gmap Z (list Z) -> gmap Z (list Z)) (s : PState) : PState :=
  mkP (threads s) (freeThreads s) (usedThreads s) (f (scheduleList s)) (currentThread s) (nextTid s)
    (processes s) (freeProcesses s) (usedProcesses s) (nextPid s) (futexQueue s) (processTimeCount s)
    (processBelongList s) (hartTrapframe s) (cpu s) (timer s) (ticks s) (first s).
Definition upd_current (c : gmap Z Z) (s : PState) : PState :=
  mkP (threads s) (freeThreads s) (usedThreads s) (scheduleList s) c (nextTid s)
    (processes s) (freeProcesses s) (usedProcesses s) (nextPid s) (futexQueue s) (processTimeCount s)
    (processBelongList s) (hartTrapframe s) (cpu s) (timer s) (ticks s) (first s).
Definition upd_next (t p : Z) (s : PState) : PState :=
  mkP (threads s) (freeThreads s) (usedThreads s) (scheduleList s) (currentThread s) t
    (processes s) (freeProcesses s) (usedProcesses s) p (futexQueue s) (processTimeCount s)
    (processBelongList s) (hartTrapframe s) (cpu s) (timer s) (ticks s) (first s).
Definition upd_processes (f : gmap Z Process -> gmap Z Process) (s : PState) : PState :=
  mkP (threads s) (freeThreads s) (usedThreads s) (scheduleList s) (currentThread s) (nextTid s)
    (f (processes s)) (freeProcesses s) (usedProcesses s) (nextPid s) (futexQueue s) (processTimeCount s)
    (processBelongList s) (hartTrapframe s) (cpu s) (timer s) (ticks s) (first s).
Definition upd_plists (fr us : list Z) (s : PState) : PState :=
  mkP (threads s) (freeThreads s) (usedThreads s) (scheduleList s) (currentThread s) (nextTid s)
    (processes s) fr us (nextPid s) (futexQueue s) (processTimeCount s)
    (processBelongList s) (hartTrapframe s) (cpu s) (timer s) (ticks s) (first s).
Definition upd_futex (q : list FutexQueue) (s : PState) : PState :=
  mkP (threads s) (freeThreads s) (usedThreads s) (scheduleList s) (currentThread s) (nextTid s)
    (processes s) (freeProcesses s) (usedProcesses s) (nextPid s) q (processTimeCount s)
    (processBelongList s) (hartTrapframe s) (cpu s) (timer s) (ticks s) (first s).
Definition upd_slot (count point : Z) (s : PState) : PState :=
  mkP (threads s) (freeThreads s) (usedThreads s) (scheduleList s) (currentThread s) (nextTid s)
    (processes s) (freeProcesses s) (usedProcesses s) (nextPid s) (futexQueue s)
    (<[cpu s := count]> (processTimeCount s)) (<[cpu s := point]> (processBelongList s))
    (hartTrapframe s) (cpu s) (timer s) (ticks s) (first s).
Definition upd_hart_tf (f : Trapframe -> Trapframe) (s : PState) : PState :=
  mkP (threads s) (freeThreads s) (usedThreads s) (scheduleList s) (currentThread s) (nextTid s)
    (processes s) (freeProcesses s) (usedProcesses s) (nextPid s) (futexQueue s) (processTimeCount s)
    (processBelongList s) (<[cpu s := f (hart_tf s)]> (hartTrapframe s)) (cpu s) (timer s) (ticks s) (first s).
Definition upd_clock (n : nat) (b : bool) (s : PState) : PState :=
  mkP (threads s) (freeThreads s) (usedThreads s) (scheduleList s) (currentThread s) (nextTid s)
    (processes s) (freeProcesses s) (usedProcesses s) (nextPid s) (futexQueue s) (processTimeCount s)
    (processBelongList s) (hartTrapframe s) (cpu s) (timer s) n b.

Definition upd_thread (t : Z) (f : Thread -> Thread) (s : PState) : PState :=
  upd_threads (<[t := f (th_of s t)]>) s.
Definition upd_process (p : Z) (f : Process -> Process) (s : PState) : PState :=
  upd_processes (<[p := f (pr_of s p)]>) s.

(** ** Threads and processes of the hart *)

Definition myThread : M PState (option Z) := gets (fun s => currentThread s !! cpu s).
Definition myProcess : M PState (option Z) :=
  t ← myThread;
  match t with None => mret None | Some t => gets (fun s => Some (process (th_of s t))) end.
Definition r_time : M PState Z :=
  t ← gets (fun s => timer s (ticks s));
  modify (fun s => upd_clock (S (ticks s)) (first s) s) ;;
  mret t.

Definition getThreadTopSp (th : Z) : Z := u64 (KERNEL_PROCESS_SP_TOP - th * 10 * PAGE_SIZE).
Definition getSignalHandlerSp (th : Z) : Z := u64 (SIGNAL_HANDLER_SP_BASE + (th + 1) * PAGE_SIZE * 10).
Definition getSignalHandler (p : Z) : Z := u64 (PROCESS_SIGNAL_BASE + p * PAGE_SIZE).

(** [threadInit] and [processInit]: each entry is linked at the head in turn,
    from the last to the first.  [satp] is [MAKE_SATP(kernelPageDirectory)]. *)
Definition threadInit (satp : Z) : M PState unit :=
  modify (upd_lists [] []) ;;
  modify (upd_sched (fun _ => {[ 0 := []; 1 := [] ]})) ;;
  for_up (Z.to_nat PROCESS_TOTAL_NUMBER) 0 (fun k =>
    let i := PROCESS_TOTAL_NUMBER - 1 - k in
    modify (upd_thread i (fun t => t_frame (<[tf_kernelSatp := satp]>) (t_state UNUSED t))) ;;
    modify (fun s => upd_lists (i :: freeThreads s) (usedThreads s) s)).
Definition processInit (satp : Z) : M PState unit :=
  modify (upd_plists [] []) ;;
  for_up (Z.to_nat PROCESS_TOTAL_NUMBER) 0 (fun k =>
    modify (fun s => upd_plists ((PROCESS_TOTAL_NUMBER - 1 - k) :: freeProcesses s) (usedProcesses s) s)) ;;
  threadInit satp.

Definition generateThreadId (th : Z) : M PState Z :=
  modify (fun s => upd_next (u32 (nextTid s + 1)) (nextPid s) s) ;;
  n ← gets nextTid;
  mret (Z.lor (u32 (Z.shiftl n (1 + LOG_PROCESS_NUM))) th).
Definition generateProcessId (p : Z) : M PState Z :=
  modify (fun s => upd_next (nextTid s) (u32 (nextPid s + 1)) s) ;;
  n ← gets nextPid;
  mret (Z.lor (u32 (Z.shiftl n (1 + LOG_PROCESS_NUM))) p).

(** The return value and what is stored through the second argument. *)
Definition tid2Thread (threadId : Z) (checkPerm : bool) : M PState (Z * option Z) :=
  if threadId =? 0 then t ← myThread; mret (0, t)
  else
    let th := PROCESS_OFFSET threadId in
    t ← gets (fun s => th_of s th);
    if bool_decide (state t = UNUSED) || negb (id t =? threadId) then mret (- ESRCH, None)
    else
      cur ← myThread;
      if checkPerm && negb (bool_decide (cur = Some th)) then
        parent ← gets (fun s => parentId (pr_of s (process t)));
        mine ← myProcess;
        match mine with
        | None => panic
        | Some p =>
            me ← gets (fun s => processId (pr_of s p));
            if negb (parent =? me) then mret (- EPERM, None) else mret (0, Some th)
        end
      else mret (0, Some th).

Definition pid2Process (pid : Z) (checkPerm : bool) : M PState (Z * option Z) :=
  if pid =? 0 then p ← myProcess; mret (0, p)
  else
    let p := PROCESS_OFFSET pid in
    pr ← gets (fun s => pr_of s p);
    if bool_decide (pstate pr = UNUSED) || negb (processId pr =? pid)
    then mret (- INVALID_PROCESS_STATUS, None)
    else
      mine ← myProcess;
      if checkPerm && negb (bool_decide (mine = Some p)) then
        match mine with
        | None => panic
        | Some q =>
            me ← gets (fun s => processId (pr_of s q));
            if negb (parentId pr =? me) then mret (- INVALID_PERM, None) else mret (0, Some p)
        end
      else mret (0, Some p).

(** ** Sleeping and waking *)

Definition wakeup (channel : Z) : M PState unit :=
  us ← gets usedThreads;
  modify (fun s => fold_left (fun s t =>
    if bool_decide (state (th_of s t) = SLEEPING) && (chan (th_of s t) =? channel)
    then upd_thread t (t_state RUNNABLE) s else s) us s).

(** ** Futex.c *)

(** The first [n] waiters on [addr] are woken. *)
Fixpoint futex_wake_loop (addr n : Z) (i : nat) (fuel : nat) : M PState unit :=
  match fuel with
  | O => mret tt
  | S fuel =>
      if n =? 0 then mret tt
      else
        q ← gets (fun s => futexQueue s !! i);
        match q with
        | Some q =>
            if f_valid q && (f_addr q =? addr) then
              modify (upd_thread (f_thread q) (t_state RUNNABLE)) ;;
              modify (upd_thread (f_thread q) (t_frame (<[tf_a0 := 0]>))) ;;
              modify (fun s => upd_futex (<[i := mkFutex (f_addr q) (f_thread q) false]> (futexQueue s)) s) ;;
              futex_wake_loop addr (n - 1) (S i) fuel
            else futex_wake_loop addr n (S i) fuel
        | None => futex_wake_loop addr n (S i) fuel
        end
  end.
Definition futexWake (addr n : Z) : M PState unit := futex_wake_loop addr n 0 FUTEX_COUNT.

Definition futexRequeue (addr n newAddr : Z) : M PState unit :=
  futex_wake_loop addr n 0 FUTEX_COUNT ;;
  modify (fun s => upd_futex (map (fun q =>
    if f_valid q && (f_addr q =? addr) then mkFutex newAddr (f_thread q) true else q) (futexQueue s)) s).

Definition futexClear (th : Z) : M PState unit :=
  modify (fun s => upd_futex (map (fun q =>
    if f_valid q && (f_thread q =? th) then mkFutex (f_addr q) (f_thread q) false else q) (futexQueue s)) s).

(** ** Yield.c *)

(** The condition of the loop: the slot is used up, or there is no thread, or it
    cannot run (yet). *)
Definition not_ready (count : Z) (thread : option Z) : M PState bool :=
  if count =? 0 then mret true
  else
    match thread with
    | None => mret true
    | Some t =>
        th ← gets (fun s => th_of s t);
        if negb (bool_decide (state th = RUNNABLE)) then mret true
        else now ← r_time; mret (awakeTime th >? now)
    end.

Definition pick_step (l : Z * Z * option Z) : M PState ((Z * Z * option Z) + (Z * Z * Z)) :=
  let '(count, point, thread) := l in
  c ← not_ready count thread;
  if (c : bool) then
    (match thread with
     | Some t => modify (upd_sched (fun m => <[Z.lxor point 1 := default [] (m !! Z.lxor point 1) ++ [t]]> m))
     | None => mret tt
     end) ;;
    l ← gets (fun s => sched s point);
    let point := match l with [] => Z.lxor point 1 | _ => point end in
    l ← gets (fun s => sched s point);
    match l with
    | t :: _ =>
        modify (upd_sched (fun m => <[point := Queue.list_remove t (default [] (m !! point))]> m)) ;;
        mret (inl (1, point, Some t))
    | [] => mret (inl (count, point, thread))
    end
  else
    match thread with Some t => mret (inr (count, point, t)) | None => panic end.

Definition pick (fuel : nat) (count point : Z) (thread : option Z) : M PState (Z * Z * Z) :=
  loop fuel pick_step (count, point, thread).

(** What [yield] does up to [threadRun]; the thread to run. *)
Definition schedule (fuel : nat) : M PState Z :=
  count ← gets (fun s => default 0 (processTimeCount s !! cpu s));
  point ← gets (fun s => default 0 (processBelongList s !! cpu s));
  thread ← myThread;
  (match thread with
   | Some t =>
       th ← gets (fun s => th_of s t);
       when (bool_decide (state th = RUNNING))
         (when (c_true (Z.land (reason th) KERNEL_GIVE_UP))
            (tf ← gets hart_tf; modify (upd_thread t (t_frame (fun _ => tf)))) ;;
          modify (upd_thread t (t_state RUNNABLE)))
   | None => mret tt
   end) ;;
  r ← pick fuel count point thread;
  let '(count, point, t) := r in
  modify (upd_slot (count - 1) point) ;;
  th ← gets (fun s => th_of s t);
  when (awakeTime th >? 0)
    (modify (upd_hart_tf (<[tf_a0 := 0]>)) ;;
     modify (upd_thread t (t_awake 0))) ;;
  futexClear t ;;
  mret t.

(** What a thread needs from the rest of the kernel to run: the set-up of the
    root file system that the first run does, and a bound on the turns of the
    scheduling loop. *)
Class Boot (S : Type) := {
  root_setup : M S unit;
  sched_fuel : nat;
}.

Section switching.
Context {S : Type} `{!Part S PState} `{!Boot S}.

Definition threadRun {A} (th : Z) : M S A :=
  tf ← lift (gets hart_tf);
  cur ← lift myThread;
  (match cur with
   | Some c => lift (modify (upd_thread c (t_frame (fun _ => tf))))
   | None => mret tt
   end) ;;
  lift (modify (upd_thread th (t_state RUNNING))) ;;
  t ← lift (gets (fun s => th_of s th));
  if c_true (Z.land (reason t) KERNEL_GIVE_UP) then
    lift (modify (upd_thread th (t_reason (Z.land (reason t) (Z.lnot KERNEL_GIVE_UP))))) ;;
    lift (modify (fun s => upd_current (<[cpu s := th]> (currentThread s)) s)) ;;
    t ← lift (gets (fun s => th_of s th));
    lift (modify (upd_hart_tf (fun _ => trapframe t))) ;;
    switch
  else
    lift (modify (fun s => upd_current (<[cpu s := th]> (currentThread s)) s)) ;;
    f ← lift (gets first);
    when (negb f)
      (lift (modify (fun s => upd_clock (ticks s) true s)) ;; root_setup) ;;
    t ← lift (gets (fun s => th_of s th));
    lift (modify (upd_hart_tf (fun _ => trapframe t))) ;;
    switch.

Definition yield {A} : M S A :=
  t ← lift (schedule sched_fuel);
  threadRun t.

Fixpoint find_free (q : list FutexQueue) (i : nat) : option nat :=
  match q with
  | [] => None
  | e :: q => if f_valid e then find_free q (Datatypes.S i) else Some i
  end.

(** [ts]: seconds and nanoseconds of the time-out. *)
Definition futexWait {A} (addr th : Z) (ts : option (Z * Z)) : M S A :=
  q ← lift (gets futexQueue);
  match find_free q 0 with
  | Some i =>
      lift (modify (fun s => upd_futex (<[i := mkFutex addr th true]> (futexQueue s)) s)) ;;
      (match ts with
       | Some (sec, nsec) => lift (modify (upd_thread th (t_awake (u64 (sec * 1000000 + Z.quot nsec 1000)))))
       | None => lift (modify (upd_thread th (t_state SLEEPING)))
       end) ;;
      yield
  | None => panic
  end.

(** [threadDestroy] is in Process.v: it frees what the process holds. *)
Definition sleep (threadDestroy : Z -> M S unit) (c : Z) : M S unit :=
  th ← lift myThread;
  match th with
  | None => panic
  | Some th =>
      lift (modify (upd_thread th (t_chan c))) ;;
      lift (modify (upd_thread th (t_state SLEEPING))) ;;
      lift (modify (fun s => upd_thread th (t_reason (Z.lor (reason (th_of s th)) KERNEL_GIVE_UP)) s)) ;;
      k ← lift (gets (fun s => killed (th_of s th)));
      when k (threadDestroy th) ;;
      sleep_on c ;;
      lift (modify (upd_thread th (t_chan 0))) ;;
      k ← lift (gets (fun s => killed (th_of s th)));
      when k (threadDestroy th)
  end.
End switching.
