(* ===== verification/SchedSpec.v ===== *)
(** * What the scheduler, the wait queues and the thread tables promise

    The two lists of Yield.c are one queue served in turn ([queue]); channels and
    futexes wake exactly their waiters; identifiers name one thread or process for
    as long as it lives. *)

From S2P Require Import Prelude CType Queue Config Sched.

(** ** Round robin *)

(** The threads in the order [yield] tries them, from list [point] on. *)
Definition queue (s : PState) (point : Z) : list Z := sched s point ++ sched s (Z.lxor point 1).

(** The state after some turns: other lists, a later clock. *)
Definition turned (s : PState) (m : gmap Z (list Z)) (n : nat) : PState :=
  upd_sched (fun _ => m) (upd_clock n (first s) s).

Definition sure_ready (s : PState) (t : Z) : Prop :=
  state (th_of s t) = RUNNABLE /\ forall n, (ticks s <= n)%nat -> awakeTime (th_of s t) <= timer s n.
Definition may_run (s : PState) (t : Z) : Prop :=
  state (th_of s t) = RUNNABLE /\ exists n, (ticks s <= n)%nat /\ awakeTime (th_of s t) <= timer s n.

Definition is_point (p : Z) : Prop := p = 0 \/ p = 1.

Lemma turned_id s : s = turned s (scheduleList s) (ticks s).
Proof. by destruct s. Qed.

Lemma point_flip p : is_point p -> is_point (Z.lxor p 1) /\ Z.lxor (Z.lxor p 1) 1 = p /\ Z.lxor p 1 <> p.
Proof. intros [-> | ->]; vm_compute; split_and!; auto; discriminate. Qed.

(** One turn of the loop: the queue is rotated. *)
Lemma pick_turn s count point thread x Q n :
  is_point point -> NoDup (option_list thread ++ queue s point) ->
  queue s point ++ option_list thread = x :: Q ->
  not_ready count thread s = Ret true (turned s (scheduleList s) n) ->
  exists m p, is_point p /\ pick_step (count, point, thread) s = Ret (inl (1, p, Some x)) (turned s m n) /\
    queue (turned s m n) p = Q.
Proof.
  intros Hp Hnd HQ Hn. destruct (point_flip point Hp) as (Hp' & Hpp & Hne).
  unfold pick_step. rewrite (bind_Ret _ _ _ _ _ Hn).
  set (m1 := match thread with
             | Some t => <[Z.lxor point 1 := sched s (Z.lxor point 1) ++ [t]]> (scheduleList s)
             | None => scheduleList s end).
  assert (E1 : match thread with
     | Some t => modify (upd_sched (fun m => <[Z.lxor point 1 := default [] (m !! Z.lxor point 1) ++ [t]]> m))
     | None => mret tt
     end (turned s (scheduleList s) n) = Ret tt (turned s m1 n)) by (by destruct thread).
  rewrite (bind_Ret _ _ _ _ _ E1). clear E1 Hn.
  assert (Ea : sched (turned s m1 n) point = sched s point).
  { unfold m1. destruct thread; [|done]. unfold sched, turned. simpl. by rewrite lookup_insert_ne. }
  assert (Eb : sched (turned s m1 n) (Z.lxor point 1) = sched s (Z.lxor point 1) ++ option_list thread).
  { unfold m1. destruct thread; [|simpl; by rewrite app_nil_r]. unfold sched, turned. simpl.
    by rewrite lookup_insert_eq. }
  assert (Hnd' : NoDup (x :: Q)).
  { rewrite <- HQ. eapply NoDup_Permutation_proper; [|exact Hnd]. apply Permutation_app_comm. }
  run_steps. rewrite Ea. unfold queue in HQ.
  destruct (sched s point) as [|y l] eqn:El.
  - run_steps. rewrite Eb. rewrite app_nil_l in HQ. rewrite HQ. run_steps.
    exists (<[Z.lxor point 1 := Q]> m1), (Z.lxor point 1). split; [done|].
    assert (El2 : default [] (m1 !! Z.lxor point 1) = x :: Q) by (rewrite <- HQ; exact Eb).
    split.
    + unfold mret, M_ret. f_equal. unfold turned, upd_sched. simpl. rewrite El2.
      by rewrite (Queue.list_remove_head x Q Hnd').
    + unfold queue. rewrite Hpp. unfold sched, turned. simpl. rewrite lookup_insert_eq.
      rewrite lookup_insert_ne by done. unfold sched in Ea. simpl in Ea. rewrite Ea. simpl. apply app_nil_r.
  - run_steps. rewrite Ea. run_steps. simpl in HQ. injection HQ as -> HQ.
    exists (<[point := l]> m1), point. split; [done|].
    assert (El2 : default [] (m1 !! point) = x :: l) by exact Ea.
    split.
    + unfold mret, M_ret. f_equal. unfold turned, upd_sched. simpl. rewrite El2.
      assert (Hl : NoDup (x :: l)).
      { rewrite <- HQ, <- app_assoc in Hnd'. by apply (NoDup_app (x :: l)) in Hnd' as [? _]. }
      by rewrite (Queue.list_remove_head x l Hl).
    + unfold queue. unfold sched, turned. simpl. rewrite lookup_insert_eq, lookup_insert_ne by done.
      unfold sched in Eb. simpl in Eb. rewrite Eb. simpl. by rewrite app_assoc.
Qed.

Lemma not_ready_some s t :
  exists b n, not_ready 1 (Some t) s = Ret b (turned s (scheduleList s) n) /\ (ticks s <= n)%nat /\
    (if b then ~ sure_ready s t else may_run s t).
Proof.
  unfold not_ready. cbn [Z.eqb]. rewrite bind_gets.
  destruct (bool_decide_reflect (state (th_of s t) = RUNNABLE)) as [E|E]; cbn [negb].
  - unfold r_time. run_steps. unfold mbind, M_bind; simpl.
    exists (awakeTime (th_of s t) >? timer s (ticks s)), (S (ticks s)).
    split; [by destruct s|]. split; [lia|]. rewrite Z.gtb_ltb.
    destruct (Z.ltb_spec (timer s (ticks s)) (awakeTime (th_of s t))).
    + intros [_ H']. specialize (H' (ticks s)). lia.
    + split; [done|]. exists (ticks s). split; [lia|lia].
  - exists true, (ticks s). split; [by rewrite <- turned_id|]. split; [lia|]. by intros [? _].
Qed.

Lemma sure_ready_turned s m n t : (ticks s <= n)%nat -> sure_ready s t -> sure_ready (turned s m n) t.
Proof. intros Hn [H1 H2]. split; [done|]. intros k Hk. apply (H2 k). simpl in Hk. lia. Qed.
Lemma may_run_turned s m n t : (ticks s <= n)%nat -> may_run (turned s m n) t -> may_run s t.
Proof. intros Hn [H1 (k & Hk & H2)]. split; [done|]. exists k. simpl in *. split; [lia|done]. Qed.

Lemma pick_rotates k : forall fuel s point t x,
  is_point point -> NoDup (t :: queue s point) ->
  (t :: queue s point) !! k = Some x -> sure_ready s x -> (k < fuel)%nat ->
  exists pre y post m n p, t :: queue s point = pre ++ y :: post /\ (length pre <= k)%nat /\
    Forall (fun z => ~ sure_ready s z) pre /\ may_run s y /\ is_point p /\ (ticks s <= n)%nat /\
    pick fuel 1 point (Some t) s = Ret (1, p, y) (turned s m n) /\ queue (turned s m n) p = post ++ pre.
Proof.
  induction k as [|k IH]; intros fuel s point t x Hp Hnd Hx Hr Hf; destruct fuel as [|fuel]; try lia;
    destruct (not_ready_some s t) as (b & n & Hn & Hle & Hb).
  all: assert (Hstop : b = false ->
    pick (S fuel) 1 point (Some t) s = Ret (1, point, t) (turned s (scheduleList s) n)).
  1, 3: intros ->; unfold pick; cbn [loop]; unfold pick_step; rewrite (bind_Ret _ _ _ _ _ Hn); done.
  - injection Hx as ->. destruct b; [done|]. exists [], x, (queue s point), (scheduleList s), n, point.
    split_and!; [done|simpl; lia|done|done|done|done|by apply Hstop|].
    unfold queue. simpl. by rewrite app_nil_r.
  - destruct b.
    2: { exists [], t, (queue s point), (scheduleList s), n, point.
         split_and!; [done|simpl; lia|done|done|done|done|by apply Hstop|].
         unfold queue. simpl. by rewrite app_nil_r. }
    simpl in Hx. destruct (queue s point) as [|q Q] eqn:EQ; [done|].
    destruct (pick_turn s 1 point (Some t) q (Q ++ [t]) n Hp) as (m & p & Hp' & Hs & HQ);
      [by rewrite EQ|by rewrite EQ|done|].
    destruct (IH fuel (turned s m n) p q x) as (pre & y & post & m2 & n2 & p2 & E & Hlen & Hpre & Hy & Hp2 & Hn2 & Hpick & Hq2);
      [done| | |by apply sure_ready_turned|lia|].
    { rewrite HQ. eapply NoDup_Permutation_proper; [|exact Hnd].
      change (q :: Q ++ [t]) with ((q :: Q) ++ [t]). change (t :: q :: Q) with ([t] ++ (q :: Q)).
      apply Permutation_app_comm. }
    { rewrite HQ. change (q :: Q ++ [t]) with ((q :: Q) ++ [t]). rewrite lookup_app_l; [done|].
      by eapply lookup_lt_Some. }
    rewrite HQ in E. change (q :: Q ++ [t]) with ((q :: Q) ++ [t]) in E.
    assert (Hk : (length pre < length (q :: Q))%nat).
    { apply lookup_lt_Some in Hx. lia. }
    destruct (decide (post = [])) as [-> |Hpost].
    { apply (f_equal length) in E. rewrite !length_app in E. simpl in E, Hk. lia. }
    destruct (exists_last Hpost) as (post' & z & ->).
    change (y :: post' ++ [z]) with ((y :: post') ++ [z]) in E. rewrite app_assoc in E.
    apply app_inj_tail in E as [E Ez]. subst z.
    exists (t :: pre), y, post', m2, n2, p2.
    split_and!; [by rewrite E|simpl; lia| | |done|simpl in Hn2; lia| |].
    + constructor; [done|]. eapply Forall_impl; [exact Hpre|]. intros w Hw Hw'. apply Hw.
      by apply sure_ready_turned.
    + by apply (may_run_turned s m n).
    + unfold pick in *. cbn [loop]. rewrite Hs. exact Hpick.
    + change (turned (turned s m n) m2 n2) with (turned s m2 n2) in Hq2. rewrite Hq2.
      by rewrite <- app_assoc.
Qed.

(** The thread a hart runs, as [yield] sees it: still running, it can run again. *)
Definition runnable (s : PState) (t : Z) : Prop :=
  (state (th_of s t) = RUNNABLE \/ (currentThread s !! cpu s = Some t /\ state (th_of s t) = RUNNING)).

(** The queue [yield] works on: the current thread goes to its end. *)
Definition run_queue (s : PState) : list Z :=
  queue s (default 0 (processBelongList s !! cpu s)) ++ option_list (currentThread s !! cpu s).

Definition ready_now (s : PState) (t : Z) : Prop :=
  runnable s t /\ forall n, (ticks s <= n)%nat -> awakeTime (th_of s t) <= timer s n.
Definition ready_later (s : PState) (t : Z) : Prop :=
  runnable s t /\ exists n, (ticks s <= n)%nat /\ awakeTime (th_of s t) <= timer s n.

(** What holds between two calls of [yield]: the time slot is used up, and no
    thread is queued twice. *)
Record sched_inv (s : PState) : Prop := {
  si_count : default 0 (processTimeCount s !! cpu s) = 0;
  si_point : is_point (default 0 (processBelongList s !! cpu s));
  si_nodup : NoDup (run_queue s);
}.

(** The first part of [schedule]: the running thread becomes runnable. *)
Definition put_back (s : PState) : PState :=
  match currentThread s !! cpu s with
  | Some t =>
      if bool_decide (state (th_of s t) = RUNNING) then
        upd_thread t (fun th => t_state RUNNABLE
          (if c_true (Z.land (reason th) KERNEL_GIVE_UP) then t_frame (fun _ => hart_tf s) th else th)) s
      else s
  | None => s
  end.

Lemma th_of_upd s t f u : th_of (upd_thread t f s) u = if decide (u = t) then f (th_of s t) else th_of s u.
Proof.
  unfold th_of, upd_thread, upd_threads. simpl. destruct (decide (u = t)) as [-> |].
  - by rewrite lookup_insert_eq.
  - by rewrite lookup_insert_ne.
Qed.

Lemma upd_thread_twice t f g s : upd_thread t g (upd_thread t f s) = upd_thread t (fun th => g (f th)) s.
Proof.
  unfold upd_thread at 1. rewrite th_of_upd, decide_True by done.
  unfold upd_thread, upd_threads. simpl. by rewrite insert_insert_eq.
Qed.

Lemma put_back_spec s : exists ts, put_back s = upd_threads (fun _ => ts) s /\
  forall t, awakeTime (th_of (put_back s) t) = awakeTime (th_of s t) /\
    (state (th_of (put_back s) t) = RUNNABLE <-> runnable s t).
Proof.
  unfold put_back, runnable. destruct (currentThread s !! cpu s) as [c|] eqn:Ec.
  2: { exists (threads s). split; [by destruct s|]. intros t. split; [done|]. naive_solver. }
  destruct (bool_decide_reflect (state (th_of s c) = RUNNING)) as [Er|Er].
  - eexists. split; [reflexivity|]. intros t. rewrite th_of_upd.
    destruct (decide (t = c)) as [-> |Hne]; [|naive_solver].
    destruct (c_true _); simpl; naive_solver.
  - exists (threads s). split; [by destruct s|]. intros t. split; [done|]. naive_solver.
Qed.

Lemma schedule_put_back fuel s :
  schedule fuel s =
  (r ← pick fuel (default 0 (processTimeCount s !! cpu s)) (default 0 (processBelongList s !! cpu s))
         (currentThread s !! cpu s);
   let '(count, point, t) := r in
   modify (upd_slot (count - 1) point) ;;
   th ← gets (fun s => th_of s t);
   when (awakeTime th >? 0)
     (modify (upd_hart_tf (<[tf_a0 := 0]>)) ;;
      modify (upd_thread t (t_awake 0))) ;;
   futexClear t ;;
   mret t) (put_back s).
Proof.
  unfold schedule. run_steps. unfold myThread. rewrite bind_gets.
  assert (E : (match currentThread s !! cpu s with
   | Some t =>
       th ← gets (fun s => th_of s t);
       when (bool_decide (state th = RUNNING))
         (when (c_true (Z.land (reason th) KERNEL_GIVE_UP))
            (tf ← gets hart_tf; modify (upd_thread t (t_frame (fun _ => tf)))) ;;
          modify (upd_thread t (t_state RUNNABLE)))
   | None => mret tt
   end) s = Ret tt (put_back s)).
  { unfold put_back. destruct (currentThread s !! cpu s) as [c|]; [|done]. rewrite bind_gets.
    destruct (bool_decide (state (th_of s c) = RUNNING)); [|done].
    cbn [when]. destruct (c_true (Z.land (reason (th_of s c)) KERNEL_GIVE_UP)) eqn:Eg; cbn [when].
    - unfold mbind, M_bind, gets, modify. simpl. rewrite upd_thread_twice. f_equal.
      unfold upd_thread. by rewrite Eg.
    - unfold mbind, M_bind, modify, mret, M_ret. simpl. f_equal. unfold upd_thread. by rewrite Eg. }
  rewrite (bind_Ret _ _ _ _ _ E). done.
Qed.

(** The last part of [schedule]. *)
Lemma schedule_finish s t point :
  exists s',
    (modify (upd_slot (1 - 1) point) ;;
     th ← gets (fun s => th_of s t);
     when (awakeTime th >? 0)
       (modify (upd_hart_tf (<[tf_a0 := 0]>)) ;;
        modify (upd_thread t (t_awake 0))) ;;
     futexClear t ;;
     mret t) s = Ret t s' /\
    scheduleList s' = scheduleList s /\ cpu s' = cpu s /\ currentThread s' = currentThread s /\
    processBelongList s' !! cpu s' = Some point /\ processTimeCount s' !! cpu s' = Some 0 /\
    awakeTime (th_of s' t) <= 0 /\ Forall (fun q => f_valid q = true -> f_thread q <> t) (futexQueue s') /\
    forall u, state (th_of s' u) = state (th_of s u).
Proof.
  run_steps. set (s1 := upd_slot (1 - 1) point s).
  set (s2 := if awakeTime (th_of s1 t) >? 0
             then upd_thread t (t_awake 0) (upd_hart_tf (<[tf_a0 := 0]>) s1) else s1).
  assert (E : when (awakeTime (th_of s1 t) >? 0)
       (modify (upd_hart_tf (<[tf_a0 := 0]>)) ;; modify (upd_thread t (t_awake 0))) s1 = Ret tt s2).
  { unfold s2. by destruct (awakeTime (th_of s1 t) >? 0). }
  rewrite (bind_Ret _ _ _ _ _ E). unfold futexClear. rewrite bind_modify.
  eexists. split; [reflexivity|].
  assert (H2 : scheduleList s2 = scheduleList s /\ cpu s2 = cpu s /\ currentThread s2 = currentThread s /\
    processBelongList s2 !! cpu s2 = Some point /\ processTimeCount s2 !! cpu s2 = Some 0 /\
    awakeTime (th_of s2 t) <= 0 /\ forall u, state (th_of s2 u) = state (th_of s u)).
  { unfold s2. rewrite Z.gtb_ltb. destruct (Z.ltb_spec 0 (awakeTime (th_of s1 t))).
    - split_and!; try done; try (unfold s1; simpl; by rewrite lookup_insert_eq).
      + rewrite th_of_upd, decide_True by done. done.
      + intros u. rewrite th_of_upd. by destruct (decide (u = t)) as [-> |].
    - split_and!; try done; unfold s1; simpl; by rewrite lookup_insert_eq. }
  destruct H2 as (H3 & H4 & H5 & H6 & H7 & H8 & H9). split_and!; try done.
  simpl. apply Forall_map, Forall_true. intros q.
  destruct (f_valid q) eqn:Ev, (Z.eqb_spec (f_thread q) t); simpl; try done; congruence.
Qed.

(** C18. The scheduler is a round-robin queue that loses no thread.  Between two
    calls of [yield] with some queued thread that can run, [schedule] returns
    within one round; the thread [t] it picks can run, every thread [pre] it
    passed over on the way was not ready, and the queue it leaves is the rest of
    the queue followed by [pre]: a rotation, so every other thread is still
    queued, once, in the same cyclic order.  The picked thread waits neither for
    a time nor on a futex any more, and the invariant of the slot counter holds
    again. *)
Theorem schedule_round_robin fuel s x :
  sched_inv s -> x ∈ run_queue s -> ready_now s x -> (length (run_queue s) < fuel)%nat ->
  exists pre t post s',
    (run_queue s = pre ++ t :: post) /\ Forall (fun u => ~ ready_now s u) pre /\ ready_later s t /\
    schedule fuel s = Ret t s' /\
    queue s' (default 0 (processBelongList s' !! cpu s')) = post ++ pre /\
    default 0 (processTimeCount s' !! cpu s') = 0 /\ is_point (default 0 (processBelongList s' !! cpu s')) /\
    state (th_of s' t) = RUNNABLE /\ awakeTime (th_of s' t) <= 0 /\
    Forall (fun q => f_valid q = true -> f_thread q <> t) (futexQueue s').
Proof.
  intros [Hc Hp Hnd] Hx Hr Hf. rewrite schedule_put_back.
  destruct (put_back_spec s) as (ts & Es & Hts). set (s0 := put_back s) in *.
  rewrite Hc. set (point := default 0 (processBelongList s !! cpu s)) in *.
  set (cur := currentThread s !! cpu s) in *.
  assert (Eq : queue s0 point ++ option_list cur = run_queue s) by (by rewrite Es).
  assert (Hready : forall u, sure_ready s0 u <-> ready_now s u).
  { intros u. unfold sure_ready, ready_now. destruct (Hts u) as [-> ->]. by rewrite Es. }
  assert (Hlater : forall u, may_run s0 u <-> ready_later s u).
  { intros u. unfold may_run, ready_later. destruct (Hts u) as [-> ->]. by rewrite Es. }
  destruct (run_queue s) as [|y Q] eqn:EQ; [by apply elem_of_nil in Hx|].
  destruct fuel as [|fuel]; [lia|].
  destruct (pick_turn s0 0 point cur y Q (ticks s0) Hp) as (m & p & Hp' & Hstep & HQ);
    [|done|unfold not_ready; cbn [Z.eqb]; by rewrite <- turned_id|].
  { eapply NoDup_Permutation_proper; [apply Permutation_app_comm|]. by rewrite Eq. }
  apply list_elem_of_lookup in Hx as [k Hk].
  assert (Hkl : (k < length (y :: Q))%nat) by (by eapply lookup_lt_Some).
  destruct (pick_rotates k fuel (turned s0 m (ticks s0)) p y x Hp') as
    (pre & t & post & m2 & n2 & p2 & E & _ & Hpre & Ht & Hp2 & Hn2 & Hpick & Hq2);
    [by rewrite HQ|by rewrite HQ| |lia|].
  { apply sure_ready_turned; [done|]. by apply Hready. }
  rewrite HQ in E.
  assert (Hpick0 : pick (S fuel) 0 point cur s0 = Ret (1, p2, t) (turned s0 m2 n2)).
  { unfold pick in *. cbn [loop]. rewrite Hstep. exact Hpick. }
  rewrite (bind_Ret _ _ _ _ _ Hpick0).
  destruct (schedule_finish (turned s0 m2 n2) t p2) as (s' & E' & F1 & F2 & F3 & F4 & F5 & F6 & F7 & F8).
  exists pre, t, post, s'. split_and!; try done.
  - eapply Forall_impl; [exact Hpre|]. intros u Hu Hu'. apply Hu. apply sure_ready_turned; [done|].
    by apply Hready.
  - by apply Hlater.
  - rewrite F4. simpl. rewrite <- Hq2. unfold queue, sched. rewrite F1. done.
  - by rewrite F5.
  - by rewrite F4.
  - rewrite F8. apply Ht.
Qed.

Definition thread_ex (st : ProcessState) (wake : Z) : Thread := t_awake wake (t_state st thread0).
(** Three threads: the running one, a sleeping one and one that can run. *)
Definition sched_ex : PState :=
  mkP {[ 0 := thread_ex RUNNING 0; 1 := thread_ex SLEEPING 0; 2 := thread_ex RUNNABLE 0 ]} [] [2; 1; 0]
    {[ 0 := [1]; 1 := [2] ]} {[ 0 := 0 ]} 0 ∅ [] [] 0 [] ∅ ∅ ∅ 0 (fun n => Z.of_nat n) 0 true.

Lemma schedule_round_robin_witness :
  exists s', schedule 10 sched_ex = Ret 2 s' /\ queue s' (default 0 (processBelongList s' !! cpu s')) = [0; 1].
Proof.
  destruct (schedule_round_robin 10 sched_ex 2) as (pre & t & post & s' & E & Hpre & Ht & Hs & Hq & _).
  - split; [reflexivity|left; reflexivity|]. vm_compute. by repeat (constructor; [set_solver|]); constructor.
  - vm_compute. set_solver.
  - split; [left; reflexivity|]. intros n _. change (awakeTime _) with 0. simpl. lia.
  - vm_compute. lia.
  - exists s'. change (run_queue sched_ex) with [1; 2; 0] in E.
    assert (H1 : ~ ready_later sched_ex 1) by (intros [[H|[H _]] _]; discriminate).
    assert (H2 : ready_now sched_ex 2).
    { split; [left; reflexivity|]. intros n _. change (awakeTime _) with 0. simpl. lia. }
    destruct pre as [|a [|b [|c pre]]]; injection E; intros; subst.
    + contradiction.
    + split; [exact Hs|exact Hq].
    + exfalso. inversion Hpre as [|? ? _ Hp]; subst. inversion Hp as [|? ? Hn _]; subst. contradiction.
    + destruct pre; discriminate.
Defined.

(** ** Wake-ups *)

Definition waits_on (s : PState) (c t : Z) : bool :=
  bool_decide (state (th_of s t) = SLEEPING) && (chan (th_of s t) =? c).

Lemma wakeup_fold c us : forall s, NoDup us ->
  forall t, th_of (fold_left (fun s t =>
    if waits_on s c t then upd_thread t (t_state RUNNABLE) s else s) us s) t =
  if bool_decide (t ∈ us) && waits_on s c t then t_state RUNNABLE (th_of s t) else th_of s t.
Proof.
  induction us as [|u us IH]; intros s Hnd t; simpl; [done|].
  apply NoDup_cons in Hnd as [Hu Hnd]. rewrite IH by done. unfold waits_on.
  destruct (waits_on s c u) eqn:Ew; unfold waits_on in Ew; rewrite Ew, ?th_of_upd.
  - destruct (decide (t = u)) as [-> |Hne].
    + rewrite (bool_decide_false (u ∈ us)), (bool_decide_true (u ∈ u :: us)) by set_solver.
      simpl. by rewrite Ew.
    + by rewrite (bool_decide_ext (t ∈ us) (t ∈ u :: us)) by set_solver.
  - destruct (decide (t = u)) as [-> |Hne].
    + rewrite Ew, !andb_false_r. done.
    + by rewrite (bool_decide_ext (t ∈ us) (t ∈ u :: us)) by set_solver.
Qed.

(** [wakeup] makes runnable exactly the used threads that sleep on the
    channel, and changes nothing else of any thread. *)
Theorem wakeup_exact s c :
  NoDup (usedThreads s) ->
  exists s', wakeup c s = Ret tt s' /\
    (forall t, t ∈ usedThreads s -> state (th_of s t) = SLEEPING -> chan (th_of s t) = c ->
       th_of s' t = t_state RUNNABLE (th_of s t)) /\
    (forall t, waits_on s c t = false \/ t ∉ usedThreads s -> th_of s' t = th_of s t).
Proof.
  intros Hnd. unfold wakeup. run_steps.
  exists (fold_left (fun s t => if waits_on s c t then upd_thread t (t_state RUNNABLE) s else s) (usedThreads s) s).
  split; [reflexivity|]. split.
  - intros t Ht Hs Hc. rewrite (wakeup_fold c _ s Hnd t). unfold waits_on.
    rewrite bool_decide_true, Hs, Hc, Z.eqb_refl by done. by rewrite bool_decide_true.
  - intros t Ht. rewrite (wakeup_fold c _ s Hnd t).
    destruct Ht as [-> |Ht]; [by rewrite andb_false_r|]. by rewrite bool_decide_false.
Qed.

Lemma wakeup_exact_witness :
  exists s', wakeup 0 sched_ex = Ret tt s' /\ state (th_of s' 1) = RUNNABLE.
Proof.
  destruct (wakeup_exact sched_ex 0) as (s' & H1 & H2 & _).
  - vm_compute. by repeat (constructor; [set_solver|]); constructor.
  - exists s'. split; [exact H1|]. rewrite (H2 1); [reflexivity|vm_compute; set_solver|reflexivity|reflexivity].
Defined.

(** The slots [futexWake] serves: the first [n] valid ones on the address. *)
Fixpoint woken_slots (addr n : Z) (q : list FutexQueue) (i : nat) : list nat :=
  match q with
  | [] => []
  | e :: q =>
      if n =? 0 then []
      else if f_valid e && (f_addr e =? addr) then i :: woken_slots addr (n - 1) q (S i)
      else woken_slots addr n q (S i)
  end.
Definition release (e : FutexQueue) : FutexQueue := mkFutex (f_addr e) (f_thread e) false.
Definition wake_slot (s : PState) (i : nat) : PState :=
  match futexQueue s !! i with
  | Some e =>
      upd_futex (<[i := release e]> (futexQueue s))
        (upd_thread (f_thread e) (fun t => t_frame (<[tf_a0 := 0]>) (t_state RUNNABLE t)) s)
  | None => s
  end.

Lemma futexQueue_upd_thread t f s : futexQueue (upd_thread t f s) = futexQueue s.
Proof. done. Qed.

Lemma futex_wake_loop_spec addr k : forall q n i s,
  length q = k -> drop i (futexQueue s) = q ->
  futex_wake_loop addr n i k s = Ret tt (fold_left wake_slot (woken_slots addr n q i) s).
Proof.
  induction k as [|k IH]; intros q n i s Hk Hq; [by destruct q|].
  destruct q as [|e q]; [done|]. injection Hk as Hk. cbn [futex_wake_loop woken_slots].
  destruct (Z.eqb_spec n 0) as [-> |Hn]; [done|].
  assert (He : futexQueue s !! i = Some e).
  { rewrite <- (Nat.add_0_r i), <- lookup_drop, Hq. done. }
  assert (Hq' : drop (S i) (futexQueue s) = q) by (by rewrite <- Nat.add_1_r, <- drop_drop, Hq).
  rewrite bind_gets, He. destruct (f_valid e && (f_addr e =? addr)).
  - run_steps. cbn [fold_left]. rewrite upd_thread_twice.
    rewrite (IH q (n - 1) (S i)); [|done|].
    + f_equal. f_equal. unfold wake_slot. by rewrite He.
    + simpl. rewrite drop_insert_lt by lia. done.
  - rewrite (IH q n (S i)) by done. done.
Qed.

(** C29. [futexWake] wakes the first [n] waiters of the address in slot order and
    nobody else: each of them becomes runnable with result 0 and its slot is
    free again, and the other slots keep their waiters. *)
Theorem futexWake_first s addr n :
  length (futexQueue s) = FUTEX_COUNT ->
  let ws := woken_slots addr n (futexQueue s) 0 in
  futexWake addr n s = Ret tt (fold_left wake_slot ws s) /\
  (0 <= n -> Z.of_nat (length ws) <= n) /\
  forall i, futexQueue (fold_left wake_slot ws s) !! i =
    if bool_decide (i ∈ ws) then release <$> futexQueue s !! i else futexQueue s !! i.
Proof.
  intros Hl ws. split; [|split].
  - unfold futexWake. rewrite (futex_wake_loop_spec addr FUTEX_COUNT (futexQueue s)); done.
  - unfold ws. generalize 0%nat. clear Hl ws. revert n.
    induction (futexQueue s) as [|e q IH]; intros n i Hn; cbn [woken_slots]; [simpl; lia|].
    destruct (Z.eqb_spec n 0); [simpl; lia|]. destruct (f_valid e && _); [|apply IH; lia].
    cbn [length]. specialize (IH (n - 1) (S i)). lia.
  - clearbody ws. clear Hl. revert s. induction ws as [|w ws IH]; intros s i; [done|].
    cbn [fold_left]. rewrite IH. unfold wake_slot.
    destruct (futexQueue s !! w) as [e|] eqn:Ew; cbn [futexQueue upd_futex].
    + destruct (decide (i = w)) as [-> |Hne].
      * rewrite list_lookup_insert_eq by (by eapply lookup_lt_Some).
        rewrite (bool_decide_true (w ∈ w :: ws)), Ew by set_solver. by destruct (bool_decide (w ∈ ws)).
      * rewrite list_lookup_insert_ne by done.
        by rewrite (bool_decide_ext (i ∈ ws) (i ∈ w :: ws)) by set_solver.
    + destruct (decide (i = w)) as [-> |Hne].
      * rewrite Ew. by destruct (bool_decide _), (bool_decide _).
      * by rewrite (bool_decide_ext (i ∈ ws) (i ∈ w :: ws)) by set_solver.
Qed.

Lemma futexWake_first_witness :
  exists s s', length (futexQueue s) = FUTEX_COUNT /\ futexWake 8 1 s = Ret tt s' /\
    futexQueue s' !! 1%nat = Some (mkFutex 8 2 false).
Proof.
  set (s := upd_futex (mkFutex 4 1 true :: mkFutex 8 2 true :: mkFutex 8 3 true ::
    replicate 61 (mkFutex 0 0 false)) sched_ex).
  destruct (futexWake_first s 8 1 eq_refl) as (H1 & _ & H3).
  exists s, (fold_left wake_slot (woken_slots 8 1 (futexQueue s) 0) s).
  split; [reflexivity|]. split; [exact H1|]. rewrite H3. reflexivity.
Defined.

(** ** Identifiers *)

Definition new_id (n i : Z) : Z := Z.lor (u32 (Z.shiftl n (1 + LOG_PROCESS_NUM))) i.

Lemma new_id_value n i : 0 <= n < 2 ^ 21 -> 0 <= i < PROCESS_TOTAL_NUMBER -> new_id n i = n * 2048 + i.
Proof.
  intros Hn Hi. unfold new_id. change (1 + LOG_PROCESS_NUM) with 11. unfold PROCESS_TOTAL_NUMBER in Hi.
  rewrite Z.shiftl_mul_pow2 by lia. unfold u32. rewrite Z.mod_small by lia.
  change 2048 with (2 ^ 11). rewrite Z.add_comm, Z.lor_comm. rewrite <- Z.lxor_lor, Z.add_nocarry_lxor; [done| |].
  all: apply Z.bits_inj_0; intros b; rewrite Z.land_spec; destruct (Z.ltb_spec b 11).
  all: try (rewrite Z.mul_pow2_bits_low by lia; apply andb_false_r).
  all: rewrite (Z.bits_above_log2 i); [done|lia|].
  all: destruct (decide (i = 0)) as [-> |]; [simpl; lia|].
  all: apply Z.log2_lt_pow2; [lia|]; pose proof (Z.pow_le_mono_r 2 11 b); lia.
Qed.

Lemma new_id_offset n i : 0 <= n < 2 ^ 21 -> 0 <= i < PROCESS_TOTAL_NUMBER -> PROCESS_OFFSET (new_id n i) = i.
Proof.
  intros Hn Hi. rewrite new_id_value by done. unfold PROCESS_OFFSET.
  change (PROCESS_TOTAL_NUMBER - 1) with (Z.ones 10). rewrite Z.land_ones by lia.
  unfold PROCESS_TOTAL_NUMBER in Hi. Z.to_euclidean_division_equations; lia.
Qed.

(** C30. Identifiers name one incarnation of a thread.  While fewer than 2^21
    identifiers have been given out, the new identifier of thread [i] is not 0,
    [tid2Thread] finds thread [i] by it while the thread is in use, and
    after the entry is reused under a later identifier the old one is refused
    with -ESRCH; the 2^21st identifier of thread 0 is 0, which names the
    caller. *)
Theorem thread_ids s i :
  0 <= i < PROCESS_TOTAL_NUMBER -> 0 <= nextTid s < 2 ^ 21 - 1 ->
  exists n s1, generateThreadId i s = Ret n s1 /\ nextTid s1 = nextTid s + 1 /\ n <> 0 /\
    (forall st, st <> UNUSED ->
      tid2Thread n false (upd_thread i (fun t => t_id n (t_state st t)) s1) =
        Ret (0, Some i) (upd_thread i (fun t => t_id n (t_state st t)) s1)) /\
    (forall s2 k, nextTid s1 <= k < 2 ^ 21 - 1 -> id (th_of s2 i) = new_id (k + 1) i ->
      tid2Thread n false s2 = Ret (- ESRCH, None) s2) /\
    new_id (2 ^ 21) 0 = 0.
Proof.
  intros Hi Hn. unfold generateThreadId. run_steps. eexists (new_id (nextTid s + 1) i), _.
  assert (Hu : u32 (nextTid s + 1) = nextTid s + 1) by (apply Z.mod_small; lia).
  split; [simpl; by rewrite Hu|]. split; [done|].
  pose proof (new_id_value (nextTid s + 1) i ltac:(lia) Hi) as Hv.
  assert (Hne : new_id (nextTid s + 1) i <> 0) by (unfold PROCESS_TOTAL_NUMBER in Hi; lia).
  split_and!; [done| | |reflexivity].
  - intros st Hst. unfold tid2Thread. rewrite (proj2 (Z.eqb_neq _ 0)) by done.
    rewrite bind_gets, new_id_offset by (done || lia). rewrite th_of_upd, decide_True by done.
    cbn [id t_id state t_state]. rewrite Z.eqb_refl. rewrite bool_decide_false by done. done.
  - intros s2 k Hk He. cbn [nextTid upd_next] in Hk.
    unfold tid2Thread. rewrite (proj2 (Z.eqb_neq _ 0)) by done.
    rewrite bind_gets, new_id_offset by (done || lia). rewrite He, (new_id_value (k + 1)) by (done || lia).
    rewrite (proj2 (Z.eqb_neq _ _)) by lia. by rewrite orb_true_r.
Qed.

Lemma thread_ids_witness : exists n s1, generateThreadId 3 sched_ex = Ret n s1 /\ n <> 0.
Proof.
  destruct (thread_ids sched_ex 3) as (n & s1 & H & _ & Hn & _);
    [unfold PROCESS_TOTAL_NUMBER; lia|simpl; lia|].
  exists n, s1. split; [exact H|exact Hn].
Defined.
