(* ===== verification/Lock.v ===== *)
(** * Spinlock.c, Interrput.c and Hart.c: locks, nested interrupt masking, harts

    [acquireLock] and [releaseLock] return before they do anything: no lock of the kernel
    excludes anyone.  What stands in for them is that one hart runs the kernel (Startup.v) and
    that the console buffer works without (ConsoleRace.v). *)

From S2P Require Import Prelude CType Mem Config Sched.

(** [lk_name] and [lk_hart] are addresses. *)
Record Spinlock := mkLock { lk_locked : Z; lk_times : Z; lk_name : Z; lk_hart : Z }.

Definition initLock (name : Z) : M Spinlock unit := modify (fun _ => mkLock 0 0 name 0).
Definition acquireLock : M Spinlock unit := mret tt.
Definition releaseLock : M Spinlock unit := mret tt.
(** [myHart] is the address of the entry of the hart, [harts + hart]. *)
Definition holding (myHart : Z) : M Spinlock bool := gets (fun l => c_true (lk_locked l) && (lk_hart l =? myHart)).

(** ** Hart.c *)

(** [sizeof(Trapframe)], 36 registers. *)
Definition SIZEOF_TRAPFRAME : Z := 288.
Definition KERNEL_STACK_SIZE : Z := 0x10000.
Definition getHartTrapFrame (hart : Z) : Z := TRAMPOLINE_BASE + PAGE_SIZE + hart * SIZEOF_TRAPFRAME.
Definition getHartKernelTopSp (kernelStack hart : Z) : Z := u64 (kernelStack + KERNEL_STACK_SIZE * (hart + 1)).

(** ** Interrput.c *)

(** A hart: whether interrupts are enabled, the depth of masking, and whether interrupts
    were enabled outside. *)
Record Hart := mkHart { intr : bool; interruptLayer : Z; lastInterruptEnable : bool }.

Definition interruptPush : M Hart unit :=
  old ← gets intr;
  modify (fun h => mkHart false (interruptLayer h) (lastInterruptEnable h)) ;;
  modify (fun h => if interruptLayer h =? 0 then mkHart (intr h) (interruptLayer h) old else h) ;;
  modify (fun h => mkHart (intr h) (i32 (interruptLayer h + 1)) (lastInterruptEnable h)).

Definition interruptPop : M Hart unit :=
  h ← gets (fun h => h);
  if intr h then panic
  else if interruptLayer h <? 0 then panic
  else
    modify (fun h => mkHart (intr h) (i32 (interruptLayer h - 1)) (lastInterruptEnable h)) ;;
    modify (fun h => if (interruptLayer h =? 0) && lastInterruptEnable h then mkHart true (interruptLayer h) (lastInterruptEnable h) else h).

(** ** Nested masking *)

Inductive masking := Push | Pop.
Definition mask_step (m : masking) : M Hart unit := match m with Push => interruptPush | Pop => interruptPop end.
Fixpoint mask_run (l : list masking) : M Hart unit :=
  match l with [] => mret tt | m :: l => mask_step m ;; mask_run l end.
(** The depth after the calls [l] from depth [d], [None] when a pop has no push. *)
Fixpoint depth (d : nat) (l : list masking) : option nat :=
  match l, d with
  | [], _ => Some d
  | Push :: l, _ => depth (S d) l
  | Pop :: l, S d => depth d l
  | Pop :: _, O => None
  end.

(** A hart at depth [d] that had interrupts [en] outside. *)
Definition masked (en : bool) (d : nat) (h : Hart) : Prop :=
  interruptLayer h = Z.of_nat d /\ intr h = (en && (d =? 0)%nat) /\ (d <> 0%nat -> lastInterruptEnable h = en).

Lemma mask_push en d h : masked en d h -> Z.of_nat d < 2 ^ 31 - 1 ->
  exists h', interruptPush h = Ret tt h' /\ masked en (S d) h'.
Proof.
  intros (Hl & Hi & He) Hd. eexists. split; [done|]. unfold masked. destruct h as [i n e]. cbn in *. subst n.
  destruct d as [|d]; cbn -[i32 Z.of_nat].
  - split_and!; [done|by rewrite andb_false_r|]. intros _. subst i. by rewrite andb_true_r.
  - rewrite (proj2 (Z.eqb_neq (Z.of_nat (S d)) 0)) by lia. cbn -[i32 Z.of_nat].
    rewrite i32_small by lia. split_and!; [lia|by rewrite andb_false_r|]. intros _. by apply He.
Qed.

Lemma mask_pop en d h : masked en (S d) h -> Z.of_nat d < 2 ^ 31 - 1 ->
  exists h', interruptPop h = Ret tt h' /\ masked en d h'.
Proof.
  intros (Hl & Hi & He) Hd. destruct h as [i n e]. cbn in Hl, Hi, He. specialize (He ltac:(done)). subst.
  rewrite andb_false_r. unfold interruptPop. rewrite bind_gets. cbn [intr interruptLayer].
  rewrite (proj2 (Z.ltb_ge _ _)) by lia. eexists. split; [done|]. unfold masked. cbn -[i32 Z.of_nat].
  replace (Z.of_nat (S d) - 1) with (Z.of_nat d) by lia. rewrite i32_small by lia.
  destruct d as [|d]; [by destruct en|]. cbn -[Z.of_nat]. by rewrite andb_false_r.
Qed.

Lemma mask_run_spec en l : forall d d' h, depth d l = Some d' -> masked en d h -> Z.of_nat (d + length l) < 2 ^ 31 - 1 ->
  exists h', mask_run l h = Ret tt h' /\ masked en d' h'.
Proof.
  induction l as [|[] l IH]; intros d d' h Hd Hm Hn; cbn [depth mask_run mask_step length] in *.
  - injection Hd as <-. by exists h.
  - destruct (mask_push en d h Hm ltac:(lia)) as (h1 & E & Hm1). rewrite (bind_Ret _ _ _ _ _ E).
    apply (IH (S d)); [done|done|lia].
  - destruct d as [|d]; [done|]. destruct (mask_pop en d h Hm ltac:(lia)) as (h1 & E & Hm1). rewrite (bind_Ret _ _ _ _ _ E).
    apply (IH d); [done|done|lia].
Qed.

(** C36. Nested masking of interrupts.  Calls of [interruptPush] and [interruptPop] in
    which no pop comes before its push run without a panic; interrupts are disabled while a
    push is open, and after the last pop they are what they were before the first push.
    A pop without a push is noticed only when it is the second: the first makes the depth
    -1, which the test does not refuse. *)
Theorem interrupt_nesting en l d h : depth 0 l = Some d -> masked en 0 h -> Z.of_nat (length l) < 2 ^ 31 - 1 ->
  (exists h', mask_run l h = Ret tt h' /\ interruptLayer h' = Z.of_nat d /\ intr h' = (en && (d =? 0)%nat)) /\
  (forall e, mask_run [Pop; Pop] (mkHart false 0 e) = Panic /\
             mask_run [Pop] (mkHart false 0 e) = Ret tt (mkHart false (-1) e)).
Proof.
  intros Hd Hm Hn. split; [|by intros []].
  destruct (mask_run_spec en l 0 d h Hd Hm Hn) as (h' & E & H1 & H2 & _). by exists h'.
Qed.

Lemma interrupt_nesting_witness : exists h', mask_run [Push; Push; Pop; Pop] (mkHart true 0 false) = Ret tt h' /\
  interruptLayer h' = 0 /\ intr h' = true.
Proof.
  destruct (interrupt_nesting true [Push; Push; Pop; Pop] 0 (mkHart true 0 false)) as [(h' & H1 & H2 & H3) _].
  - reflexivity.
  - split_and!; [reflexivity|reflexivity|intros []; reflexivity].
  - simpl. lia.
  - exists h'. split_and!; [exact H1|exact H2|exact H3].
Defined.
