(* ===== verification/Sd.v ===== *)
(** * Sd.c: the SD card behind the SPI controller

    The driver exchanges bytes with the card: [xfer b] puts [b] in the transmit register and
    polls the receive register until a byte is there.  The card, with the controller, is a
    parameter: its state [D], the exchange, and the effect of writing the other registers of
    the controller.  [QEMU] is the macro that selects byte addresses.  What a card
    promises is the class [SdCard] of SdSpec.v. *)

From S2P Require Import Prelude CType Mem Config Page UserCopy Sched Bio Fat FatFile.

Definition MAX_TIMES : Z := 50000.
Definition SPI_REG_SCKDIV : Z := 0x00.
Definition SPI_REG_CSID : Z := 0x10.
Definition SPI_REG_CSDEF : Z := 0x14.
Definition SPI_REG_CSMODE : Z := 0x18.
Definition SPI_REG_FMT : Z := 0x40.
Definition SPI_CSMODE_AUTO : Z := 0.
Definition SPI_CSMODE_HOLD : Z := 2.
Definition SPI_CSMODE_OFF : Z := 3.
Definition F_CLK : Z := 1000000000.

(** The device: one exchange of bytes, and a write of register [r], of which the driver
    reads one before it writes it. *)
Record Device (D : Type) := mkDevice {
  dev_xfer : Z -> D -> Z * D;
  dev_read : Z -> D -> Z;
  dev_write : Z -> Z -> D -> D;
}.
Arguments dev_xfer {D}. Arguments dev_read {D}. Arguments dev_write {D}.

Section sd.
Context {D S : Type} (dv : Device D) `{!Part S D} `{!Part S MM} (QEMU : bool).

Definition spi_xfer (d : Z) : M S Z := lift (fun c => let '(r, c) := dev_xfer dv (u8 d) c in Ret (Z.land r 0xff) c).
Definition set_reg (r v : Z) : M S unit := lift (modify (dev_write dv r v)).
Definition sd_dummy : M S Z := spi_xfer 0xFF.

(** [n] more answers are awaited; the last one. *)
Fixpoint response (n : nat) (r : Z) : M S Z :=
  match n with
  | O => mret r
  | Datatypes.S n => r ← sd_dummy; if c_true (Z.land r 0x80) then response n r else mret r
  end.

Definition sd_cmd (cmd arg crc : Z) : M S Z :=
  set_reg SPI_REG_CSMODE SPI_CSMODE_HOLD ;;
  sd_dummy ;;
  spi_xfer cmd ;;
  spi_xfer (Z.shiftr arg 24) ;;
  spi_xfer (Z.shiftr arg 16) ;;
  spi_xfer (Z.shiftr arg 8) ;;
  spi_xfer arg ;;
  spi_xfer crc ;;
  response 1000 0.
Definition sd_cmd_end : M S unit := sd_dummy ;; set_reg SPI_REG_CSMODE SPI_CSMODE_AUTO.

(** [while (--timeout) { x = sd_dummy(); if (ok x) break; }]: whether it ended before the
    time-out; [n] is the value of [timeout]. *)
Fixpoint await (ok : Z -> bool) (n : nat) : M S bool :=
  match n with
  | O | 1%nat => mret false
  | Datatypes.S n => x ← sd_dummy; if ok x then mret true else await ok n
  end.
Definition wait_for (ok : Z -> bool) : M S bool := await ok (Z.to_nat MAX_TIMES).

(** The address of a sector in a command. *)
Definition sector_arg (sector : Z) : Z := u32 (if QEMU then u64 (sector * 512) else sector).

(** ** Reading *)

(** [n] bytes to [p]. *)
Fixpoint read_bytes (n : nat) (p : Z) : M S unit :=
  match n with
  | O => mret tt
  | Datatypes.S n => x ← sd_dummy; set_memory (store8 p x) ;; read_bytes n (p + 1)
  end.

(** [tot] sectors, at least one; [false] when the card times out. *)
Fixpoint read_sectors (tot : nat) (p : Z) : M S bool :=
  t ← wait_for (fun x => x =? 0xFE);
  if (t : bool) then
    read_bytes 512 p ;; sd_dummy ;; sd_dummy ;;
    match tot with
    | O | 1%nat => mret true
    | Datatypes.S tot => read_sectors tot (p + 512)
    end
  else mret false.

(** [fuel] counts down from the ten retries. *)
Fixpoint read_try (fuel : nat) (buf_ startSector sectorNumber : Z) : M S Z :=
  r ← sd_cmd 0x52 (sector_arg startSector) 0xE1;
  if negb (r =? 0) then sd_cmd_end ;; panic
  else
    ok ← read_sectors (Z.to_nat (i32 sectorNumber)) buf_;
    ok ← (if (ok : bool) then sd_cmd 0x4C 0 0x01 ;; wait_for (fun x => x =? 0xFF) else mret false);
    if (ok : bool) then sd_cmd_end ;; mret 0
    else match fuel with
         | O => panic
         | Datatypes.S fuel => sd_cmd_end ;; read_try fuel buf_ startSector sectorNumber
         end.
Definition sdRead (buf_ startSector sectorNumber : Z) : M S Z := read_try 10 buf_ startSector sectorNumber.

(** ** Writing *)

Fixpoint write_bytes (n : nat) (p : Z) : M S unit :=
  match n with
  | O => mret tt
  | Datatypes.S n => b ← read_memory (fun m => load8 m p); spi_xfer b ;; write_bytes n (p + 1)
  end.

(** One sector. *)
Fixpoint write_try (fuel : nat) (p now : Z) : M S unit :=
  r ← sd_cmd (Z.lor 24 0x40) (sector_arg now) 0;
  if negb (r =? 0) then sd_cmd_end ;; panic
  else
    sd_dummy ;; sd_dummy ;; sd_dummy ;;
    spi_xfer 0xFE ;;
    write_bytes 512 p ;;
    ok ← wait_for (fun x => Z.land x 0x1f =? 5);
    ok ← (if (ok : bool) then wait_for (fun x => x =? 0xFF) else mret false);
    if (ok : bool) then sd_cmd_end
    else match fuel with
         | O => panic
         | Datatypes.S fuel => sd_cmd_end ;; write_try fuel p now
         end.
Fixpoint write_sectors (n : nat) (p now : Z) : M S unit :=
  match n with
  | O => mret tt
  | Datatypes.S n => write_try 10 p now ;; write_sectors n (p + 512) (u64 (now + 1))
  end.
Definition sdWrite (buf_ startSector sectorNumber : Z) : M S Z :=
  write_sectors (Z.to_nat sectorNumber) buf_ startSector ;; mret 0.

(** ** Initialisation *)

Fixpoint dummies (n : nat) : M S unit :=
  match n with O => mret tt | Datatypes.S n => sd_dummy ;; dummies n end.

Definition sd_poweron (f : Z) : M S unit :=
  set_reg SPI_REG_FMT 0x80000 ;;
  d ← lift (gets (dev_read dv SPI_REG_CSDEF));
  set_reg SPI_REG_CSDEF (Z.lor d 1) ;;
  set_reg SPI_REG_CSID 0 ;;
  set_reg SPI_REG_SCKDIV f ;;
  set_reg SPI_REG_CSMODE SPI_CSMODE_OFF ;;
  dummies 10 ;;
  set_reg SPI_REG_CSMODE SPI_CSMODE_AUTO.

(** [true] is an error. *)
Definition sd_cmd0 : M S bool :=
  r ← sd_cmd 0x40 0 0x95; sd_cmd_end ;; mret (negb (r =? 1)).
Definition sd_cmd8 : M S bool :=
  r ← sd_cmd 0x48 0x1AA 0x87;
  sd_dummy ;; sd_dummy ;;
  v ← sd_dummy; c ← sd_dummy;
  sd_cmd_end ;;
  mret (negb (r =? 1) || negb (Z.land v 0xF =? 1) || negb (c =? 0xAA)).
Definition sd_cmd55 : M S unit := sd_cmd 0x77 0 0x65 ;; sd_cmd_end.
(** The loop ends when the card leaves the idle state. *)
Fixpoint sd_acmd41 (fuel : nat) : M S bool :=
  match fuel with
  | O => fun _ => NoFuel
  | Datatypes.S fuel =>
      sd_cmd55 ;;
      r ← sd_cmd 0x69 0x40000000 0x77;
      if r =? 1 then sd_acmd41 fuel else mret (negb (r =? 0))
  end.
Definition sd_cmd58 : M S bool :=
  if QEMU then mret false
  else
    r ← sd_cmd 0x7A 0 0xFD;
    p ← sd_dummy;
    sd_dummy ;; sd_dummy ;; sd_dummy ;;
    sd_cmd_end ;;
    mret (negb (r =? 0) || negb (Z.land p 0x80 =? 0x80)).
Definition sd_cmd16 : M S bool :=
  r ← sd_cmd 0x50 0x200 0x15; sd_cmd_end ;; mret (negb (r =? 0)).

(** [while (initTimes > 0 && sd_cmd0())]: the value of [initTimes] at the end. *)
Fixpoint reset_card (initTimes : nat) : M S nat :=
  match initTimes with
  | O => mret O
  | Datatypes.S n => e ← sd_cmd0; if (e : bool) then reset_card n else mret initTimes
  end.

(** The entries of [devsw] are the functions above. *)
Definition sdInit (fuel : nat) : M S unit :=
  sd_poweron 3000 ;;
  n ← reset_card 10;
  assert (negb (n =? 0)%nat) ;;
  e ← sd_cmd8; assert (negb e) ;;
  e ← sd_acmd41 fuel; assert (negb e) ;;
  e ← sd_cmd58; assert (negb e) ;;
  e ← sd_cmd16; assert (negb e) ;;
  set_reg SPI_REG_SCKDIV (F_CLK / 16666666).
End sd.

(** ** The device of the file table

    The functions of [devsw] call [sdRead] and [sdWrite], here [sd_read] and [sd_write]. *)

Section card.
Context {S : Type} `{!Part S MM} `{!FsEnv S} (sd_read sd_write : Z -> Z -> Z -> M S Z).

(** [local_] is the address of the local buffer.  The loops run once for each byte asked
    for, and each turn moves a sector. *)
Fixpoint card_read_loop (n : nat) (isUser : bool) (local_ dst st : Z) : M S unit :=
  match n with
  | O => mret tt
  | Datatypes.S n =>
      (if isUser then sd_read local_ st 1 ;; bs ← kload local_ 512; user_copyout dst bs ;; mret tt
       else sd_read dst st 1 ;; mret tt) ;;
      card_read_loop n isUser local_ (u64 (dst + 512)) (i32 (st + 1))
  end.
Definition sdCardRead (local_ : Z) (isUser : bool) (dst startAddr n : Z) : M S Z :=
  if c_true (Z.land n 511) then mret (-1)
  else if c_true (Z.land startAddr 511) then mret (-1)
  else card_read_loop (Z.to_nat n) isUser local_ dst (i32 (Z.shiftr startAddr 9)) ;; mret 0.

Fixpoint card_write_loop (n : nat) (isUser : bool) (local_ src st : Z) : M S unit :=
  match n with
  | O => mret tt
  | Datatypes.S n =>
      (if isUser then bs ← user_copyin src 512; kstore local_ bs ;; sd_write local_ st 1 ;; mret tt
       else sd_write src st 1 ;; mret tt) ;;
      card_write_loop n isUser local_ (u64 (src + 512)) (i32 (st + 1))
  end.
Definition sdCardWrite (local_ : Z) (isUser : bool) (src startAddr n : Z) : M S Z :=
  if c_true (Z.land n 511) then mret (-1)
  else if c_true (Z.land startAddr 511) then mret (-1)
  else card_write_loop (Z.to_nat n) isUser local_ src (i32 (Z.shiftr startAddr 9)) ;; mret 0.
End card.

(** ** Sectors

    What [sdRead] and [sdWrite] do on a card that keeps its contract, as SdSpec.v shows: the
    card is the map of sectors the buffer cache reads. *)

Section sectors.
Context {S : Type} `{!Part S MM} `{!Part S FatS} (sectors : Z).

(** The card refuses a command beyond its end, and the driver stops. *)
Definition in_card (startSector sectorNumber : Z) : bool := (0 <=? startSector) && (startSector + sectorNumber <=? sectors).
Definition sector_read (buf_ startSector sectorNumber : Z) : M S Z :=
  if in_card startSector sectorNumber then
    F ← lift (gets (fun F : FatS => F));
    kstore buf_ (concat (map (disk_block (bio F)) (seqZ startSector sectorNumber))) ;; mret 0
  else panic.
Definition set_sector (now : Z) (bs : list Z) (F : FatS) : FatS :=
  let b := bio F in set_bio (mkB (<[now := bs]> (disk b)) (bufs b) (lru b) (cur_tid b) (woken b)) F.
Fixpoint sector_write_loop (n : nat) (p now : Z) : M S unit :=
  match n with
  | O => mret tt
  | Datatypes.S n =>
      bs ← kload p 512;
      lift (modify (set_sector now bs)) ;;
      sector_write_loop n (p + 512) (now + 1)
  end.
Definition sector_write (buf_ startSector sectorNumber : Z) : M S Z :=
  if in_card startSector sectorNumber then
    sector_write_loop (Z.to_nat sectorNumber) buf_ startSector ;; mret 0
  else panic.
End sectors.
