(* ===== verification/SdSpec.v ===== *)
(** * What the SD card promises, and what the driver makes of it

    [SdCard] states the behaviour of a card in SPI mode the driver of Sd.c relies on: it
    answers a command within 1000 bytes, sends a block after its token, stops a read of
    several blocks, and stores a block it was sent.  The delays are the card's choice.  The
    driver, against any such card, reads and writes sectors. *)

From S2P Require Import Prelude CType Mem Config Page UserCopy Sched Bio Fat FatFile Sd.

Section device.
Context {D : Type} (dv : Device D).

(** The answers to the bytes [bs], and the card after them. *)
Fixpoint send (bs : list Z) (d : D) : list Z * D :=
  match bs with
  | [] => ([], d)
  | b :: bs => let '(x, d) := dev_xfer dv b d in let '(l, d) := send bs d in (x :: l, d)
  end.

Lemma send_cons b bs d : (send (b :: bs) d).2 = (send bs (dev_xfer dv b d).2).2.
Proof. cbn [send]. destruct (dev_xfer dv b d) as [x d1]. cbn [snd]. by destruct (send bs d1). Qed.
Lemma send_app bs cs d : (send (bs ++ cs) d).2 = (send cs (send bs d).2).2.
Proof. revert d. induction bs as [|b bs IH]; intros d; [done|]. cbn [app]. by rewrite !send_cons, IH. Qed.

(** After [n] answers that are not [ok] the card answers [b]. *)
Inductive polls (ok : Z -> bool) : nat -> D -> Z -> D -> Prop :=
  | polls_now d b d' : dev_xfer dv 0xFF d = (b, d') -> ok b = true -> polls ok 0 d b d'
  | polls_later n d x d1 b d' : dev_xfer dv 0xFF d = (x, d1) -> ok x = false -> polls ok n d1 b d' -> polls ok (S n) d b d'.

Definition ready (x : Z) : bool := negb (c_true (Z.land x 0x80)).
Definition frame_of (cmd arg crc : Z) : list Z :=
  [0xFF; cmd; u8 (Z.shiftr arg 24); u8 (Z.shiftr arg 16); u8 (Z.shiftr arg 8); u8 arg; crc].
(** The card answers [r] to a command in time. *)
Definition command (d : D) (cmd arg crc r : Z) (d' : D) : Prop :=
  exists n, (n < 1000)%nat /\
    polls ready n (send (frame_of cmd arg crc) (dev_write dv SPI_REG_CSMODE SPI_CSMODE_HOLD d)).2 r d'.
Definition in_time (ok : Z -> bool) (d d' : D) : Prop := exists n b, Z.of_nat n < MAX_TIMES - 1 /\ polls ok n d b d'.
Definition finish (d : D) : D := dev_write dv SPI_REG_CSMODE SPI_CSMODE_AUTO (dev_xfer dv 0xFF d).2.
End device.

Definition store_sector (s : Z) (bs : list Z) (C : Z -> list Z) : Z -> list Z :=
  fun t => if t =? s then bs else C t.

(** A card with [sectors] sectors: [idle C], waiting for a command, with contents [C];
    [streaming C s], about to send sector [s]; [receiving C s], expecting sector [s]. *)
Class SdCard {D : Type} (dv : Device D) (QEMU : bool) (sectors : Z) := {
  idle : (Z -> list Z) -> D -> Prop;
  streaming : (Z -> list Z) -> Z -> D -> Prop;
  receiving : (Z -> list Z) -> Z -> D -> Prop;
  sc_byte b d : 0 <= (dev_xfer dv b d).1 < 256;
  sc_read C s d : idle C d -> 0 <= s < sectors ->
    exists d', command dv d 0x52 (sector_arg QEMU s) 0xE1 0 d' /\ streaming C s d';
  sc_block C s d : streaming C s d -> 0 <= s < sectors ->
    exists d1 d2, in_time dv (fun x => x =? 0xFE) d d1 /\
      send dv (replicate 512 0xFF) d1 = (C s, d2) /\ streaming C (s + 1) (send dv [0xFF; 0xFF] d2).2;
  sc_stop C s d : streaming C s d -> exists r d1 d2, command dv d 0x4C 0 0x01 r d1 /\
    in_time dv (fun x => x =? 0xFF) d1 d2 /\ idle C (finish dv d2);
  sc_write C s d : idle C d -> 0 <= s < sectors ->
    exists d', command dv d 0x58 (sector_arg QEMU s) 0 0 d' /\ receiving C s d';
  sc_accept C s d bs : receiving C s d -> length bs = 512%nat -> Forall (fun b => 0 <= b < 2 ^ 8) bs ->
    exists d1 d2, in_time dv (fun x => Z.land x 0x1f =? 5) (send dv ([0xFF; 0xFF; 0xFF; 0xFE] ++ bs) d).2 d1 /\
      in_time dv (fun x => x =? 0xFF) d1 d2 /\ idle (store_sector s bs C) (finish dv d2);
}.

(** The card beside memory. *)
Definition Board (D : Type) : Type := (D * MM)%type.
#[export] Instance Board_card {D} : Part (Board D) D := {|
  part := fst; set_part := fun d s => (d, s.2);
  part_set := fun _ _ => eq_refl; set_part_set := fun _ _ _ => eq_refl; set_part_part := fun s => match s with (_, _) => eq_refl end |}.
#[export] Instance Board_mm {D} : Part (Board D) MM := {|
  part := snd; set_part := fun m s => (s.1, m);
  part_set := fun _ _ => eq_refl; set_part_set := fun _ _ _ => eq_refl; set_part_part := fun s => match s with (_, _) => eq_refl end |}.

Section driver.
Context {D : Type} (dv : Device D) (QEMU : bool) (sectors : Z) `{!SdCard dv QEMU sectors}.
Local Notation S := (Board D).

Lemma xfer_run (d : D) mm b : spi_xfer dv b (d, mm) = Ret (dev_xfer dv (u8 b) d).1 ((dev_xfer dv (u8 b) d).2, mm).
Proof.
  unfold spi_xfer, lift. cbn. pose proof (sc_byte (u8 b) d) as Hb. destruct (dev_xfer dv (u8 b) d) as [x d']. cbn in *.
  change 255 with (Z.ones 8). by rewrite Z.land_ones, Z.mod_small by lia.
Qed.

Lemma polls_ok ok n d b d' : polls dv ok n d b d' -> ok b = true.
Proof. by induction 1. Qed.

Lemma response_run ok n d b d' : polls dv ok n d b d' -> ok = ready -> forall k r mm, (n < k)%nat ->
  response dv k r (d, mm) = Ret b (d', mm).
Proof.
  induction 1 as [d b d' E Hb|n d x d1 b d' E Hx _ IH]; intros -> k r mm Hk; (destruct k as [|k]; [lia|]); cbn [response];
    unfold sd_dummy; rewrite (bind_Ret _ _ _ _ _ (xfer_run _ _ _)); change (u8 255) with 255; rewrite E; cbn [fst snd].
  - unfold ready in Hb. apply negb_true_iff in Hb. by rewrite Hb.
  - unfold ready in Hx. apply negb_false_iff in Hx. rewrite Hx. apply IH; [done|lia].
Qed.

Lemma await_run ok n d b d' : polls dv ok n d b d' -> forall k mm, (Datatypes.S n < k)%nat -> await dv ok k (d, mm) = Ret true (d', mm).
Proof.
  induction 1 as [d b d' E Hb|n d x d1 b d' E Hx _ IH]; intros k mm Hk; (destruct k as [|[|k]]; [lia..|]); cbn [await];
    unfold sd_dummy; rewrite (bind_Ret _ _ _ _ _ (xfer_run _ _ _)); change (u8 255) with 255; rewrite E; cbn [fst snd].
  - by rewrite Hb.
  - rewrite Hx. exact (IH (Datatypes.S k) mm ltac:(lia)).
Qed.

Lemma wait_run ok d d' mm : in_time dv ok d d' -> wait_for dv ok (d, mm) = Ret true (d', mm).
Proof. intros (n & b & Hn & Hp). unfold wait_for. apply (await_run _ _ _ _ _ Hp). lia. Qed.

Lemma set_reg_run r v d mm : set_reg dv r v ((d, mm) : S) = Ret tt (dev_write dv r v d, mm).
Proof. done. Qed.

Lemma cmd_run d cmd arg crc r d' mm : 0 <= cmd < 2 ^ 8 -> 0 <= crc < 2 ^ 8 -> command dv d cmd arg crc r d' ->
  sd_cmd dv cmd arg crc (d, mm) = Ret r (d', mm).
Proof.
  intros Hc Hcrc (n & Hn & Hp). unfold sd_cmd. rewrite (bind_Ret _ _ _ _ _ (set_reg_run _ _ _ _)).
  unfold sd_dummy. do 7 rewrite (bind_Ret _ _ _ _ _ (xfer_run _ _ _)).
  rewrite (u8_small cmd), (u8_small crc) by done. change (u8 255) with 255.
  unfold frame_of in Hp. rewrite !send_cons in Hp.
  apply (response_run ready n); [done|done|lia].
Qed.

Lemma end_run d mm : sd_cmd_end dv (d, mm) = Ret tt (finish dv d, mm).
Proof. unfold sd_cmd_end, sd_dummy. by rewrite (bind_Ret _ _ _ _ _ (xfer_run _ _ _)). Qed.

Lemma send_length bs d : length (send dv bs d).1 = length bs.
Proof.
  revert d. induction bs as [|b bs IH]; intros d; [done|]. cbn [send].
  destruct (dev_xfer dv b d) as [x d1]. specialize (IH d1). destruct (send dv bs d1). cbn in *. lia.
Qed.

(** ** Reading *)

Lemma read_bytes_run n : forall d mm p bs d', send dv (replicate n 0xFF) d = (bs, d') ->
  read_bytes dv n p (d, mm) = Ret tt (d', set_mem (store_bytes p bs) mm).
Proof.
  induction n as [|n IH]; intros d mm p bs d' E; cbn [replicate send] in E.
  - injection E as <- <-. by destruct mm.
  - destruct (dev_xfer dv 255 d) as [x d1] eqn:Ex. destruct (send dv (replicate n 255) d1) as [l d2] eqn:El.
    injection E as <- <-. cbn [read_bytes]. unfold sd_dummy. rewrite (bind_Ret _ _ _ _ _ (xfer_run _ _ _)).
    change (u8 255) with 255. rewrite Ex. cbn [fst snd].
    unfold set_memory. rewrite bind_lift_modify. cbn [part set_part Board_mm fst snd].
    rewrite (IH _ _ _ _ _ El). done.
Qed.

Definition sectors_from (C : Z -> list Z) (s n : Z) : list Z := concat (map C (seqZ s n)).

Lemma sectors_from_cons C s n : 0 < n -> sectors_from C s n = C s ++ sectors_from C (s + 1) (n - 1).
Proof. intros. unfold sectors_from. rewrite seqZ_cons by lia. cbn [map concat]. by replace (Z.succ s) with (s + 1) by lia. Qed.

Lemma dummy2_run d mm A (k : M S A) : (sd_dummy dv ;; sd_dummy dv ;; k) (d, mm) = k ((send dv [255; 255] d).2, mm).
Proof.
  unfold sd_dummy. do 2 rewrite (bind_Ret _ _ _ _ _ (xfer_run _ _ _)). change (u8 255) with 255. by rewrite !send_cons.
Qed.

Lemma read_sectors_run C tot : forall d mm p s, (0 < tot)%nat -> streaming C s d -> 0 <= s -> s + Z.of_nat tot <= sectors ->
  exists d', read_sectors dv tot p (d, mm) = Ret true (d', set_mem (store_bytes p (sectors_from C s (Z.of_nat tot))) mm) /\
    streaming C (s + Z.of_nat tot) d'.
Proof.
  induction tot as [|tot IH]; intros d mm p s Ht Hst Hs Hn; [lia|].
  destruct (sc_block C s d Hst ltac:(lia)) as (d1 & d2 & Hw & Hsend & Hst2).
  cbn [read_sectors]. rewrite (bind_Ret _ _ _ _ _ (wait_run _ _ _ _ Hw)).
  rewrite (bind_Ret _ _ _ _ _ (read_bytes_run _ _ _ _ _ _ Hsend)), dummy2_run.
  rewrite sectors_from_cons by lia. replace (Z.of_nat (Datatypes.S tot) - 1) with (Z.of_nat tot) by lia.
  destruct tot as [|tot].
  - eexists. split; [|by replace (s + Z.of_nat 1) with (s + 1) by lia]. unfold sectors_from. cbn. by rewrite app_nil_r.
  - destruct (IH (send dv [255; 255] d2).2 (set_mem (store_bytes p (C s)) mm) (p + 512) (s + 1)) as (d' & E & H');
      [lia|done|lia|lia|].
    exists d'. split; [|by replace (s + Z.of_nat (Datatypes.S (Datatypes.S tot))) with (s + 1 + Z.of_nat (Datatypes.S tot)) by lia].
    rewrite E. do 2 f_equal. unfold set_mem. cbn. f_equal. rewrite store_bytes_app. pose proof (send_length (replicate 512 255) d1) as Hl.
    rewrite Hsend in Hl. cbn [fst] in Hl. by rewrite Hl, length_replicate.
Qed.

Lemma sdRead_run C d mm p s n : idle C d -> 0 < n < 2 ^ 31 -> 0 <= s -> s + n <= sectors ->
  exists d', sdRead dv QEMU p s n (d, mm) = Ret 0 (d', set_mem (store_bytes p (sectors_from C s n)) mm) /\ idle C d'.
Proof.
  intros Hi Hn Hs Hm. unfold sdRead. cbn [read_try].
  destruct (sc_read C s d Hi ltac:(lia)) as (d1 & Hc & H1).
  rewrite (bind_Ret _ _ _ _ _ (cmd_run d 0x52 _ 0xE1 _ _ mm ltac:(lia) ltac:(lia) Hc)). cbn [Z.eqb negb].
  rewrite i32_small by lia.
  destruct (read_sectors_run C (Z.to_nat n) d1 mm p s) as (d2 & E & H2); [lia|done|lia|lia|].
  rewrite Z2Nat.id in E, H2 by lia. rewrite (bind_Ret _ _ _ _ _ E).
  destruct (sc_stop C (s + n) d2 H2) as (r & d3 & d4 & Hc' & Hw & H4).
  erewrite bind_Ret; [|rewrite (bind_Ret _ _ _ _ _ (cmd_run d2 0x4C 0 0x01 _ _ _ ltac:(lia) ltac:(lia) Hc')); exact (wait_run _ _ _ _ Hw)].
  cbv match. rewrite (bind_Ret _ _ _ _ _ (end_run _ _)). by eexists.
Qed.

(** ** Writing *)

Lemma write_bytes_run n : forall d mm p,
  write_bytes dv n p (d, mm) = Ret tt ((send dv (load_bytes (mem mm) p n) d).2, mm).
Proof.
  induction n as [|n IH]; intros d mm p; [done|]. cbn [write_bytes load_bytes]. rewrite send_cons.
  unfold read_memory. rewrite bind_lift_gets. cbn [part Board_mm snd].
  rewrite (bind_Ret _ _ _ _ _ (xfer_run _ _ _)), u8_small by apply load8_range. apply IH.
Qed.

Lemma write_try_run C d mm p s : idle C d -> 0 <= s < sectors ->
  exists d', write_try dv QEMU 10 p s (d, mm) = Ret tt (d', mm) /\
    idle (store_sector s (load_bytes (mem mm) p 512) C) d'.
Proof.
  intros Hi Hs. cbn [write_try]. destruct (sc_write C s d Hi Hs) as (d1 & Hc & H1).
  rewrite (bind_Ret _ _ _ _ _ (cmd_run d (Z.lor 24 0x40) _ 0 _ _ mm ltac:(done) ltac:(lia) Hc)). cbn [Z.eqb negb].
  destruct (sc_accept C s d1 (load_bytes (mem mm) p 512) H1) as (d2 & d3 & Hw & Hw' & H3);
    [apply length_load_bytes|apply load_bytes_range|].
  unfold sd_dummy. do 4 rewrite (bind_Ret _ _ _ _ _ (xfer_run _ _ _)). change (u8 255) with 255. change (u8 254) with 254.
  rewrite (bind_Ret _ _ _ _ _ (write_bytes_run _ _ _ _)).
  rewrite send_app, !send_cons in Hw. rewrite (bind_Ret _ _ _ _ _ (wait_run _ _ _ _ Hw)).
  rewrite (bind_Ret _ _ _ _ _ (wait_run _ _ _ _ Hw')). cbv match. rewrite end_run. by eexists.
Qed.

(** The contents after the [n] sectors at [p] were written from [s] on. *)
Fixpoint written (n : nat) (m : gmap Z Z) (p s : Z) (C : Z -> list Z) : Z -> list Z :=
  match n with
  | O => C
  | Datatypes.S n => written n m (p + 512) (s + 1) (store_sector s (load_bytes m p 512) C)
  end.

Lemma write_sectors_run n : forall C d mm p s, idle C d -> 0 <= s -> s + Z.of_nat n <= sectors -> sectors < 2 ^ 64 ->
  exists d', write_sectors dv QEMU n p s (d, mm) = Ret tt (d', mm) /\ idle (written n (mem mm) p s C) d'.
Proof.
  induction n as [|n IH]; intros C d mm p s Hi Hs Hn Hmax; [by eexists|]. cbn [write_sectors written].
  destruct (write_try_run C d mm p s Hi ltac:(lia)) as (d1 & E & H1). rewrite (bind_Ret _ _ _ _ _ E).
  rewrite u64_small by lia. apply IH; [done|lia|lia|done].
Qed.

Lemma written_at n m : forall p s C t, written n m p s C t =
  if decide (s <= t < s + Z.of_nat n) then load_bytes m (p + 512 * (t - s)) 512 else C t.
Proof.
  induction n as [|n IH]; intros p s C t; cbn [written]; [by rewrite decide_False by lia|]. rewrite IH. unfold store_sector.
  destruct (decide (s + 1 <= t < s + 1 + Z.of_nat n)).
  - rewrite decide_True by lia. f_equal. lia.
  - destruct (Z.eqb_spec t s) as [->|]; [rewrite decide_True by lia; f_equal; lia|by rewrite decide_False by lia].
Qed.

Lemma sectors_written n m : forall p s D',
  (forall t, s <= t < s + Z.of_nat n -> D' t = load_bytes m (p + 512 * (t - s)) 512) ->
  sectors_from D' s (Z.of_nat n) = load_bytes m p (n * 512).
Proof.
  induction n as [|n IH]; intros p s D' H; [done|].
  rewrite sectors_from_cons by lia. replace (Z.of_nat (Datatypes.S n) - 1) with (Z.of_nat n) by lia.
  rewrite (IH (p + 512)) by (intros; rewrite H by lia; f_equal; lia). rewrite H by lia.
  replace (p + 512 * (s - s)) with p by lia.
  replace (Datatypes.S n * 512)%nat with (512 + n * 512)%nat by lia.
  rewrite load_bytes_app. done.
Qed.

Lemma sdWrite_run C d mm p s n : idle C d -> 0 <= n -> 0 <= s -> s + n <= sectors -> sectors < 2 ^ 64 ->
  exists d', sdWrite dv QEMU p s n (d, mm) = Ret 0 (d', mm) /\ idle (written (Z.to_nat n) (mem mm) p s C) d'.
Proof.
  intros Hi Hn Hs Hm Hmax. unfold sdWrite.
  destruct (write_sectors_run (Z.to_nat n) C d mm p s) as (d' & E & H'); [done|lia|lia|done|].
  rewrite (bind_Ret _ _ _ _ _ E). by eexists.
Qed.

(** On any card that keeps the contract, with room for them, [sdWrite] of [n] sectors
    from [s] on returns zero, leaves memory alone, and changes exactly those sectors;
    [sdRead] of the same sectors then returns zero and delivers at [dst] the bytes that
    were at [src].  No delay within the driver's time-outs makes either fail. *)
Theorem sd_roundtrip C d mm src dst s n : idle C d -> 0 < n < 2 ^ 31 -> 0 <= s -> s + n <= sectors -> sectors < 2 ^ 64 ->
  exists C' d1 d2,
    sdWrite dv QEMU src s n (d, mm) = Ret 0 (d1, mm) /\ idle C' d1 /\
    (forall t, ~ (s <= t < s + n) -> C' t = C t) /\
    sdRead dv QEMU dst s n (d1, mm) = Ret 0 (d2, set_mem (store_bytes dst (load_bytes (mem mm) src (Z.to_nat n * 512))) mm) /\
    idle C' d2.
Proof.
  intros Hi Hn Hs Hm Hmax. destruct (sdWrite_run C d mm src s n Hi ltac:(lia) Hs Hm Hmax) as (d1 & E1 & H1).
  destruct (sdRead_run _ d1 mm dst s n H1 Hn Hs Hm) as (d2 & E2 & H2).
  eexists _, d1, d2. split_and!; [exact E1|exact H1| |rewrite E2; do 4 f_equal|exact H2].
  - intros t Ht. rewrite written_at. by rewrite decide_False by lia.
  - replace n with (Z.of_nat (Z.to_nat n)) at 2 by lia. apply sectors_written. intros t Ht.
    rewrite written_at. by rewrite decide_True by lia.
Qed.

(** ** The card is the disk of the buffer cache *)

Lemma in_card_ok s n : 0 <= s -> s + n <= sectors -> in_card sectors s n = true.
Proof. intros. unfold in_card. apply andb_true_intro. split; [apply Z.leb_le|apply Z.leb_le]; lia. Qed.

Lemma sector_write_run n : forall F mm p s, exists F', sector_write_loop n p s ((F, mm) : Board FatS) = Ret tt (F', mm) /\
  forall t, disk_block (bio F') t = written n (mem mm) p s (disk_block (bio F)) t.
Proof.
  induction n as [|n IH]; intros F mm p s; [by exists F|]. cbn [sector_write_loop written]. unfold kload.
  rewrite bind_lift_gets, bind_lift_modify. cbn [part set_part Board_card Board_mm fst snd].
  destruct (IH (set_sector s (load_bytes (mem mm) p 512) F) mm (p + 512) (s + 1)) as (F' & E & H). exists F'. split; [exact E|].
  intros t. rewrite H, !written_at. case_decide; [done|]. unfold store_sector, set_sector, disk_block. cbn [bio set_bio disk].
  destruct (Z.eqb_spec t s) as [-> |]; [by rewrite lookup_insert_eq|by rewrite lookup_insert_ne].
Qed.

(** C13. The driver implements the disk of the buffer cache.  On any card that keeps the
    contract and whose sectors are those of the disk map: [sdRead] returns zero and leaves the same memory as
    reading the map, and [sdWrite] returns zero, leaves memory alone, and the sectors of the card
    afterwards are again those of the updated map.  No delay within the driver's time-outs makes
    either fail, and every loop of the driver ends. *)
Theorem sd_refines C d (F : FatS) mm p s n : idle C d -> (forall t, 0 <= t < sectors -> C t = disk_block (bio F) t) ->
  0 < n < 2 ^ 31 -> 0 <= s -> s + n <= sectors -> sectors < 2 ^ 64 ->
  (exists d' mm', sdRead dv QEMU p s n (d, mm) = Ret 0 (d', mm') /\ idle C d' /\
     sector_read sectors p s n ((F, mm) : Board FatS) = Ret 0 (F, mm')) /\
  (exists d' C' F', sdWrite dv QEMU p s n (d, mm) = Ret 0 (d', mm) /\ idle C' d' /\
     sector_write sectors p s n ((F, mm) : Board FatS) = Ret 0 (F', mm) /\
     forall t, 0 <= t < sectors -> C' t = disk_block (bio F') t).
Proof.
  intros Hi HC Hn Hs Hm Hmax. split.
  - destruct (sdRead_run C d mm p s n Hi Hn Hs Hm) as (d' & E & H'). eexists d', _. split; [exact E|]. split; [done|].
    unfold sector_read. rewrite in_card_ok by lia. rewrite bind_lift_gets. cbn [part Board_card fst]. unfold kstore.
    rewrite bind_lift_modify. cbn [part set_part Board_mm fst snd]. unfold mret, M_ret. do 4 f_equal.
    unfold sectors_from. f_equal. apply map_ext_in. intros t Ht%list_elem_of_In%elem_of_seqZ. symmetry. apply HC. lia.
  - destruct (sdWrite_run C d mm p s n Hi ltac:(lia) Hs Hm Hmax) as (d' & E & H').
    destruct (sector_write_run (Z.to_nat n) F mm p s) as (F' & EF & HF). eexists d', _, F'. split; [exact E|]. split; [exact H'|]. split.
    + unfold sector_write. rewrite in_card_ok by lia. by rewrite (bind_Ret _ _ _ _ _ EF).
    + intros t Ht. rewrite HF, !written_at. case_decide; [done|]. by apply HC.
Qed.
End driver.

(** ** A card that keeps the contract *)

(** What the card expects or sends next: bytes of a command, the answer to one, a block's
    token, the rest of a block, its checksum, the token of a block from the host, the block
    (in reverse), and its checksum. *)
Inductive phase : Type :=
  | Listen (frame : list Z)
  | Reply (r : Z) (next : phase)
  | Token (s : Z)
  | Data (s : Z) (l : list Z)
  | Sum (s : Z)
  | Expect (s : Z)
  | Recv (s : Z) (n : nat) (l : list Z)
  | Checked (n : nat).
Definition Card : Type := phase * (Z -> list Z).

Definition frame_done (frame : list Z) : phase :=
  match frame with
  | [cmd; a; b; c; d; _] =>
      let arg := a * 2 ^ 24 + b * 2 ^ 16 + c * 2 ^ 8 + d in
      if cmd =? 0x52 then Reply 0 (Token arg)
      else if cmd =? 0x58 then Reply 0 (Expect arg)
      else Reply 0 (Listen [])
  | _ => Listen frame
  end.
Definition card_xfer (b : Z) (d : Card) : Z * Card :=
  let '(p, C) := d in
  match p with
  | Listen [] => (0xFF, (if Z.land b 0xC0 =? 0x40 then Listen [b] else Listen [], C))
  | Listen frame => (0xFF, (frame_done (frame ++ [b]), C))
  | Reply r next => (u8 r, (next, C))
  | Token s => (0xFE, (Data s (C s), C))
  | Data s l =>
      if b =? 0x4C then (0xFF, (Listen [b], C))
      else match l with
           | [] => (0xFF, (Sum s, C))
           | x :: l => (u8 x, (Data s l, C))
           end
  | Sum s => (0xFF, (Token (s + 1), C))
  | Expect s => (0xFF, (if b =? 0xFE then Recv s 511 [] else Expect s, C))
  | Recv s n l =>
      match n with
      | O => (0xFF, (Checked 1, store_sector s (reverse (b :: l)) C))
      | S n => (0xFF, (Recv s n (b :: l), C))
      end
  | Checked (S n) => (0xFF, (Checked n, C))
  | Checked O => (0xFF, (Reply 5 (Reply 0 (Listen [])), C))
  end.
Definition card : Device Card := {| dev_xfer := card_xfer; dev_read := fun _ _ => 0; dev_write := fun _ _ d => d |}.

Definition blocks (C : Z -> list Z) : Prop := forall s, length (C s) = 512%nat /\ Forall (fun b => 0 <= b < 2 ^ 8) (C s).

Lemma card_data s C : forall l, Forall (fun b => 0 <= b < 2 ^ 8) l ->
  send card (replicate (length l) 0xFF) (Data s l, C) = (l, (Data s [], C)).
Proof.
  induction 1 as [|x l Hx _ IH]; [done|]. cbn [length replicate send]. cbn [card dev_xfer card_xfer].
  change (255 =? 76) with false. cbv match. rewrite IH. by rewrite u8_small.
Qed.

Lemma card_recv s C : forall bs l, bs <> [] ->
  (send card bs (Recv s (length bs - 1) l, C)).2 = (Checked 1, store_sector s (reverse l ++ bs) C).
Proof.
  induction bs as [|b bs IH]; intros l H; [done|]. rewrite send_cons. cbn [length]. rewrite Nat.sub_succ, Nat.sub_0_r.
  cbn [card dev_xfer card_xfer]. destruct bs as [|c bs].
  - cbn [length snd send]. by rewrite reverse_cons.
  - cbn [length snd]. rewrite <- (Nat.sub_0_r (length bs)), <- Nat.sub_succ.
    change (S (length bs)) with (length (c :: bs)).
    rewrite (IH (b :: l)) by done. by rewrite reverse_cons, <- app_assoc.
Qed.

Lemma arg_bytes s : 0 <= s < 2 ^ 32 ->
  u8 (Z.shiftr s 24) * 2 ^ 24 + u8 (Z.shiftr s 16) * 2 ^ 16 + u8 (Z.shiftr s 8) * 2 ^ 8 + u8 s = s.
Proof.
  intros. unfold u8. rewrite !Z.shiftr_div_pow2 by lia.
  replace (s / 2 ^ 24) with (s / 2 ^ 8 / 2 ^ 8 / 2 ^ 8) by (rewrite !Z.div_div by lia; done).
  replace (s / 2 ^ 16) with (s / 2 ^ 8 / 2 ^ 8) by (rewrite Z.div_div by lia; done).
  change (2 ^ 8) with 256. change (2 ^ 16) with 65536. change (2 ^ 24) with 16777216. change (2 ^ 32) with 4294967296 in *.
  pose proof (Z.div_mod s 256). pose proof (Z.div_mod (s / 256) 256). pose proof (Z.div_mod (s / 256 / 256) 256).
  rewrite (Z.mod_small (s / 256 / 256 / 256)) by (rewrite !Z.div_div by lia; split; [apply Z.div_pos|apply Z.div_lt_upper_bound]; lia). lia.
Qed.

Lemma card_command C cmd s crc p : Z.land cmd 0xC0 =? 0x40 = true -> 0 <= s < 2 ^ 32 ->
  (forall a b c d, frame_done [cmd; a; b; c; d; crc] = Reply 0 (p (a * 2 ^ 24 + b * 2 ^ 16 + c * 2 ^ 8 + d))) ->
  command card (Listen [], C) cmd (sector_arg false s) crc 0 (p s, C).
Proof.
  intros Hc Hs Hf. exists 0%nat. split; [lia|]. apply polls_now; [|done]. unfold frame_of. rewrite !send_cons.
  cbn [card dev_xfer dev_write card_xfer snd]. change (Z.land 255 192 =? 64) with false. cbv match. cbn [card_xfer snd].
  rewrite Hc. cbn [card_xfer snd app frame_done]. cbn [frame_done] in Hf. rewrite Hf. cbn [send snd card_xfer].
  unfold sector_arg. rewrite u32_small by lia. by rewrite arg_bytes.
Qed.

#[export] Program Instance card_ok : SdCard card false (2 ^ 32) := {|
  idle C d := d = (Listen [], C) /\ blocks C;
  streaming C s d := d = (Token s, C) /\ blocks C;
  receiving C s d := d = (Expect s, C) /\ blocks C;
|}.
Next Obligation.
  intros b [p C]. destruct p as [[|x f]|r q|s|s [|x l]|s|s|s [|n] l|[|n]]; cbn;
    try (destruct (b =? 76)); cbn; (lia || apply Z.mod_pos_bound; lia).
Qed.
Next Obligation.
  intros C s d [-> HC] Hs. eexists. split; [|done]. by apply (card_command C 0x52 s 0xE1 Token).
Qed.
Next Obligation.
  intros C s d [-> HC] Hs. exists (Data s (C s), C), (Data s [], C). destruct (HC s) as [Hl Hb]. split_and!.
  - exists 0%nat, 0xFE. split; [unfold MAX_TIMES; lia|]. by apply polls_now.
  - rewrite <- Hl. by apply card_data.
  - done.
  - done.
Qed.
Next Obligation.
  intros C s d [-> HC]. exists 0, (Listen [], C), (Listen [], C). split_and!; [| |done..].
  - exists 0%nat. split; [lia|]. by apply polls_now.
  - exists 0%nat, 0xFF. split; [unfold MAX_TIMES; lia|]. by apply polls_now.
Qed.
Next Obligation.
  intros C s d [-> HC] Hs. eexists. split; [|done]. by apply (card_command C 0x58 s 0 Expect).
Qed.
Next Obligation.
  intros C s d bs [-> HC] Hl Hb. exists (Reply 0 (Listen []), store_sector s bs C), (Listen [], store_sector s bs C). split_and!.
  - exists 2%nat, 5. split; [unfold MAX_TIMES; lia|]. rewrite send_app.
    change (send card [255; 255; 255; 254] (Expect s, C)).2 with (Recv s 511 [], C).
    replace 511%nat with (length bs - 1)%nat by lia. rewrite card_recv by (intros ->; done).
    eapply polls_later; [done..|]. eapply polls_later; [done..|]. by apply polls_now.
  - exists 1%nat, 0xFF. split; [unfold MAX_TIMES; lia|]. eapply polls_later; [done..|]. by apply polls_now.
  - done.
  - intros t. unfold store_sector. destruct (t =? s); [done|apply HC].
Qed.

Definition blank_card : Card := (Listen [], fun _ => replicate 512 0).

Lemma sd_roundtrip_witness :
  exists C' d1 d2,
    sdWrite card false 0x1000 7 2 (blank_card, (mkMM ∅ ∅ ∅ [] 0)) = Ret 0 (d1, (mkMM ∅ ∅ ∅ [] 0)) /\ idle C' d1 /\
    (forall t, ~ (7 <= t < 7 + 2) -> C' t = replicate 512 0) /\
    sdRead card false 0x9000 7 2 (d1, (mkMM ∅ ∅ ∅ [] 0)) =
      Ret 0 (d2, set_mem (store_bytes 0x9000 (load_bytes (mem (mkMM ∅ ∅ ∅ [] 0)) 0x1000 (Z.to_nat 2 * 512))) (mkMM ∅ ∅ ∅ [] 0)) /\
    idle C' d2.
Proof.
  apply (sd_roundtrip card false (2 ^ 32) (fun _ => replicate 512 0)); [|lia..]. split; [done|].
  intros s. split; [done|]. by apply Forall_replicate.
Defined.

Lemma sd_refines_witness :
  let F := mkFatS (mkB ∅ ∅ ∅ 0 []) ∅ ∅ 0 ∅ [] ∅ in
  (exists d' mm', sdRead card false 0x9000 7 2 (blank_card, mkMM ∅ ∅ ∅ [] 0) = Ret 0 (d', mm') /\ idle (fun _ => replicate 512 0) d' /\
     sector_read (2 ^ 32) 0x9000 7 2 ((F, mkMM ∅ ∅ ∅ [] 0) : Board FatS) = Ret 0 (F, mm')) /\
  (exists d' C' F', sdWrite card false 0x9000 7 2 (blank_card, mkMM ∅ ∅ ∅ [] 0) = Ret 0 (d', mkMM ∅ ∅ ∅ [] 0) /\ idle C' d' /\
     sector_write (2 ^ 32) 0x9000 7 2 ((F, mkMM ∅ ∅ ∅ [] 0) : Board FatS) = Ret 0 (F', mkMM ∅ ∅ ∅ [] 0) /\
     forall t, 0 <= t < 2 ^ 32 -> C' t = disk_block (bio F') t).
Proof.
  apply (sd_refines card false (2 ^ 32) (fun _ => replicate 512 0)); [|done|lia..]. split; [done|].
  intros s. split; [done|]. by apply Forall_replicate.
Defined.
