(* ===== verification/Pipe.v ===== *)
(** * Pipe.c: pipes

    A pipe is a ring of [PIPESIZE] bytes with running counts of the bytes read
    and written.  The channels of a pipe are the addresses of its two counters.
    [waits] bounds how often a call is woken to find the pipe still full or
    empty; [pageout] and [threadDestroy] are in Segment.v and Process.v. *)

From S2P Require Import Prelude CType Mem Config Page Sched.

Definition PIPESIZE : Z := 65536.
Definition MAX_PIPE : Z := 128.

Record pipe := mkPipe {
  pdata : gmap Z Z;
  nread : Z;
  nwrite : Z;
  readopen : bool;
  writeopen : bool;
}.
Record PipeS := mkPipeS {
  pipeBuffer : gmap Z pipe;
  pipeBitMap : list Z;
}.

Definition pipe0 : pipe := mkPipe ∅ 0 0 false false.
Definition getpipe (s : PipeS) (p : Z) : pipe := default pipe0 (pipeBuffer s !! p).
Definition setpipe (p : Z) (f : pipe -> pipe) (s : PipeS) : PipeS :=
  mkPipeS (<[p := f (getpipe s p)]> (pipeBuffer s)) (pipeBitMap s).
Definition with_counts (r w : Z) (p : pipe) : pipe := mkPipe (pdata p) (u64 r) (u64 w) (readopen p) (writeopen p).
Definition with_open (r w : bool) (p : pipe) : pipe := mkPipe (pdata p) (nread p) (nwrite p) r w.

(** [data[(nwrite++) & (PIPESIZE - 1)] = ch] and [data[(nread++) & (PIPESIZE - 1)]] *)
Definition ring (i : Z) : Z := Z.land i (PIPESIZE - 1).
Definition push (ch : Z) (p : pipe) : pipe :=
  mkPipe (<[ring (nwrite p) := ch]> (pdata p)) (nread p) (u64 (nwrite p + 1)) (readopen p) (writeopen p).
Definition front (p : pipe) : Z := default 0 (pdata p !! ring (nread p)).
Definition pop (p : pipe) : pipe := with_counts (nread p + 1) (nwrite p) p.

(** [sizeof(struct pipe)] and the offsets of the counters in it. *)
Definition PIPE_STRIDE : Z := 24 + PIPESIZE + 24.
Definition chan_nread (base p : Z) : Z := base + p * PIPE_STRIDE + 24 + PIPESIZE.
Definition chan_nwrite (base p : Z) : Z := base + p * PIPE_STRIDE + 24 + PIPESIZE + 8.

(** ** The pool *)

Definition pipeAlloc : M PipeS Z :=
  bm ← gets pipeBitMap;
  match bitmap_alloc (Z.to_nat (MAX_PIPE / 64)) bm with
  | BGot p bm =>
      modify (fun s => mkPipeS (pipeBuffer s) bm) ;;
      modify (setpipe p (with_counts 0 0)) ;;
      mret p
  | BFull => panic
  | BOob => panic
  end.
Definition pipeFree (p : Z) : M PipeS unit :=
  modify (fun s => mkPipeS (pipeBuffer s) (bitmap_free p (pipeBitMap s))).

Section pipes.
Context {S : Type} `{!Part S PState} `{!Part S MM} `{!Part S PipeS}.
Context (pageout : Z -> Z -> M S Z) (threadDestroy : Z -> M S unit) (pipe_base : Z) (waits : nat).

Definition pipe_get {A} (p : Z) (f : pipe -> A) : M S A := lift (gets (fun s => f (getpipe s p))).
Definition pipe_set (p : Z) (f : pipe -> pipe) : M S unit := lift (modify (setpipe p f)).
Definition load_char (pa : Z) : M S Z := lift (gets (fun mm => load8 (mem mm) pa)).
Definition store_char (pa ch : Z) : M S unit := lift (modify (set_mem (store8 pa ch))).

(** [myProcess()->pgdir] *)
Definition my_pgdir : M S Z :=
  p ← lift myProcess;
  match p with None => panic | Some p => lift (gets (fun s => pgdir (pr_of s p))) end.

Definition pipeClose (pi : Z) (writable : bool) : M S unit :=
  (if writable then
     pipe_set pi (fun p => with_open (readopen p) false p) ;;
     lift (wakeup (chan_nread pipe_base pi))
   else
     pipe_set pi (fun p => with_open false (writeopen p) p) ;;
     lift (wakeup (chan_nwrite pipe_base pi))) ;;
  r ← pipe_get pi readopen;
  w ← pipe_get pi writeopen;
  when (negb r && negb w) (lift (pipeFree pi)).

(** The address to read user byte [va] at; a shared page is copied, at [cowva]. *)
Definition pipe_src (pageTable va cowva : Z) : M S Z :=
  r ← lift (Page.vir2phy pageTable va);
  if fst r =? 0 then pageout pageTable va
  else if default false (snd r) then lift (Page.cowHandler pageTable cowva)
  else mret (fst r).

(** The address to write user byte [va] at: the [cow] flag is not asked for. *)
Definition pipe_dst (pageTable va : Z) : M S Z :=
  r ← lift (Page.vir2phy pageTable va);
  if fst r =? 0 then pageout pageTable va else mret (fst r).

Definition page_start (isUser : bool) (a : Z) : bool := isUser && (Z.land a (PAGE_SIZE - 1) =? 0).

Definition write_step (pi : Z) (isUser : bool) (pageTable addr n : Z) (l : Z * Z) : M S ((Z * Z) + Z) :=
  let '(i, pa) := l in
  if i <? n then
    ro ← pipe_get pi readopen;
    if negb ro then panic
    else
      full ← pipe_get pi (fun p => nwrite p =? u64 (nread p + PIPESIZE));
      if (full : bool) then
        lift (wakeup (chan_nread pipe_base pi)) ;;
        sleep threadDestroy (chan_nwrite pipe_base pi) ;;
        mret (inl (i, pa))
      else
        ch ← load_char pa;
        pipe_set pi (push ch) ;;
        let i := i + 1 in
        pa ← (if page_start isUser (u64 (addr + i)) then pipe_src pageTable (u64 (addr + i)) addr
              else mret (u64 (pa + 1)));
        mret (inl (i, pa))
  else mret (inr i).

Definition pipeWrite (pi : Z) (isUser : bool) (addr n : Z) : M S Z :=
  pageTable ← my_pgdir;
  pa ← (if isUser then pipe_src pageTable addr addr else mret addr);
  i ← loop (Datatypes.S (waits + Z.to_nat n)) (write_step pi isUser pageTable addr n) (0, pa);
  lift (wakeup (chan_nread pipe_base pi)) ;;
  assert (negb (i =? 0)) ;;
  mret i.

Definition read_step (pi : Z) (isUser : bool) (pageTable addr n : Z) (l : Z * Z) : M S ((Z * Z) + Z) :=
  let '(i, pa) := l in
  if i <? n then
    empty ← pipe_get pi (fun p => nread p =? nwrite p);
    if (empty : bool) then mret (inr i)
    else
      ch ← pipe_get pi front;
      pipe_set pi pop ;;
      store_char pa ch ;;
      let i := i + 1 in
      pa ← (if page_start isUser (u64 (addr + i)) then pipe_dst pageTable (u64 (addr + i))
            else mret (u64 (pa + 1)));
      mret (inl (i, pa))
  else mret (inr i).

Definition pipeRead (pi : Z) (isUser : bool) (addr n : Z) : M S Z :=
  pageTable ← my_pgdir;
  pa ← (if isUser then pipe_dst pageTable addr else mret addr);
  loop (Datatypes.S waits) (fun _ : unit =>
    block ← pipe_get pi (fun p => (nread p =? nwrite p) && writeopen p);
    if (block : bool) then sleep threadDestroy (chan_nread pipe_base pi) ;; mret (inl tt) else mret (inr tt)) tt ;;
  i ← loop (Datatypes.S (Z.to_nat n)) (read_step pi isUser pageTable addr n) (0, pa);
  lift (wakeup (chan_nwrite pipe_base pi)) ;;
  mret i.

(** [pipeOut] and [pipeIn]: one byte between the kernel and the user. *)
Definition pipeOut (isUser : bool) (dstva ch : Z) : M S unit :=
  if negb isUser then store_char dstva ch
  else pageTable ← my_pgdir; pa ← pipe_src pageTable dstva dstva; store_char pa ch.
Definition pipeIn (isUser : bool) (srcva : Z) : M S Z :=
  if negb isUser then load_char srcva
  else pageTable ← my_pgdir; pa ← pipe_dst pageTable srcva; load_char pa.
End pipes.
