(* ===== verification/PipeSpec.v ===== *)
(** * What a pipe promises: a bounded first-in first-out channel *)

From S2P Require Import Prelude CType Mem Config Queue Page PageInv PageSpec Sched SchedSpec UserCopy Pipe.

(** The bytes in the pipe, oldest first. *)
Definition contents (p : pipe) : list Z :=
  map (fun i => default 0 (pdata p !! ring i)) (seqZ (nread p) (nwrite p - nread p)).

Definition pipe_ok (p : pipe) : Prop :=
  0 <= nread p /\ nread p <= nwrite p <= nread p + PIPESIZE /\ nwrite p < 2 ^ 64 - PIPESIZE.

Lemma ring_mod i : 0 <= i -> ring i = i mod 65536.
Proof. intros. unfold ring. change (PIPESIZE - 1) with (Z.ones 16). by rewrite Z.land_ones by lia. Qed.

Lemma contents_length p : pipe_ok p -> Z.of_nat (length (contents p)) = nwrite p - nread p.
Proof. intros (? & ? & ?). unfold contents. rewrite length_map, length_seqZ. lia. Qed.

Lemma pipe_empty p : pipe_ok p -> (nread p =? nwrite p) = bool_decide (contents p = []).
Proof.
  intros Hok. pose proof (contents_length p Hok) as Hlen.
  destruct (bool_decide_reflect (contents p = [])) as [E|Hb]; [apply Z.eqb_eq; rewrite E in Hlen; simpl in Hlen; lia|].
  apply Z.eqb_neq. intros E. apply Hb, nil_length_inv. lia.
Qed.

Lemma push_contents p ch :
  pipe_ok p -> nwrite p < nread p + PIPESIZE -> contents (push ch p) = contents p ++ [ch].
Proof.
  unfold pipe_ok, PIPESIZE. intros (H0 & H1 & H2) Hroom. unfold contents, push. cbn [pdata nread nwrite].
  unfold u64. rewrite Z.mod_small by lia.
  replace (nwrite p + 1 - nread p) with ((nwrite p - nread p) + 1) by lia.
  rewrite seqZ_app, map_app by lia. f_equal.
  - apply map_ext_in. intros i Hi. apply list_elem_of_In, elem_of_seqZ in Hi.
    rewrite lookup_insert_ne; [done|]. rewrite !ring_mod by lia. Z.to_euclidean_division_equations; lia.
  - rewrite seqZ_cons, seqZ_nil by lia. simpl. f_equal.
    replace (nread p + (nwrite p - nread p)) with (nwrite p) by lia. by rewrite lookup_insert_eq.
Qed.

Lemma push_ok p ch : pipe_ok p -> nwrite p < nread p + PIPESIZE -> nwrite p + 1 < 2 ^ 64 - PIPESIZE -> pipe_ok (push ch p).
Proof.
  unfold pipe_ok, PIPESIZE. intros (H0 & H1 & H2) Hr H3. cbn [nread nwrite push]. unfold u64.
  rewrite Z.mod_small by lia. lia.
Qed.

Lemma pop_contents p : pipe_ok p -> nread p < nwrite p -> contents p = front p :: contents (pop p) /\ pipe_ok (pop p).
Proof.
  unfold pipe_ok, PIPESIZE. intros (H0 & H1 & H2) Hne. unfold contents, pop, with_counts, front.
  cbn [pdata nread nwrite]. unfold u64. rewrite !Z.mod_small by lia. split; [|lia].
  rewrite seqZ_cons by lia. simpl. f_equal. f_equal. f_equal; lia.
Qed.

(** ** Pipes beside threads and memory *)

Record World := mkWorld { w_p : PState; w_m : MM; w_pipes : PipeS }.
#[export] Instance World_p : Part World PState.
Proof.
  refine {| part := w_p; set_part := fun p w => mkWorld p (w_m w) (w_pipes w) |}; by intros ? []|| by intros [].
Defined.
#[export] Instance World_m : Part World MM.
Proof.
  refine {| part := w_m; set_part := fun m w => mkWorld (w_p w) m (w_pipes w) |}; by intros ? [] || by intros [].
Defined.
#[export] Instance World_pipes : Part World PipeS.
Proof.
  refine {| part := w_pipes; set_part := fun x w => mkWorld (w_p w) (w_m w) x |}; by intros ? [] || by intros [].
Defined.

Definition the_pipe (w : World) (pi : Z) : pipe := getpipe (w_pipes w) pi.

Lemma getpipe_set s p f q : getpipe (setpipe p f s) q = if decide (q = p) then f (getpipe s p) else getpipe s q.
Proof.
  unfold getpipe at 1, setpipe. simpl. destruct (decide (q = p)) as [-> |].
  - by rewrite lookup_insert_eq.
  - by rewrite lookup_insert_ne.
Qed.

(** ** The caller's buffer

    [table] is the directory of the process; for a buffer of the user, its private pages are
    mapped there, up to and including the byte after the last: that address is translated
    too when it starts a page. *)
Definition buf_mapped (w : World) (isUser : bool) tbl maps r f table addr n : Prop :=
  buffer isUser tbl maps r addr (n + 1) f /\
  (isUser = true -> table = page2pa r /\ pt_inv (w_m w) tbl maps /\ tbl !! r = Some (Root r)).

Section buffers.
Context (pageout : Z -> Z -> M World Z) (isUser : bool) (tbl : gmap Z owner) (maps : gmap (Z * Z) Z) (r : Z) (f : Z -> Z).
Context (table addr n : Z).
Implicit Types w : World.

Lemma buf_addr_small w i : buf_mapped w isUser tbl maps r f table addr n -> 0 <= i <= n ->
  0 <= addr + i < 2 ^ 64 /\ 0 <= buf_addr isUser f (addr + i) < 2 ^ 64.
Proof.
  intros [Hb _] Hi. destruct isUser; cbn [buffer buf_addr] in *; [|lia].
  destruct Hb as (H0 & H1 & H2 & _). change MAXVA with (2 ^ 38) in H1.
  destruct (H2 (addr + i) ltac:(lia)) as (e & _ & Hp & _). destruct (pte_page_Some _ _ Hp) as (Hok & _).
  unfold user_addr. rewrite page2pa_ok by done. unfold page_ok in Hok.
  pose proof (Z.mod_pos_bound (addr + i) 4096 ltac:(lia)). lia.
Qed.

(** Translating an address of the user's buffer. *)
Lemma buf_translate w i cowva : isUser = true -> buf_mapped w isUser tbl maps r f table addr n -> 0 <= i <= n ->
  pipe_src pageout table (addr + i) cowva w = Ret (user_addr f (addr + i)) w /\
  pipe_dst pageout table (addr + i) w = Ret (user_addr f (addr + i)) w.
Proof.
  intros Eu [Hb Hw] Hi. destruct (Hw Eu) as (-> & I & Hr). rewrite Eu in Hb. destruct Hb as (H0 & H1 & H2 & _).
  destruct (user_page_vir2phy (w_m w) tbl maps r (addr + i) _ I Hr ltac:(lia) (H2 (addr + i) ltac:(lia))) as [Hok Hv].
  unfold pipe_src, pipe_dst. change (w_m w) with (part (T := MM) w) in Hv.
  rewrite !(bind_lift_Ret _ _ _ _ _ Hv), !set_part_part. cbn [fst snd default from_option id].
  rewrite (proj2 (Z.eqb_neq _ 0)); [done|]. rewrite page2pa_ok by done. unfold page_ok in Hok.
  pose proof (Z.mod_pos_bound (addr + i) 4096 ltac:(lia)). lia.
Qed.

Lemma buf_start w : buf_mapped w isUser tbl maps r f table addr n -> 0 <= n ->
  (if isUser then pipe_src pageout table addr addr else mret addr) w = Ret (buf_addr isUser f addr) w /\
  (if isUser then pipe_dst pageout table addr else mret addr) w = Ret (buf_addr isUser f addr) w.
Proof.
  intros Hm Hn. destruct (bool_dec isUser true) as [Eu|Eu]; [|by destruct isUser].
  pose proof (buf_translate w 0 addr Eu Hm ltac:(lia)) as H. rewrite Z.add_0_r in H. by rewrite Eu.
Qed.

(** Moving on by one byte. *)
Lemma buf_next w i : buf_mapped w isUser tbl maps r f table addr n -> 0 <= i < n ->
  (if page_start isUser (u64 (addr + (i + 1))) then pipe_src pageout table (u64 (addr + (i + 1))) addr
   else mret (u64 (buf_addr isUser f (addr + i) + 1))) w = Ret (buf_addr isUser f (addr + (i + 1))) w /\
  (if page_start isUser (u64 (addr + (i + 1))) then pipe_dst pageout table (u64 (addr + (i + 1)))
   else mret (u64 (buf_addr isUser f (addr + i) + 1))) w = Ret (buf_addr isUser f (addr + (i + 1))) w.
Proof.
  intros Hm Hi. destruct (buf_addr_small w (i + 1) Hm ltac:(lia)) as [Ha Hb]. rewrite (u64_small (addr + _)) by done.
  assert (Hpos : isUser = true -> 0 <= addr) by (intros Eu; destruct Hm as [Hm _]; rewrite Eu in Hm; apply Hm).
  destruct (page_start isUser (addr + (i + 1))) eqn:Ep; unfold page_start in Ep.
  - apply andb_prop in Ep as [Eu _]. pose proof (buf_translate w (i + 1) addr Eu Hm ltac:(lia)) as H. by rewrite Eu.
  - assert (E : buf_addr isUser f (addr + (i + 1)) = buf_addr isUser f (addr + i) + 1).
    { destruct isUser; cbn [buf_addr]; [|lia]. cbn [andb] in Ep. apply Z.eqb_neq in Ep. specialize (Hpos eq_refl).
      change (PAGE_SIZE - 1) with (Z.ones 12) in Ep. rewrite Z.land_ones in Ep by lia. change (2 ^ 12) with 4096 in Ep.
      assert (E : vpn (addr + (i + 1)) = vpn (addr + i) /\ (addr + (i + 1)) mod 4096 = (addr + i) mod 4096 + 1)
        by (unfold vpn; Z.to_euclidean_division_equations; lia).
      destruct E as [E1 E2]. rewrite !user_addr_page, E1, E2. lia. }
    rewrite <- E, u64_small by done. done.
Qed.
End buffers.

Section fifo.
Context (pageout : Z -> Z -> M World Z) (threadDestroy : Z -> M World unit) (base : Z) (waits : nat).
Context (isUser : bool) (tbl : gmap Z owner) (maps : gmap (Z * Z) Z) (r : Z) (f : Z -> Z).
Implicit Types w : World.

(** A pipe after some bytes were pushed, everything else as before. *)
Definition pushed w pi bs w' : Prop :=
  w_p w' = w_p w /\ w_m w' = w_m w /\ pipe_ok (the_pipe w' pi) /\
  contents (the_pipe w' pi) = contents (the_pipe w pi) ++ bs /\
  nread (the_pipe w' pi) = nread (the_pipe w pi) /\
  readopen (the_pipe w' pi) = readopen (the_pipe w pi) /\ writeopen (the_pipe w' pi) = writeopen (the_pipe w pi) /\
  forall q, q <> pi -> the_pipe w' q = the_pipe w q.

Lemma write_step_push w pi table addr n i :
  pipe_ok (the_pipe w pi) -> readopen (the_pipe w pi) = true -> 0 <= i < n ->
  buf_mapped w isUser tbl maps r f table addr n ->
  nwrite (the_pipe w pi) < nread (the_pipe w pi) + PIPESIZE -> nwrite (the_pipe w pi) + 1 < 2 ^ 64 - PIPESIZE ->
  exists w', write_step pageout threadDestroy base pi isUser table addr n (i, buf_addr isUser f (addr + i)) w
      = Ret (inl (i + 1, buf_addr isUser f (addr + (i + 1)))) w' /\
    pushed w pi [load8 (mem (w_m w)) (buf_addr isUser f (addr + i))] w'.
Proof.
  intros Hok Hro Hi Hm Hroom Hw. set (a := buf_addr isUser f (addr + i)).
  set (w' := mkWorld (w_p w) (w_m w) (setpipe pi (push (load8 (mem (w_m w)) a)) (w_pipes w))).
  exists w'. split.
  - destruct (buf_next pageout isUser tbl maps r f table addr n w' i Hm Hi) as [Hnext _]. fold a in Hnext.
    unfold write_step. rewrite (proj2 (Z.ltb_lt _ _)) by lia. unfold pipe_get. rewrite bind_lift_gets.
    change (getpipe (part w) pi) with (the_pipe w pi). rewrite Hro. cbn [negb]. rewrite bind_lift_gets.
    change (getpipe (part w) pi) with (the_pipe w pi). unfold pipe_ok, PIPESIZE in *.
    rewrite (u64_small (_ + 65536)) by lia. rewrite (proj2 (Z.eqb_neq _ _)) by lia.
    unfold load_char, pipe_set. rewrite bind_lift_gets, bind_lift_modify.
    change (set_part _ w) with w'. cbv zeta. by rewrite (bind_Ret _ _ _ _ _ Hnext).
  - unfold pushed, the_pipe, w'. cbn [w_p w_m w_pipes]. rewrite getpipe_set, decide_True by done.
    split_and!; try done; [by apply push_ok|by apply push_contents|].
    intros q Hq. by rewrite getpipe_set, decide_False.
Qed.

Lemma pushed_trans w pi a w1 b w2 : pushed w pi a w1 -> pushed w1 pi b w2 -> pushed w pi (a ++ b) w2.
Proof.
  intros (A1 & A2 & A3 & A4 & A5 & A6 & A7 & A8) (B1 & B2 & B3 & B4 & B5 & B6 & B7 & B8).
  split_and!; try congruence; [by rewrite B4, A4, app_assoc|]. intros q Hq. by rewrite B8, A8.
Qed.

Lemma pushed_refl w pi : pipe_ok (the_pipe w pi) -> pushed w pi [] w.
Proof. intros. split_and!; try done. by rewrite app_nil_r. Qed.

Lemma write_room w pi : pipe_ok (the_pipe w pi) ->
  nwrite (the_pipe w pi) = nread (the_pipe w pi) + Z.of_nat (length (contents (the_pipe w pi))).
Proof. intros H. rewrite contents_length by done. lia. Qed.

(** The loop pushes bytes as long as there is room. *)
Lemma write_loop w0 pi table addr n k : forall fuel w i,
  pipe_ok (the_pipe w pi) -> readopen (the_pipe w pi) = true -> w_m w = w_m w0 ->
  0 <= i -> buf_mapped w0 isUser tbl maps r f table addr n ->
  i + Z.of_nat k <= n -> Z.of_nat (length (contents (the_pipe w pi))) + Z.of_nat k <= PIPESIZE ->
  nwrite (the_pipe w pi) + Z.of_nat k < 2 ^ 64 - PIPESIZE ->
  exists w', pushed w pi (buf_bytes isUser (w_m w0) f (addr + i) k) w' /\
    loop (k + fuel) (write_step pageout threadDestroy base pi isUser table addr n) (i, buf_addr isUser f (addr + i)) w =
    loop fuel (write_step pageout threadDestroy base pi isUser table addr n)
      (i + Z.of_nat k, buf_addr isUser f (addr + (i + Z.of_nat k))) w'.
Proof.
  induction k as [|k IH]; intros fuel w i Hok Hro Hm Hi Hmap Hk Hroom Hw.
  - exists w. split; [by apply pushed_refl|]. by rewrite Z.add_0_r.
  - pose proof (write_room w pi Hok) as Hr.
    destruct (write_step_push w pi table addr n i) as (w1 & Hs & Hp); try done; try lia.
    { unfold buf_mapped. by rewrite Hm. }
    pose proof Hp as (P1 & P2 & P3 & P4 & P5 & P6 & P7 & P8).
    destruct (IH fuel w1 (i + 1)) as (w' & Hp' & Hl'); try done; try lia; try congruence.
    { rewrite P4, length_app. simpl. lia. }
    { rewrite (write_room w1 pi P3), P4, P5, length_app. simpl. lia. }
    exists w'. split.
    + rewrite buf_bytes_cons. rewrite <- Hm at 1. rewrite <- Z.add_assoc.
      change (?x :: ?l) with ([x] ++ l). eapply pushed_trans; [exact Hp|exact Hp'].
    + cbn [Nat.add loop]. rewrite Hs. cbn [obind]. rewrite Hl'.
      by replace (i + 1 + Z.of_nat k) with (i + Z.of_nat (S k)) by lia.
Qed.

(** ** Waking and sleeping in the world of a pipe *)

Definition woken_state (c : Z) (s : PState) : PState :=
  fold_left (fun s t => if waits_on s c t then upd_thread t (t_state RUNNABLE) s else s) (usedThreads s) s.

Lemma wakeup_eq c s : wakeup c s = Ret tt (woken_state c s).
Proof. reflexivity. Qed.

Lemma woken_fields c us : forall s,
  let s' := fold_left (fun s t => if waits_on s c t then upd_thread t (t_state RUNNABLE) s else s) us s in
  (exists ts, s' = upd_threads (fun _ => ts) s) /\ forall t, killed (th_of s' t) = killed (th_of s t).
Proof.
  induction us as [|u us IH]; intros s; simpl; [split; [exists (threads s); by destruct s|done]|].
  destruct (waits_on s c u).
  - destruct (IH (upd_thread u (t_state RUNNABLE) s)) as [(ts & ->) Hk]. split; [by exists ts|].
    intros t. rewrite Hk, th_of_upd. by destruct (decide (t = u)) as [-> |].
  - apply IH.
Qed.

(** The state in which thread [th] gives the processor up on channel [c]. *)
Definition asleep (th c : Z) (s : PState) : PState :=
  upd_thread th (fun t => t_reason (Z.lor (reason t) KERNEL_GIVE_UP) (t_state SLEEPING (t_chan c t))) s.

Lemma sleep_sleeps w th c :
  currentThread (w_p w) !! cpu (w_p w) = Some th -> killed (th_of (w_p w) th) = false ->
  exists k, sleep threadDestroy c w = Sleep c (mkWorld (asleep th c (w_p w)) (w_m w) (w_pipes w)) k.
Proof.
  intros Hc Hk. unfold sleep, myThread. rewrite bind_lift_gets. cbn [part World_p]. rewrite Hc. run_steps.
  cbn [part World_p set_part w_p w_m w_pipes]. rewrite !upd_thread_twice.
  assert (E : killed (th_of (upd_thread th (fun t => t_reason (Z.lor (reason (th_of
      (upd_thread th (fun th0 => t_state SLEEPING (t_chan c th0)) (w_p w)) th)) KERNEL_GIVE_UP)
      (t_state SLEEPING (t_chan c t))) (w_p w)) th) = false).
  { rewrite th_of_upd, decide_True by done. exact Hk. }
  rewrite E. cbn [when]. rewrite bind_mret. unfold sleep_on, mbind, M_bind. cbn [obind].
  eexists. f_equal. f_equal. rewrite th_of_upd, decide_True by done. done.
Qed.
End fifo.

(** What a call that found its thread [th] on the hart needs of the scheduler's
    state: the thread is not being killed and no thread is listed twice. *)
Definition running (s : PState) (th : Z) : Prop :=
  currentThread s !! cpu s = Some th /\ killed (th_of s th) = false /\ NoDup (usedThreads s).

Lemma my_pgdir_eq w th : currentThread (w_p w) !! cpu (w_p w) = Some th ->
  my_pgdir w = Ret (pgdir (pr_of (w_p w) (process (th_of (w_p w) th)))) w.
Proof.
  intros Hc. unfold my_pgdir.
  assert (E : myProcess (w_p w) = Ret (Some (process (th_of (w_p w) th))) (w_p w)).
  { unfold myProcess, myThread. rewrite bind_gets, Hc. done. }
  rewrite (bind_lift_Ret _ _ _ _ _ E). unfold lift, gets. cbn [olift part set_part World_p].
  destruct w. reflexivity.
Qed.

(** The buffer of [n] bytes at [addr] that a call of thread [th] is given: in the kernel, or
    in private pages of the thread's process. *)
Definition call_buffer (w : World) (th : Z) (isUser : bool) tbl maps r f addr n : Prop :=
  buf_mapped w isUser tbl maps r f (pgdir (pr_of (w_p w) (process (th_of (w_p w) th)))) addr n.

(** Exactly the threads that slept on channel [c] were made runnable. *)
Definition woken (c : Z) (s s' : PState) : Prop :=
  s' = upd_threads (fun _ => threads s') s /\
  forall t, th_of s' t = if bool_decide (t ∈ usedThreads s) && waits_on s c t
                         then t_state RUNNABLE (th_of s t) else th_of s t.

Lemma woken_state_woken c s : NoDup (usedThreads s) -> woken c s (woken_state c s).
Proof.
  intros Hnd. split; [|intros t; by apply wakeup_fold].
  destruct (woken_fields c (usedThreads s) s) as [(ts & E) _]. unfold woken_state. rewrite E. done.
Qed.

(** A writer that finds the pipe full wakes the readers and sleeps. *)
Lemma write_full pageout threadDestroy base isUser w pi d addr n th tot a :
  running (w_p w) th -> readopen (the_pipe w pi) = true -> nwrite (the_pipe w pi) = u64 (nread (the_pipe w pi) + PIPESIZE) -> tot < n ->
  exists k, write_step pageout threadDestroy base pi isUser d addr n (tot, a) w =
    Sleep (chan_nwrite base pi)
      (mkWorld (asleep th (chan_nwrite base pi) (woken_state (chan_nread base pi) (w_p w))) (w_m w) (w_pipes w)) k.
Proof.
  intros (Hc & Hk & _) Hro Hfull Hlt. set (w2 := mkWorld (woken_state (chan_nread base pi) (w_p w)) (w_m w) (w_pipes w)).
  destruct (woken_fields (chan_nread base pi) (usedThreads (w_p w)) (w_p w)) as [(ts & Ets) Hkk].
  destruct (sleep_sleeps threadDestroy w2 th (chan_nwrite base pi)) as [kk Hs].
  { unfold w2. cbn [w_p]. unfold woken_state. rewrite Ets. done. }
  { unfold w2. cbn [w_p]. unfold woken_state. by rewrite Hkk. }
  unfold write_step. rewrite (proj2 (Z.ltb_lt _ _)) by lia. unfold pipe_get. rewrite bind_lift_gets.
  change (getpipe (part w) pi) with (the_pipe w pi). rewrite Hro. cbn [negb]. rewrite bind_lift_gets.
  change (getpipe (part w) pi) with (the_pipe w pi). rewrite Hfull, Z.eqb_refl.
  rewrite (bind_lift_Ret _ _ _ _ _ (wakeup_eq _ _)). cbn [part set_part World_p]. fold w2.
  unfold mbind at 1, M_bind at 1. rewrite Hs. cbn [obind]. by eexists.
Qed.

(** C19. Writing to a pipe: a bounded first-in first-out channel.  The [n] bytes at [addr]
    are in a buffer of the kernel, or of the user in private pages (and so is the address
    after them, which is translated too when it starts a page).  If they fit,
    [pipeWrite] returns [n] and the contents of the pipe are extended by exactly these bytes;
    exactly the threads that slept for data are made runnable.  If they do not fit, the pipe
    is filled up with the first of them, the readers are woken, and then the writer
    sleeps on the write channel.  Memory and the other pipes are as before. *)
Theorem pipeWrite_fifo pageout threadDestroy base waits w pi isUser tbl maps r f addr n th :
  running (w_p w) th -> pipe_ok (the_pipe w pi) -> readopen (the_pipe w pi) = true ->
  0 < n -> call_buffer w th isUser tbl maps r f addr n -> nwrite (the_pipe w pi) + n < 2 ^ 64 - PIPESIZE ->
  let bs := buf_bytes isUser (w_m w) f addr (Z.to_nat n) in
  let room := PIPESIZE - Z.of_nat (length (contents (the_pipe w pi))) in
  (n <= room -> exists w', pipeWrite pageout threadDestroy base waits pi isUser addr n w = Ret n w' /\
     contents (the_pipe w' pi) = contents (the_pipe w pi) ++ bs /\ pipe_ok (the_pipe w' pi) /\
     w_m w' = w_m w /\ (forall q, q <> pi -> the_pipe w' q = the_pipe w q) /\
     woken (chan_nread base pi) (w_p w) (w_p w')) /\
  (room < n -> exists w' k s1,
     pipeWrite pageout threadDestroy base waits pi isUser addr n w = Sleep (chan_nwrite base pi) w' k /\
     contents (the_pipe w' pi) = contents (the_pipe w pi) ++ take (Z.to_nat room) bs /\
     w_m w' = w_m w /\ (forall q, q <> pi -> the_pipe w' q = the_pipe w q) /\
     woken (chan_nread base pi) (w_p w) s1 /\ w_p w' = asleep th (chan_nwrite base pi) s1).
Proof.
  intros (Hc & Hk & Hnd) Hok Hro Hn Hbuf Hw bs room. unfold call_buffer in Hbuf.
  pose proof (my_pgdir_eq w th Hc) as Hd. set (d := pgdir _) in *.
  pose proof (contents_length _ Hok) as Hlen. pose proof Hok as (_ & Hin & _).
  destruct (buf_start pageout isUser tbl maps r f d addr n w Hbuf ltac:(lia)) as [Hsrc _].
  unfold pipeWrite. rewrite (bind_Ret _ _ _ _ _ Hd), (bind_Ret _ _ _ _ _ Hsrc). split; intros Hroom.
  - destruct (write_loop pageout threadDestroy base isUser tbl maps r f w pi d addr n (Z.to_nat n) (S waits) w 0)
      as (w1 & (P1 & P2 & P3 & P4 & P5 & P6 & P7 & P8) & Hl); try done; try lia.
    rewrite !Z.add_0_r in *. rewrite Z2Nat.id in Hl by lia.
    replace (S (waits + Z.to_nat n))%nat with (Z.to_nat n + S waits)%nat by lia.
    assert (Hrun : loop (Z.to_nat n + S waits) (write_step pageout threadDestroy base pi isUser d addr n)
      (0, buf_addr isUser f addr) w = Ret n w1).
    { rewrite Hl. cbn [loop]. unfold write_step. rewrite (proj2 (Z.ltb_ge _ _)) by lia. done. }
    rewrite (bind_Ret _ _ _ _ _ Hrun). rewrite (bind_lift_Ret _ _ _ _ _ (wakeup_eq _ _)).
    rewrite (proj2 (Z.eqb_neq n 0)) by lia. cbn [negb assert]. rewrite bind_mret.
    eexists. split; [reflexivity|]. split_and!; try done.
    cbn [w_p set_part World_p part]. rewrite P1. by apply woken_state_woken.
  - set (k := Z.to_nat room).
    destruct (write_loop pageout threadDestroy base isUser tbl maps r f w pi d addr n k (S (waits + Z.to_nat n) - k) w 0)
      as (w1 & (P1 & P2 & P3 & P4 & P5 & P6 & P7 & P8) & Hl); try done; try lia.
    rewrite !Z.add_0_r, !Z.add_0_l in *.
    replace (k + (S (waits + Z.to_nat n) - k))%nat with (S (waits + Z.to_nat n)) in Hl by lia.
    destruct (S (waits + Z.to_nat n) - k)%nat as [|m] eqn:Em; [lia|].
    assert (Hfull : nwrite (the_pipe w1 pi) = u64 (nread (the_pipe w1 pi) + PIPESIZE)).
    { rewrite (write_room w1 pi P3), P4, length_app, length_buf_bytes.
      unfold pipe_ok, PIPESIZE in *. rewrite u64_small; [|rewrite P5; lia]. lia. }
    destruct (write_full pageout threadDestroy base isUser w1 pi d addr n th (Z.of_nat k) (buf_addr isUser f (addr + Z.of_nat k)))
      as [k' Hstep]; [by rewrite P1|by rewrite P6|done|lia|].
    eexists _, _, _. split.
    { unfold mbind at 1, M_bind at 1. rewrite Hl. cbn [loop]. rewrite Hstep. cbn [obind]. reflexivity. }
    split_and!; try done.
    + transitivity (contents (the_pipe w1 pi)); [done|]. rewrite P4. f_equal.
      unfold bs. rewrite take_buf_bytes; [done|lia].
    + cbn [w_p]. rewrite P1. by apply woken_state_woken.
Qed.

(** An empty open pipe 0 of a running thread 0. *)
Definition world_ex : World :=
  mkWorld sched_ex (mkMM (store_bytes 4096 [7; 8; 9] ∅) ∅ ∅ [] 0) (mkPipeS {[ 0 := mkPipe ∅ 0 0 true true ]} [1; 0]).

Lemma running_ex : running sched_ex 0.
Proof.
  split_and!; [reflexivity|reflexivity|]. vm_compute. by repeat (constructor; [set_solver|]); constructor.
Qed.
Lemma pipe_ok_ex : pipe_ok (the_pipe world_ex 0).
Proof. vm_compute. split_and!; (discriminate || reflexivity). Qed.

(** Process 0 with the directory of UserCopy.v. *)
Definition sched_user : PState := upd_process 0 (p_space (page2pa 200) 0 []) sched_ex.
Lemma running_user : running sched_user 0.
Proof. exact running_ex. Qed.

Lemma pipeWrite_fifo_witness :
  (exists w', pipeWrite (fun _ _ => panic) (fun _ => panic) 0 5 0 false 4096 3 world_ex = Ret 3 w' /\
     contents (the_pipe w' 0) = [7; 8; 9]) /\
  exists mm w', pipeWrite (fun _ _ => panic) (fun _ => panic) 0 5 0 true 0x1234 3 (mkWorld sched_user mm (w_pipes world_ex)) = Ret 3 w' /\
     contents (the_pipe w' 0) = buf_bytes true mm (fun _ => 300) 0x1234 3.
Proof.
  split.
  - destruct (pipeWrite_fifo (fun _ _ => panic) (fun _ => panic) 0 5 world_ex 0 false ∅ ∅ 0 (fun a => a) 4096 3 0 running_ex pipe_ok_ex
      eq_refl ltac:(lia)) as [H _]; [split; [simpl; lia|discriminate]|vm_compute; reflexivity|].
    destruct H as (w' & H1 & H2 & _); [vm_compute; discriminate|]. exists w'. split; [exact H1|].
    rewrite H2. reflexivity.
  - destruct user_ex as (mm & tbl & maps & I & Hr & Hu). exists mm.
    destruct (pipeWrite_fifo (fun _ _ => panic) (fun _ => panic) 0 5 (mkWorld sched_user mm (w_pipes world_ex)) 0 true tbl maps 200
      (fun _ => 300) 0x1234 3 0 running_user pipe_ok_ex eq_refl ltac:(lia)) as [H _].
    + split; [eapply (user_range_sub tbl maps 200); [exact Hu|lia|lia]|]. intros _. split; [vm_compute; reflexivity|]. split; [exact I|exact Hr].
    + vm_compute. reflexivity.
    + destruct H as (w' & H1 & H2 & _); [vm_compute; discriminate|]. exists w'. split; [exact H1|]. exact H2.
Defined.

(** ** Reading *)

Section reading.
Context (pageout : Z -> Z -> M World Z).
Context (isUser : bool) (tbl : gmap Z owner) (maps : gmap (Z * Z) Z) (r : Z) (f : Z -> Z).
Implicit Types w : World.

(** A pipe after [bs] were taken out and stored from byte [a] of the buffer on. *)
Definition popped w pi a (bs : list Z) w' : Prop :=
  w_p w' = w_p w /\ w_m w' = set_mem (put_bytes isUser f a bs) (w_m w) /\ pipe_ok (the_pipe w' pi) /\
  contents (the_pipe w pi) = bs ++ contents (the_pipe w' pi) /\
  forall q, q <> pi -> the_pipe w' q = the_pipe w q.

(** A byte stored in the buffer leaves it mapped. *)
Lemma buf_mapped_put w table addr n i ch ps : 0 <= i < n -> buf_mapped w isUser tbl maps r f table addr n ->
  buf_mapped (mkWorld (w_p w) (set_mem (put_bytes isUser f (addr + i) [ch]) (w_m w)) ps) isUser tbl maps r f table addr n.
Proof.
  intros Hi [Hb Hw]. split; [done|]. intros Eu. destruct (Hw Eu) as (? & I & ?). split_and!; [done| |done].
  cbn [w_m]. rewrite Eu in Hb |- *. apply (put_bytes_inv _ tbl maps r); [done|].
  eapply user_range_sub; [exact Hb|lia|simpl; lia].
Qed.

Lemma read_step_pop w pi table addr n i :
  pipe_ok (the_pipe w pi) -> 0 <= i < n -> buf_mapped w isUser tbl maps r f table addr n ->
  nread (the_pipe w pi) < nwrite (the_pipe w pi) ->
  exists ch w', read_step pageout pi isUser table addr n (i, buf_addr isUser f (addr + i)) w
      = Ret (inl (i + 1, buf_addr isUser f (addr + (i + 1)))) w' /\ popped w pi (addr + i) [ch] w' /\
    buf_mapped w' isUser tbl maps r f table addr n.
Proof.
  intros Hok Hi Hm Hne. destruct (pop_contents _ Hok Hne) as [Hcons Hok']. set (ch := front (the_pipe w pi)) in *.
  set (w' := mkWorld (w_p w) (set_mem (put_bytes isUser f (addr + i) [ch]) (w_m w)) (setpipe pi pop (w_pipes w))).
  pose proof (buf_mapped_put w table addr n i ch (setpipe pi pop (w_pipes w)) Hi Hm) as Hm'. fold w' in Hm'.
  exists ch, w'. split; [|split; [|done]].
  - destruct (buf_next pageout isUser tbl maps r f table addr n w' i Hm' Hi) as [_ Hnext].
    unfold read_step. rewrite (proj2 (Z.ltb_lt _ _)) by lia. unfold pipe_get, pipe_set, store_char. rewrite bind_lift_gets.
    change (getpipe (part w) pi) with (the_pipe w pi). rewrite (proj2 (Z.eqb_neq _ _)) by lia.
    rewrite bind_lift_gets. change (front (getpipe (part w) pi)) with ch. rewrite !bind_lift_modify.
    change (set_part _ (set_part _ w)) with w'. cbv zeta. by rewrite (bind_Ret _ _ _ _ _ Hnext).
  - unfold popped, the_pipe, w'. cbn [w_p w_m w_pipes].
    rewrite getpipe_set, decide_True by done. split_and!; try done.
    intros q Hq. by rewrite getpipe_set, decide_False.
Qed.

Lemma popped_trans w pi a x w1 y w2 :
  popped w pi a x w1 -> popped w1 pi (a + Z.of_nat (length x)) y w2 -> popped w pi a (x ++ y) w2.
Proof.
  intros (A1 & A2 & A3 & A4 & A5) (B1 & B2 & B3 & B4 & B5). split_and!; try congruence.
  - by rewrite B2, A2, set_mem_put_app.
  - by rewrite A4, B4, app_assoc.
  - intros q Hq. by rewrite B5, A5.
Qed.

Lemma read_loop pi table addr n k : forall fuel w i,
  pipe_ok (the_pipe w pi) -> 0 <= i -> buf_mapped w isUser tbl maps r f table addr n ->
  i + Z.of_nat k <= n -> (k <= length (contents (the_pipe w pi)))%nat ->
  exists w', popped w pi (addr + i) (take k (contents (the_pipe w pi))) w' /\
    loop (k + fuel) (read_step pageout pi isUser table addr n) (i, buf_addr isUser f (addr + i)) w =
    loop fuel (read_step pageout pi isUser table addr n) (i + Z.of_nat k, buf_addr isUser f (addr + (i + Z.of_nat k))) w'.
Proof.
  induction k as [|k IH]; intros fuel w i Hok Hi Hm Hk Hlen.
  - exists w. split; [|by rewrite Z.add_0_r]. split_and!; try done. by destruct w as [P [] ps].
  - pose proof (contents_length _ Hok) as Hl.
    destruct (read_step_pop w pi table addr n i) as (ch & w1 & Hs & Hp & Hm1); try done; try lia.
    pose proof Hp as (P1 & P2 & P3 & P4 & P5). rewrite P4 in Hlen. simpl in Hlen.
    destruct (IH fuel w1 (i + 1)) as (w' & Hp' & Hl'); try done; try lia.
    exists w'. split.
    + rewrite P4. cbn [take app]. change (ch :: take k (contents (the_pipe w1 pi))) with
        ([ch] ++ take k (contents (the_pipe w1 pi))).
      eapply popped_trans; [exact Hp|]. simpl. by rewrite <- Z.add_assoc.
    + cbn [Nat.add loop]. rewrite Hs. cbn [obind]. rewrite Hl'.
      by replace (i + 1 + Z.of_nat k) with (i + Z.of_nat (S k)) by lia.
Qed.
End reading.

(** C20. Reading from a pipe into a buffer of [n] bytes of the kernel, or of the user in
    private pages (and so is the address after it): [pipeRead] takes the oldest
    [min n len] bytes out of the pipe in order, stores exactly them from the start of the
    buffer on and returns their number (0 only at the end of file or for [n = 0]); no other
    byte of memory changes, and exactly the threads that slept for room are made runnable.
    On an empty pipe with an open write end it sleeps on the read channel and
    changes neither pipe nor memory. *)
Theorem pipeRead_fifo pageout threadDestroy base waits w pi isUser tbl maps r f addr n th :
  running (w_p w) th -> pipe_ok (the_pipe w pi) -> 0 <= n -> call_buffer w th isUser tbl maps r f addr n ->
  let bs := contents (the_pipe w pi) in
  let k := Nat.min (Z.to_nat n) (length bs) in
  (bs <> [] \/ writeopen (the_pipe w pi) = false ->
     exists w', pipeRead pageout threadDestroy base waits pi isUser addr n w = Ret (Z.of_nat k) w' /\
       (forall j x, take k bs !! j = Some x ->
          load8 (mem (w_m w')) (buf_addr isUser f (addr + Z.of_nat j)) = u8 x) /\
       (forall b, (forall a, addr <= a < addr + Z.of_nat k -> b <> buf_addr isUser f a) ->
          load8 (mem (w_m w')) b = load8 (mem (w_m w)) b) /\
       w_m w' = set_mem (fun _ => mem (w_m w')) (w_m w) /\
       contents (the_pipe w' pi) = drop k bs /\ pipe_ok (the_pipe w' pi) /\
       (forall q, q <> pi -> the_pipe w' q = the_pipe w q) /\
       woken (chan_nwrite base pi) (w_p w) (w_p w')) /\
  (bs = [] -> writeopen (the_pipe w pi) = true ->
     exists w' k', pipeRead pageout threadDestroy base waits pi isUser addr n w = Sleep (chan_nread base pi) w' k' /\
       w_m w' = w_m w /\ w_pipes w' = w_pipes w /\ w_p w' = asleep th (chan_nread base pi) (w_p w)).
Proof.
  intros (Hc & Hk & Hnd) Hok Hn Hbuf bs k. unfold call_buffer in Hbuf.
  pose proof (my_pgdir_eq w th Hc) as Hd. set (d := pgdir _) in *.
  destruct (buf_start pageout isUser tbl maps r f d addr n w Hbuf Hn) as [_ Hdst].
  pose proof (contents_length _ Hok) as Hlen. fold bs in Hlen.
  pose proof (pipe_empty _ Hok) as Hempty. fold bs in Hempty.
  unfold pipeRead. rewrite (bind_Ret _ _ _ _ _ Hd), (bind_Ret _ _ _ _ _ Hdst). split.
  - intros Hgo.
    assert (Hb : bool_decide (bs = []) && writeopen (the_pipe w pi) = false).
    { destruct Hgo as [Hgo | ->]; [by rewrite bool_decide_false|apply andb_false_r]. }
    unfold mbind at 1, M_bind at 1. cbn [loop]. unfold pipe_get. rewrite bind_lift_gets.
    cbn [part World_pipes]. fold (the_pipe w pi). rewrite Hempty, Hb. unfold mret, M_ret. cbn [obind].
    assert (Hk1 : (k <= Z.to_nat n)%nat /\ (k <= length bs)%nat /\ (k = Z.to_nat n \/ k = length bs)) by (unfold k; lia).
    clearbody k. destruct (read_loop pageout isUser tbl maps r f pi d addr n k (S (Z.to_nat n) - k) w 0)
      as (w1 & (P1 & P2 & P3 & P4 & P5) & Hl); try done; try lia; [fold bs; lia|].
    rewrite !Z.add_0_r, !Z.add_0_l in Hl. rewrite Z.add_0_r in P2.
    replace (k + (S (Z.to_nat n) - k))%nat with (S (Z.to_nat n)) in Hl by lia.
    destruct (S (Z.to_nat n) - k)%nat as [|m] eqn:Em; [lia|].
    fold bs in P2, P4. assert (Hrest : contents (the_pipe w1 pi) = drop k bs).
    { rewrite <- (take_drop k bs) in P4 at 1. by apply app_inv_head in P4. }
    assert (Hrun : loop (S (Z.to_nat n)) (read_step pageout pi isUser d addr n) (0, buf_addr isUser f addr) w
      = Ret (Z.of_nat k) w1).
    { rewrite Hl. cbn [loop]. unfold read_step. destruct (Z.ltb_spec (Z.of_nat k) n); [|done].
      unfold pipe_get. rewrite bind_lift_gets. cbn [part World_pipes]. fold (the_pipe w1 pi).
      pose proof (contents_length _ P3) as Hlen1. rewrite Hrest, length_drop in Hlen1.
      rewrite (proj2 (Z.eqb_eq _ _)) by lia. done. }
    rewrite (bind_Ret _ _ _ _ _ Hrun). rewrite (bind_lift_Ret _ _ _ _ _ (wakeup_eq _ _)).
    assert (Hlk : length (take k bs) = k) by (rewrite length_take; lia).
    eexists. split; [reflexivity|]. cbn [w_m w_p set_part part World_p World_m]. rewrite P1, P2, mem_set_mem.
    split_and!; try done; [| |by apply woken_state_woken].
    + intros j x Hj. apply (load8_put_in tbl maps r); [|done]. rewrite Hlk. destruct Hbuf as [Hbuf _].
      eapply buffer_sub; [exact Hbuf|lia|lia].
    + intros b Hbb. apply load8_put_out. rewrite Hlk. done.
  - intros Eb Ho. destruct (sleep_sleeps threadDestroy w th (chan_nread base pi) Hc Hk) as [k' Hs].
    eexists _, _. split.
    { unfold mbind at 1, M_bind at 1. cbn [loop]. unfold pipe_get. rewrite bind_lift_gets.
      cbn [part World_pipes]. fold (the_pipe w pi). rewrite Hempty, Ho, bool_decide_true by done. cbn [andb].
      unfold mbind at 1, M_bind at 1. rewrite Hs. cbn [obind]. reflexivity. }
    done.
Qed.

Lemma pipeRead_fifo_witness :
  exists mm w', pipeRead (fun _ _ => panic) (fun _ => panic) 0 5 0 true 0x1234 2
      (mkWorld sched_user mm (setpipe 0 (push 9) (setpipe 0 (push 4) (w_pipes world_ex)))) = Ret 2 w' /\
    contents (the_pipe w' 0) = [] /\ load8 (mem (w_m w')) (user_addr (fun _ => 300) 0x1235) = 9.
Proof.
  destruct user_ex as (mm & tbl & maps & I & Hr & Hu). exists mm.
  set (w := mkWorld sched_user mm (setpipe 0 (push 9) (setpipe 0 (push 4) (w_pipes world_ex)))).
  destruct (pipeRead_fifo (fun _ _ => panic) (fun _ => panic) 0 5 w 0 true tbl maps 200 (fun _ => 300) 0x1234 2 0 running_user) as [H _].
  - vm_compute. split_and!; (discriminate || reflexivity).
  - lia.
  - split; [|intros _; split; [vm_compute; reflexivity|split; [exact I|exact Hr]]].
    eapply (user_range_sub tbl maps 200); [exact Hu|lia|lia].
  - destruct H as (w' & H1 & H2 & _ & _ & H3 & _); [left; vm_compute; discriminate|].
    exists w'. split; [exact H1|]. split; [rewrite H3; reflexivity|].
    exact (H2 1%nat 9 ltac:(vm_compute; reflexivity)).
Defined.

(** A user page shared copy-on-write. *)
Definition shared_page (tbl : gmap Z owner) (maps : gmap (Z * Z) Z) (r v p : Z) : Prop :=
  exists e, maps !! (r, v) = Some e /\ pte_page e = Some p /\ tbl !! p = None /\
    Z.land e PTE_USER <> 0 /\ Z.land e PTE_COW <> 0.

Lemma shared_page_vir2phy mm tbl maps r a p :
  pt_inv mm tbl maps -> tbl !! r = Some (Root r) -> 0 <= a < MAXVA -> shared_page tbl maps r (vpn a) p ->
  page_ok p /\ exists c, Page.vir2phy (page2pa r) a mm = Ret (page2pa p + a mod 4096, c) mm.
Proof.
  intros I Hr Ha (e & He & Hp & Hnt & Hu & Hc). change MAXVA with (2 ^ 38) in Ha.
  destruct (pte_page_Some _ _ Hp) as (Hok & _ & Hpa). split; [done|].
  pose proof (pageLookup_spec mm tbl maps r a I Hr ltac:(lia)) as L. rewrite He in L.
  destruct L as (q & Hq & _). eexists.
  rewrite (vir2phy_leaf mm tbl maps r a q I Hr ltac:(change MAXVA with (2 ^ 38); lia) Hq).
  unfold user_translation. rewrite He, Hpa. by rewrite (proj2 (Z.eqb_neq _ 0)) by done.
Qed.

(** C40. [pipeRead] does not break copy-on-write sharing: a byte read into a page
    that is shared copy-on-write is stored in the shared page itself, no
    translation changes, and so every other address space that maps the page
    sees it. *)
Theorem pipeRead_writes_shared_page pageout threadDestroy base waits w pi va th tbl maps r p r' v' :
  running (w_p w) th -> pipe_ok (the_pipe w pi) -> contents (the_pipe w pi) <> [] ->
  pgdir (pr_of (w_p w) (process (th_of (w_p w) th))) = page2pa r ->
  pt_inv (w_m w) tbl maps -> tbl !! r = Some (Root r) -> 0 <= va < MAXVA -> va mod 4096 <> 4095 ->
  shared_page tbl maps r (vpn va) p -> shared_page tbl maps r' v' p ->
  exists w', pipeRead pageout threadDestroy base waits pi true va 1 w = Ret 1 w' /\
    load8 (mem (w_m w')) (page2pa p + va mod 4096) = u8 (hd 0 (contents (the_pipe w pi))) /\
    pt_inv (w_m w') tbl maps /\ shared_page tbl maps r (vpn va) p /\ shared_page tbl maps r' v' p.
Proof.
  intros (Hc & Hk & Hnd) Hok Hne Hpg I Hr Hva Hmod Hs Hs'.
  destruct (shared_page_vir2phy (w_m w) tbl maps r va p I Hr Hva Hs) as (Hpok & c & Hv).
  assert (Hd : my_pgdir w = Ret (page2pa r) w).
  { unfold my_pgdir. assert (E : myProcess (w_p w) = Ret (Some (process (th_of (w_p w) th))) (w_p w))
      by (unfold myProcess, myThread; rewrite bind_gets, Hc; done).
    rewrite (bind_lift_Ret _ _ _ _ _ E). unfold lift, gets. rewrite <- Hpg. by destruct w. }
  pose proof (contents_length _ Hok) as Hlen.
  assert (Hlt : nread (the_pipe w pi) < nwrite (the_pipe w pi)).
  { destruct (contents (the_pipe w pi)); [done|]. simpl in Hlen. lia. }
  destruct (pop_contents _ Hok Hlt) as [Hcons Hok']. rewrite Hcons. cbn [hd].
  set (a := page2pa p + va mod 4096) in *. set (ch := front (the_pipe w pi)) in *.
  set (w1 := mkWorld (w_p w) (set_mem (store8 a ch) (w_m w)) (setpipe pi pop (w_pipes w))).
  assert (Hdst : pipe_dst pageout (page2pa r) va w = Ret a w).
  { unfold pipe_dst. rewrite (bind_lift_Ret _ _ _ _ _ Hv). cbn [fst].
    rewrite (proj2 (Z.eqb_neq _ 0)); [by destruct w|]. unfold a. rewrite page2pa_ok by done.
    unfold page_ok in Hpok. pose proof (Z.mod_pos_bound va 4096 ltac:(lia)). lia. }
  exists (mkWorld (woken_state (chan_nwrite base pi) (w_p w)) (w_m w1) (w_pipes w1)).
  split; [|split; [|split; [|done]]].
  - unfold pipeRead. rewrite (bind_Ret _ _ _ _ _ Hd), (bind_Ret _ _ _ _ _ Hdst).
    unfold mbind at 1, M_bind at 1. cbn [loop]. unfold pipe_get. rewrite bind_lift_gets.
    cbn [part World_pipes]. fold (the_pipe w pi). rewrite (proj2 (Z.eqb_neq _ _)) by lia. cbn [andb].
    unfold mret at 1, M_ret at 1. cbn [obind].
    assert (Hrun : loop (S (Z.to_nat 1)) (read_step pageout pi true (page2pa r) va 1) (0, a) w = Ret 1 w1).
    { change (S (Z.to_nat 1)) with 2%nat. cbn [loop]. unfold read_step at 1. cbn [Z.ltb Z.compare].
      unfold pipe_get, pipe_set, store_char. run_steps. cbn [part World_pipes]. fold (the_pipe w pi).
      rewrite (proj2 (Z.eqb_neq _ _)) by lia. run_steps. cbn [part World_pipes]. fold (the_pipe w pi) ch.
      assert (Hps : page_start true (u64 (va + (0 + 1))) = false).
      { unfold page_start. cbn [andb]. apply Z.eqb_neq. change (PAGE_SIZE - 1) with (Z.ones 12).
        change MAXVA with (2 ^ 38) in Hva. rewrite Z.land_ones, u64_small by lia.
        Z.to_euclidean_division_equations; lia. }
      rewrite Hps. run_steps. destruct w as [P mm ps]. reflexivity. }
    rewrite (bind_Ret _ _ _ _ _ Hrun). rewrite (bind_lift_Ret _ _ _ _ _ (wakeup_eq _ _)). reflexivity.
  - unfold w1. cbn [w_m]. rewrite mem_set_mem. unfold load8, store8. rewrite lookup_insert_eq.
    change (u8 (u8 ch) = u8 ch). unfold u8. by rewrite Z.mod_mod.
  - unfold w1. cbn [w_m]. destruct Hs as (e & _ & _ & Hnt & _).
    apply (store_bytes_inv (w_m w) tbl maps p (va mod 4096) [ch] I Hpok Hnt);
      pose proof (Z.mod_pos_bound va 4096 ltac:(lia)); simpl; lia.
Qed.

Lemma pipeRead_writes_shared_page_witness :
  exists w w', pipeRead (fun _ _ => panic) (fun _ => panic) 0 5 0 true 0x1234 1 w = Ret 1 w' /\
    load8 (mem (w_m w')) (page2pa 300 + 0x1234 mod 4096) = 4.
Proof.
  destruct (mm1_insert (Z.lor PTE_USER (Z.lor PTE_READ PTE_COW))) as (mm & tbl & _ & I & Hr & Hp);
    [vm_compute; split; [discriminate|reflexivity]|].
  set (P := upd_process 0 (p_space (page2pa 200) 0 []) sched_ex).
  set (w := mkWorld P mm (setpipe 0 (push 4) (w_pipes world_ex))).
  set (e := new_pte (page2pa 300) (Z.lor PTE_USER (Z.lor PTE_READ PTE_COW))) in I.
  assert (Hs : shared_page tbl (<[(200, 1) := e]> ∅) 200 (vpn 0x1234) 300).
  { exists e. split_and!; [by rewrite lookup_insert_eq|vm_compute; reflexivity|exact Hp|vm_compute; discriminate|
      vm_compute; discriminate]. }
  destruct (pipeRead_writes_shared_page (fun _ _ => panic) (fun _ => panic) 0 5 w 0 0x1234 0 tbl
    (<[(200, 1) := e]> ∅) 200 300 200 (vpn 0x1234) running_ex) as (w' & H1 & H2 & _).
  - vm_compute. split_and!; (discriminate || reflexivity).
  - vm_compute. discriminate.
  - reflexivity.
  - exact I.
  - exact Hr.
  - vm_compute. split; [discriminate|reflexivity].
  - vm_compute. discriminate.
  - exact Hs.
  - exact Hs.
  - exists w, w'. split; [exact H1|]. rewrite H2. reflexivity.
Defined.
