(* ===== verification/Segment.v ===== *)
(** * Exec.c and Page.c: the segments of a program and their pages

    A process keeps the list of its segments; [pageout] gives a faulting address
    its page, filled from the segments that meet the page.  The [next] pointers
    of the segment maps of a process are the list [segmentMaps] of Sched.v, head
    first. *)

From S2P Require Import Prelude CType Mem Config Page Sched Bio Fat FatFile.

Record ProcessSegmentMap := mkPsm {
  sourceFile : Z;
  psm_va : Z;
  fileOffset : Z;
  psm_len : Z;
  flag : Z;
}.
Record SegS := mkSegS {
  segmentMap : gmap Z ProcessSegmentMap;
  segmentMapBitmap : list Z;
}.

Definition MAP_ZERO : Z := 1.
Definition SEGMENT_MAP_NUMBER : Z := 1024.
Definition psm0 : ProcessSegmentMap := mkPsm 0 0 0 0 0.
Definition getpsm (s : SegS) (i : Z) : ProcessSegmentMap := default psm0 (segmentMap s !! i).

Definition segmentMapAlloc : M SegS Z :=
  bm ← gets segmentMapBitmap;
  match bitmap_alloc (Z.to_nat (SEGMENT_MAP_NUMBER / 64)) bm with
  | BGot i bm => modify (fun s => mkSegS (segmentMap s) bm) ;; mret i
  | BFull => panic
  | BOob => panic
  end.
Definition segmentMapFree (i : Z) : M SegS unit :=
  modify (fun s => mkSegS (segmentMap s) (bitmap_free i (segmentMapBitmap s))).
Definition set_psm (i : Z) (m : ProcessSegmentMap) : M SegS unit :=
  modify (fun s => mkSegS (<[i := m]> (segmentMap s)) (segmentMapBitmap s)).

Definition appendSegmentMap (p i : Z) : M PState unit :=
  modify (upd_process p (fun pr => p_space (pgdir pr) (execFile pr) (i :: segmentMaps pr) pr)).

(** An entry of the program header table. *)
Record Phdr := mkPhdr {
  ph_type : Z; ph_flags : Z; ph_offset : Z; ph_vaddr : Z; ph_filesz : Z; ph_memsz : Z;
}.
Definition PT_LOAD : Z := 1.

(** The span of the loadable segments. *)
Definition total_mapping_size (phdr : list Phdr) : Z :=
  let '(lo, hi, found) := fold_left (fun '(lo, hi, found) h =>
    if ph_type h =? PT_LOAD then
      (Z.min lo (DOWN_ALIGN (ph_vaddr h) PGSIZE), Z.max hi (u64 (ph_vaddr h + ph_memsz h)), true)
    else (lo, hi, found)) phdr (2 ^ 64 - 1, 0, false) in
  if (found : bool) then u64 (hi - lo) else 0.

Section segments.
Context {S : Type} `{!Part S PState} `{!Part S MM} `{!Part S SegS} `{!Part S FatS} `{!FsEnv S}.
Context (fs_read : Z -> Z -> M FatS (option Z)).

Definition processMapFree (p : Z) : M S unit :=
  pr ← lift (gets (fun s => pr_of s p));
  foldr (fun i rest => lift (segmentMapFree i) ;; rest) (mret tt) (segmentMaps pr) ;;
  lift (modify (upd_process p (fun pr => p_space (pgdir pr) (execFile pr) [] pr))).

(** [kmalloc] and [kfree]: one page. *)
Definition kmalloc (size : Z) : M S Z :=
  if size >? PAGE_SIZE then panic else p ← lift Page.pageAlloc; mret (page2pa p).
Definition kfree (m : Z) : M S unit :=
  match pa2page m with Some p => lift (Page.pageFree p) | None => panic end.

(** One segment of the loop of [pageout]: the page so far ([None] before the
    first segment that meets it) and the permissions so far. *)
Definition fill_from (pageStart : Z) (psm : ProcessSegmentMap) (l : option Z * Z) : M S (option Z * Z) :=
  let '(page, perm) := l in
  let start := Z.max (psm_va psm) pageStart in
  let finish := Z.min (u64 (psm_va psm + psm_len psm)) (u64 (pageStart + PAGE_SIZE)) in
  if start <? finish then
    page ← (match page with Some p => mret p | None => lift Page.pageAlloc end);
    when (Z.land (flag psm) MAP_ZERO =? 0)
      (eread fs_read (sourceFile psm) false (page2pa page + PAGE_OFFSET start PAGE_SIZE)
         (u32 (fileOffset psm + start - psm_va psm)) (u32 (finish - start)) ;; mret tt) ;;
    mret (Some page, Z.lor perm (Z.land (flag psm) (u32 (Z.lnot MAP_ZERO))))
  else mret (page, perm).

Fixpoint fill_page (pageStart : Z) (maps : list Z) (l : option Z * Z) : M S (option Z * Z) :=
  match maps with
  | [] => mret l
  | i :: maps =>
      psm ← lift (gets (fun s => getpsm s i));
      l ← fill_from pageStart psm l;
      fill_page pageStart maps l
  end.

Definition pageout (pgdir_ badAddr : Z) : M S Z :=
  if badAddr <=? PAGE_SIZE then panic
  else if (USER_STACK_BOTTOM <=? badAddr) && (badAddr <? USER_STACK_TOP) then
    page ← lift Page.pageAlloc;
    lift (Page.pageInsert pgdir_ badAddr (page2pa page) (Z.lor PTE_USER (Z.lor PTE_READ PTE_WRITE))) ;;
    mret (page2pa page + Z.land badAddr 0xFFF)
  else
    p ← lift myProcess;
    match p with
    | None => panic
    | Some p =>
        maps ← lift (gets (fun s => segmentMaps (pr_of s p)));
        r ← fill_page (DOWN_ALIGN badAddr PAGE_SIZE) maps (None, 0);
        match r with
        | (None, _) => panic
        | (Some page, perm) =>
            lift (Page.pageInsert pgdir_ badAddr (page2pa page) (Z.lor PTE_USER perm)) ;;
            mret (page2pa page + Z.land badAddr 0xFFF)
        end
    end.
End segments.
