(* ===== verification/File.v ===== *)
(** * File.c and Socket.c: open files

    The table of open files with their reference counts, the sockets (streams
    between processes of this machine) and the operations that dispatch on the
    kind of a file.  A socket's buffer is the page mapped for it in the kernel's
    page table, reached through that table.  [kpgdir] is [kernelPageDirectory],
    [sock_base] the address of [sockets]; [devsw] is the table of device drivers
    (the console), indexed by [major].  Pointers to files are their index plus
    one, so that 0 is NULL. *)

From S2P Require Import Prelude CType Mem Strings Config Page UserCopy Sched Pipe Bio Fat FatFile.

Inductive FileType := FD_NONE | FD_PIPE | FD_ENTRY | FD_DEVICE | FD_SOCKET.
#[export] Instance FileType_eq : EqDecision FileType.
Proof. solve_decision. Defined.

Record File := mkFile {
  f_type : FileType;
  f_ref : Z;
  f_readable : bool;
  f_writable : bool;
  f_pipe : Z;
  f_ep : Z;
  f_socket : Z;
  f_off : Z;
  f_major : Z;
  f_curChild : Z;
}.

Record SocketAddr := mkAddr { family : Z; port : Z; addr : Z; zero : list Z }.
#[export] Instance SocketAddr_eq : EqDecision SocketAddr.
Proof. solve_decision. Defined.
Record Socket := mkSocket {
  used : bool;
  s_process : option Z;
  s_addr : SocketAddr;
  target_addr : SocketAddr;
  head : Z;
  tail : Z;
  pending_queue : gmap Z SocketAddr;
  pending_h : Z;
  pending_t : Z;
  listening : bool;
}.

(** [ftable.file], [sockets] and the counter of [gen_local_socket_addr]. *)
Record FileS := mkFileS {
  ftable : list File;
  sockets : gmap Z Socket;
  local_port : Z;
}.

Definition NFILE : nat := 512.
Definition NDEV : Z := 4.
Definition SOCKET_COUNT : Z := 128.
Definition PENDING_COUNT : Z := 128.
(** [sizeof(Socket)]; the channel of a socket is its address. *)
Definition SOCKET_SIZE : Z := 4232.
Definition EAGAIN : Z := 11.

Definition file0 : File := mkFile FD_NONE 0 false false 0 0 0 0 0 0.
Definition addr0 : SocketAddr := mkAddr 0 0 0 (replicate 24 0).
Definition socket0 : Socket := mkSocket false None addr0 addr0 0 0 ∅ 0 0 false.

(** [f] is a pointer: index plus one. *)
Definition getfile (s : FileS) (f : Z) : File := default file0 (ftable s !! Z.to_nat (f - 1)).
Definition setfile (f : Z) (g : File -> File) (s : FileS) : FileS :=
  mkFileS (alter g (Z.to_nat (f - 1)) (ftable s)) (sockets s) (local_port s).
Definition getsock (s : FileS) (i : Z) : Socket := default socket0 (sockets s !! i).
Definition setsock (i : Z) (g : Socket -> Socket) (s : FileS) : FileS :=
  mkFileS (ftable s) (<[i := g (getsock s i)]> (sockets s)) (local_port s).

Definition with_ref (t : FileType) (r : Z) (f : File) : File :=
  mkFile t r (f_readable f) (f_writable f) (f_pipe f) (f_ep f) (f_socket f) (f_off f) (f_major f) (f_curChild f).
Definition with_pipe (r w : bool) (p : Z) (f : File) : File :=
  mkFile FD_PIPE (f_ref f) r w p (f_ep f) (f_socket f) (f_off f) (f_major f) (f_curChild f).
Definition with_socket (s : Z) (f : File) : File :=
  mkFile FD_SOCKET (f_ref f) true true (f_pipe f) (f_ep f) s (f_off f) (f_major f) (f_curChild f).
Definition with_off (o : Z) (f : File) : File :=
  mkFile (f_type f) (f_ref f) (f_readable f) (f_writable f) (f_pipe f) (f_ep f) (f_socket f) (u32 o) (f_major f)
    (f_curChild f).

Definition s_used (b : bool) (s : Socket) : Socket :=
  mkSocket b (s_process s) (s_addr s) (target_addr s) (head s) (tail s) (pending_queue s) (pending_h s)
    (pending_t s) (listening s).
Definition s_owner (p : option Z) (s : Socket) : Socket :=
  mkSocket (used s) p (s_addr s) (target_addr s) (head s) (tail s) (pending_queue s) (pending_h s)
    (pending_t s) (listening s).
Definition s_addrs (a t : SocketAddr) (s : Socket) : Socket :=
  mkSocket (used s) (s_process s) a t (head s) (tail s) (pending_queue s) (pending_h s) (pending_t s) (listening s).
Definition s_pos (h t : Z) (s : Socket) : Socket :=
  mkSocket (used s) (s_process s) (s_addr s) (target_addr s) (u64 h) (u64 t) (pending_queue s) (pending_h s)
    (pending_t s) (listening s).
Definition s_pending (q : gmap Z SocketAddr) (h t : Z) (l : bool) (s : Socket) : Socket :=
  mkSocket (used s) (s_process s) (s_addr s) (target_addr s) (head s) (tail s) q h t l.

(** ** The table of files *)

Definition fileinit : M FileS unit :=
  modify (fun s => mkFileS (replicate NFILE file0) (sockets s) (local_port s)).

(** The first entry that is not in use: a pointer, 0 when there is none. *)
Fixpoint free_file (l : list File) (i : Z) : Z :=
  match l with
  | [] => 0
  | f :: l => if f_ref f =? 0 then i else free_file l (i + 1)
  end.
Definition filealloc : M FileS Z :=
  l ← gets ftable;
  let f := free_file l 1 in
  when (negb (f =? 0)) (modify (setfile f (fun x => with_ref (f_type x) 1 x))) ;;
  mret f.

Definition filedup (f : Z) : M FileS Z :=
  r ← gets (fun s => f_ref (getfile s f));
  if r <? 1 then panic
  else modify (setfile f (fun x => with_ref (f_type x) (i32 (r + 1)) x)) ;; mret f.

(** ** Sockets *)

Definition getSocketBufferBase (i : Z) : Z := u64 (SOCKET_BUFFER_BASE + Z.shiftl i PAGE_SHIFT).

(** The first socket, from [i] on, that satisfies [t]. *)
Fixpoint find_socket (t : Socket -> bool) (n : nat) (i : Z) (s : FileS) : option Z :=
  match n with
  | O => None
  | S n => if t (getsock s i) then Some i else find_socket t n (i + 1) s
  end.
Definition SOCKETS : nat := Z.to_nat SOCKET_COUNT.

Definition remote_find_peer_socket (local : Z) : M FileS (option Z) :=
  l ← gets (fun s => getsock s local);
  gets (find_socket (fun k => used k && (family (s_addr k) =? family (target_addr l)) &&
    (port (s_addr k) =? port (target_addr l)) && (port (target_addr k) =? port (s_addr l))) SOCKETS 0).
Definition remote_find_listening_socket (a : SocketAddr) : M FileS (option Z) :=
  gets (find_socket (fun k => used k && (family (s_addr k) =? family a) &&
    (port (s_addr k) =? port a) && listening k) SOCKETS 0).

(** The last field of the local variable is not assigned. *)
Definition gen_local_socket_addr (uninit : nat -> list Z) : M FileS SocketAddr :=
  p ← gets local_port;
  modify (fun s => mkFileS (ftable s) (sockets s) (i32 (p + 1))) ;;
  mret (mkAddr 2 (u16 p) (Z.shiftl 127 24 + 1) (uninit 24%nat)).

Section files.
Context {S : Type} `{!Part S PState} `{!Part S MM} `{!Part S PipeS} `{!Part S FatS} `{!Part S FileS}.
Context `{!Boot S} `{!FsEnv S}.
Context (fs_read : Z -> Z -> M FatS (option Z)).
Context (pageout : Z -> Z -> M S Z) (threadDestroy : Z -> M S unit).
Context (kpgdir pipe_base sock_base : Z) (waits : nat).
(** [devsw[major].read] and [.write], [None] when the pointer is NULL. *)
Context (dev_read dev_write : Z -> option (bool -> Z -> Z -> Z -> M S Z)).

Definition sock (i : Z) : M S Socket := lift (gets (fun s => getsock s i)).
Definition upd_sock (i : Z) (g : Socket -> Socket) : M S unit := lift (modify (setsock i g)).
Definition file (f : Z) : M S File := lift (gets (fun s => getfile s f)).
Definition upd_file (f : Z) (g : File -> File) : M S unit := lift (modify (setfile f g)).

Definition socketAlloc : M S (option Z) :=
  i ← lift (gets (find_socket (fun k => negb (used k)) SOCKETS 0));
  match i with
  | None => mret None
  | Some i =>
      upd_sock i (s_used true) ;;
      upd_sock i (s_pos 0 0) ;;
      upd_sock i (fun k => s_pending (pending_queue k) 0 0 false k) ;;
      page ← lift Page.pageAlloc;
      lift (Page.pageInsert kpgdir (getSocketBufferBase i) (page2pa page) (Z.lor PTE_READ PTE_WRITE)) ;;
      p ← lift myProcess;
      upd_sock i (s_owner p) ;;
      mret (Some i)
  end.

Definition socketFree (i : Z) : M S unit :=
  lift (Page.pageRemove kpgdir (getSocketBufferBase i)) ;;
  upd_sock i (s_used false).

(** The system call is retried: its program counter goes back to the [ecall]. *)
Definition retry {A} : M S A :=
  lift (modify (upd_hart_tf (fun tf => <[tf_epc := u64 (reg tf tf_epc - 4)]> tf))) ;;
  yield.

(** What [strncpy] leaves in [n] bytes of the destination: the characters up to
    the first NUL, then NULs. *)
Fixpoint strncpy_bytes (n : nat) (s : list Z) : list Z :=
  match n with
  | O => []
  | Datatypes.S n =>
      match s with
      | [] => replicate (Datatypes.S n) 0
      | c :: s => if c =? 0 then replicate (Datatypes.S n) 0 else c :: strncpy_bytes n s
      end
  end.

(** [buf] is the kernel buffer of [size] bytes that the data was copied to; [buf[len]] is
    set to NUL.  Without a peer the index is computed from NULL. *)
Definition sendTo (so : Z) (buf_ : list Z) (size len : Z) : M S Z :=
  assert (len <? size) ;;
  peer ← lift (remote_find_peer_socket so);
  match peer with
  | None => panic
  | Some i =>
      k ← sock i;
      let num := u32 (Z.min (u64 (PAGE_SIZE - (tail k - head k))) len) in
      (if num =? 0 then retry else mret tt) ;;
      let pos := Z.land (tail k) (PAGE_SIZE - 1) in
      let len1 := Z.min num (PAGE_SIZE - pos) in
      dst ← kaddr kpgdir (u64 (getSocketBufferBase i + pos));
      lift (modify (set_mem (store_bytes dst (strncpy_bytes (Z.to_nat len1) (buf_ ++ [0]))))) ;;
      (if len1 <? num then
         dst ← kaddr kpgdir (getSocketBufferBase i);
         lift (modify (set_mem (store_bytes dst
           (strncpy_bytes (Z.to_nat (num - len1)) (drop (Z.to_nat len1) (buf_ ++ [0]))))))
       else mret tt) ;;
      upd_sock i (fun k => s_pos (head k) (tail k + num) k) ;;
      mret num
  end.

Definition kbytes (va n : Z) : M S (list Z) :=
  pa ← kaddr kpgdir va; lift (gets (fun mm => load_bytes (mem mm) pa (Z.to_nat n))).

Definition receiveFrom (so buf_ len : Z) : M S Z :=
  k ← sock so;
  let pos := Z.land (head k) (PAGE_SIZE - 1) in
  let num := u32 (Z.min len (u64 (tail k - head k))) in
  (if num =? 0 then retry else mret tt) ;;
  let len1 := Z.min num (PAGE_SIZE - pos) in
  bs ← kbytes (u64 (getSocketBufferBase so + pos)) len1;
  user_copyout buf_ bs ;;
  (if len1 <? num then
     bs ← kbytes (getSocketBufferBase so) (num - len1);
     user_copyout (u64 (buf_ + len1)) bs
   else mret tt) ;;
  upd_sock so (fun k => s_pos (head k + num) (tail k) k) ;;
  mret num.

Definition socket_read (so : Z) (isUser : bool) (a n : Z) : M S Z :=
  assert isUser ;; receiveFrom so a (u32 n).
Definition socket_write (so : Z) (isUser : bool) (a n : Z) : M S Z :=
  r ← either_copyin isUser a (u64 n); sendTo so (snd r) (PAGE_SIZE * 10) (u32 n).

(** ** Operations on files *)

Definition fileclose (f : Z) : M S unit :=
  ff ← file f;
  if f_ref ff <? 1 then panic
  else
    upd_file f (fun x => with_ref (f_type x) (f_ref x - 1) x) ;;
    if 0 <? f_ref ff - 1 then mret tt
    else
      upd_file f (with_ref FD_NONE 0) ;;
      match f_type ff with
      | FD_PIPE => pipeClose pipe_base (f_pipe ff) (f_writable ff)
      | FD_SOCKET => socketFree (f_socket ff)
      | _ => mret tt
      end.

Definition fileread (f : Z) (isUser : bool) (a n : Z) : M S Z :=
  ff ← file f;
  if negb (f_readable ff) then mret (-1)
  else
    match f_type ff with
    | FD_PIPE => pipeRead pageout threadDestroy pipe_base waits (f_pipe ff) isUser a n
    | FD_DEVICE =>
        if (f_major ff <? 0) || (f_major ff >=? NDEV) then mret (-1)
        else match dev_read (f_major ff) with Some rd => rd isUser a 0 n | None => mret (-1) end
    | FD_ENTRY =>
        r ← eread fs_read (f_ep ff) isUser a (f_off ff) (u32 n);
        let r := i32 r in
        when (r >? 0) (upd_file f (fun x => with_off (f_off x + r) x)) ;;
        mret r
    | FD_SOCKET => socket_read (f_socket ff) isUser a n
    | FD_NONE => panic
    end.

Definition filewrite (f : Z) (isUser : bool) (a n : Z) : M S Z :=
  ff ← file f;
  if negb (f_writable ff) then mret (-1)
  else
    match f_type ff with
    | FD_PIPE => pipeWrite pageout threadDestroy pipe_base waits (f_pipe ff) isUser a n
    | FD_DEVICE =>
        if (f_major ff <? 0) || (f_major ff >=? NDEV) then mret (-1)
        else match dev_write (f_major ff) with Some wr => wr isUser a 0 n | None => mret (-1) end
    | FD_ENTRY =>
        r ← ewrite fs_read (f_ep ff) isUser a (f_off ff) (u32 n);
        if i32 r =? n then upd_file f (fun x => with_off (f_off x + n) x) ;; mret n else mret (-1)
    | FD_SOCKET => socket_write (f_socket ff) isUser a n
    | FD_NONE => panic
    end.

(** The copied structure is [estat]'s result in the layout of [struct stat]
    ([stat_bytes]); [cnt] and [de_] are the addresses of local variables. *)
Definition filestat (stat_bytes : stat -> list Z) (cnt de_ f a : Z) : M S Z :=
  ff ← file f;
  if bool_decide (f_type ff = FD_ENTRY) then
    st ← estat fs_read (f_ep ff) cnt de_;
    user_copyout a (stat_bytes st) ;;
    mret 0
  else mret (-1).

(** The first free descriptor of the process below its limit, or -1. *)
Fixpoint free_fd (o : gmap Z Z) (n : nat) (fd : Z) : Z :=
  match n with
  | O => -1
  | Datatypes.S n => if bool_decide (o !! fd = None) then fd else free_fd o n (fd + 1)
  end.
Definition fdalloc (f : Z) : M S Z :=
  p ← lift myProcess;
  match p with
  | None => panic
  | Some p =>
      pr ← lift (gets (fun s => pr_of s p));
      let fd := free_fd (ofile pr) (Z.to_nat (fd_hard pr)) 0 in
      when (negb (fd =? -1))
        (assert (fd <? NOFILE) ;;
         lift (modify (upd_process p (fun pr => p_files (<[fd := f]> (ofile pr)) (cwd pr) (priority pr) pr)))) ;;
      mret fd
  end.

(** The two ends of a new pipe, or [None] when the table of files is full. *)
Definition pipeNew : M S (option (Z * Z)) :=
  f0 ← lift filealloc;
  f1 ← (if f0 =? 0 then mret 0 else lift filealloc);
  if (f0 =? 0) || (f1 =? 0) then
    when (negb (f0 =? 0)) (fileclose f0) ;;
    when (negb (f1 =? 0)) (fileclose f1) ;;
    mret None
  else
    pi ← lift pipeAlloc;
    pipe_set pi (with_open true true) ;;
    upd_file f0 (with_pipe true false pi) ;;
    upd_file f1 (with_pipe false true pi) ;;
    mret (Some (f0, f1)).

(** ** Mappings *)

(** One page of [do_mmap]: a new page, or the one that is there cleared and
    given the new permissions. *)
Definition mmap_page (dir perm start fin : Z) : M S unit :=
  r ← lift (Page.pageLookup dir start);
  e ← lift (gets (fun mm => match snd r with Some pte => load64 (mem mm) pte | None => 0 end));
  r ← (if (fst r >? 0) && c_true (Z.land e PTE_COW) then
         lift (Page.cowHandler dir start) ;; lift (Page.pageLookup dir start)
       else mret r);
  match r with
  | (0, _) =>
      page ← lift Page.pageAlloc;
      lift (Page.pageInsert dir start (page2pa page) (Z.lor perm PTE_USER)) ;; mret tt
  | (pa, Some pte) =>
      lift (modify (set_mem (bzero pa (Z.min PAGE_SIZE (fin - start))))) ;;
      lift (modify (set_mem (store64 pte (Z.lor (Z.lor (PA2PTE pa) perm) (Z.lor PTE_USER PTE_VALID)))))
  | (_, None) => panic
  end.

Definition MAP_FIXED : Z := 0x10.
Definition MAP_ANONYMOUS : Z := 0x20.

(** [fd] is a file or NULL (0). *)
Definition do_mmap (fd start len perm flags off : Z) : M S Z :=
  assert (PAGE_OFFSET start PAGE_SIZE =? 0) ;;
  p ← lift myProcess;
  match p with
  | None => panic
  | Some p =>
      pr ← lift (gets (fun s => pr_of s p));
      start ← (if start =? 0 then
                 let bottom := UP_ALIGN (mmapHeapBottom pr) PAGE_SIZE in
                 let top := UP_ALIGN (u64 (bottom + len)) PAGE_SIZE in
                 lift (modify (upd_process p (fun pr => p_heap (brkHeapBottom pr) top pr))) ;;
                 assert (top <? USER_STACK_BOTTOM) ;;
                 mret bottom
               else mret start);
      let fin := u64 (start + len) in
      when (c_true (Z.land flags MAP_FIXED))
        (assert (start <=? brkHeapBottom pr) ;;
         lift (modify (upd_process p (fun pr =>
           p_heap (Z.max (UP_ALIGN fin PAGE_SIZE) (brkHeapBottom pr)) (mmapHeapBottom pr) pr)))) ;;
      loop (Datatypes.S (Z.to_nat (len / PAGE_SIZE + 1))) (fun a =>
        if a <? fin then mmap_page (pgdir pr) perm a fin ;; mret (inl (u64 (a + PGSIZE)))
        else mret (inr tt)) start ;;
      if c_true (Z.land flags MAP_ANONYMOUS) then mret start
      else if fd =? 0 then mret start
      else
        upd_file fd (with_off off) ;;
        r ← fileread fd true start (i32 len);
        if r >=? 0 then mret start else mret (-1)
  end.

(** ** System calls on sockets *)

(** [myProcess()->ofile[fd]]; the array has [NOFILE] entries. *)
Definition my_file (fd : Z) : M S Z :=
  p ← lift myProcess;
  match p with
  | None => panic
  | Some p =>
      assert ((0 <=? fd) && (fd <? NOFILE)) ;;
      lift (gets (fun s => default 0 (ofile (pr_of s p) !! fd)))
  end.
(** [myProcess()->ofile[fd]->socket], which must be a socket. *)
Definition my_socket (fd : Z) : M S Z :=
  f ← my_file fd;
  if f =? 0 then panic
  else ff ← file f; assert (bool_decide (f_type ff = FD_SOCKET)) ;; mret (f_socket ff).

Definition createSocket (fam : Z) : M S Z :=
  f ← lift filealloc;
  s ← socketAlloc;
  match s with
  | None => panic
  | Some i =>
      upd_sock i (fun k => s_addrs (mkAddr (u16 fam) (port (s_addr k)) (addr (s_addr k)) (zero (s_addr k))) (target_addr k) k) ;;
      upd_sock i (fun k => s_pending (pending_queue k) 0 0 false k) ;;
      if f =? 0 then panic else upd_file f (with_socket i) ;; fdalloc f
  end.
Definition bindSocket (fd : Z) (sa : SocketAddr) : M S Z :=
  i ← my_socket fd;
  k ← sock i;
  assert (family (s_addr k) =? family sa) ;;
  upd_sock i (fun k => s_addrs (mkAddr (family (s_addr k)) (port sa) (addr sa) (zero (s_addr k))) (target_addr k) k) ;;
  mret 0.
Definition listen (fd : Z) : M S Z :=
  i ← my_socket fd;
  upd_sock i (fun k => s_pending (pending_queue k) (pending_h k) (pending_t k) true k) ;;
  mret 0.
(** [addr_bytes] is the layout of [SocketAddr]. *)
Definition getSocketName (addr_bytes : SocketAddr -> list Z) (fd va : Z) : M S Z :=
  i ← my_socket fd; k ← sock i; user_copyout va (addr_bytes (s_addr k)) ;; mret 0.

(** The new descriptor and the address of the peer. *)
Definition accept (fd : Z) : M S (Z * option SocketAddr) :=
  i ← my_socket fd;
  k ← sock i;
  if pending_h k =? pending_t k then mret (- EAGAIN, None)
  else
    let a := default addr0 (pending_queue k !! (Z.rem (pending_h k) PENDING_COUNT)) in
    upd_sock i (fun k => s_pending (pending_queue k) (i32 (pending_h k + 1)) (pending_t k) (listening k) k) ;;
    ns ← socketAlloc;
    match ns with
    | None => panic
    | Some ns =>
        k ← sock i;
        upd_sock ns (s_addrs (s_addr k) a) ;;
        nf ← lift filealloc;
        if nf =? 0 then panic
        else
          upd_file nf (with_socket ns) ;;
          peer ← lift (remote_find_peer_socket ns);
          lift (wakeup (match peer with Some p => sock_base + p * SOCKET_SIZE | None => 0 end)) ;;
          fd ← fdalloc nf;
          mret (fd, Some a)
    end.

Definition connect (uninit : nat -> list Z) (fd : Z) (a : SocketAddr) : M S Z :=
  i ← my_socket fd;
  la ← lift (gen_local_socket_addr uninit);
  upd_sock i (s_addrs la a) ;;
  t ← lift (remote_find_listening_socket a);
  match t with
  | None => mret (-1)
  | Some t =>
      k ← sock t;
      if pending_t k - pending_h k =? PENDING_COUNT then mret (-1)
      else
        l ← sock i;
        upd_sock t (fun k => s_pending (<[Z.rem (pending_t k) PENDING_COUNT := s_addr l]> (pending_queue k))
                               (pending_h k) (i32 (pending_t k + 1)) (listening k) k) ;;
        sleep threadDestroy (sock_base + i * SOCKET_SIZE) ;;
        mret 0
  end.
End files.
