(* ===== verification/Console.v ===== *)
(** * Console.c: the console

    One hart does nothing but move characters from the serial port to a ring buffer
    ([asynInput]); reads take them from there.  The port is its queue of received
    characters and the characters sent; [putchar] waits until the port accepts one. *)

From S2P Require Import Prelude CType Mem Config Page UserCopy Sched Pipe Bio Fat FatFile File.

Definition IO_BUFFER : Z := 65536.
Record ConsoleS := mkC {
  cbuffer : gmap Z Z;
  chead : Z;
  ctail : Z;
  uart_rx : list Z;
  uart_tx : list Z;
}.

Definition putchar (ch : Z) : M ConsoleS unit :=
  modify (fun c => mkC (cbuffer c) (chead c) (ctail c) (uart_rx c) (uart_tx c ++ [ch])).
(** -1 when nothing was received. *)
Definition getchar : M ConsoleS Z :=
  rx ← gets uart_rx;
  match rx with
  | [] => mret (-1)
  | x :: rx => modify (fun c => mkC (cbuffer c) (chead c) (ctail c) rx (uart_tx c)) ;; mret (Z.land x 0xff)
  end.
Definition hasChar : M ConsoleS bool := gets (fun c => negb (chead c =? ctail c)).
(** 255, the character -1, when the buffer is empty. *)
Definition asynGetChar : M ConsoleS Z :=
  c ← gets (fun c => c);
  if chead c =? ctail c then mret 255
  else
    modify (fun c => mkC (cbuffer c) (u64 (chead c + 1)) (ctail c) (uart_rx c) (uart_tx c)) ;;
    mret (default 0 (cbuffer c !! Z.land (chead c) (IO_BUFFER - 1))).
Definition asynInputInit : M ConsoleS unit :=
  modify (fun c => mkC (cbuffer c) 0 0 (uart_rx c) (uart_tx c)).
(** One turn of the endless loop of [asynInput]. *)
Definition asynInput_step : M ConsoleS unit :=
  c ← gets (fun c => c);
  if u64 (ctail c - chead c) =? IO_BUFFER then mret tt
  else
    x ← getchar;
    let ch := u8 x in
    when (negb (ch =? 255))
      (modify (fun c => mkC (<[Z.land (ctail c) (IO_BUFFER - 1) := ch]> (cbuffer c)) (chead c) (u64 (ctail c + 1))
                          (uart_rx c) (uart_tx c))).

Section console.
Context {S : Type} `{!Part S PState} `{!Part S MM} `{!Part S ConsoleS} `{!Boot S} `{!FsEnv S}.

Fixpoint consoleWrite_loop (n : nat) (user : bool) (src : Z) (i : Z) : M S Z :=
  match n with
  | O => mret i
  | Datatypes.S n =>
      r ← either_copyin user (u64 (src + i)) 1;
      let '(err, bs) := r in
      if err =? -1 then mret i
      else
        let ch := match bs with ch :: _ => ch | [] => 0 end in
        when (ch =? 0x0a) (lift (putchar 0x0d)) ;;
        lift (putchar ch) ;;
        consoleWrite_loop n user src (i + 1)
  end.
Definition consoleWrite (user : bool) (src start n : Z) : M S Z := consoleWrite_loop (Z.to_nat n) user src 0.

Fixpoint consoleRead_loop (n : nat) (user : bool) (dst : Z) (i : Z) : M S Z :=
  match n with
  | O => mret i
  | Datatypes.S n =>
      ch ← lift asynGetChar;
      (if (ch =? 255) && (i =? 0) then retry else mret tt) ;;
      if ch =? 255 then mret i
      else
        when (ch =? 0x0a) (lift (putchar 0x0d)) ;;
        r ← either_copyout user (u64 (dst + i)) [ch];
        if r =? -1 then mret i else consoleRead_loop n user dst (i + 1)
  end.
Definition consoleRead (user : bool) (dst start n : Z) : M S Z := consoleRead_loop (Z.to_nat n) user dst 0.

(** [devsw], after [consoleInit] and [sdInit]: device 1 is the console, device 0 the card,
    whose functions are in Sd.v. *)
Definition DEV_CONSOLE : Z := 1.
Definition DEV_SD : Z := 0.
Definition devsw_read (sdCardRead : bool -> Z -> Z -> Z -> M S Z) (major : Z) : option (bool -> Z -> Z -> Z -> M S Z) :=
  if major =? DEV_CONSOLE then Some consoleRead else if major =? DEV_SD then Some sdCardRead else None.
Definition devsw_write (sdCardWrite : bool -> Z -> Z -> Z -> M S Z) (major : Z) : option (bool -> Z -> Z -> Z -> M S Z) :=
  if major =? DEV_CONSOLE then Some consoleWrite else if major =? DEV_SD then Some sdCardWrite else None.
End console.
