(* ===== verification/ConsoleSpec.v ===== *)
(** * What is typed is what is read

    The ring buffer between the serial port and the readers of the console (Console.c), with
    one hart filling it and readers emptying it in any interleaving. *)

From S2P Require Import Prelude CType Mem Config Page UserCopy Sched Pipe Bio Fat FatFile File Console.

(** Slot of a counter; the counters wrap at 2^64, a multiple of the size. *)
Definition slot (n : Z) : Z := n mod 65536.
Definition pending (c : ConsoleS) : Z := u64 (ctail c - chead c).
Definition contents (c : ConsoleS) : list Z :=
  map (fun i => default 0 (cbuffer c !! slot (chead c + i))) (seqZ 0 (pending c)).
(** Byte 255 stands for "no character" and is lost. *)
Definition heard (l : list Z) : list Z := filter (fun x => x <> 255) l.

(** A character arrives at the port. *)
Definition arrive (x : Z) (c : ConsoleS) : ConsoleS :=
  mkC (cbuffer c) (chead c) (ctail c) (uart_rx c ++ [x]) (uart_tx c).

(** The states after the characters [rs] arrived and the characters [ts] were taken. *)
Inductive console_run : list Z -> list Z -> ConsoleS -> Prop :=
  | cr_init c c' : uart_rx c = [] -> asynInputInit c = Ret tt c' -> console_run [] [] c'
  | cr_arrive rs ts c x : console_run rs ts c -> 0 <= x < 256 -> console_run (rs ++ [x]) ts (arrive x c)
  | cr_input rs ts c c' : console_run rs ts c -> asynInput_step c = Ret tt c' -> console_run rs ts c'
  | cr_take rs ts c c' ch : console_run rs ts c -> asynGetChar c = Ret ch c' -> console_run rs (ts ++ heard [ch]) c'
  | cr_echo rs ts c c' ch : console_run rs ts c -> putchar ch c = Ret tt c' -> console_run rs ts c'.

Record ring_ok (c : ConsoleS) : Prop := {
  rk_head : 0 <= chead c < 2 ^ 64;
  rk_tail : 0 <= ctail c < 2 ^ 64;
  rk_pending : pending c <= IO_BUFFER;
  rk_rx : Forall (fun x => 0 <= x < 256) (uart_rx c);
  rk_buffer : 255 ∉ contents c;
}.

Lemma land_slot n : Z.land n (IO_BUFFER - 1) = slot n.
Proof. exact (Z.land_ones n 16 ltac:(lia)). Qed.
Lemma slot_u64 n i : slot (u64 n + i) = slot (n + i).
Proof. unfold slot, u64. Z.to_euclidean_division_equations; lia. Qed.
Lemma pending_range c : 0 <= pending c < 2 ^ 64.
Proof. unfold pending, u64. apply Z.mod_pos_bound. lia. Qed.

(** ** One end and the other *)

Lemma empty_ring c : pending c = 0 <-> contents c = [].
Proof.
  pose proof (pending_range c). unfold contents. split; [by intros ->|]. intros E%(f_equal length).
  rewrite length_map, length_seqZ in E. simpl in E. lia.
Qed.

Lemma pop_contents_c c : pending c <> 0 ->
  contents c = default 0 (cbuffer c !! slot (chead c)) :: contents (mkC (cbuffer c) (u64 (chead c + 1)) (ctail c) (uart_rx c) (uart_tx c)).
Proof.
  intros Hp. pose proof (pending_range c) as Hr. unfold contents.
  replace (pending (mkC _ _ _ _ _)) with (pending c - 1)
    by (unfold pending, u64 in *; simpl in *; Z.to_euclidean_division_equations; lia).
  rewrite (seqZ_cons 0 (pending c)) by lia. cbn [map]. rewrite Z.add_0_r. f_equal.
  replace (Z.pred (pending c)) with (pending c - 1) by lia. cbn [chead cbuffer].
  apply list_eq. intros i. rewrite !list_lookup_fmap. destruct (decide (Z.of_nat i < pending c - 1)).
  - rewrite !lookup_seqZ_lt by lia. cbn. do 3 f_equal. rewrite slot_u64. f_equal. lia.
  - rewrite !lookup_seqZ_ge by lia. done.
Qed.

Lemma push_contents_c c ch rx : pending c < IO_BUFFER ->
  contents (mkC (<[slot (ctail c) := ch]> (cbuffer c)) (chead c) (u64 (ctail c + 1)) rx (uart_tx c)) = contents c ++ [ch].
Proof.
  unfold IO_BUFFER. intros Hp. pose proof (pending_range c) as Hr. unfold contents.
  replace (pending (mkC _ _ _ _ _)) with (pending c + 1)
    by (unfold pending, u64 in *; simpl in *; Z.to_euclidean_division_equations; lia).
  rewrite seqZ_app, map_app by lia. cbn [chead cbuffer]. f_equal.
  - apply map_ext_in. intros i Hi%list_elem_of_In%elem_of_seqZ. rewrite lookup_insert_ne; [done|].
    unfold slot, pending, u64 in *. Z.to_euclidean_division_equations; lia.
  - replace (seqZ (0 + pending c) 1) with [pending c] by (rewrite seqZ_cons by lia; f_equal; lia). cbn [map].
    replace (slot (chead c + pending c)) with (slot (ctail c))
      by (unfold slot, pending, u64 in *; Z.to_euclidean_division_equations; lia).
    by rewrite lookup_insert_eq.
Qed.

(** ** The invariant *)

Lemma u8_land x : u8 (Z.land x 0xff) = x mod 256.
Proof. change (Z.land x 0xff) with (Z.land x (Z.ones 8)). rewrite Z.land_ones by lia. apply Z.mod_mod. lia. Qed.

Lemma input_eq c : asynInput_step c =
  if pending c =? IO_BUFFER then Ret tt c
  else match uart_rx c with
       | [] => Ret tt c
       | x :: rx =>
           if x mod 256 =? 255 then Ret tt (mkC (cbuffer c) (chead c) (ctail c) rx (uart_tx c))
           else Ret tt (mkC (<[slot (ctail c) := x mod 256]> (cbuffer c)) (chead c) (u64 (ctail c + 1)) rx (uart_tx c))
       end.
Proof.
  unfold asynInput_step. rewrite bind_gets. fold (pending c). destruct (_ =? _); [done|].
  unfold getchar. destruct (uart_rx c) as [|x rx] eqn:E.
  - rewrite (bind_Ret _ _ _ (-1) c); [done|]. by rewrite bind_gets, E.
  - rewrite (bind_Ret _ _ _ (Z.land x 0xff) (mkC (cbuffer c) (chead c) (ctail c) rx (uart_tx c))).
    + rewrite u8_land. destruct (_ =? 255); [done|]. unfold when, modify. cbn. by rewrite land_slot.
    + by rewrite bind_gets, E.
Qed.

Lemma empty_eq c : ring_ok c -> (chead c =? ctail c) = bool_decide (contents c = []).
Proof.
  intros [H1 H2 _ _ _]. apply eq_true_iff_eq. rewrite Z.eqb_eq, bool_decide_eq_true, <- empty_ring.
  unfold pending, u64. Z.to_euclidean_division_equations; lia.
Qed.

Lemma take_eq c : ring_ok c -> asynGetChar c =
  match contents c with
  | [] => Ret 255 c
  | ch :: _ => Ret ch (mkC (cbuffer c) (u64 (chead c + 1)) (ctail c) (uart_rx c) (uart_tx c))
  end.
Proof.
  intros Hok. unfold asynGetChar. rewrite bind_gets, empty_eq by done. case_bool_decide as E; [by rewrite E|].
  rewrite pop_contents_c by by rewrite empty_ring. rewrite bind_modify, land_slot. done.
Qed.

Lemma heard_app l k : heard (l ++ k) = heard l ++ heard k.
Proof. apply filter_app. Qed.
Lemma heard_cons x l : heard (x :: l) = (if x =? 255 then [] else [x]) ++ heard l.
Proof. unfold heard. rewrite filter_cons. destruct (Z.eqb_spec x 255); by destruct (decide _). Qed.

Lemma ring_init c c' : Forall (fun x => 0 <= x < 256) (uart_rx c) -> asynInputInit c = Ret tt c' ->
  ring_ok c' /\ contents c' = [] /\ uart_rx c' = uart_rx c.
Proof. intros Hrx E. injection E as <-. split_and!; try done. split; try done. apply not_elem_of_nil. Qed.

Lemma input_inv c c' : ring_ok c -> asynInput_step c = Ret tt c' ->
  ring_ok c' /\ contents c ++ heard (uart_rx c) = contents c' ++ heard (uart_rx c').
Proof.
  intros Hok E. pose proof Hok as [Hh Ht Hp Hrx Hb].
  rewrite input_eq in E. destruct (Z.eqb_spec (pending c) IO_BUFFER) as [|Hne]; [by injection E as <-|].
  destruct (uart_rx c) as [|x rx] eqn:Erx; [injection E as <-; by rewrite Erx|].
  apply Forall_cons in Hrx as [Hx Hrx]. rewrite Z.mod_small in E by done. rewrite heard_cons.
  destruct (x =? 255) eqn:E255; injection E as <-; [by split|]. apply Z.eqb_neq in E255.
  assert (Hpush := push_contents_c c x rx ltac:(lia)). split; [split; try done|].
  - apply u64_range.
  - unfold pending, u64, IO_BUFFER in *. simpl in *. Z.to_euclidean_division_equations; lia.
  - rewrite Hpush, not_elem_of_app, list_elem_of_singleton. by split.
  - rewrite Hpush, <- app_assoc. done.
Qed.

Lemma console_inv rs ts c : console_run rs ts c ->
  ring_ok c /\ heard rs = ts ++ contents c ++ heard (uart_rx c).
Proof.
  induction 1 as [c c' Hrx E|rs ts c x _ [Hok IH] Hx|rs ts c c' _ [Hok IH] E|rs ts c c' ch _ [Hok IH] E|rs ts c c' ch _ [Hok IH] E];
    try pose proof Hok as [Hh Ht Hp Hrx Hb].
  - destruct (ring_init c c') as (Hok & Hc & Hr); [by rewrite Hrx|done|]. by rewrite Hc, Hr, Hrx.
  - split.
    + split; try done. apply Forall_app. split; [done|]. by constructor.
    + cbn [arrive uart_rx]. rewrite !heard_app, IH, <- !app_assoc. done.
  - destruct (input_inv _ _ Hok E) as [Hok' Heq]. split; [done|]. by rewrite IH, Heq.
  - rewrite take_eq in E by done. destruct (decide (pending c = 0)) as [Hz|Hz].
    + rewrite (proj1 (empty_ring c) Hz) in E. injection E as <- <-. by rewrite app_nil_r.
    + rewrite (pop_contents_c c Hz) in E. injection E as <- <-. rewrite (pop_contents_c c Hz) in IH, Hb.
      apply not_elem_of_cons in Hb as [Hb1 Hb]. split; [split; try done|].
      * apply u64_range.
      * pose proof (pending_range c). unfold pending, u64, IO_BUFFER in *. simpl in *. Z.to_euclidean_division_equations; lia.
      * rewrite heard_cons, (proj2 (Z.eqb_neq _ 255)) by done. rewrite IH, <- app_assoc. done.
  - injection E as <-. done.
Qed.

(** What is typed is what is read, in order and once.  Under every interleaving of
    arriving characters, turns of the input hart, reads of the console and echoed output, from the
    initialisation of the buffer on: the characters taken so far, then the characters in
    the ring, then those still in the port are the characters that arrived, less bytes 255;
    the ring never holds more than 65536; [hasChar] tells whether it holds any;
    and the next read takes the oldest, or reports 255 when there is none. *)
Theorem console_fifo rs ts c : console_run rs ts c ->
  heard rs = ts ++ contents c ++ heard (uart_rx c) /\
  Z.of_nat (length (contents c)) <= IO_BUFFER /\
  hasChar c = Ret (negb (bool_decide (contents c = []))) c /\
  exists c', asynGetChar c = Ret (default 255 (hd_error (contents c))) c' /\
    contents c' = tl (contents c) /\ uart_rx c' = uart_rx c /\ uart_tx c' = uart_tx c.
Proof.
  intros H. destruct (console_inv _ _ _ H) as [Hok E]. split; [done|].
  pose proof (pending_range c). split.
  { unfold contents. rewrite length_map, length_seqZ. pose proof (rk_pending _ Hok). lia. }
  split; [unfold hasChar, gets; by rewrite empty_eq|]. rewrite take_eq by done.
  destruct (decide (pending c = 0)) as [Hz|Hz].
  - rewrite (proj1 (empty_ring c) Hz). exists c. split_and!; try done. by rewrite (proj1 (empty_ring c) Hz).
  - rewrite (pop_contents_c c Hz). eexists. by split_and!.
Qed.

(** Two characters typed, both moved to the ring, one read. *)
Lemma console_fifo_witness : exists c, console_run [0x6c; 0x73] [0x6c] c /\ contents c = [0x73].
Proof.
  assert (H : console_run [0x6c; 0x73] ([] ++ heard [0x6c])
    (mkC (<[1 := 0x73]> (<[0 := 0x6c]> ∅)) 1 2 [] [])).
  { eapply (cr_take _ _ (mkC (<[1 := 0x73]> (<[0 := 0x6c]> ∅)) 0 2 [] [])); [|vm_compute; reflexivity].
    eapply (cr_input _ _ (mkC (<[0 := 0x6c]> ∅) 0 1 [0x73] [])); [|vm_compute; reflexivity].
    eapply (cr_input _ _ (mkC ∅ 0 0 [0x6c; 0x73] [])); [|vm_compute; reflexivity].
    apply (cr_arrive [0x6c] [] (mkC ∅ 0 0 [0x6c] []) 0x73); [|lia].
    apply (cr_arrive [] [] (mkC ∅ 0 0 [] []) 0x6c); [|lia].
    by apply (cr_init (mkC ∅ 0 0 [] [])). }
  destruct (console_fifo _ _ _ H) as [E _]. eexists. split; [exact H|].
  rewrite app_nil_r in E. exact (eq_sym (app_inv_head [0x6c] [0x73] _ E)).
Defined.
