(* ===== verification/ConsoleRace.v ===== *)
(** * The console buffer without its lock

    [acquireLock] and [releaseLock] return at once (Spinlock.c), so nothing keeps the hart
    that runs [asynInput] and the hart that runs [asynGetChar] apart.  Here the two bodies
    of Console.c are cut at every access to shared memory, and the harts take turns in any
    order.  Accesses of one hart are seen by the other in program order.

    The writer owns [tail] and the reader owns [head]: one loads what the other stores. *)

From S2P Require Import Prelude CType Mem Config Page UserCopy Sched Pipe Bio Fat FatFile File Console ConsoleSpec.

(** Where the writer is in the loop of [asynInput]: before the test for a full buffer,
    before [getchar], before the store of the character, before [tail++]. *)
Inductive writer := W_test | W_getchar | W_store (ch : Z) | W_advance (ch : Z).
(** Where the reader is in [asynGetChar]: not in it, before the test for an empty buffer,
    before the load, before [head++]. *)
Inductive reader := R_idle | R_test | R_load | R_advance (ch : Z).

Record Race := mkRace { shared : ConsoleS; at_w : writer; at_r : reader }.

Definition set_tail (t : Z) (c : ConsoleS) : ConsoleS := mkC (cbuffer c) (chead c) t (uart_rx c) (uart_tx c).
Definition set_head (h : Z) (c : ConsoleS) : ConsoleS := mkC (cbuffer c) h (ctail c) (uart_rx c) (uart_tx c).
Definition set_slot (i ch : Z) (c : ConsoleS) : ConsoleS := mkC (<[i := ch]> (cbuffer c)) (chead c) (ctail c) (uart_rx c) (uart_tx c).

(** One access of the writer. *)
Definition writer_step (w : writer) (c : ConsoleS) : writer * ConsoleS :=
  match w with
  | W_test => (if u64 (ctail c - chead c) =? IO_BUFFER then W_test else W_getchar, c)
  | W_getchar =>
      match getchar c with
      | Ret x c' => (if u8 x =? 255 then W_test else W_store (u8 x), c')
      | _ => (w, c)
      end
  | W_store ch => (W_advance ch, set_slot (Z.land (ctail c) (IO_BUFFER - 1)) ch c)
  | W_advance _ => (W_test, set_tail (u64 (ctail c + 1)) c)
  end.

(** One access of the reader; the value [asynGetChar] returns when this one was the last. *)
Definition reader_step (r : reader) (c : ConsoleS) : reader * ConsoleS * option Z :=
  match r with
  | R_idle => (R_test, c, None)
  | R_test => if chead c =? ctail c then (R_idle, c, Some 255) else (R_load, c, None)
  | R_load => (R_advance (default 0 (cbuffer c !! Z.land (chead c) (IO_BUFFER - 1))), c, None)
  | R_advance ch => (R_idle, set_head (u64 (chead c + 1)) c, Some ch)
  end.

(** The states after the characters [rs] arrived and the characters [ts] were returned. *)
Inductive race : list Z -> list Z -> Race -> Prop :=
  | race_init c c' : uart_rx c = [] -> asynInputInit c = Ret tt c' -> race [] [] (mkRace c' W_test R_idle)
  | race_arrive rs ts c w r x : race rs ts (mkRace c w r) -> 0 <= x < 256 ->
      race (rs ++ [x]) ts (mkRace (arrive x c) w r)
  | race_write rs ts c w r w' c' : race rs ts (mkRace c w r) -> writer_step w c = (w', c') ->
      race rs ts (mkRace c' w' r)
  | race_read rs ts c w r r' c' o : race rs ts (mkRace c w r) -> reader_step r c = (r', c', o) ->
      race rs (ts ++ heard (option_list o)) (mkRace c' w r')
  | race_echo rs ts c w r c' ch : race rs ts (mkRace c w r) -> putchar ch c = Ret tt c' ->
      race rs ts (mkRace c' w r).

(** ** Without interference the cut bodies are the functions of Console.v *)

Fixpoint writer_steps (n : nat) (w : writer) (c : ConsoleS) : writer * ConsoleS :=
  match n with O => (w, c) | S n => let '(w, c) := writer_step w c in writer_steps n w c end.
Fixpoint reader_steps (n : nat) (r : reader) (c : ConsoleS) : reader * ConsoleS * option Z :=
  match n with
  | O => (r, c, None)
  | S n => match reader_step r c with (r, c, None) => reader_steps n r c | done => done end
  end.

Lemma getchar_eq c : getchar c =
  match uart_rx c with
  | [] => Ret (-1) c
  | x :: rx => Ret (Z.land x 0xff) (mkC (cbuffer c) (chead c) (ctail c) rx (uart_tx c))
  end.
Proof. unfold getchar. rewrite bind_gets. by destruct (uart_rx c). Qed.

Lemma writer_alone c : exists n c', asynInput_step c = Ret tt c' /\ writer_steps (S n) W_test c = (W_test, c').
Proof.
  rewrite input_eq. unfold pending. destruct (u64 (ctail c - chead c) =? IO_BUFFER) eqn:E.
  { exists 0%nat, c. cbn. by rewrite E. }
  assert (E1 : writer_step W_test c = (W_getchar, c)) by (cbn [writer_step]; by rewrite E).
  assert (E2 : writer_step W_getchar c = match uart_rx c with
    | [] => (W_test, c)
    | x :: rx => (if x mod 256 =? 255 then W_test else W_store (x mod 256), mkC (cbuffer c) (chead c) (ctail c) rx (uart_tx c))
    end).
  { cbn [writer_step]. rewrite getchar_eq. destruct (uart_rx c); [done|]. by rewrite u8_land. }
  destruct (uart_rx c) as [|x rx].
  { exists 1%nat, c. split; [done|]. cbn [writer_steps]. by rewrite E1, E2. }
  destruct (x mod 256 =? 255).
  { eexists 1%nat, _. split; [done|]. cbn [writer_steps]. by rewrite E1, E2. }
  eexists 3%nat, _. split; [done|]. cbn [writer_steps]. rewrite E1, E2. cbn -[Z.land u64].
  unfold set_tail, set_slot. cbn -[Z.land u64]. by rewrite land_slot.
Qed.

Lemma reader_alone c : exists n ch c', asynGetChar c = Ret ch c' /\ reader_steps n R_test c = (R_idle, c', Some ch).
Proof.
  unfold asynGetChar. rewrite bind_gets. destruct (chead c =? ctail c) eqn:E.
  - exists 1%nat, 255, c. split; [done|]. cbn. by rewrite E.
  - eexists 3%nat, _, _. split; [done|]. cbn [reader_steps reader_step]. rewrite E. done.
Qed.

(** ** The invariant *)

(** The character the writer holds. *)
Definition in_flight (w : writer) : list Z := match w with W_store ch | W_advance ch => [ch] | _ => [] end.

Record race_ok (c : ConsoleS) (w : writer) (r : reader) : Prop := {
  ro_ring : ring_ok c;
  ro_room : w <> W_test -> pending c < IO_BUFFER;
  ro_char : 255 ∉ in_flight w /\ Forall (fun x => 0 <= x < 256) (in_flight w);
  ro_stored : forall ch, w = W_advance ch -> cbuffer c !! slot (ctail c) = Some ch;
  ro_some : r <> R_idle -> r <> R_test -> contents c <> [];
  ro_loaded : forall ch, r = R_advance ch -> hd_error (contents c) = Some ch;
}.

Lemma store_contents c ch : pending c < IO_BUFFER -> contents (set_slot (slot (ctail c)) ch c) = contents c.
Proof.
  unfold IO_BUFFER. intros Hp. pose proof (pending_range c) as Hr. unfold contents. cbn [cbuffer chead set_slot].
  change (pending (set_slot _ _ c)) with (pending c).
  apply map_ext_in. intros i Hi%list_elem_of_In%elem_of_seqZ. rewrite lookup_insert_ne; [done|].
  unfold slot, pending, u64 in *. Z.to_euclidean_division_equations; lia.
Qed.

Lemma advance_contents c ch : pending c < IO_BUFFER -> cbuffer c !! slot (ctail c) = Some ch ->
  contents (set_tail (u64 (ctail c + 1)) c) = contents c ++ [ch].
Proof.
  intros Hp Hs. rewrite <- (push_contents_c c ch (uart_rx c)) by done. by rewrite insert_id.
Qed.

Lemma pending_advance c : pending c < IO_BUFFER -> pending (set_tail (u64 (ctail c + 1)) c) = pending c + 1.
Proof. unfold pending, u64, IO_BUFFER. simpl. intros. Z.to_euclidean_division_equations; lia. Qed.
Lemma pending_take c : pending c <> 0 -> pending (set_head (u64 (chead c + 1)) c) = pending c - 1.
Proof. unfold pending, u64. simpl. intros. Z.to_euclidean_division_equations; lia. Qed.

Lemma take_contents c : contents c <> [] ->
  contents c = default 0 (cbuffer c !! slot (chead c)) :: contents (set_head (u64 (chead c + 1)) c).
Proof. intros H. apply pop_contents_c. by rewrite empty_ring. Qed.

(** Moving the tail keeps the ring well formed, and so does moving the head. *)
Lemma ring_advance c ch : ring_ok c -> pending c < IO_BUFFER -> cbuffer c !! slot (ctail c) = Some ch -> ch <> 255 ->
  ring_ok (set_tail (u64 (ctail c + 1)) c).
Proof.
  intros [Hh Ht Hp Hrx Hb] Hlt Hs Hch. split; try done.
  - apply u64_range.
  - rewrite pending_advance by done. lia.
  - rewrite (advance_contents c ch), not_elem_of_app, list_elem_of_singleton by done. by split.
Qed.
Lemma ring_take c : ring_ok c -> contents c <> [] -> ring_ok (set_head (u64 (chead c + 1)) c).
Proof.
  intros [Hh Ht Hp Hrx Hb] Hne. split; try done.
  - apply u64_range.
  - rewrite pending_take by by rewrite empty_ring. lia.
  - rewrite take_contents in Hb by done. by apply not_elem_of_cons in Hb as [_ Hb].
Qed.

Lemma writer_inv c w r w' c' : race_ok c w r -> writer_step w c = (w', c') ->
  race_ok c' w' r /\ contents c' ++ in_flight w' ++ heard (uart_rx c') = contents c ++ in_flight w ++ heard (uart_rx c).
Proof.
  intros [Hring Hroom [Hch Hbyte] Hst Hsome Hld] E. destruct w as [| |ch|ch].
  - injection E as <- <-. destruct (Z.eqb_spec (u64 (ctail c - chead c)) IO_BUFFER) as [|Hne]; [by split|].
    split; [|done]. split; try done. intros _. pose proof (rk_pending _ Hring). unfold pending in *. lia.
  - cbn [writer_step] in E. rewrite getchar_eq in E. pose proof (rk_rx _ Hring) as Hrx.
    destruct (uart_rx c) as [|x rx] eqn:Er; [injection E as <- <-; by rewrite Er|].
    apply Forall_cons in Hrx as [Hx Hrx]. rewrite u8_land, Z.mod_small in E by done. rewrite heard_cons.
    assert (Hr' : ring_ok (mkC (cbuffer c) (chead c) (ctail c) rx (uart_tx c))) by (destruct Hring; by split).
    destruct (Z.eqb_spec x 255) as [|Hx255]; injection E as <- <-; (split; [split; try done|done]).
    + intros _. by apply Hroom.
    + cbn. rewrite list_elem_of_singleton. split; [done|]. by constructor.
  - injection E as <- <-. rewrite land_slot. assert (Hlt : pending c < IO_BUFFER) by by apply Hroom.
    split; [|by rewrite store_contents]. split; try done.
    + destruct Hring. split; try done. by rewrite store_contents.
    + intros ch' [= <-]. apply lookup_insert_eq.
    + by rewrite store_contents.
    + by rewrite store_contents.
  - injection E as <- <-. assert (Hlt : pending c < IO_BUFFER) by by apply Hroom.
    assert (Hne : ch <> 255) by (cbn in Hch; rewrite list_elem_of_singleton in Hch; congruence).
    pose proof (advance_contents c ch Hlt (Hst _ eq_refl)) as Hadd.
    split; [|rewrite Hadd, <- app_assoc; done]. split; try done.
    + by apply (ring_advance c ch); [done|done|apply Hst|].
    + split; [apply not_elem_of_nil|constructor].
    + rewrite Hadd. by destruct (contents c).
    + intros ch' ->. rewrite Hadd. specialize (Hld _ eq_refl). by destruct (contents c).
Qed.

Lemma reader_inv c w r r' c' o : race_ok c w r -> reader_step r c = (r', c', o) ->
  race_ok c' w r' /\ uart_rx c' = uart_rx c /\ contents c = heard (option_list o) ++ contents c'.
Proof.
  intros [Hring Hroom Hch Hst Hsome Hld] E. destruct r as [| | |ch].
  - injection E as <- <- <-. split; [|done]. by split.
  - cbn [reader_step] in E. rewrite empty_eq in E by done. case_bool_decide as Hc; injection E as <- <- <-; [split; [by split|done]|].
    split; [|done]. by split.
  - injection E as <- <- <-. split; [|done]. split; try done.
    + intros _ _. by apply Hsome.
    + intros ch [= <-]. rewrite land_slot, take_contents by by apply Hsome. done.
  - injection E as <- <- <-. assert (Hne : contents c <> []) by by apply Hsome.
    pose proof (Hld _ eq_refl) as Hhd. pose proof (take_contents c Hne) as Hpop.
    rewrite Hpop in Hhd. injection Hhd as Hhd. rewrite Hhd in Hpop.
    assert (H255 : ch <> 255).
    { intros ->. apply (rk_buffer _ Hring). rewrite Hpop. apply list_elem_of_here. }
    split; [|split; [done|]].
    + split; try done; [by apply ring_take|]. intros Hw. rewrite pending_take by by rewrite empty_ring.
      specialize (Hroom Hw). lia.
    + change (option_list (Some ch)) with [ch]. rewrite heard_cons, (proj2 (Z.eqb_neq _ _)) by done. done.
Qed.

Lemma race_inv rs ts R : race rs ts R ->
  race_ok (shared R) (at_w R) (at_r R) /\
  heard rs = ts ++ contents (shared R) ++ in_flight (at_w R) ++ heard (uart_rx (shared R)).
Proof.
  induction 1 as [c c' Hrx E|rs ts c w r x _ [Hok IH] Hx|rs ts c w r w' c' _ [Hok IH] E
                 |rs ts c w r r' c' o _ [Hok IH] E|rs ts c w r c' ch _ [Hok IH] E]; cbn [shared at_w at_r] in *.
  - destruct (console_inv [] [] c' (cr_init c c' Hrx E)) as [Hring Heq]. split; [|done].
    split; try done. split; [apply not_elem_of_nil|constructor].
  - split.
    + destruct Hok as [[] ? ? ? ? ?]. split; try done. split; try done. apply Forall_app. split; [done|]. by constructor.
    + cbn [arrive uart_rx]. rewrite !heard_app, IH, <- !app_assoc. done.
  - destruct (writer_inv _ _ _ _ _ Hok E) as [Hok' Heq]. split; [done|]. by rewrite IH, Heq.
  - destruct (reader_inv _ _ _ _ _ _ Hok E) as (Hok' & Hrx & Heq). split; [done|].
    by rewrite IH, Heq, Hrx, <- !app_assoc.
  - injection E as <-. split; [|done]. destruct Hok as [[] ? ? ? ? ?]. by split.
Qed.

(** C11. The console buffer needs no lock.  However the accesses of the hart that fills the
    buffer and of the hart that empties it interleave, with characters arriving and output
    echoed at any time: the characters returned so far, the characters in the ring, the one
    the writer holds and those still in the port are, in this order, the characters that
    arrived, unchanged (a carriage return is not turned into a newline), less bytes 255;
    the ring never holds more than 65536.  Run without
    interruption, the two cut bodies are the functions of the console. *)
Theorem console_race rs ts R : race rs ts R ->
  heard rs = ts ++ contents (shared R) ++ in_flight (at_w R) ++ heard (uart_rx (shared R)) /\
  Z.of_nat (length (contents (shared R))) <= IO_BUFFER /\
  (forall c, exists n c', asynInput_step c = Ret tt c' /\ writer_steps (S n) W_test c = (W_test, c')) /\
  (forall c, exists n ch c', asynGetChar c = Ret ch c' /\ reader_steps n R_test c = (R_idle, c', Some ch)).
Proof.
  intros H. destruct (race_inv _ _ _ H) as [Hok E]. split; [done|]. split; [|split; [apply writer_alone|apply reader_alone]].
  pose proof (pending_range (shared R)). pose proof (rk_pending _ (ro_ring _ _ _ Hok)).
  unfold contents. rewrite length_map, length_seqZ. lia.
Qed.

(** A second character arrives while the writer holds the first, and the reader starts
    before the tail moves: it reports an empty buffer, and finds the character the next time. *)
Lemma console_race_witness : exists R, race [0x6c; 0x73] [0x6c] R /\ contents (shared R) = [] /\
  heard [0x6c; 0x73] = [0x6c] ++ contents (shared R) ++ in_flight (at_w R) ++ heard (uart_rx (shared R)).
Proof.
  set (c0 := mkC ∅ 0 0 [] []). set (c1 := mkC (<[0 := 0x6c]> ∅) 0 0 [0x73] []).
  assert (H : race [0x6c; 0x73] ((((([] ++ []) ++ []) ++ []) ++ []) ++ [0x6c])
    (mkRace (mkC (<[0 := 0x6c]> ∅) 1 1 [0x73] []) W_test R_idle)).
  { apply (race_read _ _ (mkC (<[0 := 0x6c]> ∅) 0 1 [0x73] []) W_test (R_advance 0x6c) _ _ (Some 0x6c)); [|vm_compute; reflexivity].
    apply (race_read _ _ (mkC (<[0 := 0x6c]> ∅) 0 1 [0x73] []) W_test R_load _ _ None); [|vm_compute; reflexivity].
    apply (race_read _ _ (mkC (<[0 := 0x6c]> ∅) 0 1 [0x73] []) W_test R_test _ _ None); [|vm_compute; reflexivity].
    apply (race_read _ _ (mkC (<[0 := 0x6c]> ∅) 0 1 [0x73] []) W_test R_idle _ _ None); [|vm_compute; reflexivity].
    apply (race_write _ _ c1 (W_advance 0x6c)); [|vm_compute; reflexivity].
    apply (race_read _ _ c1 (W_advance 0x6c) R_test _ _ (Some 255)); [|vm_compute; reflexivity].
    apply (race_write _ [] (mkC ∅ 0 0 [0x73] []) (W_store 0x6c)); [|vm_compute; reflexivity].
    apply (race_arrive [0x6c] [] c0 (W_store 0x6c) R_test 0x73); [|lia].
    apply (race_read _ [] c0 (W_store 0x6c) R_idle _ _ None); [|vm_compute; reflexivity].
    apply (race_write _ [] (mkC ∅ 0 0 [0x6c] []) W_getchar); [|vm_compute; reflexivity].
    apply (race_write _ [] (mkC ∅ 0 0 [0x6c] []) W_test); [|vm_compute; reflexivity].
    apply (race_arrive [] [] c0 W_test R_idle 0x6c); [|lia].
    by apply (race_init c0). }
  destruct (console_race _ _ _ H) as [E _]. eexists. split; [exact H|]. split; [vm_compute; reflexivity|exact E].
Defined.
