(* ===== verification/Signal.v ===== *)
(** * Signal.c: signals

    A signal that is sent to a thread waits in the thread's list as a context
    from a fixed pool; on the way back to user mode [handleSignal] saves the
    registers in the context and enters the handler, and the system call
    [signalReturn] restores them.  The table of handlers of a process is the page
    at [getSignalHandler] in the kernel's page table [kpgdir]. *)

From S2P Require Import Prelude CType Mem Config Queue Page UserCopy Sched FatFile.

Record SignalContext := mkContext {
  contextRecover : Trapframe;
  start : bool;
  signal : Z;
}.
Record SigS := mkSigS {
  contexts : gmap Z SignalContext;
  freeSignalContextList : list Z;
}.

Definition SIGNAL_COUNT : Z := 128.
Definition SIGNAL_CONTEXT_COUNT : Z := 4096.
Definition SIGKILL : Z := 9.
Definition SIG_BLOCK : Z := 0.
Definition SIG_UNBLOCK : Z := 1.
Definition SIG_SETMASK : Z := 2.
(** [sizeof(SignalAction)] and [sizeof(struct pthread)] *)
Definition SIZEOF_ACTION : Z := 32.
Definition SIZEOF_PTHREAD : Z := 224.

Definition context0 : SignalContext := mkContext ∅ false 0.
Definition ctx (s : SigS) (c : Z) : SignalContext := default context0 (contexts s !! c).
Definition set_ctx (c : Z) (f : SignalContext -> SignalContext) (s : SigS) : SigS :=
  mkSigS (<[c := f (ctx s c)]> (contexts s)) (freeSignalContextList s).

(** The bit of a signal; the processor takes shift amounts modulo 64. *)
Definition sigbit (sig : Z) : Z := u64 (Z.shiftl 1 (Z.land (sig - 1) 63)).
Definition signalSetAnd (sig set : Z) : option bool :=
  if sig >? 64 then None else Some (c_true (Z.land set (sigbit sig))).
Definition signalProcessStart (sig set : Z) : option Z :=
  if sig >? 64 then None else Some (Z.lor set (sigbit sig)).
Definition signalProcessEnd (sig set : Z) : option Z :=
  if sig >? 64 then None else Some (Z.land set (u64 (Z.lnot (sigbit sig)))).

(** ** The pool of contexts *)

Definition signalInit : M SigS unit :=
  for_up (Z.to_nat SIGNAL_CONTEXT_COUNT) 0 (fun i =>
    modify (fun s => mkSigS (contexts s) (i :: freeSignalContextList s))).
Definition signalContextFree (c : Z) : M SigS unit :=
  modify (fun s => mkSigS (contexts s) (c :: freeSignalContextList s)).
Definition signalContextAlloc : M SigS (option Z) :=
  l ← gets freeSignalContextList;
  match l with
  | c :: _ =>
      modify (fun s => mkSigS (contexts s) (Queue.list_remove c (freeSignalContextList s))) ;;
      modify (set_ctx c (fun x => mkContext (contextRecover x) false (signal x))) ;;
      mret (Some c)
  | [] => mret None
  end.

Section signals.
Context {S : Type} `{!Part S PState} `{!Part S MM} `{!Part S SigS} `{!FsEnv S}.
Context (pageout : Z -> Z -> M S Z) (threadDestroy : Z -> M S unit) (kpgdir : Z).

Definition thread (t : Z) : M S Thread := lift (gets (fun s => th_of s t)).
Definition set_thread (t : Z) (f : Thread -> Thread) : M S unit := lift (modify (upd_thread t f)).
Definition getctx (c : Z) : M S SignalContext := lift (gets (fun s => ctx s c)).
Definition opt {A} (o : option A) : M S A := match o with Some a => mret a | None => panic end.

Definition signalSend (tgid tid sig : Z) : M S Z :=
  if tid =? -1 then panic
  else
    r ← lift (tid2Thread (u32 tid) false);
    match r with
    | (0, Some t) =>
        th ← thread t;
        pid ← lift (gets (fun s => processId (pr_of s (process th))));
        if negb (tgid =? 0) && negb (pid =? u32 tgid) then mret (- ESRCH)
        else
          c ← lift signalContextAlloc;
          match c with
          | None => panic
          | Some c =>
              lift (modify (set_ctx c (fun x => mkContext (contextRecover x) (start x) (u8 sig)))) ;;
              when (sig =? SIGKILL)
                (set_thread t (t_state RUNNABLE) ;;
                 set_thread t (fun th => t_signals true (waitingSignal th) th)) ;;
              set_thread t (fun th => t_signals (killed th) (c :: waitingSignal th) th) ;;
              mret 0
          end
    | _ => panic
    end.

Fixpoint send_all (pid sig : Z) (ts : list Z) (ret : Z) : M S Z :=
  match ts with
  | [] => mret ret
  | t :: ts =>
      th ← thread t;
      p ← lift (gets (fun s => processId (pr_of s (process th))));
      if (pid =? 0) || (pid =? -1) || (u32 pid =? p) then
        ret ← signalSend 0 (i32 (id th)) sig;
        send_all pid sig ts ret
      else send_all pid sig ts ret
  end.
Definition processSignalSend (pid sig : Z) : M S Z :=
  ts ← lift (gets usedThreads); send_all pid sig ts (- ESRCH).

Definition signProccessMask (how newSet : Z) : M S Z :=
  t ← lift myThread;
  match t with
  | None => panic
  | Some t =>
      if how =? SIG_BLOCK then
        set_thread t (fun th => t_masks (Z.lor (blocked th) newSet) (processing th) th) ;; mret 0
      else if how =? SIG_UNBLOCK then
        set_thread t (fun th => t_masks (Z.land (blocked th) (u64 (Z.lnot newSet))) (processing th) th) ;; mret 0
      else if how =? SIG_SETMASK then
        set_thread t (fun th => t_masks newSet (processing th) th) ;; mret 0
      else mret (-1)
  end.

Definition handler_addr (p sig : Z) : Z := getSignalHandler p + SIZEOF_ACTION * (sig - 1).

Definition doSignalAction (sig act oldAction : Z) : M S Z :=
  t ← lift myThread;
  match t with
  | None => panic
  | Some t =>
      if (sig <? 1) || (sig >? SIGNAL_COUNT) then mret (-1)
      else
        th ← thread t;
        when (negb (oldAction =? 0))
          (k ← kaddr kpgdir (handler_addr (process th) sig);
           bs ← read_memory (fun m => load_bytes m k (Z.to_nat SIZEOF_ACTION));
           user_copyout oldAction bs) ;;
        when (negb (act =? 0))
          (k ← kaddr kpgdir (handler_addr (process th) sig);
           bs ← user_copyin act SIZEOF_ACTION;
           set_memory (store_bytes k bs)) ;;
        mret 0
  end.

(** The first waiting context that is being handled or whose signal is neither
    blocked nor being processed. *)
Fixpoint first_context (b p : Z) (cs : list Z) : M S (option Z) :=
  match cs with
  | [] => mret None
  | c :: cs =>
      x ← getctx c;
      skip ← (if start x then mret false
              else
                r ← opt (signalSetAnd (signal x) b);
                if (r : bool) then mret true else opt (signalSetAnd (signal x) p));
      if (skip : bool) then first_context b p cs else mret (Some c)
  end.
Definition getFirstSignalContext (t : Z) : M S (option Z) :=
  th ← thread t; first_context (blocked th) (processing th) (waitingSignal th).

Fixpoint find_context (f : SignalContext -> bool) (cs : list Z) : M S (option Z) :=
  match cs with
  | [] => mret None
  | c :: cs => x ← getctx c; if f x then mret (Some c) else find_context f cs
  end.
Definition getHandlingSignal (t : Z) : M S Z :=
  th ← thread t; c ← find_context start (waitingSignal th); opt c.
Definition hasKillSignal (t : Z) : M S bool :=
  th ← thread t; c ← find_context (fun x => signal x =? SIGKILL) (waitingSignal th);
  mret (match c with Some _ => true | None => false end).

(** A new page below the stack, and the return to the signal trampoline. *)
Definition initFrame : M S unit :=
  tf ← lift (gets hart_tf);
  let sp := DOWN_ALIGN (u64 (reg tf tf_sp - PAGE_SIZE)) PAGE_SIZE in
  page ← lift Page.pageAlloc;
  p ← lift myProcess;
  match p with
  | None => panic
  | Some p =>
      dir ← lift (gets (fun s => pgdir (pr_of s p)));
      lift (Page.pageInsert dir (u64 (sp - PAGE_SIZE)) (page2pa page)
        (Z.lor PTE_USER (Z.lor PTE_READ PTE_WRITE))) ;;
      lift (modify (upd_hart_tf (<[tf_sp := u64 (PAGE_SIZE + sp - PAGE_SIZE)]>))) ;;
      lift (modify (upd_hart_tf (<[tf_ra := SIGNAL_TRAMPOLINE_BASE]>)))
  end.

Definition signalFinish (t c : Z) : M S unit :=
  set_thread t (fun th => t_signals (killed th) (Queue.list_remove c (waitingSignal th)) th) ;;
  lift (signalContextFree c).

(** One turn of the loop; it leaves with [inr]. *)
Definition handle_step (t : Z) : M S (unit + unit) :=
  th ← thread t;
  when (killed th) (threadDestroy t) ;;
  c ← getFirstSignalContext t;
  match c with
  | None => mret (inr tt)
  | Some c =>
      x ← getctx c;
      if start x then mret (inr tt)
      else
        th ← thread t;
        a ← kaddr kpgdir (handler_addr (process th) (signal x));
        handler ← read_memory (fun m => load64 m a);
        if handler =? 0 then signalFinish t c ;; mret (inl tt)
        else
          lift (modify (set_ctx c (fun x => mkContext (contextRecover x) true (signal x)))) ;;
          p ← opt (signalProcessStart (signal x) (processing th));
          set_thread t (fun th => t_masks (blocked th) p th) ;;
          tf ← lift (gets hart_tf);
          lift (modify (set_ctx c (fun x => mkContext tf (start x) (signal x)))) ;;
          dir ← lift (gets (fun s => pgdir (pr_of s (process th))));
          copyin pageout dir (u64 (reg (trapframe th) tf_tp - SIZEOF_PTHREAD)) SIZEOF_PTHREAD ;;
          initFrame ;;
          lift (modify (upd_hart_tf (<[tf_epc := handler]>))) ;;
          mret (inr tt)
  end.
Definition handleSignal (t : Z) : M S unit :=
  th ← thread t;
  loop (Datatypes.S (length (waitingSignal th))) (fun _ => handle_step t) tt.

Definition doSignalTimedWait : M S Z :=
  t ← lift myThread;
  match t with
  | None => panic
  | Some t =>
      c ← getFirstSignalContext t;
      match c with None => mret 0 | Some c => x ← getctx c; mret (signal x) end
  end.

(** Syscall.c *)
Definition syscallSignalReturn : M S unit :=
  t ← lift myThread;
  match t with
  | None => panic
  | Some t =>
      c ← getHandlingSignal t;
      x ← getctx c;
      lift (modify (upd_hart_tf (fun _ => contextRecover x))) ;;
      th ← thread t;
      p ← opt (signalProcessEnd (signal x) (processing th));
      set_thread t (fun th => t_masks (blocked th) p th) ;;
      signalFinish t c
  end.
End signals.
