(* ===== verification/Kernel.v ===== *)
(** * The state of the kernel

    The components side by side: threads and processes, memory, pipes, file
    system, open files and sockets, segments, signals. *)

From S2P Require Import Prelude CType Mem Config Queue Page UserCopy Sched Bio Fat FatFile Pipe Segment File Signal.

Record Kernel := mkK {
  k_p : PState;
  k_m : MM;
  k_pipes : PipeS;
  k_fat : FatS;
  k_files : FileS;
  k_seg : SegS;
  k_sig : SigS;
}.

Local Ltac by_cases := by intros ? [] || by intros [].

#[export] Instance Kernel_p : Part Kernel PState.
Proof.
  refine {| part := k_p; set_part := fun x k =>
    mkK x (k_m k) (k_pipes k) (k_fat k) (k_files k) (k_seg k) (k_sig k) |}; by_cases.
Defined.
#[export] Instance Kernel_m : Part Kernel MM.
Proof.
  refine {| part := k_m; set_part := fun x k =>
    mkK (k_p k) x (k_pipes k) (k_fat k) (k_files k) (k_seg k) (k_sig k) |}; by_cases.
Defined.
#[export] Instance Kernel_pipes : Part Kernel PipeS.
Proof.
  refine {| part := k_pipes; set_part := fun x k =>
    mkK (k_p k) (k_m k) x (k_fat k) (k_files k) (k_seg k) (k_sig k) |}; by_cases.
Defined.
#[export] Instance Kernel_fat : Part Kernel FatS.
Proof.
  refine {| part := k_fat; set_part := fun x k =>
    mkK (k_p k) (k_m k) (k_pipes k) x (k_files k) (k_seg k) (k_sig k) |}; by_cases.
Defined.
#[export] Instance Kernel_files : Part Kernel FileS.
Proof.
  refine {| part := k_files; set_part := fun x k =>
    mkK (k_p k) (k_m k) (k_pipes k) (k_fat k) x (k_seg k) (k_sig k) |}; by_cases.
Defined.
#[export] Instance Kernel_seg : Part Kernel SegS.
Proof.
  refine {| part := k_seg; set_part := fun x k =>
    mkK (k_p k) (k_m k) (k_pipes k) (k_fat k) (k_files k) x (k_sig k) |}; by_cases.
Defined.
#[export] Instance Kernel_sig : Part Kernel SigS.
Proof.
  refine {| part := k_sig; set_part := fun x k =>
    mkK (k_p k) (k_m k) (k_pipes k) (k_fat k) (k_files k) (k_seg k) x |}; by_cases.
Defined.

(** A machine with one running thread and nothing open: the state concrete runs
    start from. *)
Definition fat_none : FatS := mkFatS (mkB ∅ ∅ ∅ 0 []) ∅ ∅ 0 ∅ [] ∅.
Definition with_one_thread (th : Thread) (p : Process) (tf : Trapframe) : PState :=
  mkP {[0 := th]} [] [0] ∅ {[0 := 0]} 1 {[0 := p]} [] [0] 1 [] ∅ ∅ {[0 := tf]} 0 (fun _ => 0) 0 true.
Definition kernel_of (P : PState) (mm : MM) (sg : SigS) : Kernel :=
  mkK P mm (mkPipeS ∅ []) fat_none (mkFileS [] ∅ 0) (mkSegS ∅ []) sg.
