(* ===== verification/SocketSpec.v ===== *)
(** * Socket.c: a socket is a bounded stream of bytes

    The bytes sent to a socket wait in a page that the kernel maps for it, used
    as a ring from [head] to [tail].  [sendTo] appends to what waits there and
    [receiveFrom] hands the oldest bytes to the user, both also where the ring
    wraps. *)

From S2P Require Import Prelude CType Mem Config Queue Page PageInv PageSpec UserCopy Sched Bio Fat FatFile Pipe.
From S2P Require Import Segment File Signal Kernel.

(** ** A page as a ring *)

(** The bytes at positions [h .. t) of the ring in the page at [P]. *)
Definition ring_bytes (m : gmap Z Z) (P h t : Z) : list Z :=
  map (fun j => load8 m (P + j mod 4096)) (seqZ h (t - h)).

(** Storing at position [t]: up to the end of the page, then from its start. *)
Definition ring_store (P t : Z) (d : list Z) (m : gmap Z Z) : gmap Z Z :=
  let n := Z.to_nat (4096 - t mod 4096) in
  store_bytes P (drop n d) (store_bytes (P + t mod 4096) (take n d) m).

Lemma ring_store_at P t d m j :
  Z.of_nat (length d) <= 4096 -> t <= j < t + Z.of_nat (length d) ->
  load8 (ring_store P t d m) (P + j mod 4096) = u8 (default 0 (d !! Z.to_nat (j - t))).
Proof.
  intros Hd Hj. unfold ring_store. set (o := t mod 4096). set (n := Z.to_nat (4096 - o)).
  assert (Ho : 0 <= o < 4096) by (apply Z.mod_pos_bound; lia).
  destruct (decide (o + (j - t) < 4096)) as [Hin|Hin].
  - assert (j mod 4096 = o + (j - t)) as -> by (unfold o in *; Z.to_euclidean_division_equations; lia).
    rewrite load8_store_bytes_ne by (rewrite length_drop; lia).
    rewrite load8_store_bytes_in by (rewrite length_take; lia).
    rewrite lookup_take_lt by lia. do 3 f_equal. lia.
  - assert (j mod 4096 = o + (j - t) - 4096) as -> by (unfold o in *; Z.to_euclidean_division_equations; lia).
    rewrite load8_store_bytes_in by (rewrite length_drop; lia).
    rewrite lookup_drop. do 3 f_equal. lia.
Qed.

Lemma ring_store_before P t d m j :
  t + Z.of_nat (length d) <= j + 4096 -> j < t ->
  load8 (ring_store P t d m) (P + j mod 4096) = load8 m (P + j mod 4096).
Proof.
  intros Hd Hj. unfold ring_store. pose proof (Z.mod_pos_bound t 4096 ltac:(lia)) as Ho.
  destruct (decide (length d <= Z.to_nat (4096 - t mod 4096))%nat) as [Hl|Hl].
  - rewrite drop_ge, take_ge by lia. cbn [store_bytes]. apply load8_store_bytes_ne.
    Z.to_euclidean_division_equations; lia.
  - rewrite !load8_store_bytes_ne; [done|rewrite length_take|rewrite length_drop];
      Z.to_euclidean_division_equations; lia.
Qed.

(** What [strncpy] makes of a piece of data: from the first NUL on, NULs. *)
Fixpoint cut_at_nul (d : list Z) : list Z :=
  match d with
  | [] => []
  | c :: d => if c =? 0 then replicate (S (length d)) 0 else c :: cut_at_nul d
  end.

(** The bytes that reach the ring when its page ends after [n] bytes. *)
Definition sent_bytes (n : nat) (d : list Z) : list Z := cut_at_nul (take n d) ++ cut_at_nul (drop n d).

Lemma length_cut d : length (cut_at_nul d) = length d.
Proof. induction d as [|c d IH]; [done|]. simpl. destruct (c =? 0); simpl; by rewrite ?length_replicate, ?IH. Qed.
Lemma cut_no_nul d : Forall (fun c => c <> 0) d -> cut_at_nul d = d.
Proof. induction 1 as [|c d Hc _ IH]; [done|]. simpl. by rewrite (proj2 (Z.eqb_neq _ _)), IH. Qed.
Lemma Forall_cut (P : Z -> Prop) d : P 0 -> Forall P d -> Forall P (cut_at_nul d).
Proof. intros H0. induction 1; simpl; [done|]. destruct (_ =? 0); [by apply (Forall_replicate _ (S _))|by constructor]. Qed.
Lemma strncpy_cut n : forall d, (n <= length d)%nat -> strncpy_bytes n (d ++ [0]) = cut_at_nul (take n d).
Proof.
  induction n as [|n IH]; intros [|c d] Hn; simpl in *; try done; try lia.
  destruct (c =? 0); [by rewrite length_take, Nat.min_l by lia|]. by rewrite IH by lia.
Qed.

Lemma length_sent n d : length (sent_bytes n d) = length d.
Proof. unfold sent_bytes. rewrite length_app, !length_cut, length_take, length_drop. lia. Qed.
Lemma sent_no_nul n d : Forall (fun c => c <> 0) d -> sent_bytes n d = d.
Proof.
  intros H. unfold sent_bytes. rewrite !cut_no_nul by (by apply Forall_take || by apply Forall_drop).
  apply take_drop.
Qed.
Lemma Forall_sent (P : Z -> Prop) n d : P 0 -> Forall P d -> Forall P (sent_bytes n d).
Proof. intros. apply Forall_app. split; apply Forall_cut; try done; [by apply Forall_take|by apply Forall_drop]. Qed.

(** Storing the first [num] bytes of a buffer, in one piece or in two. *)
Lemma ring_store_sent P t data num m : 0 <= num <= Z.of_nat (length data) ->
  let len1 := Z.min num (4096 - t mod 4096) in
  ring_store P t (sent_bytes (Z.to_nat (4096 - t mod 4096)) (take (Z.to_nat num) data)) m =
  (if len1 <? num
   then store_bytes P (cut_at_nul (take (Z.to_nat (num - len1)) (drop (Z.to_nat len1) data)))
          (store_bytes (P + t mod 4096) (cut_at_nul (take (Z.to_nat len1) data)) m)
   else store_bytes (P + t mod 4096) (cut_at_nul (take (Z.to_nat len1) data)) m).
Proof.
  intros Hn len1. unfold ring_store, sent_bytes. pose proof (Z.mod_pos_bound t 4096 ltac:(lia)). set (o := t mod 4096) in *.
  rewrite take_take. replace (Z.to_nat (4096 - o) `min` Z.to_nat num)%nat with (Z.to_nat len1) by lia.
  destruct (Z.ltb_spec len1 num) as [Hlt|Hge].
  - rewrite drop_app_length', take_app_length' by (rewrite length_cut, length_take; lia).
    rewrite take_drop_commute. do 4 f_equal; lia.
  - rewrite (drop_ge (take _ _)) by (rewrite length_take; lia). cbn [cut_at_nul]. rewrite app_nil_r.
    rewrite drop_ge, take_ge by (rewrite length_cut, length_take; lia). done.
Qed.

Lemma ring_store_outside P t d m b :
  Z.of_nat (length d) <= 4096 -> b < P \/ P + 4096 <= b -> load8 (ring_store P t d m) b = load8 m b.
Proof.
  intros Hd Hb. unfold ring_store. pose proof (Z.mod_pos_bound t 4096 ltac:(lia)).
  rewrite !load8_store_bytes_ne; [done|rewrite length_take; lia|rewrite length_drop; lia].
Qed.

(** Storing at the end of the ring appends. *)
Lemma ring_append m P h t d :
  h <= t -> t + Z.of_nat (length d) <= h + 4096 -> Forall (fun b => 0 <= b < 2 ^ 8) d ->
  ring_bytes (ring_store P t d m) P h (t + Z.of_nat (length d)) = ring_bytes m P h t ++ d.
Proof.
  intros Hh Hd Hb. unfold ring_bytes.
  replace (t + Z.of_nat (length d) - h) with ((t - h) + Z.of_nat (length d)) by lia.
  rewrite seqZ_app, map_app by lia. f_equal.
  - apply map_ext_in. intros j Hj%list_elem_of_In%elem_of_seqZ. apply ring_store_before; lia.
  - replace (h + (t - h)) with t by lia. apply list_eq. intros i. rewrite list_lookup_fmap.
    destruct (decide (i < length d)%nat) as [Hi|Hi].
    + rewrite lookup_seqZ_lt by lia. cbn [fmap option_fmap option_map].
      rewrite ring_store_at by lia. replace (Z.to_nat (t + Z.of_nat i - t)) with i by lia.
      destruct (lookup_lt_is_Some_2 d i Hi) as [x Hx]. rewrite Hx. cbn [default from_option id].
      rewrite Forall_lookup in Hb. by rewrite u8_small by (by eapply Hb).
    + rewrite lookup_seqZ_ge, lookup_ge_None_2 by lia. done.
Qed.

Lemma ring_bytes_length m P h t : h <= t -> Z.of_nat (length (ring_bytes m P h t)) = t - h.
Proof. intros. unfold ring_bytes. rewrite length_map, length_seqZ. lia. Qed.

Lemma ring_bytes_split m P h k t : h <= k <= t -> ring_bytes m P h t = ring_bytes m P h k ++ ring_bytes m P k t.
Proof.
  intros. unfold ring_bytes. replace (t - h) with ((k - h) + (t - k)) by lia.
  rewrite seqZ_app, map_app by lia. by replace (h + (k - h)) with k by lia.
Qed.

(** A run of the ring that does not wrap is a run of memory. *)
Lemma ring_bytes_load m P h t : h <= t -> h mod 4096 + (t - h) <= 4096 ->
  ring_bytes m P h t = load_bytes m (P + h mod 4096) (Z.to_nat (t - h)).
Proof.
  intros Hh Hw. apply list_eq. intros i. unfold ring_bytes. rewrite list_lookup_fmap.
  destruct (decide (i < Z.to_nat (t - h))%nat) as [Hi|Hi].
  - rewrite lookup_seqZ_lt, load_bytes_lookup by lia. cbn. do 2 f_equal. Z.to_euclidean_division_equations; lia.
  - rewrite lookup_seqZ_ge, lookup_ge_None_2; [done|rewrite length_load_bytes; lia|lia].
Qed.

Lemma ring_bytes_ext m m' P h t :
  (forall b, P <= b < P + 4096 -> load8 m' b = load8 m b) -> ring_bytes m' P h t = ring_bytes m P h t.
Proof.
  intros H. unfold ring_bytes. apply map_ext. intros j. apply H. pose proof (Z.mod_pos_bound j 4096 ltac:(lia)). lia.
Qed.

(** ** Sockets beside memory and processes *)

Definition the_sock (w : Kernel) (i : Z) : Socket := getsock (k_files w) i.

(** The bytes that wait at socket [i], whose page is [p], oldest first. *)
Definition waiting (w : Kernel) (i p : Z) : list Z :=
  ring_bytes (mem (k_m w)) (page2pa p) (head (the_sock w i)) (tail (the_sock w i)).

(** Socket [i] has its buffer in page [p] of the kernel's directory [kr]; the positions
    are those of a ring of one page. *)
Record sock_ok (w : Kernel) (tbl : gmap Z owner) (maps : gmap (Z * Z) Z) (kr i p : Z) : Prop := {
  so_inv : pt_inv (k_m w) tbl maps;
  so_kroot : tbl !! kr = Some (Root kr);
  so_num : 0 <= i < SOCKET_COUNT;
  so_map : maps !! (kr, vpn (getSocketBufferBase i)) ≫= pte_page = Some p;
  so_data : tbl !! p = None;
  so_head : 0 <= head (the_sock w i);
  so_tail : head (the_sock w i) <= tail (the_sock w i) <= head (the_sock w i) + 4096;
  so_far : tail (the_sock w i) < 2 ^ 63;
}.

Lemma sock_base_range i : 0 <= i < SOCKET_COUNT ->
  getSocketBufferBase i = SOCKET_BUFFER_BASE + 4096 * i /\ 0 <= SOCKET_BUFFER_BASE + 4096 * i /\
  SOCKET_BUFFER_BASE + 4096 * i + 4096 < 2 ^ 39 /\ (SOCKET_BUFFER_BASE + 4096 * i) mod 4096 = 0.
Proof.
  intros Hi. change SOCKET_COUNT with 128 in Hi. unfold getSocketBufferBase. change PAGE_SHIFT with 12.
  rewrite Z.shiftl_mul_pow2 by lia. change (2 ^ 12) with 4096.
  assert (H : 0 <= SOCKET_BUFFER_BASE < 2 ^ 38 /\ SOCKET_BUFFER_BASE mod 4096 = 0).
  { vm_compute. repeat split; discriminate. }
  destruct H as [H1 H2]. revert H1 H2. generalize SOCKET_BUFFER_BASE as b. intros b H1 H2.
  rewrite u64_small by lia. split_and!; [lia|lia|lia|]. Z.to_euclidean_division_equations; lia.
Qed.

Section sockets.
Context (tbl : gmap Z owner) (maps : gmap (Z * Z) Z) (kr i p : Z).
Context `{!Boot Kernel}.

Lemma sock_page_ok w : sock_ok w tbl maps kr i p -> page_ok p.
Proof.
  intros H. pose proof (so_map _ _ _ _ _ _ H) as Hm.
  destruct (maps !! (kr, vpn (getSocketBufferBase i))) as [e|]; [|done]. by apply (pte_page_Some e p).
Qed.

(** The kernel's address of position [o] of the buffer. *)
Lemma sock_kaddr (w : Kernel) o :
  pt_inv (k_m w) tbl maps -> tbl !! kr = Some (Root kr) -> 0 <= i < SOCKET_COUNT ->
  maps !! (kr, vpn (getSocketBufferBase i)) ≫= pte_page = Some p -> 0 <= o < 4096 ->
  kaddr (page2pa kr) (u64 (getSocketBufferBase i + o)) w = Ret (page2pa p + o) w.
Proof.
  intros I Hk Hi Hm Ho. destruct (sock_base_range i Hi) as (E & H0 & H1 & Hal). rewrite E in *.
  rewrite u64_small by lia. set (b := SOCKET_BUFFER_BASE + 4096 * i) in *.
  assert (Hv : vpn (b + o) = vpn b) by (unfold vpn; Z.to_euclidean_division_equations; lia).
  destruct (maps !! (kr, vpn b)) as [e|] eqn:He; [|done]. destruct (pte_page_Some _ _ Hm) as (Hok & _ & Hpa).
  rewrite (@kaddr_mapped Kernel Kernel_m w tbl maps kr (b + o) e I Hk); [|lia|by rewrite Hv|].
  - rewrite Hpa. do 2 f_equal. Z.to_euclidean_division_equations; lia.
  - rewrite Hpa, page2pa_ok by done. unfold page_ok in Hok. lia.
Qed.

(** Bytes stored in the ring page. *)
Lemma ring_store_inv mm t d :
  pt_inv mm tbl maps -> page_ok p -> tbl !! p = None -> Z.of_nat (length d) <= 4096 ->
  pt_inv (set_mem (ring_store (page2pa p) t d) mm) tbl maps.
Proof.
  intros I Hp Hnt Hd. pose proof (Z.mod_pos_bound t 4096 ltac:(lia)).
  assert (I1 : pt_inv (set_mem (store_bytes (page2pa p + t mod 4096) (take (Z.to_nat (4096 - t mod 4096)) d)) mm) tbl maps)
    by (apply store_bytes_inv; [done|done|done|lia|rewrite length_take; lia]).
  rewrite <- (Z.add_0_r (page2pa p)) at 1. unfold ring_store.
  pose proof (store_bytes_inv _ tbl maps p 0 (drop (Z.to_nat (4096 - t mod 4096)) d) I1 Hp Hnt ltac:(lia)) as I2.
  rewrite Z.add_0_r in *. apply I2. rewrite length_drop. lia.
Qed.

(** The state after [num] bytes went into the ring or came out of it. *)
Definition moved (h t : Z) (mm : MM) (w : Kernel) : Kernel :=
  mkK (k_p w) mm (k_pipes w) (k_fat w) (setsock i (s_pos h t) (k_files w)) (k_seg w) (k_sig w).

Lemma moved_sock h t mm w j : 0 <= h < 2 ^ 64 -> 0 <= t < 2 ^ 64 ->
  the_sock (moved h t mm w) j = if decide (j = i) then s_pos h t (the_sock w i) else the_sock w j.
Proof.
  intros. unfold the_sock, moved, getsock, setsock. cbn [k_files sockets]. rewrite lookup_insert.
  repeat case_decide; try done; congruence.
Qed.

Lemma sendTo_run so w data size :
  sock_ok w tbl maps kr i p -> remote_find_peer_socket so (k_files w) = Ret (Some i) (k_files w) ->
  let k := the_sock w i in
  let num := Z.min (4096 - (tail k - head k)) (Z.of_nat (length data)) in
  0 < num -> Z.of_nat (length data) < size -> Z.of_nat (length data) < 2 ^ 32 ->
  sendTo (page2pa kr) so data size (Z.of_nat (length data)) w =
  Ret num (moved (head k) (tail k + num)
    (set_mem (ring_store (page2pa p) (tail k)
       (sent_bytes (Z.to_nat (4096 - tail k mod 4096)) (take (Z.to_nat num) data))) (k_m w)) w).
Proof.
  intros H Hpeer k num Hnum Hsize Hlen.
  pose proof H as [I Hk Hi Hm Hnt Hh Ht Hf]. pose proof (sock_page_ok w H) as Hok. fold k in Hh, Ht, Hf.
  assert (Hu : u32 (Z.min (u64 (PAGE_SIZE - (tail k - head k))) (Z.of_nat (length data))) = num).
  { change PAGE_SIZE with 4096. rewrite u64_small by lia. unfold num. rewrite u32_small; lia. }
  set (o := tail k mod 4096). assert (Ho : 0 <= o < 4096) by (apply Z.mod_pos_bound; lia).
  assert (Hpos : Z.land (tail k) (PAGE_SIZE - 1) = o).
  { change (PAGE_SIZE - 1) with (Z.ones 12). by rewrite Z.land_ones by lia. }
  unfold sendTo. rewrite (proj2 (Z.ltb_lt _ _) Hsize). cbn [assert]. rewrite bind_mret.
  change (k_files w) with (part (T := FileS) w) in Hpeer.
  rewrite (bind_lift_Ret _ _ _ _ _ Hpeer), set_part_part. unfold sock. rewrite bind_lift_gets.
  change (getsock (part w) i) with k. cbv zeta. rewrite Hu, Hpos.
  rewrite (proj2 (Z.eqb_neq num 0)), bind_mret by lia.
  rewrite (bind_Ret _ _ _ _ _ (sock_kaddr w o I Hk Hi Hm Ho)), bind_lift_modify.
  set (len1 := Z.min num (PAGE_SIZE - o)). assert (Hl1 : len1 = Z.min num (4096 - o)) by done.
  rewrite strncpy_cut by lia.
  set (m1 := set_mem (store_bytes (page2pa p + o) (cut_at_nul (take (Z.to_nat len1) data))) (k_m w)).
  change (set_mem _ (part w)) with m1.
  pose proof (ring_store_sent (page2pa p) (tail k) data num (mem (k_m w)) ltac:(lia)) as Hring.
  fold o. set (sent := sent_bytes (Z.to_nat (4096 - o)) (take (Z.to_nat num) data)).
  cbv zeta in Hring. fold o in Hring. fold sent in Hring. change (Z.min num (4096 - o)) with len1 in Hring.
  assert (Hend : forall mm, mm = set_mem (ring_store (page2pa p) (tail k) sent) (k_m w) ->
    (upd_sock i (fun k => s_pos (head k) (tail k + num) k) ;; mret num) (set_part mm w) =
    Ret num (moved (head k) (tail k + num) (set_mem (ring_store (page2pa p) (tail k) sent) (k_m w)) w)).
  { intros mm ->. unfold upd_sock. rewrite bind_lift_modify. done. }
  destruct (Z.ltb_spec len1 num) as [Hlt|Hge].
  - assert (I1 : pt_inv m1 tbl maps) by (apply store_bytes_inv; [done|done|done|lia|rewrite length_cut, length_take; lia]).
    pose proof (sock_kaddr (set_part m1 w) 0 I1 Hk Hi Hm ltac:(lia)) as Hka.
    rewrite !Z.add_0_r in Hka. rewrite (u64_small (getSocketBufferBase i)) in Hka by (apply sock_base_range in Hi; lia).
    match goal with |- mbind _ ?x ?st = _ => assert (Hin : x st = Ret tt (set_part
      (set_mem (store_bytes (page2pa p) (cut_at_nul (take (Z.to_nat (num - len1)) (drop (Z.to_nat len1) data)))) m1) w)) end.
    { rewrite (bind_Ret _ _ _ _ _ Hka), drop_app_le, strncpy_cut; [done|rewrite length_drop; lia|lia]. }
    rewrite (bind_Ret _ _ _ _ _ Hin). apply Hend. unfold set_mem. by rewrite Hring.
  - rewrite bind_mret. apply Hend. unfold set_mem. by rewrite Hring.
Qed.

(** ** Receiving *)

Context `{!FsEnv Kernel} (pageout : Z -> Z -> M Kernel Z) (r : Z) (f : Z -> Z).

(** The process running in [w] has the user memory of directory [r]. *)
Definition copies_to (w : Kernel) : Prop :=
  forall a bs w', k_p w' = k_p w -> user_copyout a bs w' = copyout pageout (page2pa r) a bs w'.

(** One piece of the ring copied to the user. *)
Lemma copy_piece (w : Kernel) (mm : MM) va h t :
  copies_to w -> pt_inv mm tbl maps -> tbl !! r = Some (Root r) -> tbl !! kr = Some (Root kr) ->
  0 <= i < SOCKET_COUNT -> maps !! (kr, vpn (getSocketBufferBase i)) ≫= pte_page = Some p -> page_ok p ->
  0 <= h < t -> h mod 4096 + (t - h) <= 4096 ->
  user_range tbl maps r va (t - h) f -> (forall a, va <= a < va + (t - h) -> f (vpn a) <> p) ->
  exists mm', let bs := ring_bytes (mem mm) (page2pa p) h t in
    kbytes (page2pa kr) (u64 (getSocketBufferBase i + h mod 4096)) (t - h) (set_part mm w) = Ret bs (set_part mm w) /\
    user_copyout va bs (set_part mm w) = Ret tt (set_part mm' w) /\
    pt_inv mm' tbl maps /\ user_bytes mm' f va (Z.to_nat (t - h)) = bs /\
    (freePages mm' = freePages mm /\ forall q, ref mm' q = ref mm q) /\
    (forall b, (forall a, va <= a < va + (t - h) -> b <> user_addr f a) -> load8 (mem mm') b = load8 (mem mm) b) /\
    (forall b, in_page p b -> load8 (mem mm') b = load8 (mem mm) b).
Proof.
  intros Hc I Hr Hk Hi Hm Hok Hh Hw Hu Hp. cbv zeta. unfold kbytes.
  pose proof (Z.mod_pos_bound h 4096 ltac:(lia)) as Ho.
  pose proof (sock_kaddr (set_part mm w) (h mod 4096) I Hk Hi Hm Ho) as Hka.
  set (bs := ring_bytes (mem mm) (page2pa p) h t).
  assert (Hbs : load_bytes (mem mm) (page2pa p + h mod 4096) (Z.to_nat (t - h)) = bs)
    by (unfold bs; rewrite ring_bytes_load by lia; done).
  assert (Hl : length bs = Z.to_nat (t - h)) by (rewrite <- Hbs; apply length_load_bytes).
  rewrite (bind_Ret _ _ _ _ _ Hka). rewrite Hc by done.
  destruct (copyout_loop_spec pageout tbl maps r f Hr (Datatypes.S (length bs)) va bs (set_part mm w))
    as (mm' & R1 & R2 & R3 & R4 & R5).
  - by rewrite part_set.
  - rewrite Hl, Z2Nat.id by lia. done.
  - rewrite <- Hbs. apply load_bytes_range.
  - lia.
  - rewrite set_part_set in R1. rewrite part_set in R4, R5. rewrite Hl, Z2Nat.id in R5 by lia. rewrite Hl in R3.
    exists mm'. cbv zeta. split_and!; [|exact R1|done|done|apply R4|apply R4|done|].
    { unfold lift, gets. cbn [olift]. by rewrite set_part_part, <- Hbs, part_set. }
    intros b Hb. apply R5. intros a Ha ->. destruct Hu as (_ & _ & Hpg & _).
    destruct (Hpg a Ha) as (e & _ & Hpe & _). destruct (pte_page_Some _ _ Hpe) as (Hfok & _).
    apply (in_page_disjoint (f (vpn a)) p (user_addr f a) Hfok Hok (Hp a Ha)); [|done].
    unfold in_page, user_addr. pose proof (Z.mod_pos_bound a 4096 ltac:(lia)). lia.
Qed.

Lemma receiveFrom_run w va len :
  sock_ok w tbl maps kr i p -> copies_to w -> tbl !! r = Some (Root r) -> 0 <= len < 2 ^ 32 ->
  let k := the_sock w i in
  let num := Z.min len (tail k - head k) in
  0 < num -> user_range tbl maps r va num f -> (forall a, va <= a < va + num -> f (vpn a) <> p) ->
  exists mm', receiveFrom (page2pa kr) i va len w = Ret num (moved (head k + num) (tail k) mm' w) /\
    pt_inv mm' tbl maps /\
    user_bytes mm' f va (Z.to_nat num) = ring_bytes (mem (k_m w)) (page2pa p) (head k) (head k + num) /\
    (freePages mm' = freePages (k_m w) /\ forall q, ref mm' q = ref (k_m w) q) /\
    (forall b, (forall a, va <= a < va + num -> b <> user_addr f a) -> load8 (mem mm') b = load8 (mem (k_m w)) b) /\
    (forall b, in_page p b -> load8 (mem mm') b = load8 (mem (k_m w)) b).
Proof.
  intros H Hc Hr Hlen k num Hnum Hu Hp.
  pose proof H as [I Hk Hi Hm Hnt Hh Ht Hf]. pose proof (sock_page_ok w H) as Hok. fold k in Hh, Ht, Hf.
  assert (Hun : u32 (Z.min len (u64 (tail k - head k))) = num).
  { rewrite u64_small by lia. unfold num. rewrite u32_small; lia. }
  set (o := head k mod 4096). assert (Ho : 0 <= o < 4096) by (apply Z.mod_pos_bound; lia).
  assert (Hpos : Z.land (head k) (PAGE_SIZE - 1) = o).
  { change (PAGE_SIZE - 1) with (Z.ones 12). by rewrite Z.land_ones by lia. }
  unfold receiveFrom, sock. rewrite bind_lift_gets. change (getsock (part w) i) with k. cbv zeta.
  rewrite Hun, Hpos, (proj2 (Z.eqb_neq num 0)), bind_mret by lia.
  set (len1 := Z.min num (PAGE_SIZE - o)). assert (Hl1 : len1 = Z.min num (4096 - o)) by done.
  destruct (copy_piece w (part w) va (head k) (head k + len1)) as (mm1 & K1 & R1 & R2 & R3 & R4 & R5 & R6); try done;
    rewrite ?Z.add_simpl_l; [lia|fold o; lia|eapply user_range_sub; [exact Hu|lia|lia]|intros a Ha; apply Hp; lia|].
  cbv zeta in K1, R1, R3. rewrite Z.add_simpl_l, set_part_part in *. fold o in K1.
  rewrite (bind_Ret _ _ _ _ _ K1), (bind_Ret _ _ _ _ _ R1).
  change (part w) with (k_m w) in R3, R4, R5, R6. clear K1 R1.
  assert (Hend : forall mm, (upd_sock i (fun k => s_pos (head k + num) (tail k) k) ;; mret num) (set_part mm w) =
    Ret num (moved (head k + num) (tail k) mm w)).
  { intros mm. unfold upd_sock. rewrite bind_lift_modify. done. }
  destruct (Z.ltb_spec len1 num) as [Hlt|Hge].
  2: { assert (len1 = num) as E by lia. rewrite E in *. rewrite bind_mret, Hend.
       exists mm1. split_and!; try done; apply R4. }
  destruct (copy_piece w mm1 (va + len1) (head k + len1) (head k + num))
    as (mm2 & K2 & S1 & S2 & S3 & S4 & S5 & S6); try done;
    replace (head k + num - (head k + len1)) with (num - len1) in * by lia.
  { lia. }
  { unfold o in *. Z.to_euclidean_division_equations; lia. }
  { eapply user_range_sub; [exact Hu|lia|lia]. }
  { intros a Ha. apply Hp. lia. }
  cbv zeta in K2, S1, S3.
  assert (Hwrap : (head k + len1) mod 4096 = 0) by (unfold o in *; Z.to_euclidean_division_equations; lia).
  destruct (sock_base_range i Hi) as (Eb & Hb0 & Hb1 & _).
  rewrite Hwrap, Z.add_0_r, u64_small in K2 by lia.
  match goal with |- context [mbind _ ?x (set_part mm1 w)] =>
    assert (Hin : x (set_part mm1 w) = Ret tt (set_part mm2 w)) end.
  { rewrite (bind_Ret _ _ _ _ _ K2). pose proof Hu as (? & ? & _). change MAXVA with (2 ^ 38) in *.
    rewrite u64_small by lia. exact S1. }
  rewrite (bind_Ret _ _ _ _ _ Hin), Hend. exists mm2. split_and!; try done.
  - replace (Z.to_nat num) with (Z.to_nat len1 + Z.to_nat (num - len1))%nat by lia.
    rewrite user_bytes_app, Z2Nat.id, S3, (ring_bytes_split _ _ (head k) (head k + len1)) by lia. apply (f_equal2 app).
    + rewrite <- R3. unfold user_bytes. apply map_ext_in. intros a Ha%list_elem_of_In%elem_of_seqZ.
      apply S5. intros a' Ha' E. apply (user_addr_inj tbl maps r f va num) in E; [lia|done|lia|lia].
    + apply ring_bytes_ext. intros b Hb. apply R6. exact Hb.
  - destruct R4 as [<- _]. apply S4.
  - intros q. destruct S4 as [_ S4], R4 as [_ R4]. by rewrite S4, R4.
  - intros b Hb. rewrite S5 by (intros a Ha; apply Hb; lia). apply R5. intros a Ha. apply Hb. lia.
  - intros b Hb. rewrite S6 by done. by apply R6.
Qed.
End sockets.

Lemma moved_ok tbl maps kr i p h t mm w :
  sock_ok w tbl maps kr i p -> pt_inv mm tbl maps -> 0 <= h -> h <= t <= h + 4096 -> t < 2 ^ 63 ->
  sock_ok (moved i h t mm w) tbl maps kr i p /\
  waiting (moved i h t mm w) i p = ring_bytes (mem mm) (page2pa p) h t.
Proof.
  intros [I Hk Hi Hm Hnt _ _ _] I' Hh Ht Hf.
  pose proof (moved_sock i h t mm w i ltac:(lia) ltac:(lia)) as Hs. rewrite decide_True in Hs by done.
  unfold waiting. rewrite Hs. unfold s_pos. cbn [head tail]. rewrite !u64_small by lia. split; [|done].
  constructor; try done; rewrite Hs; unfold s_pos; cbn [head tail]; rewrite !u64_small by lia; done.
Qed.

(** C21. A socket is a bounded stream.  With a peer whose buffer has room, [sendTo] takes as
    many bytes as fit, at least one, and appends them to those that wait at the peer; with
    bytes waiting, [receiveFrom] hands as many as asked for and there are to the user's
    memory, oldest first, and removes them.  Both return the number of bytes, also when the
    bytes wrap around the end of the buffer's page; a send changes no byte outside that
    page, a receive none outside the user's range, and no other socket changes.  Since
    [sendTo] copies with [strncpy], each of the two pieces the end of the page divides the
    data into arrives with NULs from its first NUL on; data without a NUL arrives unchanged. *)
Theorem socket_fifo `{!Boot Kernel} `{!FsEnv Kernel} tbl maps kr i p w :
  sock_ok w tbl maps kr i p ->
  (forall so data size,
     remote_find_peer_socket so (k_files w) = Ret (Some i) (k_files w) ->
     Forall (fun c => 0 <= c < 2 ^ 8) data -> 0 < Z.of_nat (length data) < size -> size < 2 ^ 32 ->
     (length (waiting w i p) < 4096)%nat -> tail (the_sock w i) + 4096 < 2 ^ 63 ->
     let num := Nat.min (4096 - length (waiting w i p)) (length data) in
     exists w', sendTo (page2pa kr) so data size (Z.of_nat (length data)) w = Ret (Z.of_nat num) w' /\
       (0 < num)%nat /\ sock_ok w' tbl maps kr i p /\
       waiting w' i p = waiting w i p ++
         sent_bytes (Z.to_nat (4096 - tail (the_sock w i) mod 4096)) (take num data) /\
       (Forall (fun c => c <> 0) data -> waiting w' i p = waiting w i p ++ take num data) /\
       (forall b, ~ in_page p b -> load8 (mem (k_m w')) b = load8 (mem (k_m w)) b) /\
       (forall j, j <> i -> the_sock w' j = the_sock w j)) /\
  (forall pageout r f va len,
     copies_to pageout r w -> tbl !! r = Some (Root r) -> 0 < len < 2 ^ 32 -> waiting w i p <> [] ->
     let num := Nat.min (Z.to_nat len) (length (waiting w i p)) in
     user_range tbl maps r va (Z.of_nat num) f -> (forall a, va <= a < va + Z.of_nat num -> f (vpn a) <> p) ->
     exists w', receiveFrom (page2pa kr) i va len w = Ret (Z.of_nat num) w' /\
       (0 < num)%nat /\ sock_ok w' tbl maps kr i p /\ waiting w' i p = drop num (waiting w i p) /\
       user_bytes (k_m w') f va num = take num (waiting w i p) /\
       (forall b, (forall a, va <= a < va + Z.of_nat num -> b <> user_addr f a) ->
          load8 (mem (k_m w')) b = load8 (mem (k_m w)) b) /\
       (forall j, j <> i -> the_sock w' j = the_sock w j)).
Proof.
  intros H. pose proof (sock_page_ok tbl maps kr i p w H) as Hok. pose proof H as [I Hk Hi Hm Hnt Hh Ht Hf].
  set (k := the_sock w i) in *.
  assert (Hwl : Z.of_nat (length (waiting w i p)) = tail k - head k) by (apply ring_bytes_length; fold k; lia).
  split.
  - intros so data size Hpeer Hd Hl Hs Hroom Hfar num.
    assert (En : Z.min (4096 - (tail k - head k)) (Z.of_nat (length data)) = Z.of_nat num) by lia.
    set (sent := sent_bytes (Z.to_nat (4096 - tail k mod 4096)) (take num data)).
    assert (Hlen : length sent = num) by (unfold sent; rewrite length_sent, length_take; lia).
    pose proof (sendTo_run tbl maps kr i p so w data size H Hpeer) as Hrun. cbv zeta in Hrun. fold k in Hrun.
    rewrite En, Nat2Z.id in Hrun. fold sent in Hrun. set (mm' := set_mem _ (k_m w)) in Hrun.
    assert (I' : pt_inv mm' tbl maps) by (apply ring_store_inv; [done|done|done|lia]).
    destruct (moved_ok tbl maps kr i p (head k) (tail k + Z.of_nat num) mm' w H I') as [Hok' Hw']; [lia|lia|lia|].
    assert (Hall : waiting (moved i (head k) (tail k + Z.of_nat num) mm' w) i p = waiting w i p ++ sent).
    { rewrite Hw'. unfold mm'. rewrite mem_set_mem. rewrite <- Hlen at 1. apply ring_append; [lia|lia|].
      apply Forall_sent; [lia|]. by apply Forall_take. }
    eexists. split_and!; [apply Hrun; lia|lia|exact Hok'|exact Hall| | |].
    + intros Hnul. rewrite Hall. unfold sent. by rewrite sent_no_nul by by apply Forall_take.
    + intros b Hb. unfold mm', moved. cbn [k_m]. rewrite mem_set_mem. apply ring_store_outside; [lia|].
      unfold in_page in Hb. lia.
    + intros j Hj. rewrite moved_sock, decide_False by (done || lia). done.
  - intros pageout r f va len Hc Hr Hlen Hne num Hu Hp.
    assert (0 < length (waiting w i p))%nat by (destruct (waiting w i p); [done|simpl; lia]).
    assert (En : Z.min len (tail k - head k) = Z.of_nat num) by lia.
    destruct (receiveFrom_run tbl maps kr i p pageout r f w va len H Hc Hr) as (mm' & Hrun & I' & Hub & _ & Hfr & Hpg);
      fold k; rewrite ?En; try done; try lia.
    fold k in Hrun, Hub, Hfr. rewrite En in *. rewrite Nat2Z.id in Hub.
    destruct (moved_ok tbl maps kr i p (head k + Z.of_nat num) (tail k) mm' w H I') as [Hok' Hw']; [lia|lia|lia|].
    assert (Hsplit : waiting w i p = ring_bytes (mem (k_m w)) (page2pa p) (head k) (head k + Z.of_nat num) ++
      ring_bytes (mem (k_m w)) (page2pa p) (head k + Z.of_nat num) (tail k)).
    { unfold waiting. fold k. apply ring_bytes_split. lia. }
    assert (Hl : length (ring_bytes (mem (k_m w)) (page2pa p) (head k) (head k + Z.of_nat num)) = num).
    { apply Nat2Z.inj. rewrite ring_bytes_length by lia. lia. }
    eexists. split_and!; [exact Hrun|lia|exact Hok'| | |exact Hfr|].
    + rewrite Hw', Hsplit, drop_app_length' by done. apply ring_bytes_ext. intros b Hb. by apply Hpg.
    + rewrite Hsplit, take_app_length' by done. exact Hub.
    + intros j Hj. rewrite moved_sock, decide_False by (done || lia). done.
Qed.

(** ** A concrete exchange *)

(** Page 300 as the buffer of socket 0 and page 301 at 0x1000 of the same directory. *)
Definition rw_page : Z := Z.lor PTE_USER (Z.lor PTE_READ PTE_WRITE).
Lemma rw_page_range : 0 <= rw_page < 1024.
Proof. vm_compute. split; [discriminate|reflexivity]. Qed.
Definition maps_sock : gmap (Z * Z) Z :=
  <[(200, 1) := new_pte (page2pa 301) rw_page]>
    (<[(200, vpn (getSocketBufferBase 0)) := new_pte (page2pa 300) rw_page]> ∅).

(** Mapping a page that nothing refers to yet. *)
Lemma map_fresh mm tbl maps va q :
  pt_inv mm tbl maps -> tbl !! 200 = Some (Root 200) -> 0 <= va < 2 ^ 39 -> maps !! (200, vpn va) = None ->
  (2 <= length (freePages mm))%nat -> page_ok q -> q ∉ freePages mm -> ref mm q = 0 -> tbl !! q = None ->
  exists mm' tbl', pt_inv mm' tbl' (<[(200, vpn va) := new_pte (page2pa q) rw_page]> maps) /\
    tbl' !! 200 = Some (Root 200) /\ (length (freePages mm) <= 2 + length (freePages mm'))%nat /\
    forall x, x ∉ freePages mm -> tbl !! x = None ->
      tbl' !! x = None /\ (x ∉ freePages mm') /\ (x <> q -> ref mm' x = ref mm x).
Proof.
  intros I Hr Hva Hn Hfr Hq Hqf Hq0 Hqt.
  destruct (pageInsert_spec mm tbl maps 200 va (page2pa q) rw_page I Hr Hva) as (mm' & tbl' & _ & I' & F).
  - rewrite page2pa_ok by done. unfold page_ok in Hq. lia.
  - apply rw_page_range.
  - done.
  - rewrite page_align, pte_page_new by (done || apply rw_page_range).
    intros x [= <-]. rewrite Hq0. split_and!; [done|lia|]. unfold old_page. by rewrite Hn.
  - rewrite page_align in I', F by done. rewrite pte_page_new in F by (done || apply rw_page_range).
    assert (Ho : old_page maps 200 va = None) by (unfold old_page; by rewrite Hn). rewrite Ho in F.
    destruct F as [F1 F2 _ F4 F5 _ F7]. exists mm', tbl'. split_and!; [exact I'|by eapply lookup_weaken|exact F7|].
    intros x Hx Hxt. split_and!.
    + destruct (tbl' !! x) eqn:E; [|done]. destruct Hx. apply F2; [done|by rewrite E].
    + intros Hin. destruct (F5 x Hin) as [?|[? _]]; done.
    + intros Hne. rewrite F4, (decide_False (P := None = Some x)), decide_False by (done || congruence). lia.
Qed.

Lemma sock_memory : exists mm tbl, pt_inv mm tbl maps_sock /\ tbl !! 200 = Some (Root 200) /\
  tbl !! 300 = None /\ tbl !! 301 = None.
Proof.
  destruct mm1_inv as [I0 Hf0].
  assert (Hout : forall q, q = 300 \/ q = 301 -> q ∉ freePages mm1).
  { intros q Hq. rewrite Hf0. destruct Hq as [-> | ->]; refine (bool_decide_unpack _ _); vm_compute; exact I. }
  assert (Hno : forall q, q = 300 \/ q = 301 -> tbl1 !! q = None) by (by intros q [-> | ->]).
  destruct (map_fresh mm1 tbl1 ∅ (getSocketBufferBase 0) 300 I0 mm1_root) as (m1 & t1 & I1 & R1 & L1 & X1).
  - vm_compute. split; [discriminate|reflexivity].
  - apply lookup_empty.
  - rewrite Hf0. simpl. lia.
  - unfold page_ok. lia.
  - by apply Hout; left.
  - by rewrite mm1_ref.
  - by apply Hno; left.
  - destruct (X1 301) as (T1 & N1 & E1); [by apply Hout; right|by apply Hno; right|].
    destruct (X1 300) as (T0 & N0 & _); [by apply Hout; left|by apply Hno; left|].
    rewrite Hf0 in L1. simpl in L1.
    destruct (map_fresh m1 t1 _ 0x1000 301 I1 R1) as (m2 & t2 & I2 & R2 & _ & X2);
      [lia|vm_compute; reflexivity|lia|unfold page_ok; lia|exact N1| |exact T1|].
    + rewrite E1 by done. by rewrite mm1_ref.
    + destruct (X2 300 N0 T0) as (T2 & _). destruct (X2 301 N1 T1) as (T3 & _).
      exists m2, t2. split_and!; [exact I2|exact R2|exact T2|exact T3].
Qed.

(** A listener's connection with port 80 and its client with port 10000; the ring of
    the former is about to wrap. *)
Definition sock_ex (mm : MM) : Kernel :=
  let z := replicate 24 0 in
  let server := mkSocket true None (mkAddr 2 80 0 z) (mkAddr 2 10000 0 z) 4094 4094 ∅ 0 0 false in
  let client := mkSocket true None (mkAddr 2 10000 0 z) (mkAddr 2 80 0 z) 0 0 ∅ 0 0 false in
  mkK (with_one_thread thread0 process0 ∅) mm (mkPipeS ∅ []) fat_none
    (mkFileS [] (<[0 := server]> (<[1 := client]> ∅)) 10001) (mkSegS ∅ []) (mkSigS ∅ []).

Definition no_boot : Boot Kernel := {| root_setup := panic; sched_fuel := 0 |}.
Definition user_200 : FsEnv Kernel := {|
  user_copyout := copyout (fun _ _ => panic) (page2pa 200);
  user_copyin := copyin (fun _ _ => panic) (page2pa 200);
  user_memset := memsetOut (fun _ _ => panic) (page2pa 200);
  my_cwd := mret 0;
  my_file_ep := fun _ => mret None |}.

Lemma sock_ex_ok mm tbl : pt_inv mm tbl maps_sock -> tbl !! 200 = Some (Root 200) -> tbl !! 300 = None ->
  sock_ok (sock_ex mm) tbl maps_sock 200 0 300 /\ waiting (sock_ex mm) 0 300 = [].
Proof.
  intros J Hr Hp. split; [|done].
  constructor; [exact J|exact Hr|vm_compute; split; [discriminate|reflexivity]|vm_compute; reflexivity|exact Hp|..];
    change (head (the_sock (sock_ex mm) 0)) with 4094; change (tail (the_sock (sock_ex mm) 0)) with 4094; lia.
Qed.

Lemma socket_fifo_witness : exists w w1 w2,
  @sendTo Kernel _ _ _ no_boot (page2pa 200) 1 [104; 105; 33] 4096 3 w = Ret 3 w1 /\
  @receiveFrom Kernel _ _ _ no_boot user_200 (page2pa 200) 0 0x1ff0 100 w1 = Ret 3 w2 /\
  user_bytes (k_m w2) (fun _ => 301) 0x1ff0 3 = [104; 105; 33].
Proof.
  destruct sock_memory as (mm & tbl & J & Hr & Hp & Hu). destruct (sock_ex_ok mm tbl J Hr Hp) as [Hok Hwait].
  destruct (proj1 (@socket_fifo no_boot user_200 tbl maps_sock 200 0 300 (sock_ex mm) Hok) 1 [104; 105; 33] 4096)
    as (w1 & H1 & _ & Hok1 & Hw1 & _ & _).
  - reflexivity.
  - repeat constructor; lia.
  - simpl. lia.
  - lia.
  - rewrite Hwait. simpl. lia.
  - change (tail (the_sock (sock_ex mm) 0)) with 4094. lia.
  - rewrite Hwait in H1, Hw1. change (waiting w1 0 300 = [104; 105; 33]) in Hw1.
    destruct (proj2 (@socket_fifo no_boot user_200 tbl maps_sock 200 0 300 w1 Hok1)
      (fun _ _ => panic) 200 (fun _ => 301) 0x1ff0 100) as (w2 & H2 & _ & _ & _ & Hb & _).
    + intros a bs w' _. reflexivity.
    + exact Hr.
    + lia.
    + rewrite Hw1. discriminate.
    + rewrite Hw1. change (Z.of_nat _) with 3.
      assert (Hv : forall a, 0x1ff0 <= a < 0x1ff0 + 3 -> vpn a = 1)
        by (intros a Ha; unfold vpn; Z.to_euclidean_division_equations; lia).
      split_and!; [lia|vm_compute; discriminate| |].
      * intros a Ha. rewrite Hv by exact Ha. exists (new_pte (page2pa 301) rw_page).
        split_and!; [reflexivity|vm_compute; reflexivity|exact Hu|vm_compute; discriminate|vm_compute; reflexivity].
      * intros a b Ha Hb _. rewrite !Hv; [reflexivity|exact Hb|exact Ha].
    + intros a _. discriminate.
    + rewrite Hw1 in H2, Hb. exists (sock_ex mm), w1, w2. split; [exact H1|]. split; [exact H2|exact Hb].
Defined.
