(* ===== verification/FileSystem.v ===== *)
(** * FileSystem.c: mounting a FAT volume

    The table of file systems, the decoding of directory entries on disk and the
    initialisation of a file system: the superblock, the bitmap of used clusters and the
    in-memory directory tree.  [de_] is the kernel address of the local variable a raw
    entry is read to.  A directory entry has 32 bytes; a name under construction is the
    array [filename] of 256 characters. *)

From S2P Require Import Prelude CType Mem Strings Config Queue Page Bio Fat FatFile.

Definition ATTR_SYSTEM : Z := 0x04.
Definition ATTR_LONG_NAME : Z := 0x0F.
Definition EMPTY_ENTRY : Z := 0xe5.
Definition END_OF_ENTRY : Z := 0x00.
Definition CHAR_LONG_NAME : Z := 13.
Definition CHAR_SHORT_NAME : Z := 11.
Definition FS_NUM : nat := 32.

Definition get16 (d : list Z) (off : Z) : Z := get8 d off + 256 * get8 d (off + 1).

(** The string an array of characters holds. *)
Fixpoint c_string (bs : list Z) : list Z :=
  match bs with [] => [] | c :: bs => if c =? 0 then [] else c :: c_string bs end.

(** ** The table of file systems *)

Fixpoint free_fs (s : FatS) (n : nat) (p : Z) : Z :=
  match n with
  | O => 0
  | S n => if fs_valid (getfs s p) then free_fs s n (p + 1) else p
  end.
(** A pointer into [fileSystem], 0 when all are in use; [read] is assigned by the caller. *)
Definition fsAlloc : M FatS Z :=
  p ← gets (fun s => free_fs s FS_NUM 1);
  when (negb (p =? 0))
    (modify (set_fss (fun m => <[p := mkFs true [] sb0 ImgNone 0 0 BlockRead]> m)) ;;
     modify (setde (root_of p) (fun _ => dirent0))) ;;
  mret p.

Definition getFileSystemClusterBitmap (fs : Z) : Z :=
  u64 (FILE_SYSTEM_CLUSTER_BITMAP_BASE + Z.shiftl (fs - 1) 10 * PAGE_SIZE).

(** ** Entries on disk *)

(** What [snstr(buffer, ws, n)] leaves at [buffer]; after a terminating character one byte
    fewer than [n] is written (Strings.v). *)
Fixpoint snstr_bytes (n : nat) (ws buffer : list Z) : list Z :=
  match n, ws, buffer with
  | S n, w :: ws, c :: buffer =>
      if c_true w then Z.land w 0xff :: snstr_bytes n ws buffer
      else replicate n 0 ++ drop n (c :: buffer)
  | _, _, _ => buffer
  end.
(** [n] wide characters at [off] of the entry. *)
Definition wide (d : list Z) (off : Z) (n : Z) : list Z := map (fun i => get16 d (off + 2 * i)) (seqZ 0 n).

(** [read_entry_name(filename + pos, d)]; what is written must fit the array. *)
Definition long_name (d : list Z) (buffer : list Z) : list Z :=
  let buffer := snstr_bytes 5 (wide d 1 5) buffer in
  let buffer := take 5 buffer ++ snstr_bytes 6 (wide d 14 6) (drop 5 buffer) in
  take 11 buffer ++ snstr_bytes 2 (wide d 28 2) (drop 11 buffer).
Fixpoint before_space (l : list Z) : list Z :=
  match l with [] => [] | c :: l => if c =? 0x20 then [] else c :: before_space l end.
Definition short_name (d : list Z) : list Z :=
  let base := before_space (take 8 d) in
  let ext := before_space (take 3 (drop 8 d)) in
  base ++ (if get8 d 8 =? 0x20 then [] else [0x2e]) ++ ext.
Definition read_entry_name (pos : Z) (d filename_ : list Z) : list Z :=
  let buffer := drop (Z.to_nat pos) filename_ in
  take (Z.to_nat pos) filename_ ++
  (if get8 d 11 =? ATTR_LONG_NAME then long_name d buffer
   else let s := short_name d in s ++ replicate (13 - length s) 0 ++ drop 13 buffer).

Definition read_entry_info (d : list Z) (e : Dirent) : Dirent :=
  let first := Z.lor (Z.shiftl (get16 d 20) 16) (get16 d 26) in
  with_meta (filename e) (get8 d 11) (get8 d 12) (fileSystem e) (de_off e)
    (with_file first (get32 d 28) (with_pos first 0 (with_index 1 (<[0%nat := first]> (inode e)) e))).

Section filesystem.
Context {S : Type} `{!Part S FatS} `{!Part S MM} `{!FsEnv S}.
Context (fs_read : Z -> Z -> M FatS (option Z)) (de_ kpgdir : Z).

(** ** Reading a directory *)

(** The scan for the next entry of [dp], from offset [off].  Local variables: [off], [cnt],
    whether [count] is not NULL, the value it points at, the name.  The result: the return
    value, the count, the name and the raw entry when one was found. *)
Definition enext_step (fs dp : Z) (l : Z * Z * bool * Z * list Z) :
    M S ((Z * Z * bool * Z * list Z) + (Z * Z * list Z * option (list Z))) :=
  let '(off, cnt, live, count, name) := l in
  off2 ← lift (reloc_clus fs_read fs dp off false);
  if off2 =? -1 then mret (inr (-1, count, name, None))
  else
    d ← de dp;
    k ← rw_clus fs_read fs (cur_clus d) false false de_ off2 32;
    bs ← kload de_ 32;
    let order := get8 bs 0 in
    if negb (k =? 32) || (order =? END_OF_ENTRY) then mret (inr (-1, count, name, None))
    else if order =? EMPTY_ENTRY then mret (inl (u32 (off + 32), cnt + 1, live, count, name))
    else if negb (cnt =? 0) then assert live ;; mret (inr (0, cnt, name, None))
    else if get8 bs 11 =? ATTR_LONG_NAME then
      let lcnt := Z.land order (Z.lnot LAST_LONG_ENTRY) in
      let pos := (lcnt - 1) * CHAR_LONG_NAME in
      let last := has order LAST_LONG_ENTRY in
      when last (assert live) ;;
      assert ((0 <=? pos) && (pos + CHAR_LONG_NAME <=? 256)) ;;
      mret (inl (u32 (off + 32), cnt, live && negb last, if last then lcnt + 1 else count,
                 read_entry_name pos bs name))
    else mret (inr (1, if live then 1 else count, if live then read_entry_name 0 bs name else name, Some bs)).

Definition enext (fuel : nat) (dp ep off : Z) : M S (Z * Z) :=
  d ← de dp;
  if negb (has (attribute d) ATTR_DIRECTORY) then panic
  else if negb (off mod 32 =? 0) then panic
  else
    r ← loop fuel (enext_step (fileSystem d) dp) (off, 0, true, 0, replicate 256 0);
    let '(ret, count, name, raw) := r in
    upd_de ep (fun e => with_meta (c_string name) (attribute e) (nt_res e) (fileSystem e) (de_off e) e) ;;
    (match raw with Some bs => upd_de ep (read_entry_info bs) | None => mret tt end) ;;
    mret (ret, count).

(** [type = enext(...) != -1] is 1 whenever the loop goes on: an entry is linked also when
    [enext] found deleted entries.  [depth] bounds the nesting of directories, [fuel] the
    entries of each. *)
Fixpoint loadDirents (depth fuel : nat) (fs parent_ : Z) : M S unit :=
  match depth with
  | O => fun _ => NoFuel
  | Datatypes.S depth =>
      lift (reloc_clus fs_read fs parent_ 0 false) ;;
      ep ← lift direntAlloc;
      ep ← loop fuel (fun '(off, ep) =>
        r ← enext fuel parent_ ep off;
        let '(ret, count) := r in
        if ret =? -1 then mret (inr ep)
        else
          p ← de parent_;
          upd_de ep (fun e => with_links parent_ (firstChild p) (firstChild e)
            (with_meta (filename e) (attribute e) (nt_res e) fs off e)) ;;
          upd_de parent_ (fun p => with_links (parent p) (nextBrother p) ep p) ;;
          e ← de ep;
          when (has (attribute e) ATTR_DIRECTORY && ((off >? 32) || (parent_ =? root_of fs)))
            (loadDirents depth fuel fs ep) ;;
          ep ← lift direntAlloc;
          mret (inl (u32 (off + Z.shiftl count 5), ep))) (0, ep);
      lift (direntFree ep)
  end.

(** ** Mounting *)

(** "FAT32" *)
Definition fat32_magic : list Z := [70; 65; 84; 51; 50].
Definition bpb (d : list Z) : superblock :=
  let first := u32 (get16 d 14 + get8 d 16 * get32 d 36) in
  let secs := u32 (get32 d 32 - first) in
  mkSb first secs (secs / get8 d 13) (u32 (get8 d 13 * get16 d 11)) (get16 d 11) (get8 d 13) (get16 d 14)
    (get8 d 16) (get32 d 28) (get32 d 32) (get32 d 36) (get32 d 44).

(** The root of a file system that is being mounted. *)
Definition root_dirent (fs : Z) (b : superblock) : Dirent :=
  mkDe [0x2f] (Z.lor ATTR_DIRECTORY ATTR_SYSTEM) (root_clus b) 0 (root_clus b) 1 0
    (<[0%nat := root_clus b]> (replicate 64 (2 ^ 32 - 1))) 0 fs 0 0 0 0 0 0.

(** The pages of the bitmap of clusters: how many are mapped. *)
Definition map_bitmap (fs total : Z) : M S Z :=
  loop (Datatypes.S (Z.to_nat total)) (fun cnt =>
    page ← lift Page.pageAlloc;
    lift (Page.pageInsert kpgdir (u64 (getFileSystemClusterBitmap fs + cnt)) (page2pa page)
            (Z.lor PTE_READ PTE_WRITE)) ;;
    if (cnt + PAGE_SIZE) * 8 <? total then mret (inl (cnt + PAGE_SIZE)) else mret (inr ((cnt + PAGE_SIZE) / PAGE_SIZE))) 0.

(** A bit for every entry of the FAT that is not zero. *)
Definition mark_cluster (fs no : Z) : M FatS unit :=
  bm ← gets (fun s => default [] (clusBitmap s !! fs));
  assert (Z.shiftr no 6 <? Z.of_nat (length bm)) ;;
  modify (set_clusBitmap (fun m => <[fs := bitmap_set bm (Z.to_nat (Z.shiftr no 6)) (Z.land no 63)]> m)).
Definition mark_sector (fs i ents : Z) (d : list Z) : M FatS unit :=
  for_up (Z.to_nat ents) 0 (fun j => when (c_true (get32 d (4 * j))) (mark_cluster fs (i * ents + j))).
Definition scan_fat (fs : Z) : M FatS unit :=
  b ← gets (fun s => sb s fs);
  for_up (Z.to_nat (fat_sz b)) 0 (fun i =>
    bp ← read_block fs_read fs (u32 (rsvd_sec_cnt b + i));
    d ← buf_data bp;
    mark_sector fs i (byts_per_sec b / 4) d ;;
    lift (brelse bp)).

Definition fatInit (depth fuel : nat) (fs : Z) : M S Z :=
  bp ← lift (read_block fs_read fs 0);
  d ← lift (buf_data bp);
  if negb (bool_decide (take 5 (drop 82 d) = fat32_magic)) then panic
  else
    let b := bpb d in
    assert (negb (sec_per_clus b =? 0)) ;;
    lift (modify (set_fss (fun m =>
      let f := default fs0 (m !! fs) in
      <[fs := mkFs (fs_valid f) (fs_name f) b (fs_image f) (fs_next f) (deviceNumber f) (fs_reader f)]> m))) ;;
    lift (lift (brelse bp)) ;;
    if negb (BSIZE =? byts_per_sec b) then panic
    else
      upd_de (root_of fs) (fun _ => root_dirent fs b) ;;
      pages ← map_bitmap fs (totalClusterNumber b);
      lift (modify (set_clusBitmap (fun m => <[fs := replicate (Z.to_nat (pages * 512)) 0]> m))) ;;
      lift (scan_fat fs) ;;
      loadDirents depth fuel fs (root_of fs) ;;
      mret 0.

(** ** Status *)

(** [FileSystemStatus], in the order of its fields. *)
Definition fs_status (b : superblock) : list Z :=
  [0; 189; u32 (tot_sec b - first_data_sec b); 1; 2; 4; 3; 0; 255; 0; 0; 0; 0; 0; 0].
Definition getFsStatus (lfuel : nat) (buf_ rootfs : Z) (path : list Z) : M S (option (list Z)) :=
  e ← ename fs_read lfuel buf_ rootfs AT_FDCWD path true;
  if e =? 0 then mret None
  else d ← de e; b ← get_sb (fileSystem d); mret (Some (fs_status b)).
End filesystem.
