(* ===== verification/ClusterSpec.v ===== *)
(** * The allocator of clusters

    The bitmap of clusters that [scan_fat] builds when a volume is mounted, and that
    [alloc_clus] and [free_clus] maintain, says for each cluster whether its FAT entry is
    zero.  [alloc_clus] then never hands out a cluster that is in use.  The working set of the
    cache holds the sectors of the table and of the clusters that are taken ([served]). *)

From S2P Require Import Prelude CType Mem Config Queue Page Bio Fat FatFile BlockStore FatTable FileSystem.

(** A block store that is a function of the cache and of the volumes. *)
Class FileStore (rd : Z -> Z -> M FatS (option Z)) (fs : Z) (dom : Z -> Prop) (ok : FatS -> Prop)
    (view : FatS -> Z -> list Z) := {
  fst_store :: BlockStore rd fs dom ok view;
  fst_ok : forall s s', bio s' = bio s -> fss s' = fss s -> ok s -> ok s';
  fst_view : forall s s' n, bio s' = bio s -> view s' n = view s n;
}.

#[export] Instance cache_files fs dv dom depth (Hdv : 0 <= dv < 2 ^ 31) (Hdom : forall n, dom n -> 0 <= n < 2 ^ 32) :
  FileStore (fs_read (S depth)) fs dom (cache_ok fs dv dom) (cache_view dv).
Proof.
  constructor; [by apply cache_store| |].
  - intros s s' E1 E2 []. constructor; unfold getfs; rewrite ?E1, ?E2; done.
  - intros s s' n E. unfold cache_view. by rewrite E.
Qed.

(** ** The volume *)

Section volume.
Context (rd : Z -> Z -> M FatS (option Z)) (fs : Z) (dom : Z -> Prop) (ok : FatS -> Prop)
  (view : FatS -> Z -> list Z) `{!FileStore rd fs dom ok view}.

(** The layout of a volume whose table is in the working set. *)
Record geometry (b : superblock) : Prop := {
  g_bytes : byts_per_sec b = 512;
  g_table : 0 <= rsvd_sec_cnt b /\ 0 <= fat_sz b < 2 ^ 21 - 1;
  g_data : rsvd_sec_cnt b + fat_sz b <= first_data_sec b;
  g_clus : 0 <= sec_per_clus b /\ 0 <= data_clus_cnt b < 2 ^ 31;
  g_cover : data_clus_cnt b + 2 <= 128 * fat_sz b;
  g_end : first_data_sec b + data_clus_cnt b * sec_per_clus b < 2 ^ 32;
  g_table_dom : forall i, 0 <= i < fat_sz b -> dom (rsvd_sec_cnt b + i);
}.

Definition bitmap_of (F : FatS) : list Z := default [] (clusBitmap F !! fs).

(** Each bit says whether the entry of its cluster is in use. *)
Record bitmap_agrees (F : FatS) (b : superblock) : Prop := {
  ba_wf : bitmap_wf (bitmap_of F);
  ba_len : 2 * fat_sz b <= Z.of_nat (length (bitmap_of F));
  ba_bits : forall c, 0 <= c < 128 * fat_sz b -> bitmap_used (bitmap_of F) c = negb (fat_entry view F b c =? 0);
}.

Lemma ps_bitmap F f : ok F -> ok (set_clusBitmap f F).
Proof. by apply fst_ok. Qed.
Lemma ps_view F f n : view (set_clusBitmap f F) n = view F n.
Proof. by apply fst_view. Qed.

Context (b : superblock) (G : geometry b).

Lemma entry_place c : 0 <= c < 128 * fat_sz b ->
  fat_offset_of_clus b c = 4 * (c mod 128) /\ fat_sec_of_clus b c 1 = rsvd_sec_cnt b + c / 128 /\
  0 <= c / 128 < fat_sz b /\ u32 (rsvd_sec_cnt b + c / 128) = rsvd_sec_cnt b + c / 128.
Proof.
  intros Hc. destruct (g_table _ G), (g_clus _ G). pose proof (g_data _ G). pose proof (g_end _ G).
  assert (Hd : 0 <= c / 128 < fat_sz b) by (Z.to_euclidean_division_equations; lia).
  destruct (fat_place b c (g_bytes _ G)) as [-> ->]; [unfold FAT32_EOC; lia|].
  assert (u32 (rsvd_sec_cnt b + c / 128) = rsvd_sec_cnt b + c / 128) as E by (unfold u32; apply Z.mod_small; nia).
  by rewrite E.
Qed.

(** Rewriting a sector: the cache changes, and the content of that sector. *)
Lemma rewrite_sector F n f :
  ok F -> dom n -> length (f (view F n)) = 512%nat ->
  exists F', (bp ← read_block rd fs n; put_block bp f) F = Ret tt F' /\ ok F' /\ cached F F' /\
    view F' n = f (view F n) /\ forall k, k <> n -> view F' k = view F k.
Proof.
  intros Hok Hd Hl. destruct (bs_read F n Hok Hd) as (bp & s1 & Hr & _ & Hfs & _ & Hput).
  destruct (Hput f Hl) as (s2 & Hp & Hok2 & Hfs2 & Hv & Hk). exists s2.
  rewrite (bind_Ret _ _ _ _ _ (read_block_eq rd fs _ _ _ _ Hr)). split_and!; try done.
  exact (cached_trans _ _ _ (bs_frame _ _ _ _ Hok Hr) (put_block_frame _ _ _ _ Hp)).
Qed.

(** Writing one entry of the table. *)
Lemma put_entry F c v :
  ok F -> 0 <= c < 128 * fat_sz b -> 0 <= v < 2 ^ 32 ->
  exists F', (bp ← read_block rd fs (rsvd_sec_cnt b + c / 128); put_block bp (put32 (4 * (c mod 128)) v)) F = Ret tt F' /\
    ok F' /\ cached F F' /\ fat_entry view F' b c = v /\
    (forall c', 0 <= c' < 128 * fat_sz b -> c' <> c -> fat_entry view F' b c' = fat_entry view F b c') /\
    forall k, k <> rsvd_sec_cnt b + c / 128 -> view F' k = view F k.
Proof.
  intros Hok Hc Hv. destruct (entry_place c Hc) as (Eo & Es & Hd & _).
  pose proof (g_table_dom _ G _ Hd) as Hdom. pose proof (bs_len (view := view) F (rsvd_sec_cnt b + c / 128) Hok) as Hlen.
  destruct (rewrite_sector F _ (put32 (4 * (c mod 128)) v) Hok Hdom) as (F' & H & Hok' & Hca & Hn & Hk);
    [by rewrite length_put32|].
  pose proof (Z.mod_pos_bound c 128 ltac:(lia)).
  exists F'. split_and!; try done.
  - unfold fat_entry. rewrite Eo, Es, Hn. apply get32_put32_eq; [lia|rewrite Hlen; lia|done].
  - intros c' Hc' Hne. destruct (entry_place c' Hc') as (Eo' & Es' & Hd' & _). unfold fat_entry. rewrite Eo', Es'.
    pose proof (Z.mod_pos_bound c' 128 ltac:(lia)).
    destruct (decide (c' / 128 = c / 128)) as [E|E]; [|by rewrite Hk by lia].
    rewrite E, Hn. apply get32_put32_ne; [lia|rewrite Hlen; lia|lia|].
    assert (c mod 128 <> c' mod 128); [|lia]. intros Em. apply Hne. Z.to_euclidean_division_equations; lia.
Qed.

(** ** Clusters *)

(** A cluster of the volume and its first sector. *)
Definition data_cluster (c : Z) : Prop := 2 <= c <= data_clus_cnt b + 1.
Definition first_sec (c : Z) : Z := first_data_sec b + (c - 2) * sec_per_clus b.

(** A cluster whose sectors are in the working set. *)
Definition served (c : Z) : Prop := data_cluster c /\ forall i, 0 <= i < sec_per_clus b -> dom (first_sec c + i).

Lemma cluster_sectors c i : data_cluster c -> 0 <= i < sec_per_clus b ->
  first_sec_of_clus b c = first_sec c /\ u32 (first_sec c + i) = first_sec c + i /\
  rsvd_sec_cnt b + fat_sz b <= first_sec c + i.
Proof.
  unfold data_cluster, first_sec. intros Hc Hi. destruct (g_table _ G), (g_clus _ G).
  pose proof (g_data _ G). pose proof (g_end _ G).
  assert (0 <= (c - 2) * sec_per_clus b /\ (c - 2) * sec_per_clus b + i < data_clus_cnt b * sec_per_clus b) by nia.
  split_and!; [|unfold u32; apply Z.mod_small; lia|lia].
  unfold first_sec_of_clus. rewrite (u32_small (c - 2)) by lia. unfold u32. rewrite Z.mod_small; lia.
Qed.

Lemma write_entry F c v : ok F -> sb F fs = b -> data_cluster c -> 0 <= v < 2 ^ 32 ->
  exists F', write_fat rd fs c v F = Ret 0 F' /\ ok F' /\ cached F F' /\ fat_entry view F' b c = v /\
    (forall c', 0 <= c' < 128 * fat_sz b -> c' <> c -> fat_entry view F' b c' = fat_entry view F b c') /\
    forall k, rsvd_sec_cnt b + fat_sz b <= k -> view F' k = view F k.
Proof.
  intros Hok Hb Hdc Hv. unfold data_cluster in Hdc. pose proof (g_cover _ G). destruct (g_clus _ G).
  destruct (entry_place c ltac:(lia)) as (Eo & Es & Hdv & _).
  destruct (put_entry F c v Hok ltac:(lia) Hv) as (F' & Hput & Hok' & Hca & He & Ho & Hk).
  exists F'. split_and!; try done; [|intros k Hr; apply Hk; lia].
  unfold write_fat. rewrite bind_gets, Hb, (u32_small (data_clus_cnt b + 1)) by lia.
  rewrite Z.gtb_ltb, (proj2 (Z.ltb_ge _ _)) by lia. rewrite Es, Eo. apply bind_Ret_inv in Hput as (bp & s1 & Hrd & Hp).
  by rewrite (bind_Ret _ _ _ _ _ Hrd), (put_block_then _ _ _ _ _ Hp).
Qed.

Lemma zero_clus_spec F c : ok F -> sb F fs = b -> served c ->
  exists F', zero_clus rd fs c F = Ret tt F' /\ ok F' /\ cached F F' /\
    (forall i, 0 <= i < sec_per_clus b -> view F' (first_sec c + i) = zero_block) /\
    forall k, (k < first_sec c \/ first_sec c + sec_per_clus b <= k) -> view F' k = view F k.
Proof.
  intros Hok Hb [Hc Hd]. destruct (g_clus _ G) as [Hs _]. unfold zero_clus. rewrite bind_gets, Hb.
  match goal with |- exists F', for_up _ _ ?body F = _ /\ _ =>
    destruct (for_up_inv (fun i F' => ok F' /\ cached F F' /\
      (forall j, 0 <= j < i -> view F' (first_sec c + j) = zero_block) /\
      forall k, (k < first_sec c \/ first_sec c + i <= k) -> view F' k = view F k)
      body (Z.to_nat (sec_per_clus b)) 0 F) as (F' & Hrun & H1 & H2 & H3 & H4) end.
  - intros i F1 Hi (Hok1 & Hca1 & Hz & Ho). rewrite Z.add_0_l, Z2Nat.id in Hi by lia.
    destruct (cluster_sectors c i Hc Hi) as (E1 & E2 & _). rewrite E1, E2.
    destruct (rewrite_sector F1 (first_sec c + i) (fun _ => zero_block) Hok1 (Hd i Hi) eq_refl)
      as (F2 & Hr & Hok2 & Hca2 & Hn & Hk).
    exists F2. split; [exact Hr|]. split_and!; [done|by eapply cached_trans| |].
    + intros j Hj. destruct (decide (j = i)) as [-> |]; [done|]. rewrite Hk; [apply Hz; lia|lia].
    + intros k Hkr. rewrite Hk by lia. apply Ho. lia.
  - split_and!; try done; [apply cached_refl|]. intros j Hj. lia.
  - rewrite Z.add_0_l, Z2Nat.id in * by lia. by exists F'.
Qed.

Lemma total_clusters : Z.to_nat (totalClusterNumber b / 64) = Z.to_nat (2 * fat_sz b).
Proof.
  destruct (g_table _ G). unfold totalClusterNumber. rewrite (g_bytes _ G).
  rewrite (u32_small (fat_sz b * 512)) by lia. unfold i32.
  rewrite (Z.mod_small (fat_sz b * 512 / 4 + 2 ^ 31)) by (Z.to_euclidean_division_equations; lia).
  f_equal. Z.to_euclidean_division_equations; lia.
Qed.

(** Only the cache and the bitmap of clusters changed. *)
Definition beside_bitmap (F F' : FatS) : Prop := exists B f, F' = set_bio B (set_clusBitmap f F).
Lemma beside_cached F F' f : cached F F' -> beside_bitmap F (set_clusBitmap f F').
Proof. unfold cached. intros E. exists (bio F'), f. rewrite E. done. Qed.

(** The two ways an operation ends: the table, the bitmap and the data after it. *)
Lemma alloc_clus_spec F c0 : ok F -> sb F fs = b -> bitmap_agrees F b ->
  fat_entry view F b 0 <> 0 -> fat_entry view F b 1 <> 0 ->
  data_cluster c0 -> fat_entry view F b c0 = 0 -> (forall c, data_cluster c -> c <= c0 -> fat_entry view F b c = 0 -> served c) ->
  exists c F', alloc_clus rd fs F = Ret c F' /\ ok F' /\ beside_bitmap F F' /\ bitmap_agrees F' b /\
    served c /\ c <= c0 /\ fat_entry view F b c = 0 /\ fat_entry view F' b c = FAT32_EOC + 7 /\
    (forall c', 0 <= c' < 128 * fat_sz b -> c' <> c -> fat_entry view F' b c' = fat_entry view F b c') /\
    (forall i, 0 <= i < sec_per_clus b -> view F' (first_sec c + i) = zero_block) /\
    forall k, rsvd_sec_cnt b + fat_sz b <= k -> (k < first_sec c \/ first_sec c + sec_per_clus b <= k) ->
      view F' k = view F k.
Proof.
  intros Hok Hb [Hwf Hlen Hbits] H0 H1 Hc0 Hfree Hserved. destruct (g_table _ G) as [Hrs Hsz]. pose proof (g_cover _ G).
  pose proof (bitmap_alloc_spec (Z.to_nat (2 * fat_sz b)) (bitmap_of F) Hwf ltac:(lia)) as HA.
  unfold alloc_clus. rewrite !bind_gets, Hb. fold (bitmap_of F). rewrite total_clusters.
  destruct (bitmap_alloc _ (bitmap_of F)) as [c bm| |].
  2: { specialize (HA c0 ltac:(unfold data_cluster in Hc0; lia)). rewrite Hbits, Hfree in HA by (unfold data_cluster in *; lia). done. }
  2: done.
  destruct HA as (Hcr & Hcf & Hbelow & Hwf' & Hlen' & Hset). rewrite Z2Nat.id in Hcr by lia.
  rewrite Hbits in Hcf by lia. apply negb_false_iff, Z.eqb_eq in Hcf.
  assert (Hle : c <= c0).
  { destruct (Z.le_gt_cases c c0); [done|]. specialize (Hbelow c0 ltac:(unfold data_cluster in *; lia)).
    rewrite Hbits, Hfree in Hbelow by (unfold data_cluster in *; lia). done. }
  assert (Hdc : data_cluster c).
  { assert (c <> 0 /\ c <> 1) by (split; intros ->; congruence). unfold data_cluster in *. lia. }
  assert (Hsv : served c) by by apply Hserved.
  rewrite bind_modify, (g_bytes _ G). change (512 / 4) with 128.
  destruct (entry_place c ltac:(lia)) as (_ & _ & Hdv & ->).
  set (F1 := set_clusBitmap _ F).
  destruct (put_entry F1 c (FAT32_EOC + 7) (ps_bitmap _ _ Hok) ltac:(lia) ltac:(unfold FAT32_EOC; lia))
    as (F2 & Hput & Hok2 & Hca2 & He & Ho & Hk).
  assert (Hb2 : sb F2 fs = b) by (unfold sb, getfs; by rewrite (cached_fss _ _ Hca2)).
  destruct (zero_clus_spec F2 c Hok2 Hb2 Hsv) as (F3 & Hz & Hok3 & Hca3 & Hzero & Hrest).
  pose proof (cached_trans _ _ _ Hca2 Hca3) as Hca.
  assert (Hent : forall c', 0 <= c' < 128 * fat_sz b -> fat_entry view F3 b c' = fat_entry view F2 b c').
  { intros c' Hc'. destruct (entry_place c' Hc') as (_ & Es & Hd & _). unfold fat_entry. rewrite Es.
    rewrite Hrest; [done|].
    destruct (g_clus _ G). pose proof (g_data _ G). unfold first_sec, data_cluster in *. left. nia. }
  assert (Hent1 : forall c', fat_entry view F1 b c' = fat_entry view F b c').
  { intros. unfold fat_entry, F1. by rewrite ps_view. }
  assert (Hbm : bitmap_of F3 = bm).
  { unfold bitmap_of. rewrite Hca. unfold F1, set_bio. cbn [clusBitmap set_clusBitmap]. by rewrite lookup_insert_eq. }
  exists c, F3. split.
  { apply bind_Ret_inv in Hput as (bp & s1 & Hrd & Hp).
    rewrite (bind_Ret _ _ _ _ _ Hrd), (put_block_then _ _ _ _ _ Hp). by rewrite (bind_Ret _ _ _ _ _ Hz). }
  split_and!; try done.
  - eexists (bio F3), _. exact Hca.
  - constructor; rewrite Hbm; [done|lia|]. intros c' Hc'. rewrite Hset, Hbits, Hent by lia.
    destruct (Z.eqb_spec c' c) as [-> |Hne]; [by rewrite He, orb_true_r|]. by rewrite orb_false_r, Ho, Hent1.
  - by rewrite Hent, He by lia.
  - intros c' Hc' Hne. by rewrite Hent, Ho, Hent1.
  - intros k Hr Hout. rewrite Hrest, Hk by (done || lia). unfold F1. apply ps_view.
Qed.

Lemma free_clus_spec F c : ok F -> sb F fs = b -> bitmap_agrees F b -> data_cluster c ->
  exists F', free_clus rd fs c F = Ret tt F' /\ ok F' /\ beside_bitmap F F' /\ bitmap_agrees F' b /\
    fat_entry view F' b c = 0 /\
    (forall c', 0 <= c' < 128 * fat_sz b -> c' <> c -> fat_entry view F' b c' = fat_entry view F b c') /\
    forall k, rsvd_sec_cnt b + fat_sz b <= k -> view F' k = view F k.
Proof.
  intros Hok Hb [Hwf Hlen Hbits] Hdc. pose proof (g_cover _ G).
  destruct (write_entry F c 0 Hok Hb Hdc ltac:(lia)) as (F2 & Hw & Hok2 & Hca2 & He & Ho & Hk). unfold data_cluster in Hdc.
  unfold free_clus. rewrite (bind_Ret _ _ _ _ _ Hw). unfold modify.
  eexists. split; [reflexivity|]. split; [by apply ps_bitmap|].
  split; [by apply beside_cached|].
  assert (Hbm : bitmap_of (set_clusBitmap (fun m => <[fs := bitmap_free c (default [] (m !! fs))]> m) F2)
                = bitmap_free c (bitmap_of F)).
  { unfold bitmap_of. cbn [clusBitmap set_clusBitmap]. by rewrite lookup_insert_eq, Hca2. }
  assert (Hent : forall f c', fat_entry view (set_clusBitmap f F2) b c' = fat_entry view F2 b c')
    by (intros; unfold fat_entry; by rewrite ps_view).
  split_and!.
  - constructor; rewrite Hbm; [by apply bitmap_free_wf|by rewrite bitmap_free_length|].
    intros c' Hc'. rewrite bitmap_free_used, Hbits, Hent by lia.
    destruct (Z.eqb_spec c' c) as [-> |Hne]; [by rewrite He, andb_false_r|]. by rewrite andb_true_r, Ho.
  - by rewrite Hent.
  - intros c' Hc' Hne. by rewrite Hent, Ho.
  - intros k Hr. rewrite ps_view. by apply Hk.
Qed.

(** ** Mounting *)

Lemma bitmap_of_insert x F : bitmap_of (set_clusBitmap (fun m => <[fs := x]> m) F) = x.
Proof. unfold bitmap_of. cbn [clusBitmap set_clusBitmap]. by rewrite lookup_insert_eq. Qed.

Lemma mark_cluster_spec F no : 0 <= no -> no / 64 < Z.of_nat (length (bitmap_of F)) ->
  exists f, mark_cluster fs no F = Ret tt (set_clusBitmap f F) /\
    length (bitmap_of (set_clusBitmap f F)) = length (bitmap_of F) /\
    (bitmap_wf (bitmap_of F) -> bitmap_wf (bitmap_of (set_clusBitmap f F))) /\
    forall x, 0 <= x -> bitmap_used (bitmap_of (set_clusBitmap f F)) x = bitmap_used (bitmap_of F) x || (x =? no).
Proof.
  intros Hno Hlen. unfold mark_cluster. rewrite bind_gets. fold (bitmap_of F). rewrite shiftr_6, land_63.
  rewrite (proj2 (Z.ltb_lt _ _)) by lia.
  exists (fun m => <[fs := bitmap_set (bitmap_of F) (Z.to_nat (no / 64)) (no mod 64)]> m). split; [done|].
  rewrite bitmap_of_insert. pose proof (Z.mod_pos_bound no 64 ltac:(lia)). split_and!.
  - apply length_alter.
  - intros Hwf. apply bitmap_wf_alter; [|done]. intros w Hw. by apply set_bound.
  - intros x Hx. assert (0 <= no / 64) by (apply Z.div_pos; lia). rewrite bitmap_set_used by lia.
    rewrite Z2Nat.id by done. f_equal. f_equal. Z.to_euclidean_division_equations; lia.
Qed.

Definition marks (F F' : FatS) (P : Z -> bool) : Prop :=
  (exists f, F' = set_clusBitmap f F) /\ length (bitmap_of F') = length (bitmap_of F) /\
  (bitmap_wf (bitmap_of F) -> bitmap_wf (bitmap_of F')) /\
  forall x, 0 <= x -> bitmap_used (bitmap_of F') x = bitmap_used (bitmap_of F) x || P x.

Lemma marks_trans F F' F'' P Q : marks F F' P -> marks F' F'' Q -> marks F F'' (fun x => P x || Q x).
Proof.
  intros ([f ->] & H2 & H3 & H4) ([g ->] & H6 & H7 & H8). split; [by exists (fun m => g (f m))|].
  split_and!; [congruence|auto|]. intros x Hx. by rewrite H8, H4, orb_assoc.
Qed.

Lemma mark_sector_spec F i d : 0 <= i -> 2 * i + 1 < Z.of_nat (length (bitmap_of F)) ->
  exists F', mark_sector fs i 128 d F = Ret tt F' /\
    marks F F' (fun x => (x / 128 =? i) && negb (get32 d (4 * (x mod 128)) =? 0)).
Proof.
  intros Hi Hlen. unfold mark_sector.
  match goal with |- exists F', for_up _ _ ?body F = _ /\ _ =>
    destruct (for_up_inv (fun j F' => marks F F' (fun x => (x / 128 =? i) && (x mod 128 <? j) &&
      negb (get32 d (4 * (x mod 128)) =? 0))) body (Z.to_nat 128) 0 F) as (F' & Hrun & HM) end.
  - intros j F1 Hj HM. change (Z.of_nat (Z.to_nat 128)) with 128 in Hj.
    assert (Hsplit : forall x, 0 <= x -> (x / 128 =? i) && (x mod 128 <? j + 1) && negb (get32 d (4 * (x mod 128)) =? 0) =
      (x / 128 =? i) && (x mod 128 <? j) && negb (get32 d (4 * (x mod 128)) =? 0) ||
      ((x =? i * 128 + j) && negb (get32 d (4 * j) =? 0))).
    { intros x Hx. destruct (Z.eqb_spec x (i * 128 + j)) as [-> |Hne].
      - replace ((i * 128 + j) / 128) with i by (Z.to_euclidean_division_equations; lia).
        replace ((i * 128 + j) mod 128) with j by (Z.to_euclidean_division_equations; lia).
        rewrite Z.eqb_refl, (proj2 (Z.ltb_lt j (j + 1))), (proj2 (Z.ltb_ge j j)) by lia. done.
      - rewrite andb_false_l, orb_false_r. destruct (Z.eqb_spec (x / 128) i) as [Hq|]; [|done].
        assert (x mod 128 <> j) by (intros E; apply Hne; Z.to_euclidean_division_equations; lia).
        f_equal. f_equal. destruct (Z.ltb_spec (x mod 128) j), (Z.ltb_spec (x mod 128) (j + 1)); try done; lia. }
    unfold c_true. destruct (get32 d (4 * j) =? 0) eqn:E; cbn [negb when].
    + exists F1. split; [done|]. destruct HM as (H1 & H2 & H3 & H4). split_and!; try done.
      intros x Hx. by rewrite H4, Hsplit, andb_false_r, orb_false_r.
    + pose proof HM as (_ & Hl & _). destruct (mark_cluster_spec F1 (i * 128 + j)) as (f & Hf & G1 & G2 & G3); [lia| |].
      { rewrite Hl. Z.to_euclidean_division_equations; lia. }
      exists (set_clusBitmap f F1). split; [exact Hf|].
      assert (HM2 : marks F1 (set_clusBitmap f F1) (fun x => x =? i * 128 + j)) by (split_and!; eauto).
      destruct (marks_trans _ _ _ _ _ HM HM2) as (K1 & K2 & K3 & K4). split_and!; try done.
      intros x Hx. by rewrite K4, Hsplit, andb_true_r.
  - split_and!; [by exists (fun m => m); destruct F|done|done|]. intros x Hx.
    rewrite (proj2 (Z.ltb_ge _ 0)) by (apply Z.mod_pos_bound; lia). by rewrite andb_false_r, orb_false_r.
  - exists F'. split; [exact Hrun|]. destruct HM as (H1 & H2 & H3 & H4). split_and!; try done.
    intros x Hx. rewrite H4 by done. change (0 + Z.of_nat (Z.to_nat 128)) with 128.
    rewrite (proj2 (Z.ltb_lt _ _)), andb_true_r; [done|]. apply Z.mod_pos_bound. lia.
Qed.

Lemma lift_bio_bitmap {A} (m : M BState A) F a F' f :
  lift m F = Ret a F' -> lift m (set_clusBitmap f F) = Ret a (set_clusBitmap f F').
Proof. unfold lift. simpl. destruct (m (bio F)); cbn [olift]; try done. by intros [= <- <-]. Qed.

(** [scan_fat] reads the table and marks every cluster whose entry is not zero. *)
Lemma scan_fat_spec F : ok F -> sb F fs = b -> bitmap_wf (bitmap_of F) ->
  2 * fat_sz b <= Z.of_nat (length (bitmap_of F)) -> (forall c, 0 <= c -> bitmap_used (bitmap_of F) c = false) ->
  exists F', scan_fat rd fs F = Ret tt F' /\ ok F' /\ sb F' fs = b /\ bitmap_agrees F' b /\
    forall k, view F' k = view F k.
Proof.
  intros Hok Hb Hwf Hlen Hz. destruct (g_table _ G) as [Hrs Hsz]. unfold scan_fat. rewrite bind_gets, Hb, (g_bytes _ G).
  change (512 / 4) with 128.
  match goal with |- exists F', for_up _ _ ?body F = _ /\ _ =>
    destruct (for_up_inv (fun i F' => ok F' /\ fss F' = fss F /\ (forall k, view F' k = view F k) /\
      length (bitmap_of F') = length (bitmap_of F) /\ bitmap_wf (bitmap_of F') /\
      forall x, 0 <= x -> bitmap_used (bitmap_of F') x = (x / 128 <? i) && negb (fat_entry view F b x =? 0))
      body (Z.to_nat (fat_sz b)) 0 F) as (F' & Hrun & H1 & H2 & H3 & H4 & H5 & H6) end.
  - intros i F1 Hi (Hok1 & Hfs1 & Hv1 & Hl1 & Hwf1 & Hx1). rewrite Z.add_0_l, Z2Nat.id in Hi by lia.
    destruct (entry_place (128 * i) ltac:(lia)) as (_ & _ & _ & Hu). rewrite Z.mul_comm, Z.div_mul in Hu by lia. rewrite Hu.
    pose proof (g_table_dom _ G i Hi) as Hd.
    destruct (bs_read F1 _ Hok1 Hd) as (bp & s1 & Hr & Hdat & _ & (s2 & Hrel & Hok2 & Hfs2 & Hk) & _).
    rewrite (bind_Ret _ _ _ _ _ (read_block_eq rd fs _ _ _ _ Hr)). unfold buf_data. rewrite bind_gets, Hdat, Hv1.
    pose proof (bs_frame _ _ _ _ Hok1 Hr) as E1.
    assert (Hbm1 : bitmap_of s1 = bitmap_of F1) by (rewrite E1; done).
    destruct (mark_sector_spec s1 i (view F (rsvd_sec_cnt b + i))) as (s3 & Hm & [f ->] & Hl3 & Hwf3 & Hx3); [lia| |].
    { rewrite Hbm1, Hl1. lia. }
    rewrite (bind_Ret _ _ _ _ _ Hm). exists (set_clusBitmap f s2). split; [by apply lift_bio_bitmap|].
    assert (Hbm2 : bitmap_of (set_clusBitmap f s2) = bitmap_of (set_clusBitmap f s1)).
    { apply lift_bio_frame in Hrel. rewrite Hrel. done. }
    rewrite Hbm2. split_and!; [by apply ps_bitmap|cbn [fss set_clusBitmap]; congruence| | |apply Hwf3; by rewrite Hbm1|].
    + intros k. by rewrite ps_view, Hk, Hv1.
    + by rewrite Hl3, Hbm1.
    + intros x Hx. rewrite Hx3, Hbm1, Hx1 by done. unfold fat_entry.
      destruct (Z.eqb_spec (x / 128) i) as [Hq|Hq].
      * rewrite (proj2 (Z.ltb_ge _ _)), (proj2 (Z.ltb_lt _ _)) by lia. simpl.
        destruct (entry_place x) as (-> & -> & _); [Z.to_euclidean_division_equations; lia|]. by rewrite Hq.
      * rewrite orb_false_r. f_equal. destruct (Z.ltb_spec (x / 128) i), (Z.ltb_spec (x / 128) (i + 1)); try done; lia.
  - split_and!; try done. intros x Hx. rewrite Hz by done. rewrite (proj2 (Z.ltb_ge _ 0)); [done|]. apply Z.div_pos; lia.
  - exists F'. split; [exact Hrun|]. rewrite Z.add_0_l, Z2Nat.id in H6 by lia. split_and!; try done.
    + unfold sb, getfs. by rewrite H2.
    + constructor; [done|by rewrite H4|]. intros c Hc. rewrite H6 by lia.
      rewrite (proj2 (Z.ltb_lt _ _)) by (Z.to_euclidean_division_equations; lia). simpl.
      unfold fat_entry. destruct (entry_place c Hc) as (_ & -> & Hd & _). by rewrite H3.
Qed.
End volume.

(** ** Volumes in use *)

Lemma entry_same view b F F' c : (forall k, view F' k = view F k) -> fat_entry view F' b c = fat_entry view F b c.
Proof. intros Hv. unfold fat_entry. by rewrite Hv. Qed.

(** The states of a mounted volume while the sectors used are those of the working set [dom]: scanned;
    then, in any order, clusters taken while one is free, and given back, the end of a chain
    linked to another cluster ([reloc_clus]), sectors behind the table changed and sectors read
    ([rw_clus], [read_fat]), and steps of the rest of the kernel. *)
Inductive volume_state (rd : Z -> Z -> M FatS (option Z)) (fs : Z) (dom : Z -> Prop) (ok : FatS -> Prop)
    (view : FatS -> Z -> list Z) (b : superblock) : FatS -> Prop :=
  | vs_mount F F' : ok F -> sb F fs = b -> bitmap_wf (bitmap_of fs F) ->
      2 * fat_sz b <= Z.of_nat (length (bitmap_of fs F)) ->
      (forall c, 0 <= c -> bitmap_used (bitmap_of fs F) c = false) ->
      fat_entry view F b 0 <> 0 -> fat_entry view F b 1 <> 0 ->
      scan_fat rd fs F = Ret tt F' -> volume_state rd fs dom ok view b F'
  | vs_alloc F c c0 F' : volume_state rd fs dom ok view b F -> data_cluster b c0 -> fat_entry view F b c0 = 0 ->
      (forall x, data_cluster b x -> x <= c0 -> fat_entry view F b x = 0 -> served dom b x) ->
      alloc_clus rd fs F = Ret c F' -> volume_state rd fs dom ok view b F'
  | vs_free F c F' : volume_state rd fs dom ok view b F -> data_cluster b c ->
      free_clus rd fs c F = Ret tt F' -> volume_state rd fs dom ok view b F'
  | vs_link F c c' r F' : volume_state rd fs dom ok view b F -> data_cluster b c -> fat_entry view F b c <> 0 -> data_cluster b c' ->
      write_fat rd fs c c' F = Ret r F' -> volume_state rd fs dom ok view b F'
  | vs_sector F n f F' : volume_state rd fs dom ok view b F -> dom n -> rsvd_sec_cnt b + fat_sz b <= n ->
      length (f (view F n)) = 512%nat -> (bp ← read_block rd fs n; put_block bp f) F = Ret tt F' ->
      volume_state rd fs dom ok view b F'
  | vs_read F n F' : volume_state rd fs dom ok view b F -> dom n ->
      (bp ← read_block rd fs n; lift (brelse bp)) F = Ret tt F' -> volume_state rd fs dom ok view b F'
  | vs_rest F F' : volume_state rd fs dom ok view b F -> bio F' = bio F -> fss F' = fss F -> clusBitmap F' = clusBitmap F ->
      volume_state rd fs dom ok view b F'.

(** What holds in all of them. *)
Record volume_ok (fs : Z) (ok : FatS -> Prop) (view : FatS -> Z -> list Z) (b : superblock) (F : FatS) : Prop := {
  vk_ok : ok F;
  vk_sb : sb F fs = b;
  vk_map : bitmap_agrees fs view F b;
  vk_rsvd : fat_entry view F b 0 <> 0 /\ fat_entry view F b 1 <> 0;
}.

Section reach.
Context (rd : Z -> Z -> M FatS (option Z)) (fs : Z) (dom : Z -> Prop) (ok : FatS -> Prop)
  (view : FatS -> Z -> list Z) `{!FileStore rd fs dom ok view}.
Context (b : superblock) (G : geometry dom b).
Local Notation volume_ok := (volume_ok fs ok view b).
Local Notation entry F c := (fat_entry view F b c).

(** A step that keeps which entries are in use. *)
Lemma volume_ok_used F F' : volume_ok F -> ok F' -> fss F' = fss F -> clusBitmap F' = clusBitmap F ->
  (forall c, 0 <= c < 128 * fat_sz b -> entry F' c = 0 <-> entry F c = 0) -> volume_ok F'.
Proof.
  intros [H1 H2 [A1 A2 A3] [H3 H4]] Hok Hf Hm He. pose proof (g_cover _ _ G). destruct (g_clus _ _ G).
  assert (Eb : bitmap_of fs F' = bitmap_of fs F) by (unfold bitmap_of; by rewrite Hm).
  constructor; [done|unfold sb, getfs; by rewrite Hf| |rewrite !He by lia; done].
  constructor; rewrite ?Eb; [done|done|]. intros c Hc. rewrite A3 by done. f_equal. apply eq_true_iff_eq. rewrite !Z.eqb_eq.
  by rewrite He.
Qed.
Lemma cached_rest F F' : cached F F' -> fss F' = fss F /\ clusBitmap F' = clusBitmap F.
Proof. by intros ->. Qed.

Lemma volume_state_ok F : volume_state rd fs dom ok view b F -> volume_ok F.
Proof.
  pose proof (g_cover _ _ G) as Hcov. destruct (g_clus _ _ G) as [_ Hdc].
  induction 1 as [F F' Hok Hb Hwf Hlen Hz H0 H1 Hs|F c c0 F' _ [Hok Hb HA [H0 H1]] Hc0 He Hsv Ha
    |F c F' _ [Hok Hb HA [H0 H1]] Hc Hf|F c c' r F' _ HV Hc He Hc' Hw|F n f F' _ HV Hd Hn Hl Hp|F n F' _ HV Hd Hp|F F' _ HV E1 E2 E3].
  - destruct (scan_fat_spec rd fs dom ok view b G F Hok Hb Hwf Hlen Hz) as (F1 & Hs' & Hok' & Hb' & HA & Hv).
    rewrite Hs in Hs'. injection Hs' as <-. constructor; [done|done|done|]. by rewrite !(entry_same view b F F' _ Hv).
  - destruct (alloc_clus_spec rd fs dom ok view b G F c0 Hok Hb HA H0 H1 Hc0 He Hsv)
      as (c' & F1 & Ha' & Hok' & (B & g & Efs) & HA' & [Hd _] & _ & _ & _ & Ho & _).
    rewrite Ha in Ha'. injection Ha' as <- <-. unfold data_cluster in Hd.
    constructor; [done|by subst F'|done|]. by rewrite !Ho by lia.
  - destruct (free_clus_spec rd fs dom ok view b G F c Hok Hb HA Hc) as (F1 & Hf' & Hok' & (B & g & Efs) & HA' & _ & Ho & _).
    rewrite Hf in Hf'. injection Hf' as <-. unfold data_cluster in Hc.
    constructor; [done|by subst F'|done|]. by rewrite !Ho by lia.
  - destruct (write_entry rd fs dom ok view b G F c c' (vk_ok _ _ _ _ _ HV) (vk_sb _ _ _ _ _ HV) Hc) as (F1 & Hw' & Hok1 & Hca & Hn & Ho & _);
      [unfold data_cluster in Hc'; lia|].
    rewrite Hw in Hw'. injection Hw' as _ <-. destruct (cached_rest _ _ Hca). apply (volume_ok_used F); [done..|].
    intros x Hx. destruct (decide (x = c)) as [-> |Hne]; [|by rewrite Ho]. rewrite Hn. unfold data_cluster in Hc'. split; [lia|done].
  - destruct (rewrite_sector rd fs dom ok view F n f (vk_ok _ _ _ _ _ HV) Hd Hl) as (F1 & Hp' & Hok1 & Hca & _ & Hk).
    rewrite Hp in Hp'. injection Hp' as <-. destruct (cached_rest _ _ Hca). apply (volume_ok_used F); [done..|].
    intros x Hx. unfold fat_entry. destruct (entry_place dom b G x Hx) as (_ & -> & Hr & _). by rewrite Hk by lia.
  - destruct (bs_read F n (vk_ok _ _ _ _ _ HV) Hd) as (bp & s1 & Hr & _ & _ & (s2 & Hrel & Hok2 & _ & Hk) & _).
    rewrite (bind_Ret _ _ _ _ _ (read_block_eq rd fs _ _ _ _ Hr)) in Hp. rewrite Hrel in Hp. injection Hp as <-.
    destruct (cached_rest F s2) as [E1 E2].
    { exact (cached_trans _ _ _ (bs_frame _ _ _ _ (vk_ok _ _ _ _ _ HV) Hr) (lift_bio_frame _ _ _ _ Hrel)). }
    apply (volume_ok_used F); [done..|]. intros x _. by rewrite (entry_same view b F s2 x Hk).
  - apply (volume_ok_used F); [done|by eapply (fst_ok F), HV|done|done|]. intros x _.
    by rewrite (entry_same view b F F' x (fun k => fst_view F F' k E1)).
Qed.
End reach.

(** C9. The allocator of clusters never hands out a cluster in use.  On the buffer cache, for a working
    set of sectors that holds the table: in every state a mounted volume reaches by taking,
    linking and giving back clusters and by reading and changing the sectors of the working set,
    the bitmap marks exactly the clusters whose FAT entry is in use.  While a cluster [c0] is
    free, and the free ones up to it are in the working set, [alloc_clus] returns a cluster of the
    volume that was free, the lowest one: it ends the chain of that cluster in the table,
    clears its sectors, changes no other entry and no other data of the whole volume, and keeps
    the bitmap in agreement. *)
Theorem alloc_clus_fresh depth fs dv dom b F c0 : let view := cache_view dv in
  0 <= dv < 2 ^ 31 -> (forall n, dom n -> 0 <= n < 2 ^ 32) -> geometry dom b ->
  volume_state (fs_read (S depth)) fs dom (cache_ok fs dv dom) view b F ->
  bitmap_agrees fs view F b /\
  (data_cluster b c0 -> fat_entry view F b c0 = 0 ->
   (forall c, data_cluster b c -> c <= c0 -> fat_entry view F b c = 0 -> served dom b c) ->
   exists c F', alloc_clus (fs_read (S depth)) fs F = Ret c F' /\
    volume_state (fs_read (S depth)) fs dom (cache_ok fs dv dom) view b F' /\
    data_cluster b c /\ c <= c0 /\ fat_entry view F b c = 0 /\ fat_entry view F' b c = FAT32_EOC + 7 /\
    (forall c', 0 <= c' < 128 * fat_sz b -> c' <> c -> fat_entry view F' b c' = fat_entry view F b c') /\
    (forall i, 0 <= i < sec_per_clus b -> view F' (first_sec b c + i) = zero_block) /\
    forall k, rsvd_sec_cnt b + fat_sz b <= k -> (k < first_sec b c \/ first_sec b c + sec_per_clus b <= k) ->
      view F' k = view F k).
Proof.
  intros view Hdv Hdom G HV. pose proof (cache_files fs dv dom depth Hdv Hdom) as FS.
  destruct (volume_state_ok _ fs dom _ view b G F HV) as [Hok Hb HA [H0 H1]]. split; [done|]. intros Hc He Hsv.
  destruct (alloc_clus_spec _ fs dom _ view b G F c0 Hok Hb HA H0 H1 Hc He Hsv)
    as (c & F' & Ha & _ & _ & _ & [Hd _] & Hle & Hz & Hn & Ho & Hs & Hk).
  exists c, F'. split_and!; try done. exact (vs_alloc _ _ _ _ _ _ F c c0 F' HV Hc He Hsv Ha).
Qed.

(** ** A concrete volume *)

(** One sector of FAT at sector 100, two reserved entries and four clusters of one sector. *)
Definition sb_vol : superblock := mkSb 101 4 4 512 512 1 100 1 0 105 1 2.
Definition fat_vol : FatS :=
  mkFatS (mkB (<[100 := [255; 255; 255; 15; 255; 255; 255; 15] ++ replicate 504 0]> ∅) ∅
      (<[100 := [1600]]> (<[101 := [1616]]> (<[102 := [1632]]> (<[103 := [1648]]> (<[104 := [1664]]> ∅))))) 1 [])
    (<[1 := mkFs true [] sb_vol ImgNone 0 0 BlockRead]> ∅) ∅ 0 ∅ [] (<[1 := [0; 0]]> ∅).
Definition dom_vol (n : Z) : Prop := 100 <= n < 105.

Lemma dom_vol_range n : dom_vol n -> 0 <= n < 2 ^ 32.
Proof. unfold dom_vol. lia. Qed.
Lemma geometry_vol : geometry dom_vol sb_vol.
Proof. constructor; cbn; unfold dom_vol; try lia. all: intros i Hi; lia. Qed.
Lemma served_vol c : data_cluster sb_vol c -> served dom_vol sb_vol c.
Proof. intros Hc. split; [done|]. intros i. unfold data_cluster, first_sec, dom_vol in *. cbn in *. lia. Qed.

(** A state that differs from it in the disk and the entries. *)
Lemma cache_ok_vol F d : bio F = mkB d ∅ (lru (bio fat_vol)) 1 [] -> fss F = fss fat_vol ->
  (forall n, length (default zero_block (d !! n)) = 512%nat) -> cache_ok 1 0 dom_vol F.
Proof.
  intros EB Ef Hd. assert (Hg : forall b, getbuf (bio F) b = buf0) by (intros b; rewrite EB; unfold getbuf; simpl; by rewrite lookup_empty).
  constructor; unfold getfs, disk_block; rewrite ?Ef, ?EB; try done.
  - intros g b. unfold group_list, fat_vol. cbn [bio lru]. rewrite !lookup_insert, lookup_empty.
    repeat case_decide; subst; cbn; rewrite ?elem_of_cons, ?elem_of_nil; naive_solver.
  - rewrite <- EB. intros n Hn. apply (group_ok_one _ _ _ _ (16 * n)); [done| |].
    + rewrite EB. unfold dom_vol in Hn. by assert (n = 100 \/ n = 101 \/ n = 102 \/ n = 103 \/ n = 104) as [-> |[-> |[-> |[-> | ->]]]] by lia.
    + unfold dom_vol. intros a c Ha Hc E1 E2. apply (run_apart 100 5); [lia|lia|lia|congruence].
Qed.
Lemma disk_one k x n : length x = 512%nat -> length (default zero_block ((<[k := x]> ∅ : gmap Z (list Z)) !! n)) = 512%nat.
Proof. intros Hx. rewrite lookup_insert, lookup_empty. by case_decide. Qed.

Lemma alloc_clus_fresh_witness : exists F F',
  scan_fat (fs_read 1) 1 fat_vol = Ret tt F /\ alloc_clus (fs_read 1) 1 F = Ret 2 F' /\
  fat_entry (cache_view 0) F' sb_vol 2 = FAT32_EOC + 7.
Proof.
  pose (P := cache_files 1 0 dom_vol 0 ltac:(lia) dom_vol_range).
  assert (Hz : forall c, 0 <= c -> bitmap_used (bitmap_of 1 fat_vol) c = false).
  { intros c Hc. change (bitmap_of 1 fat_vol) with [0; 0]. rewrite bitmap_used_div.
    destruct (Z.to_nat (c / 64)) as [|[|n]]; cbn; rewrite ?Z.bits_0; done. }
  assert (Hwf : bitmap_wf (bitmap_of 1 fat_vol)) by (change (bitmap_of 1 fat_vol) with [0; 0]; repeat constructor; lia).
  assert (Hok : cache_ok 1 0 dom_vol fat_vol) by (eapply cache_ok_vol; [reflexivity|reflexivity|]; intros; by apply disk_one).
  destruct (scan_fat_spec (fs_read 1) 1 _ _ _ sb_vol geometry_vol fat_vol Hok eq_refl Hwf ltac:(done) Hz)
    as (F & Hs & _ & Hb & _ & Hv).
  assert (HV : volume_state (fs_read 1) 1 dom_vol (cache_ok 1 0 dom_vol) (cache_view 0) sb_vol F).
  { eapply vs_mount; [exact Hok|reflexivity|exact Hwf|done|exact Hz| | |exact Hs]; vm_compute; discriminate. }
  destruct (alloc_clus_fresh 0 1 0 dom_vol sb_vol F 2 ltac:(lia) dom_vol_range geometry_vol HV) as [_ Ha].
  destruct Ha as (c & F' & Ha & _ & Hd & Hle & _ & Hn & _).
  - unfold data_cluster. cbn. lia.
  - rewrite (entry_same _ _ fat_vol) by done. vm_compute. reflexivity.
  - intros c Hc _ _. by apply served_vol.
  - unfold data_cluster in Hd. assert (c = 2) as -> by lia. exists F, F'. split_and!; [exact Hs|exact Ha|exact Hn].
Defined.
