(* ===== verification/FileData.v ===== *)
(** * The bytes of a file

    [eread] and [ewrite], against the interface of the block store and then on the buffer cache: a
    file is the bytes of the clusters of its chain in the allocation table, one after the other,
    and zeros after them; the two functions read and write them at any offset and across
    clusters, to and from buffers of the kernel and of the user.  Its index holds the first of
    these clusters and is filled on the way ([reloc_clus]); a write past the chain takes free
    clusters and links them.  The clusters of the file, and the free ones up to cluster [top] from
    which it grows, are in the working set of the cache. *)

From S2P Require Import Prelude CType Mem Config Queue Page PageInv PageSpec UserCopy Bio Fat FatFile FatIndex BlockStore FatTable FileSystem ClusterSpec.

Lemma getde_setde e f F x : getde (setde e f F) x = if decide (x = e) then f (getde F e) else getde F x.
Proof.
  unfold getde at 1. unfold setde, set_dents. cbn [dents].
  rewrite lookup_insert. destruct (decide (e = x)) as [-> |]; [by rewrite decide_True|by rewrite decide_False].
Qed.

Lemma setde_setde e f g F : setde e f (setde e g F) = setde e (fun d => f (g d)) F.
Proof.
  unfold setde at 1. rewrite getde_setde, decide_True by done. unfold setde, set_dents. cbn [bio fss dents direntHead inodes inodeBitmap clusBitmap].
  by rewrite insert_insert_eq.
Qed.

(** Of the entries and the volumes, only the first cluster, the position and the index of [e] changed. *)
Record steady (e : Z) (F F' : FatS) : Prop := {
  sy_fss : fss F' = fss F;
  sy_other : forall x, x <> e -> getde F' x = getde F x;
  sy_entry : exists c mx it cur cnt,
    getde F' e = with_file c (file_size (getde F e)) (with_index mx it (with_pos cur cnt (getde F e)));
}.
Lemma steady_same e F F' : fss F' = fss F -> dents F' = dents F -> steady e F F'.
Proof.
  intros H1 H2. constructor; [done|intros; unfold getde; by rewrite H2|].
  exists (first_clus (getde F e)), (inodeMaxCluster (getde F e)), (inode (getde F e)), (cur_clus (getde F e)), (clus_cnt (getde F e)).
  unfold getde. rewrite H2. by destruct (default _ _).
Qed.
Lemma steady_trans e F F1 F2 : steady e F F1 -> steady e F1 F2 -> steady e F F2.
Proof.
  intros [A1 A2 (a & m & i & c & n & A3)] [B1 B2 (a' & m' & i' & c' & n' & B3)]. constructor; [congruence| |].
  - intros x Hx. by rewrite B2, A2.
  - exists a', m', i', c', n'. by rewrite B3, A3.
Qed.

Lemma kept_dents e F F' : dents F' = dents F -> inodes F' = inodes F -> inodeBitmap F' = inodeBitmap F -> kept e F F'.
Proof. intros E1 E2 E3. apply kept_same; [done|done|unfold getde; by rewrite E1..]. Qed.

Lemma cached_same F F' : cached F F' -> fss F' = fss F /\ dents F' = dents F /\ inodes F' = inodes F /\
  inodeBitmap F' = inodeBitmap F /\ clusBitmap F' = clusBitmap F.
Proof. by intros ->. Qed.

Section file.
Context (rd : Z -> Z -> M FatS (option Z)) (fs : Z) (dom : Z -> Prop) (ok : FatS -> Prop)
  (view : FatS -> Z -> list Z) `{!FileStore rd fs dom ok view}.
Context (b : superblock) (e N top : Z).
Local Notation csz := (byts_per_clus b).
Local Notation entry F c := (fat_entry view F b c).
Local Notation cbyte F c i := (clus_byte view F (first_sec b c) i).

(** The layout of the volume. *)
Record layout_ok : Prop := {
  lo_geometry : geometry dom b;
  lo_size : csz = 512 * sec_per_clus b;
  lo_range : 0 < sec_per_clus b /\ csz < 2 ^ 31;
  lo_count : data_clus_cnt b + 1 < FAT32_EOC;
}.
Hypothesis L : layout_ok.

(** ** The state of the volume and of the file *)

(** The bitmap agrees with the table; up to [top], [k] clusters are free, and the free ones are in
    the working set. *)
Record vol_ok (k : nat) (F : FatS) : Prop := {
  vo_ok : ok F;
  vo_sb : sb F fs = b;
  vo_map : bitmap_agrees fs view F b;
  vo_rsvd : entry F 0 <> 0 /\ entry F 1 <> 0;
  vo_free : has_room (fun c => (data_cluster b c /\ c <= top) /\ entry F c = 0) k;
  vo_low : forall c, data_cluster b c -> c <= top -> entry F c = 0 -> served dom b c;
}.

(** The table links the clusters [ch]. *)
Record chained (F : FatS) (ch : list Z) : Prop := {
  ch_data : forall c, c ∈ ch -> data_cluster b c;
  ch_nodup : NoDup ch;
  ch_link : forall i c c', ch !! i = Some c -> ch !! S i = Some c' -> entry F c = c';
  ch_end : forall c, last ch = Some c -> FAT32_EOC <= entry F c < 2 ^ 31;
}.

(** Entry [e] has the clusters [ch]; its index holds the first of them. *)
Record ent_ok (ch : list Z) (F : FatS) : Prop := {
  eo_index : exists f, index_of F e (take (Z.to_nat (inodeMaxCluster (getde F e))) ch) f;
  eo_max : 0 <= inodeMaxCluster (getde F e) <= Z.of_nat (length ch);
  eo_some : ch <> [] -> 0 < inodeMaxCluster (getde F e);
  eo_first : first_clus (getde F e) = default 0 (head ch);
  eo_fs : fileSystem (getde F e) = fs;
  eo_cur : cur_clus (getde F e) < FAT32_EOC;
}.

(** A file in the working set that can grow to [N] clusters: these are free, and the pool of index blocks has room for
    the index of [N] clusters (and the two blocks [index_put_spec] asks). *)
Record file_ok (ch : list Z) (F : FatS) : Prop := {
  fo_vol : vol_ok (Z.to_nat N - length ch) F;
  fo_chain : chained F ch;
  fo_ent : ent_ok ch F;
  fo_served : forall c, c ∈ ch -> served dom b c;
  fo_blocks : pool_room (inodeBitmap F) (Z.to_nat (index_blocks N - index_blocks (inodeMaxCluster (getde F e))) + 2);
  fo_limit : Z.of_nat (length ch) <= N <= 164872;
}.

(** Byte [i] of the file, zero beyond its clusters. *)
Definition file_byte (ch : list Z) (F : FatS) (i : Z) : Z :=
  match ch !! Z.to_nat (i / csz) with Some c => default 0 (cbyte F c (i mod csz)) | None => 0 end.

(** The file grew by the clusters [xs], which were free; no other cluster changed. *)
Record grown (ch xs : list Z) (F F' : FatS) : Prop := {
  gr_file : file_ok (ch ++ xs) F';
  gr_steady : steady e F F';
  gr_kept : kept e F F';
  gr_free : forall c, c ∈ xs -> entry F c = 0;
  gr_other : forall c, data_cluster b c -> c ∉ ch ++ xs ->
    entry F' c = entry F c /\ forall i, 0 <= i < csz -> cbyte F' c i = cbyte F c i;
}.

Lemma csz_pos : 0 < csz.
Proof. pose proof (lo_size L). pose proof (lo_range L). lia. Qed.

Lemma data_range c : data_cluster b c -> 2 <= c < FAT32_EOC /\ 0 <= c < 128 * fat_sz b /\ u32 c = c /\ i32 c = c.
Proof.
  intros Hc. pose proof (lo_count L). pose proof (g_cover _ _ (lo_geometry L)). unfold data_cluster, FAT32_EOC in *.
  split_and!; try lia; [apply u32_small; lia|apply i32_small; lia].
Qed.
Lemma data_table c : data_cluster b c -> in_table dom b c.
Proof.
  intros Hc. destruct (data_range c Hc) as (H1 & H2 & _). pose proof (lo_geometry L) as G.
  destruct (entry_place dom b G c H2) as (_ & Es & Hd & _). destruct (g_clus _ _ G). unfold data_cluster in Hc.
  split; [lia|]. split; [rewrite u32_small; lia|]. rewrite Es. by apply (g_table_dom _ _ G).
Qed.

Lemma cluster_ok c : served dom b c -> first_sec_of_clus b c = first_sec b c /\ clus_ok dom (first_sec b c) csz.
Proof.
  intros [Hc Hd]. pose proof (lo_range L) as [Hs Hr]. pose proof (lo_size L) as Hz. pose proof (lo_geometry L) as G.
  destruct (cluster_sectors dom b G c 0 Hc ltac:(lia)) as (E & Eu & Hge). split; [done|].
  destruct (g_table _ _ G). split_and!; [lia| |lia|lia|].
  - pose proof (g_end _ _ G). unfold data_cluster in Hc. unfold first_sec. rewrite Hz.
    replace (512 * sec_per_clus b / 512) with (sec_per_clus b) by (rewrite Z.mul_comm, Z.div_mul; lia). nia.
  - intros i Hi. apply Hd. rewrite Hz in Hi. split; [apply Z.div_pos; lia|apply Z.div_lt_upper_bound; lia].
Qed.

(** The sector of a byte of a cluster is on the volume, behind the table, and in no other cluster. *)
Lemma byte_sector c i : data_cluster b c -> 0 <= i < csz -> let k := first_sec b c + i / 512 in
  rsvd_sec_cnt b + fat_sz b <= k /\ first_sec b c <= k < first_sec b c + sec_per_clus b /\
  forall c', data_cluster b c' -> c' <> c -> k < first_sec b c' \/ first_sec b c' + sec_per_clus b <= k.
Proof.
  intros Hc Hi k. rewrite (lo_size L) in Hi. assert (Hq : 0 <= i / 512 < sec_per_clus b) by (split; [apply Z.div_pos; lia|apply Z.div_lt_upper_bound; lia]).
  destruct (cluster_sectors dom b (lo_geometry L) c (i / 512) Hc Hq) as (_ & _ & Hge). split_and!; [done|lia|lia|].
  intros c' Hc' Hne. unfold k, first_sec. assert (c < c' \/ c' < c) as [?|?] by lia; [left|right]; nia.
Qed.
Lemma cluster_apart c c' i i' : data_cluster b c -> data_cluster b c' -> c <> c' -> 0 <= i < csz -> 0 <= i' < csz ->
  first_sec b c + i / 512 <> first_sec b c' + i' / 512.
Proof.
  intros Hc Hc' Hne Hi Hi' E. destruct (byte_sector c i Hc Hi) as (_ & _ & H). destruct (byte_sector c' i' Hc' Hi') as (_ & H' & _).
  specialize (H c' Hc' ltac:(done)). lia.
Qed.

Lemma cbyte_view F F' c i : (forall k, view F' k = view F k) -> cbyte F' c i = cbyte F c i.
Proof. intros Hv. unfold clus_byte. by rewrite Hv. Qed.
Lemma entry_view F F' c : (forall k, view F' k = view F k) -> entry F' c = entry F c.
Proof. apply entry_same. Qed.

(** ** What depends on what *)

Lemma vol_entries k F F' : vol_ok k F -> ok F' -> fss F' = fss F -> clusBitmap F' = clusBitmap F ->
  (forall c, 0 <= c < 128 * fat_sz b -> entry F' c = entry F c) -> vol_ok k F'.
Proof.
  intros [H1 H2 [A1 A2 A3] H4 H5 H6] Hok Hf Hb He. pose proof (g_cover _ _ (lo_geometry L)). pose proof (g_clus _ _ (lo_geometry L)).
  constructor; [done|unfold sb, getfs; by rewrite Hf| |rewrite !He by lia; done| |].
  - assert (Eb : bitmap_of fs F' = bitmap_of fs F) by (unfold bitmap_of; by rewrite Hb).
    constructor; rewrite ?Eb; [done|done|]. intros c Hc. by rewrite A3, He.
  - eapply has_room_mono; [|exact H5]. intros c [[Hc Ht] Hz]. rewrite He; [done|]. by apply data_range.
  - intros c Hc Ht Hz. rewrite He in Hz by (by apply data_range). by apply H6.
Qed.
Lemma chained_entries F F' ch : chained F ch -> (forall c, c ∈ ch -> entry F' c = entry F c) -> chained F' ch.
Proof.
  intros [H1 H2 H3 H4] He. constructor; [done|done| |].
  - intros i c c' Hc Hc'. rewrite He by (by eapply list_elem_of_lookup_2). by eapply H3.
  - intros c Hc. rewrite He; [by apply H4|]. by apply last_Some_elem_of.
Qed.
Lemma ent_same ch F F' cur cnt : ent_ok ch F -> getde F' e = with_pos cur cnt (getde F e) -> cur < FAT32_EOC ->
  inodes F' = inodes F -> inodeBitmap F' = inodeBitmap F -> ent_ok ch F'.
Proof.
  intros [[f H1] H2 H3 H4 H5 H6] Hd Hc Hi Hb. constructor; rewrite ?Hd; try done.
  exists f. eapply (index_of_same F); [by rewrite Hd|done|done|done].
Qed.
Lemma getde_pos F x : getde F x = with_pos (cur_clus (getde F x)) (clus_cnt (getde F x)) (getde F x).
Proof. by destruct (getde F x). Qed.
Lemma ent_dents ch F F' : ent_ok ch F -> dents F' = dents F -> inodes F' = inodes F -> inodeBitmap F' = inodeBitmap F -> ent_ok ch F'.
Proof.
  intros H Hd. assert (E : getde F' e = getde F e) by (unfold getde; by rewrite Hd).
  apply (ent_same ch F F' (cur_clus (getde F e)) (clus_cnt (getde F e)) H); [by rewrite E, <- getde_pos|apply H].
Qed.

(** A step that changes the cache only, and no entry of the table. *)
Lemma file_cached ch F F' : file_ok ch F -> ok F' -> cached F F' ->
  (forall c, 0 <= c < 128 * fat_sz b -> entry F' c = entry F c) -> file_ok ch F'.
Proof.
  intros [H1 H2 H3 Hsv Hbl H4] Hok Hca He. destruct (cached_same _ _ Hca) as (E1 & E2 & E3 & E4 & E5).
  constructor; [by eapply vol_entries| |by eapply ent_dents|done|unfold getde; by rewrite E4, E2|done].
  eapply chained_entries; [exact H2|]. intros c Hc. apply He. by apply data_range, (ch_data _ _ H2).
Qed.

Lemma chain_used F ch c : chained F ch -> c ∈ ch -> entry F c <> 0.
Proof.
  intros H Hc. apply list_elem_of_lookup_1 in Hc as [i Hi].
  destruct (ch !! S i) as [c'|] eqn:Hs.
  - rewrite (ch_link _ _ H i c c' Hi Hs). pose proof (data_range c' (ch_data _ _ H c' (list_elem_of_lookup_2 _ _ _ Hs))). lia.
  - assert (Hl : last ch = Some c).
    { rewrite last_lookup. apply lookup_ge_None in Hs. pose proof (lookup_lt_Some _ _ _ Hi).
      by replace (Nat.pred (length ch)) with i by lia. }
    pose proof (ch_end _ _ H c Hl). unfold FAT32_EOC in *. lia.
Qed.

Lemma grown_trans ch xs ys F F1 F2 : grown ch xs F F1 -> grown (ch ++ xs) ys F1 F2 -> grown ch (xs ++ ys) F F2.
Proof.
  intros [A1 A2 AK A3 A4] [B1 B2 BK B3 B4]. constructor.
  - by rewrite app_assoc.
  - by eapply steady_trans.
  - by eapply kept_trans.
  - intros c [Hc|Hc]%elem_of_app; [by apply A3|]. pose proof (fo_chain _ _ B1) as Hch.
    pose proof (ch_nodup _ _ Hch) as Hn. apply NoDup_app in Hn as (_ & Hn & _).
    assert (Hnot : c ∉ ch ++ xs) by (intros Hin; by apply (Hn c Hin)).
    assert (Hd : data_cluster b c) by (apply (ch_data _ _ Hch), elem_of_app; by right).
    rewrite <- (proj1 (A4 c Hd Hnot)). by apply B3.
  - intros c Hd Hc. rewrite app_assoc, not_elem_of_app in Hc. destruct Hc as [Hc1 Hc2].
    destruct (A4 c Hd Hc1) as [E1 E2]. destruct (B4 c Hd) as [E3 E4]; [by rewrite not_elem_of_app|].
    split; [congruence|]. intros i Hi. by rewrite E4, E2.
Qed.
Lemma grown_cached ch F F' : file_ok ch F -> ok F' -> cached F F' -> (forall k, view F' k = view F k) -> grown ch [] F F'.
Proof.
  intros HF Hok Hca Hv. destruct (cached_same _ _ Hca) as (E1 & E2 & E3 & E4 & _). constructor.
  - rewrite app_nil_r. apply (file_cached ch F F' HF Hok Hca). intros c Hc. by apply entry_view.
  - by apply steady_same.
  - by apply kept_dents.
  - intros c Hc. by apply elem_of_nil in Hc.
  - intros c Hd _. split; [by apply entry_view|]. intros i Hi. by apply cbyte_view.
Qed.

(** ** Taking and linking clusters *)

Lemma alloc_run k F : vol_ok (S k) F ->
  exists c F', alloc_clus rd fs F = Ret c F' /\ vol_ok k F' /\ beside_bitmap F F' /\ served dom b c /\
    entry F c = 0 /\ entry F' c = FAT32_EOC + 7 /\
    (forall c', 0 <= c' < 128 * fat_sz b -> c' <> c -> entry F' c' = entry F c') /\
    (forall i, 0 <= i < csz -> cbyte F' c i = Some 0) /\
    forall c' i, data_cluster b c' -> c' <> c -> 0 <= i < csz -> cbyte F' c' i = cbyte F c' i.
Proof.
  intros [H1 H2 H3 [H4 H4'] H5 H6]. destruct (has_room_some _ _ H5) as [c0 [[Hd0 Ht0] Hz0]].
  destruct (alloc_clus_spec rd fs dom ok view b (lo_geometry L) F c0 H1 H2 H3 H4 H4' Hd0 Hz0)
    as (c & F' & Ha & Hok & Hbe & Hm & Hsv & _ & Hz & Hn & Ho & Hzero & Hk); [intros x Hx Hle; apply H6; [done|lia]|].
  pose proof Hsv as [Hd _]. exists c, F'. destruct (data_range c Hd) as (Hr & _). split_and!; try done.
  - destruct Hbe as (B & g & ->). pose proof (g_cover _ _ (lo_geometry L)). pose proof (g_clus _ _ (lo_geometry L)).
    constructor; [done|done|done|rewrite !Ho by lia; done| |].
    + eapply (has_room_take _ _ c); [|exact H5].
      intros y Hy [[Hdy Hty] Hzy]. split; [done|]. rewrite Ho; [done| |done]. by apply data_range.
    + intros y Hdy Hty Hzy. destruct (decide (y = c)) as [-> |Hne]; [done|]. rewrite Ho in Hzy; [by apply H6|by apply data_range|done].
  - intros i Hi. destruct (byte_sector c i Hd Hi) as (_ & Hs & _). unfold clus_byte.
    rewrite Hzero by lia. apply lookup_replicate_2. pose proof (Z.mod_pos_bound i 512 ltac:(lia)). lia.
  - intros c' i Hd' Hne Hi. destruct (byte_sector c' i Hd' Hi) as (Hge & _ & Hap). unfold clus_byte. rewrite Hk; [done..|].
    by apply Hap.
Qed.

Lemma link_run k F l c : vol_ok k F -> data_cluster b l -> entry F l <> 0 -> data_cluster b c ->
  exists F', write_fat rd fs l c F = Ret 0 F' /\ vol_ok k F' /\ cached F F' /\ entry F' l = c /\
    (forall c', 0 <= c' < 128 * fat_sz b -> c' <> l -> entry F' c' = entry F c') /\
    forall c' i, data_cluster b c' -> 0 <= i < csz -> cbyte F' c' i = cbyte F c' i.
Proof.
  intros [H1 H2 [A1 A2 A3] [H4 H4'] H5 H6] Hl Hnz Hc. pose proof (g_cover _ _ (lo_geometry L)). pose proof (g_clus _ _ (lo_geometry L)).
  destruct (data_range l Hl) as (Rl & Tl & _). destruct (data_range c Hc) as (Rc & _). unfold FAT32_EOC in Rc.
  destruct (write_entry rd fs dom ok view b (lo_geometry L) F l c H1 H2 Hl ltac:(lia)) as (F' & Hw & Hok & Hca & He & Ho & Hk).
  destruct (cached_same _ _ Hca) as (E1 & _ & _ & _ & E5). exists F'. split_and!; try done.
  - assert (Eb : bitmap_of fs F' = bitmap_of fs F) by (unfold bitmap_of; by rewrite E5).
    constructor; [done|unfold sb, getfs; by rewrite E1| |rewrite !Ho by lia; done| |].
    + constructor; rewrite ?Eb; [done|done|]. intros c' Hc'. rewrite A3 by done. f_equal.
      destruct (decide (c' = l)) as [-> |Hne]; [|by rewrite Ho]. rewrite He. by rewrite !(proj2 (Z.eqb_neq _ 0)) by lia.
    + eapply has_room_mono; [|exact H5]. intros y [[Hdy Hty] Hzy]. split; [done|]. rewrite Ho; [done|by apply data_range|by intros ->].
    + intros y Hdy Hty Hzy. apply H6; [done|done|]. destruct (decide (y = l)) as [-> |]; [lia|]. rewrite <- Ho; [done|by apply data_range|done].
  - intros c' i Hd' Hi. destruct (byte_sector c' i Hd' Hi) as (Hge & _). unfold clus_byte. by rewrite Hk.
Qed.

Lemma chained_push F F' ch l c : chained F ch -> last ch = Some l -> data_cluster b c -> c ∉ ch ->
  entry F' l = c -> FAT32_EOC <= entry F' c < 2 ^ 31 -> (forall c', c' ∈ ch -> c' <> l -> entry F' c' = entry F c') ->
  chained F' (ch ++ [c]).
Proof.
  intros [H1 H2 H3 H4] Hl Hd Hn El Ec Ho. constructor.
  - intros x [Hx| ->%list_elem_of_singleton]%elem_of_app; [by apply H1|done].
  - apply NoDup_app. split_and!; [done| |apply NoDup_singleton]. by intros x Hx ->%list_elem_of_singleton.
  - intros i x x' Hx Hx'. pose proof (lookup_lt_Some _ _ _ Hx') as Hlt. rewrite length_app in Hlt. cbn in Hlt.
    rewrite lookup_app_l in Hx by lia. rewrite last_lookup in Hl.
    destruct (decide (S i = length ch)) as [Ei|Ei].
    + rewrite Ei, list_lookup_middle in Hx' by done. injection Hx' as <-.
      replace (Nat.pred (length ch)) with i in Hl by lia. rewrite Hx in Hl. injection Hl as <-. done.
    + rewrite lookup_app_l in Hx' by lia. rewrite Ho; [by eapply H3|by eapply list_elem_of_lookup_2|].
      intros ->. pose proof (NoDup_lookup _ _ _ _ H2 Hx Hl). lia.
  - intros x Hx. rewrite last_snoc in Hx. by injection Hx as <-.
Qed.

(** A cluster with zeros behind the others adds no byte. *)
Lemma file_byte_push ch c F F' i : 0 <= i -> (forall x, x ∈ ch -> data_cluster b x) ->
  (forall j, 0 <= j < csz -> cbyte F' c j = Some 0) ->
  (forall c' j, c' ∈ ch -> 0 <= j < csz -> cbyte F' c' j = cbyte F c' j) -> file_byte (ch ++ [c]) F' i = file_byte ch F i.
Proof.
  intros Hi Hd Hz Ho. unfold file_byte. pose proof (Z.mod_pos_bound i csz csz_pos) as Hm.
  destruct (decide (Z.to_nat (i / csz) < length ch)%nat) as [Hlt|Hge].
  - rewrite lookup_app_l by done. destruct (ch !! Z.to_nat (i / csz)) eqn:E; [|done].
    rewrite Ho; [done|by eapply list_elem_of_lookup_2|done].
  - rewrite (lookup_ge_None_2 ch) by lia. rewrite lookup_app_r by lia.
    destruct (_ - _)%nat; cbn; [by rewrite Hz|done].
Qed.
Lemma file_byte_same ch F F' i : (forall x, x ∈ ch -> data_cluster b x) ->
  (forall c' j, c' ∈ ch -> 0 <= j < csz -> cbyte F' c' j = cbyte F c' j) -> file_byte ch F' i = file_byte ch F i.
Proof.
  intros Hd Ho. unfold file_byte. pose proof (Z.mod_pos_bound i csz csz_pos). destruct (ch !! _) eqn:E; [|done].
  rewrite Ho; [done|by eapply list_elem_of_lookup_2|done].
Qed.

(** Growing the chain by one cluster. *)
Lemma grow_run ch F l : file_ok ch F -> last ch = Some l -> Z.of_nat (length ch) < N ->
  exists c F', (c ← alloc_clus rd fs; write_fat rd fs l c ;; mret (Some c)) F = Ret (Some c) F' /\
    grown ch [c] F F' /\ dents F' = dents F /\ forall i, 0 <= i -> file_byte (ch ++ [c]) F' i = file_byte ch F i.
Proof.
  intros HF Hl Hlt. pose proof HF as [H1 H2 H3 Hsv Hbl H4]. replace (Z.to_nat N - length ch)%nat with (S (Z.to_nat N - S (length ch))) in H1 by lia.
  destruct (alloc_run _ F H1) as (c & F1 & Ha & HV1 & (B & g & EF) & Hsc & Hz & Hn & Ho & Hzero & Hby). pose proof Hsc as [Hd _].
  assert (Hlin : l ∈ ch) by by apply last_Some_elem_of.
  assert (Hnin : c ∉ ch) by (intros Hin; by apply (chain_used F ch c H2 Hin)).
  assert (Hlc : l <> c) by (by intros ->). pose proof (ch_data _ _ H2) as Hdc.
  assert (Hin1 : forall x, x ∈ ch -> entry F1 x = entry F x) by (intros x Hx; apply Ho; [by apply data_range, Hdc|by intros ->]).
  destruct (link_run _ F1 l c HV1 (Hdc l Hlin)) as (F2 & Hw & HV2 & Hca & He & Ho2 & Hby2); [rewrite Hin1 by done; by apply (chain_used F ch)|done|].
  exists c, F2. destruct (cached_same _ _ Hca) as (E1 & E2 & E3 & E4 & E5). subst F1. cbn in E1, E2, E3, E4.
  assert (Hc1 : entry F2 c = FAT32_EOC + 7) by (rewrite Ho2; [done|by apply data_range|done]).
  assert (Hby' : forall c' j, data_cluster b c' -> c' <> c -> 0 <= j < csz -> cbyte F2 c' j = cbyte F c' j).
  { intros c' j Hd' Hne Hj. by rewrite Hby2, Hby. }
  split_and!; [|constructor|done|].
  - rewrite (bind_Ret _ _ _ _ _ Ha), (bind_Ret _ _ _ _ _ Hw). done.
  - constructor.
    + rewrite length_app. cbn. by replace (Z.to_nat N - (length ch + 1))%nat with (Z.to_nat N - S (length ch))%nat by lia.
    + apply (chained_push F F2 ch l c); try done; [rewrite Hc1; unfold FAT32_EOC; lia|].
      intros x Hx Hxl. rewrite Ho2, Hin1; [done|done|by apply data_range, Hdc|done].
    + assert (HE : ent_ok ch F2) by by eapply ent_dents. destruct HE as [(f & I) M S' Fi Fs Cu].
      constructor; try done.
      * exists f. rewrite take_app_le by lia. done.
      * rewrite length_app. lia.
      * intros _. apply S'. by intros ->.
      * rewrite Fi. by destruct ch.
    + intros x [Hx| ->%list_elem_of_singleton]%elem_of_app; [by apply Hsv|done].
    + unfold getde. by rewrite E4, E2.
    + rewrite length_app. cbn. lia.
  - by apply steady_same.
  - by apply kept_dents.
  - by intros x ->%list_elem_of_singleton.
  - intros x Hdx Hx. rewrite not_elem_of_app in Hx. destruct Hx as [Hx1 Hx2]. assert (x <> c) by (intros ->; apply Hx2; by left).
    split; [rewrite Ho2, Ho; [done|by apply data_range|done|by apply data_range|by intros ->]|]. intros i Hi. by apply Hby'.
  - intros i Hi. apply file_byte_push; [done|done| |].
    + intros j Hj. by rewrite Hby2, Hzero.
    + intros x j Hx Hj. apply Hby'; [by apply Hdc|by intros ->|done].
Qed.

(** ** Finding a cluster *)

(** The cluster behind position [k - 1] of the file: linked already, or taken now. *)
Lemma next_run ch F k c0 alloc : file_ok ch F -> (0 < k)%nat -> ch !! (k - 1)%nat = Some c0 -> Z.of_nat k < N ->
  alloc = true \/ (k < length ch)%nat ->
  exists xs c F', (c ← read_fat rd fs c0;
      (if i32 c >=? FAT32_EOC then
         if alloc : bool then c ← alloc_clus rd fs; write_fat rd fs c0 c ;; mret (Some c)
         else modify (setde e (fun d => with_pos (first_clus d) 0 d)) ;; mret None
       else mret (Some (i32 c)))) F = Ret (Some c) F' /\
    grown ch xs F F' /\ dents F' = dents F /\ (ch ++ xs) !! k = Some c /\
    length (ch ++ xs) = Nat.max (length ch) (S k) /\ forall i, 0 <= i -> file_byte (ch ++ xs) F' i = file_byte ch F i.
Proof.
  intros HF Hk Hc0 Hlt Hal. pose proof (fo_chain _ _ HF) as HC. pose proof (fo_vol _ _ HF) as HV. pose proof (ch_data _ _ HC) as Hdc.
  assert (Hin : c0 ∈ ch) by by eapply list_elem_of_lookup_2. pose proof (lookup_lt_Some _ _ _ Hc0) as Hlen.
  destruct (read_fat_spec rd fs dom ok view F b c0 (vo_ok _ _ HV) (vo_sb _ _ HV) (data_table c0 (Hdc c0 Hin)))
    as (F1 & Hr & Hok1 & Hca & Hv). destruct (cached_same _ _ Hca) as (_ & E2 & _).
  pose proof (grown_cached ch F F1 HF Hok1 Hca Hv) as HG1.
  assert (Hb1 : forall i, file_byte ch F1 i = file_byte ch F i).
  { intros i. apply file_byte_same; [done|]. intros c' j Hc' Hj. by apply cbyte_view. }
  rewrite (bind_Ret _ _ _ _ _ Hr). destruct (ch !! k) as [c|] eqn:Hc.
  - pose proof (lookup_lt_Some _ _ _ Hc). replace k with (S (k - 1)) in Hc by lia. rewrite (ch_link _ _ HC _ _ _ Hc0 Hc).
    replace (S (k - 1)) with k in Hc by lia. destruct (data_range c (Hdc c (list_elem_of_lookup_2 _ _ _ Hc))) as (R & _ & _ & ->).
    rewrite Z.geb_leb, (proj2 (Z.leb_gt _ _)) by lia. exists [], c, F1. rewrite app_nil_r. split_and!; try done. lia.
  - apply lookup_ge_None in Hc. destruct Hal as [-> |?]; [|lia].
    assert (Hl : last ch = Some c0) by (rewrite last_lookup; by replace (Nat.pred (length ch)) with (k - 1)%nat by lia).
    destruct (ch_end _ _ HC c0 Hl) as [He1 He2]. rewrite i32_small by (unfold FAT32_EOC in *; lia).
    rewrite Z.geb_leb, (proj2 (Z.leb_le _ _)) by lia.
    assert (HF1 : file_ok ch F1) by (rewrite <- (app_nil_r ch); apply HG1).
    destruct (grow_run ch F1 c0 HF1 Hl ltac:(lia)) as (c & F2 & Hg & HG2 & Ed & Hb2).
    exists [c], c, F2. split_and!; [exact Hg| |congruence| | |].
    + apply (grown_trans ch [] [c] F F1 F2 HG1). by rewrite app_nil_r.
    + apply list_lookup_middle. lia.
    + rewrite length_app. cbn. lia.
    + intros i Hi. by rewrite Hb2, Hb1.
Qed.

(** Recording cluster [k] of the chain in the index. *)
Lemma push_run ch F k c d : file_ok ch F -> getde F e = d -> inodeMaxCluster d = Z.of_nat k -> clus_cnt d + 1 = Z.of_nat k ->
  (0 < k)%nat -> ch !! k = Some c ->
  exists F', (modify (setde e (fun d => with_pos (u32 c) (u32 (clus_cnt d + 1)) d)) ;;
      assert (u32 (clus_cnt d + 1) =? inodeMaxCluster d) ;;
      modify (setde e (fun d => with_index (u32 (inodeMaxCluster d + 1)) (inode d) d)) ;;
      index_put e (u32 (clus_cnt d + 1)) (u32 c) ;;
      mret (inl tt : unit + bool)) F = Ret (inl tt) F' /\
    grown ch [] F F' /\ inodeMaxCluster (getde F' e) = Z.of_nat (S k) /\ clus_cnt (getde F' e) = Z.of_nat k /\
    cur_clus (getde F' e) = c /\ forall i, 0 <= i -> file_byte ch F' i = file_byte ch F i.
Proof.
  intros HF Ed Hmx Hcnt Hk Hc. pose proof HF as [HV HC [[f I] M S' Fi Fs Cu] Hsv Bl Hlim]. rewrite Ed in *.
  pose proof (lookup_lt_Some _ _ _ Hc) as Hlt.
  destruct (data_range c (ch_data _ _ HC c (list_elem_of_lookup_2 _ _ _ Hc))) as (R & _ & -> & _).
  rewrite bind_modify, Hcnt, (u32_small (Z.of_nat k)), Hmx, Z.eqb_refl by lia. cbn [assert].
  rewrite bind_mret, bind_modify, setde_setde.
  set (F1 := setde e _ F). assert (Ed1 : getde F1 e = with_index (Z.of_nat (S k)) (inode d) (with_pos c (Z.of_nat k) d)).
  { unfold F1. rewrite getde_setde, decide_True, Ed by done. cbn. rewrite Hcnt, Hmx, !u32_small by lia. f_equal. lia. }
  rewrite Hmx, Nat2Z.id in I. assert (Hlk : length (take k ch) = k) by (rewrite length_take; lia).
  pose proof (index_of_same F F1 e (take k ch) f ltac:(by rewrite Ed1, Ed) eq_refl eq_refl I) as I1.
  rewrite Hmx in Bl. set (room := (Z.to_nat (index_blocks N - index_blocks (Z.of_nat k)))) in *.
  destruct (index_put_spec F1 e (take k ch) f c I1) as (F2 & f' & Hp & I2 & T2); [lia|exact (pool_room_two _ _ Bl)|].
  rewrite Hlk in Hp. rewrite <- (take_S_r ch k c Hc) in I2. rewrite (bind_Ret _ _ _ _ _ Hp).
  destruct (index_put_indexed e (Z.of_nat k) c F1 F2 ltac:(lia) Hp) as [X1 X2 X3 X4 (it & X5) X6].
  rewrite Ed1 in X5. cbn in X1, X2, X3. exists F2.
  assert (Hview : forall s, view F2 s = view F s) by (intros; by apply fst_view).
  assert (Hpo : pool_ok (inodeBitmap F1)) by apply (ii_pool _ _ _ _ _ (proj1 I1)).
  assert (Hb : forall i, file_byte ch F2 i = file_byte ch F i).
  { intros i. apply file_byte_same; [apply HC|]. intros c' j Hc' Hj. by apply cbyte_view. }
  split; [done|]. rewrite X5. split_and!; [|done|done|done|by intros].
  constructor.
  - rewrite app_nil_r. constructor; [| | |done| |done].
    + apply (vol_entries _ F F2 HV); [by eapply (fst_ok F), HV|done|done|]. intros; by apply entry_view.
    + eapply chained_entries; [exact HC|]. intros x Hx. by apply entry_view.
    + constructor; rewrite ?X5; cbn [inodeMaxCluster with_index cur_clus with_pos first_clus fileSystem]; try done; try lia.
      exists f'. by rewrite Nat2Z.id.
    + rewrite X5. apply (X6 _ Hpo). cbn. pose proof (index_blocks_mono (Z.of_nat k) (Z.of_nat k + 1) ltac:(lia) ltac:(lia)).
      pose proof (index_blocks_mono (Z.of_nat k + 1) N ltac:(lia) ltac:(lia)).
      replace (Z.of_nat (S k)) with (Z.of_nat k + 1) by lia. unfold room in Bl. eapply eq_ind; [exact Bl|]. lia.
  - constructor; [done| |].
    + intros x Hx. rewrite X4 by done. unfold F1. by rewrite getde_setde, decide_False.
    + exists (first_clus d), (Z.of_nat (S k)), it, c, (Z.of_nat k). rewrite X5, Ed. done.
  - assert (Hlk' : length (take (S k) ch) = S k) by (rewrite length_take; lia).
    apply (kept_step e F F2 (take k ch) (take (S k) ch) f f' I); [by rewrite Ed, Hmx, Hlk|done|by rewrite X5, Hlk'|].
    rewrite Hlk, Hlk'. rewrite Hlk in T2. replace (Z.of_nat (S k)) with (Z.of_nat k + 1) by lia.
    refine (idx_step_trans _ _ _ _ _ _ _ _ _ _ T2). by apply idx_step_same.
  - intros x Hx. by apply elem_of_nil in Hx.
  - intros x Hdx _. split; [by apply entry_view|]. intros i Hi. by apply cbyte_view.
Qed.

(** [e] stands at the last position of its index. *)
Definition at_end (ch : list Z) (F : FatS) (k : nat) : Prop :=
  (0 < k)%nat /\ inodeMaxCluster (getde F e) = Z.of_nat k /\ clus_cnt (getde F e) + 1 = Z.of_nat k /\
  ch !! (k - 1)%nat = Some (cur_clus (getde F e)).

Lemma reloc_step_run ch F k cn alloc : file_ok ch F -> at_end ch F k -> Z.of_nat k <= cn < N ->
  alloc = true \/ cn < Z.of_nat (length ch) ->
  exists xs F', reloc_step rd fs e cn alloc F = Ret (inl tt) F' /\ grown ch xs F F' /\ at_end (ch ++ xs) F' (S k) /\
    length (ch ++ xs) = Nat.max (length ch) (S k) /\ forall i, 0 <= i -> file_byte (ch ++ xs) F' i = file_byte ch F i.
Proof.
  intros HF (Hk & Hmx & Hcnt & Hcur) Hcn Hal. pose proof (fo_limit _ _ HF).
  destruct (next_run ch F k (cur_clus (getde F e)) alloc HF Hk Hcur ltac:(lia)) as (xs & c & F1 & Hn & HG1 & Ed & Hc & Hlen & Hb1).
  { destruct Hal; [by left|right; lia]. }
  destruct (push_run (ch ++ xs) F1 k c (getde F e) (gr_file _ _ _ _ HG1)) as (F2 & Hp & HG2 & Hm2 & Hc2 & Hcur2 & Hb2); try done.
  { unfold getde. by rewrite Ed. }
  exists xs, F2. split_and!; [| | |done|].
  - unfold reloc_step. rewrite bind_gets. rewrite (u32_small cn) by lia.
    rewrite Z.gtb_ltb, (proj2 (Z.ltb_lt _ cn)) by lia. cbn [negb].
    apply bind_Ret_inv in Hn as (v & Fr & Hr & Hn). rewrite (bind_Ret _ _ _ _ _ Hr). cbv zeta.
    rewrite (bind_Ret _ _ _ _ _ Hn). exact Hp.
  - pose proof (grown_trans ch xs [] F F1 F2 HG1 HG2) as H'. by rewrite app_nil_r in H'.
  - split_and!; [lia|done|lia|]. rewrite Hcur2. by replace (S k - 1)%nat with k by lia.
  - intros i Hi. by rewrite Hb2, Hb1.
Qed.

Lemma reloc_loop cn alloc fuel : forall ch F k, file_ok ch F -> at_end ch F k -> Z.of_nat k - 1 <= cn < N ->
  alloc = true \/ cn < Z.of_nat (length ch) -> cn + 1 - Z.of_nat k < Z.of_nat fuel ->
  exists xs F', loop fuel (fun _ => reloc_step rd fs e cn alloc) tt F = Ret true F' /\ grown ch xs F F' /\
    at_end (ch ++ xs) F' (S (Z.to_nat cn)) /\
    length (ch ++ xs) = Nat.max (length ch) (S (Z.to_nat cn)) /\ forall i, 0 <= i -> file_byte (ch ++ xs) F' i = file_byte ch F i.
Proof.
  induction fuel as [|fuel IH]; intros ch F k HF HA Hcn Hal Hf; [lia|]. cbn [loop]. pose proof HA as (Hk & Hmx & Hcnt & Hcur).
  pose proof (fo_limit _ _ HF). pose proof (lookup_lt_Some _ _ _ Hcur).
  destruct (decide (cn = Z.of_nat k - 1)) as [-> |Hne].
  - exists [], F. rewrite app_nil_r. split_and!.
    + unfold reloc_step. rewrite bind_gets, (u32_small (Z.of_nat k - 1)), Z.gtb_ltb, (proj2 (Z.ltb_ge _ _)) by lia. done.
    + apply grown_cached; [done|apply HF|apply cached_refl|done].
    + by replace (S (Z.to_nat (Z.of_nat k - 1))) with k by lia.
    + lia.
    + done.
  - destruct (reloc_step_run ch F k cn alloc HF HA ltac:(lia) Hal) as (xs & F1 & E & HG & HA1 & Hl1 & Hb1).
    rewrite E. cbn [obind].
    destruct (IH (ch ++ xs) F1 (S k) (gr_file _ _ _ _ HG) HA1) as (ys & F2 & E2 & HG2 & HA2 & Hl2 & Hb2); [lia| |lia|].
    { destruct Hal; [by left|right; lia]. }
    exists (xs ++ ys), F2. rewrite app_assoc. split_and!; [done|by eapply grown_trans|done|lia|].
    intros i Hi. by rewrite Hb2, Hb1.
Qed.

Lemma moved_grown ch F c pos : file_ok ch F -> c < FAT32_EOC -> let F' := setde e (with_pos c pos) F in
  grown ch [] F F' /\ forall i, file_byte ch F' i = file_byte ch F i.
Proof.
  intros HF Hc F'. pose proof HF as [HV HC HE Hsv Hbl Hl]. assert (Hv : forall s, view F' s = view F s) by (intros; by apply fst_view).
  assert (Ed : getde F' e = with_pos c pos (getde F e)) by (unfold F'; by rewrite getde_setde, decide_True).
  split.
  2: { intros i. apply file_byte_same; [apply HC|]. intros c' j Hc' Hj. by apply cbyte_view. }
  constructor.
  - rewrite app_nil_r. constructor; [| |by eapply ent_same|done|by rewrite Ed|done].
    + apply (vol_entries _ F F' HV); [by eapply (fst_ok F), HV|done|done|]. intros; by apply entry_view.
    + eapply chained_entries; [exact HC|]. intros x Hx. by apply entry_view.
  - constructor; [done| |].
    + intros x Hx. unfold F'. by rewrite getde_setde, decide_False.
    + exists (first_clus (getde F e)), (inodeMaxCluster (getde F e)), (inode (getde F e)), c, pos. rewrite Ed. by destruct (getde F e).
  - by apply kept_same; rewrite ?Ed.
  - intros x Hx. by apply elem_of_nil in Hx.
  - intros x Hdx _. split; [by apply entry_view|]. intros i Hi. by apply cbyte_view.
Qed.

Lemma find_run ch F pos c : file_ok ch F -> 0 <= pos < inodeMaxCluster (getde F e) -> ch !! Z.to_nat pos = Some c ->
  eFindInode e pos F = Ret tt (setde e (with_pos c pos) F).
Proof.
  intros HF Hp Hc. pose proof HF as [HV HC [[f I] M S' Fi Fs Cu] Hsv Bl Hlim]. unfold eFindInode.
  rewrite bind_gets, (u32_small pos), (proj2 (Z.ltb_lt pos _)) by lia. cbn [assert]. rewrite bind_mret, bind_modify.
  set (F1 := setde e (fun d => with_pos (cur_clus d) pos d) F).
  assert (I1 : index_of F1 e (take (Z.to_nat (inodeMaxCluster (getde F e))) ch) f).
  { eapply (index_of_same F); [|done|done|exact I]. unfold F1. by rewrite getde_setde, decide_True. }
  assert (Hc1 : take (Z.to_nat (inodeMaxCluster (getde F e))) ch !! Z.to_nat pos = Some c) by (rewrite lookup_take_lt by lia; done).
  rewrite (bind_Ret _ _ _ _ _ (index_get_spec F1 e _ f pos c I1 ltac:(lia) Hc1)).
  unfold modify, F1. by rewrite setde_setde.
Qed.

Lemma reloc_run ch F off alloc : file_ok ch F -> ch <> [] -> 0 <= off < 2 ^ 32 -> off / csz < N ->
  alloc = true \/ off / csz < Z.of_nat (length ch) ->
  exists xs F' r, reloc_clus rd fs e off alloc F = Ret r F' /\ grown ch xs F F' /\
    (ch ++ xs) !! Z.to_nat (off / csz) = Some (cur_clus (getde F' e)) /\
    length (ch ++ xs) = Nat.max (length ch) (S (Z.to_nat (off / csz))) /\
    forall i, 0 <= i -> file_byte (ch ++ xs) F' i = file_byte ch F i.
Proof.
  intros HF Hne Hoff HN Hal. pose proof HF as [HV HC [[f I] M S' Fi Fs Cu] Hsv Bl Hlim]. specialize (S' Hne).
  pose proof csz_pos. set (cn := off / csz) in *. assert (Hcn : 0 <= cn) by (apply Z.div_pos; lia).
  unfold reloc_clus. rewrite bind_gets. destruct ch as [|c0 ch']; [done|]. cbn in Fi.
  assert (Hd0 : data_cluster b c0) by (apply HC; by left). destruct (data_range c0 Hd0) as (R0 & _).
  rewrite Fi, (proj2 (Z.eqb_neq c0 0)) by lia. cbn [negb assert]. rewrite bind_mret, Z.gtb_ltb, (proj2 (Z.ltb_lt 0 _)) by lia.
  cbn [assert]. rewrite bind_mret.
  assert (E0 : de_item e 0 F = Ret c0 F).
  { apply de_item_ret. rewrite (ii_top _ _ _ _ _ (proj1 I)); [|lia|rewrite length_take; cbn in *; lia]. rewrite lookup_take_lt by lia. done. }
  rewrite (bind_Ret _ _ _ _ _ E0), Z.eqb_refl. cbn [assert]. rewrite bind_mret, bind_gets, (vo_sb _ _ HV). fold cn.
  rewrite (i32_small cn), (u32_small cn) by lia. set (ch := c0 :: ch') in *.
  set (mx := inodeMaxCluster (getde F e)) in *. destruct (Z.ltb_spec cn mx) as [Hlt|Hge].
  - destruct (lookup_lt_is_Some_2 ch (Z.to_nat cn)) as [c Hc]; [lia|].
    destruct (data_range c (ch_data _ _ HC c (list_elem_of_lookup_2 _ _ _ Hc))) as (R & _).
    destruct (moved_grown ch F c cn HF ltac:(lia)) as [HG Hb].
    rewrite (bind_Ret _ _ _ _ _ (find_run ch F cn c HF ltac:(lia) Hc)). eexists [], _, _. rewrite app_nil_r. split; [done|].
    split_and!; [done|by rewrite getde_setde, decide_True|lia|by intros].
  - destruct (lookup_lt_is_Some_2 ch (Z.to_nat (mx - 1))) as [c Hc]; [lia|].
    destruct (data_range c (ch_data _ _ HC c (list_elem_of_lookup_2 _ _ _ Hc))) as (R & _).
    destruct (moved_grown ch F c (mx - 1) HF ltac:(lia)) as [HG Hb].
    rewrite (i32_small (mx - 1)) by lia. rewrite (bind_Ret _ _ _ _ _ (find_run ch F (mx - 1) c HF ltac:(lia) Hc)).
    set (F1 := setde e _ F) in *. assert (HF1 : file_ok ch F1) by (rewrite <- (app_nil_r ch); apply HG).
    assert (HA : at_end ch F1 (Z.to_nat mx)).
    { unfold at_end, F1. rewrite !getde_setde, !decide_True by done. cbn. fold mx. split_and!; [lia|lia|lia|].
      by replace (Z.to_nat mx - 1)%nat with (Z.to_nat (mx - 1)) by lia. }
    destruct (reloc_loop cn alloc (S (Z.to_nat cn)) ch F1 _ HF1 HA ltac:(lia) Hal ltac:(lia)) as (xs & F2 & E & HG2 & HA2 & Hl2 & Hb2).
    rewrite (bind_Ret _ _ _ _ _ E). eexists xs, F2, _. split; [done|]. destruct HA2 as (_ & _ & _ & Hcur).
    replace (S (Z.to_nat cn) - 1)%nat with (Z.to_nat cn) in Hcur by lia.
    split_and!; [|done|done|intros i Hi; by rewrite Hb2, Hb].
    apply (grown_trans ch [] xs F F1 F2 HG). by rewrite app_nil_r.
Qed.

(** ** One cluster *)

Context {CA : Caller} (isUser : bool) (tbl : gmap Z owner) (maps : gmap (Z * Z) Z) (pf : Z -> Z).
Local Notation io_buffer := (io_buffer isUser tbl maps pf).
Local Notation addr a := (buf_addr isUser pf a).
Local Notation deliver dst bs mm := (set_mem (put_bytes isUser pf dst bs) mm).

Lemma clus_read F mm c o m dst : ok F -> sb F fs = b -> served dom b c -> 0 <= o -> 0 <= m -> o + m <= csz ->
  io_buffer mm dst m ->
  exists F', rw_clus rd fs c false isUser dst o m (mkFK F mm) =
      Ret m (mkFK F' (deliver dst (bytes_at (fun i => default 0 (cbyte F c i)) o m) mm)) /\
    ok F' /\ cached F F' /\ forall k, view F' k = view F k.
Proof.
  intros Hok Hb Hc Ho Hm Hom Hbuf. destruct (cluster_ok c Hc) as [Ef Hcl]. pose proof (lo_range L) as [_ Hr].
  pose proof (g_bytes _ _ (lo_geometry L)) as Hs. pose proof (Z.mod_pos_bound o 512 ltac:(lia)) as Hmo.
  rewrite (rw_clus_start rd fs c false isUser F mm o m dst b csz) by (done || lia). rewrite Ef.
  destruct (rw_read_loop rd fs dom ok view isUser tbl maps pf (first_sec b c) csz m o dst (S (Z.to_nat m))
    0 (o mod 512) dst (u32 (first_sec b c + o / 512)) F mm) as (F' & E & Hok' & Hca & Hv);
    rewrite ?Z.add_0_r, ?Z.mod_mod; try done; try lia.
  exists F'. rewrite !Z.add_0_r, Z.sub_0_r in E. done.
Qed.

Lemma clus_write F mm c o m src : ok F -> sb F fs = b -> served dom b c -> 0 <= o -> 0 <= m -> o + m <= csz ->
  io_buffer mm src m ->
  exists F', rw_clus rd fs c true isUser src o m (mkFK F mm) = Ret m (mkFK F' mm) /\ ok F' /\ cached F F' /\
    (forall i, 0 <= i < csz -> cbyte F' c i =
       if decide (o <= i < o + m) then Some (load8 (mem mm) (addr (src + (i - o)))) else cbyte F c i) /\
    (forall c' i, data_cluster b c' -> c' <> c -> 0 <= i < csz -> cbyte F' c' i = cbyte F c' i) /\
    forall c', 0 <= c' < 128 * fat_sz b -> entry F' c' = entry F c'.
Proof.
  intros Hok Hb Hsv Ho Hm Hom Hbuf. destruct (cluster_ok c Hsv) as [Ef Hcl]. pose proof (lo_range L) as [_ Hr]. destruct Hsv as [Hc _].
  pose proof (g_bytes _ _ (lo_geometry L)) as Hs. pose proof (Z.mod_pos_bound o 512 ltac:(lia)) as Hmo.
  rewrite (rw_clus_start rd fs c true isUser F mm o m src b csz) by (done || lia). rewrite Ef.
  destruct (rw_write_loop rd fs dom ok view isUser tbl maps pf (first_sec b c) csz m o src mm (S (Z.to_nat m))
    0 (o mod 512) src (u32 (first_sec b c + o / 512)) F) as (F' & E & Hok' & Hca & Hv & Hout);
    rewrite ?Z.add_0_r, ?Z.mod_mod; try done; try lia.
  exists F'. split_and!; try done.
  - intros i Hi. rewrite Hv by done. by rewrite Z.add_0_r.
  - intros c' i Hc' Hne Hi. unfold clus_byte. rewrite Hout; [done|]. intros i' Hi'. by apply cluster_apart.
  - intros c' Hc'. unfold fat_entry. destruct (entry_place dom b (lo_geometry L) c' Hc') as (_ & -> & Hq & _).
    rewrite Hout; [done|]. intros i' Hi'. destruct (byte_sector c i' Hc Hi') as (Hge & _). lia.
Qed.

(** ** Several clusters *)

(** The bytes moved in one turn of the loops. *)
Definition piece (off k : Z) : Z := if k <? csz - off mod csz then k else csz - off mod csz.
Lemma piece_range off k : 0 < k -> 0 < piece off k <= k /\ off mod csz + piece off k <= csz.
Proof.
  intros Hk. unfold piece. pose proof (Z.mod_pos_bound off csz csz_pos). destruct (Z.ltb_spec k (csz - off mod csz)); lia.
Qed.
Lemma piece_byte off k i : 0 <= off -> 0 < k -> off <= i < off + piece off k ->
  i / csz = off / csz /\ i mod csz = off mod csz + (i - off).
Proof.
  intros Ho Hk Hi. destruct (piece_range off k Hk) as [_ Hp]. pose proof csz_pos as Hc.
  pose proof (Z.mod_pos_bound off csz Hc). pose proof (Z.div_mod off csz ltac:(lia)).
  assert (Hq : i / csz = off / csz) by (symmetry; apply (Z.div_unique i csz (off / csz) (off mod csz + (i - off))); lia).
  split; [done|]. rewrite Z.mod_eq by lia. rewrite Hq. lia.
Qed.

Lemma get_sb_run F mm : sb F fs = b -> get_sb fs (mkFK F mm) = Ret b (mkFK F mm).
Proof. intros E. unfold get_sb. by rewrite (lift_fat _ F mm b F) by by unfold gets; rewrite E. Qed.
Lemma de_run F mm x : de x (mkFK F mm) = Ret (getde F x) (mkFK F mm).
Proof. done. Qed.

(** Clusters give the bytes of the file. *)
Lemma piece_bytes ch F c off k : 0 <= off -> 0 < k -> ch !! Z.to_nat (off / csz) = Some c ->
  bytes_at (fun i => default 0 (cbyte F c i)) (off mod csz) (piece off k) = bytes_at (file_byte ch F) off (piece off k).
Proof.
  intros Ho Hk Hc. apply list_eq. intros i. destruct (decide (i < Z.to_nat (piece off k))%nat) as [Hi|Hi].
  - rewrite !bytes_at_lookup by done. f_equal. unfold file_byte.
    destruct (piece_byte off k (off + Z.of_nat i)) as [E1 E2]; [lia|lia|lia|]. rewrite E1, Hc, E2. do 2 f_equal. lia.
  - rewrite !lookup_ge_None_2; [done|rewrite length_bytes_at; lia..].
Qed.

Lemma eread_step_run ch F mm n tot off dst : file_ok ch F -> 0 <= tot < n -> 0 <= off < 2 ^ 32 ->
  off + (n - tot) <= csz * Z.of_nat (length ch) -> io_buffer mm dst (n - tot) ->
  exists F', let m := piece off (n - tot) in
    eread_step rd fs e isUser n (tot, off, dst) (mkFK F mm) =
      Ret (inl (tot + m, u32 (off + m), u64 (dst + m))) (mkFK F' (deliver dst (bytes_at (file_byte ch F) off m) mm)) /\
    grown ch [] F F' /\ (forall i, 0 <= i -> file_byte ch F' i = file_byte ch F i).
Proof.
  intros HF Ht Hoff Hlen Hbuf. destruct (piece_range off (n - tot) ltac:(lia)) as [Hp Hfit]. pose proof csz_pos as Hcz.
  assert (Hq : 0 <= off / csz < Z.of_nat (length ch)) by (split; [apply Z.div_pos; lia|apply Z.div_lt_upper_bound; lia]).
  pose proof (fo_limit _ _ HF). assert (Hne : ch <> []) by (intros ->; cbn in Hq; lia).
  destruct (reloc_run ch F off false HF Hne Hoff ltac:(lia) ltac:(right; lia)) as (xs & F1 & r & Er & HG & Hcur & Hlx & Hb1).
  assert (xs = []) as -> by (rewrite length_app in Hlx; destruct xs; cbn in *; [done|lia]). rewrite app_nil_r in *.
  assert (HF1 : file_ok ch F1) by (rewrite <- (app_nil_r ch); apply HG). set (c := cur_clus (getde F1 e)) in *.
  assert (Hsv : served dom b c) by (apply (fo_served _ _ HF1); by eapply list_elem_of_lookup_2).
  pose proof (fo_vol _ _ HF1) as HV1. pose proof (Z.mod_pos_bound off csz Hcz) as Hmo.
  destruct (clus_read F1 mm c (off mod csz) (piece off (n - tot)) dst (vo_ok _ _ HV1) (vo_sb _ _ HV1) Hsv ltac:(lia) ltac:(lia) ltac:(lia))
    as (F2 & Ew & Hok2 & Hca & Hv2); [eapply io_buffer_sub; [exact Hbuf|lia|lia]|].
  rewrite (piece_bytes ch F1 c off (n - tot) ltac:(lia) ltac:(lia) Hcur) in Ew. set (m := piece off (n - tot)) in *.
  rewrite (bytes_at_ext _ (file_byte ch F)) in Ew by (intros i Hi; apply Hb1; lia).
  pose proof (grown_cached ch F1 F2 HF1 Hok2 Hca Hv2) as HG2. exists F2. cbv zeta. fold m. split_and!.
  - unfold eread_step. rewrite (bind_Ret _ _ _ _ _ (de_run F mm e)).
    rewrite (proj2 (Z.ltb_lt _ _) (eo_cur _ _ (fo_ent _ _ HF))), (proj2 (Z.ltb_lt tot n)) by lia. cbn [andb].
    rewrite (bind_Ret _ _ _ _ _ (lift_fat _ F mm _ _ Er)), (bind_Ret _ _ _ _ _ (get_sb_run F1 mm (vo_sb _ _ HV1))).
    rewrite (bind_Ret _ _ _ _ _ (de_run F1 mm e)). fold c. fold (piece off (n - tot)). fold m.
    rewrite (bind_Ret _ _ _ _ _ Ew), Z.eqb_refl. done.
  - apply (grown_trans ch [] [] F F1 F2 HG). by rewrite app_nil_r.
  - intros i Hi. rewrite <- Hb1 by done. apply file_byte_same; [apply HF1|]. intros c' j Hc' Hj. by apply cbyte_view.
Qed.

Lemma eread_loop ch n o dst fuel : forall tot F mm, file_ok ch F -> 0 <= tot <= n -> n - tot < Z.of_nat fuel -> 0 <= o -> o + n < 2 ^ 32 ->
  o + n <= csz * Z.of_nat (length ch) \/ n = 0 -> io_buffer mm dst n ->
  exists F', loop fuel (eread_step rd fs e isUser n) (tot, o + tot, dst + tot) (mkFK F mm) =
      Ret n (mkFK F' (deliver (dst + tot) (bytes_at (file_byte ch F) (o + tot) (n - tot)) mm)) /\
    grown ch [] F F' /\ (forall i, 0 <= i -> file_byte ch F' i = file_byte ch F i).
Proof.
  induction fuel as [|fuel IH]; intros tot F mm HF Ht Hf Ho Hon Hlen Hbuf; [lia|]. cbn [loop].
  destruct (decide (tot = n)) as [-> |Hne].
  { exists F. split_and!; [|apply grown_cached; [done|apply HF|apply cached_refl|done]|done].
    rewrite Z.sub_diag, bytes_at_zero. cbn [put_bytes]. rewrite set_mem_id.
    unfold eread_step. by rewrite (bind_Ret _ _ _ _ _ (de_run F mm e)), (proj2 (Z.ltb_ge n n)), andb_false_r by lia. }
  pose proof Hbuf as (Hd & Hdn & _).
  destruct (eread_step_run ch F mm n tot (o + tot) (dst + tot)) as (F1 & E & HG1 & Hb1); [done|lia..|eapply io_buffer_sub; [exact Hbuf|lia|lia]|].
  cbv zeta in *. destruct (piece_range (o + tot) (n - tot) ltac:(lia)) as [Hp Hfit]. set (m := piece (o + tot) (n - tot)) in *.
  rewrite E. cbn [obind]. rewrite (u64_small (dst + tot + m)), (u32_small (o + tot + m)) by lia.
  replace (o + tot + m) with (o + (tot + m)) by lia. replace (dst + tot + m) with (dst + (tot + m)) by lia.
  assert (HF1 : file_ok ch F1) by (rewrite <- (app_nil_r ch); apply HG1).
  assert (Hlb : Z.of_nat (length (bytes_at (file_byte ch F) (o + tot) m)) = m) by (rewrite length_bytes_at; lia).
  destruct (IH (tot + m) F1 (deliver (dst + tot) (bytes_at (file_byte ch F) (o + tot) m) mm) HF1) as (F' & E' & HG' & Hb'); [lia..|by apply io_buffer_put; [|lia|lia]|].
  exists F'. split_and!; [|apply (grown_trans ch [] [] F F1 F' HG1); by rewrite app_nil_r|intros i Hi; by rewrite Hb', Hb1].
  rewrite E'. do 2 f_equal. replace (n - tot) with (m + (n - (tot + m))) by lia. rewrite bytes_at_app, set_mem_put_app, Hlb by lia.
  replace (dst + tot + m) with (dst + (tot + m)) by lia. replace (o + tot + m) with (o + (tot + m)) by lia.
  do 2 f_equal. apply bytes_at_ext. intros i Hi. apply Hb1. lia.
Qed.

Lemma wrote_grown ch F F' c : file_ok ch F -> c ∈ ch -> ok F' -> cached F F' ->
  (forall c' i, data_cluster b c' -> c' <> c -> 0 <= i < csz -> cbyte F' c' i = cbyte F c' i) ->
  (forall c', 0 <= c' < 128 * fat_sz b -> entry F' c' = entry F c') -> grown ch [] F F'.
Proof.
  intros HF Hc Hok Hca Hby He. destruct (cached_same _ _ Hca) as (E1 & E2 & E3 & E4 & _). constructor.
  - rewrite app_nil_r. by apply (file_cached ch F F').
  - by apply steady_same.
  - by apply kept_dents.
  - intros x Hx. by apply elem_of_nil in Hx.
  - intros x Hd Hx. rewrite app_nil_r in Hx. split; [apply He; by apply data_range|]. intros i Hi. apply Hby; [done| |done]. by intros ->.
Qed.

Lemma ewrite_step_run ch F mm n tot off src : file_ok ch F -> ch <> [] -> 0 <= tot < n -> 0 <= off < 2 ^ 32 ->
  off + (n - tot) <= csz * N -> io_buffer mm src (n - tot) ->
  exists xs F', let m := piece off (n - tot) in
    ewrite_step rd fs e isUser n (tot, off, src) (mkFK F mm) = Ret (inl (tot + m, u32 (off + m), u64 (src + m))) (mkFK F' mm) /\
    grown ch xs F F' /\ length (ch ++ xs) = Nat.max (length ch) (S (Z.to_nat (off / csz))) /\
    forall i, 0 <= i -> file_byte (ch ++ xs) F' i =
      if decide (off <= i < off + m) then load8 (mem mm) (addr (src + (i - off))) else file_byte ch F i.
Proof.
  intros HF Hne Ht Hoff Hlen Hbuf. destruct (piece_range off (n - tot) ltac:(lia)) as [Hp Hfit]. pose proof csz_pos as Hcz.
  assert (Hq : 0 <= off / csz < N) by (split; [apply Z.div_pos; lia|apply Z.div_lt_upper_bound; lia]).
  destruct (reloc_run ch F off true HF Hne Hoff ltac:(lia) ltac:(by left)) as (xs & F1 & r & Er & HG & Hcur & Hlx & Hb1).
  pose proof (gr_file _ _ _ _ HG) as HF1. pose proof (fo_vol _ _ HF1) as HV1. set (c := cur_clus (getde F1 e)) in *.
  assert (Hin : c ∈ ch ++ xs) by by eapply list_elem_of_lookup_2. pose proof (ch_data _ _ (fo_chain _ _ HF1)) as Hdat.
  set (m := piece off (n - tot)) in *. pose proof (Z.mod_pos_bound off csz Hcz) as Hmo.
  destruct (clus_write F1 mm c (off mod csz) m src (vo_ok _ _ HV1) (vo_sb _ _ HV1) (fo_served _ _ HF1 c Hin) ltac:(lia) ltac:(lia) ltac:(lia))
    as (F2 & Ew & Hok2 & Hca & Hw & Hout & Hent); [eapply io_buffer_sub; [exact Hbuf|lia|lia]|].
  exists xs, F2. cbv zeta. fold m. split_and!; [| |done|].
  - unfold ewrite_step. rewrite (proj2 (Z.ltb_lt tot n)) by lia.
    rewrite (bind_Ret _ _ _ _ _ (lift_fat _ F mm _ _ Er)), (bind_Ret _ _ _ _ _ (get_sb_run F1 mm (vo_sb _ _ HV1))).
    rewrite (bind_Ret _ _ _ _ _ (de_run F1 mm e)). fold c. fold (piece off (n - tot)). fold m.
    rewrite (bind_Ret _ _ _ _ _ Ew), Z.eqb_refl. done.
  - rewrite <- (app_nil_r xs). apply (grown_trans ch xs [] F F1 F2 HG). by apply (wrote_grown _ _ _ c).
  - intros i Hi. rewrite <- Hb1 by done. unfold file_byte. pose proof (Z.mod_pos_bound i csz Hcz) as Hmi.
    pose proof (Z.div_mod off csz ltac:(lia)). pose proof (Z.div_mod i csz ltac:(lia)).
    assert (Hqi : 0 <= i / csz) by (apply Z.div_pos; lia). destruct (decide (i / csz = off / csz)) as [Eq|Nq].
    + rewrite Eq, Hcur, Hw by done. destruct (decide (off <= i < off + m)) as [Hi2|Hi2].
      * destruct (piece_byte off (n - tot) i) as [_ E2]; [lia|lia|done|]. rewrite decide_True by lia. cbn. do 2 f_equal. lia.
      * rewrite decide_False; [done|]. rewrite Eq in *. lia.
    + rewrite decide_False; [|intros Hi2; apply Nq; by destruct (piece_byte off (n - tot) i) as [? _]; [lia|lia|done|]].
      destruct ((ch ++ xs) !! Z.to_nat (i / csz)) as [ci|] eqn:Hci; [|done].
      rewrite Hout; [done|by apply Hdat; eapply list_elem_of_lookup_2| |done].
      intros ->. apply Nq. pose proof (NoDup_lookup _ _ _ _ (ch_nodup _ _ (fo_chain _ _ HF1)) Hci Hcur). lia.
Qed.

Lemma ewrite_loop n o src mm fuel : forall tot ch F, file_ok ch F -> ch <> [] -> 0 <= tot <= n -> n - tot < Z.of_nat fuel -> 0 <= o ->
  o + n < 2 ^ 32 -> o + n <= csz * N -> io_buffer mm src n ->
  exists xs F', loop fuel (ewrite_step rd fs e isUser n) (tot, o + tot, src + tot) (mkFK F mm) = Ret (n, o + n) (mkFK F' mm) /\
    grown ch xs F F' /\
    Z.of_nat (length (ch ++ xs)) = Z.max (Z.of_nat (length ch)) (if tot <? n then (o + n - 1) / csz + 1 else 0) /\
    forall i, 0 <= i -> file_byte (ch ++ xs) F' i =
      if decide (o + tot <= i < o + n) then load8 (mem mm) (addr (src + (i - o))) else file_byte ch F i.
Proof.
  induction fuel as [|fuel IH]; intros tot ch F HF Hne Ht Hf Ho Hon Hlen Hbuf; [lia|]. cbn [loop]. pose proof csz_pos as Hcz.
  destruct (Z.ltb_spec tot n) as [Hlt|Hge].
  2: { assert (tot = n) as -> by lia. exists [], F. rewrite app_nil_r. split_and!; [|apply grown_cached; [done|apply HF|apply cached_refl|done]|lia|].
    - unfold ewrite_step. rewrite (proj2 (Z.ltb_ge n n)) by lia. done.
    - intros i Hi. by rewrite decide_False by lia. }
  pose proof Hbuf as (Hs & Hsn & _).
  destruct (ewrite_step_run ch F mm n tot (o + tot) (src + tot)) as (xs & F1 & E & HG1 & Hl1 & Hb1);
    [done|done|lia..|eapply io_buffer_sub; [exact Hbuf|lia|lia]|].
  cbv zeta in *. destruct (piece_range (o + tot) (n - tot) ltac:(lia)) as [Hp Hfit].
  pose proof (piece_byte (o + tot) (n - tot) (o + n - 1) ltac:(lia) ltac:(lia)) as Hpb. set (m := piece (o + tot) (n - tot)) in *.
  rewrite E. cbn [obind]. rewrite (u64_small (src + tot + m)), (u32_small (o + tot + m)) by lia.
  replace (o + tot + m) with (o + (tot + m)) by lia. replace (src + tot + m) with (src + (tot + m)) by lia.
  destruct (IH (tot + m) (ch ++ xs) F1 (gr_file _ _ _ _ HG1)) as (ys & F' & E' & HG' & Hl' & Hb'); [by destruct ch|lia..|done|].
  assert (0 <= (o + tot) / csz) by (apply Z.div_pos; lia).
  exists (xs ++ ys), F'. rewrite app_assoc. split_and!; [exact E'|by eapply grown_trans| |].
  - rewrite Hl', Hl1. destruct (Z.ltb_spec (tot + m) n) as [Hm|Hm].
    + pose proof (Z.div_le_mono (o + tot) (o + n - 1) csz Hcz ltac:(lia)). lia.
    + destruct Hpb as [-> _]; lia.
  - intros i Hi. rewrite Hb' by done. case_decide as H1; [by rewrite decide_True by lia|]. rewrite Hb1 by done.
    destruct (decide (o + tot <= i < o + n)); [rewrite decide_True by lia|by rewrite decide_False by lia]. do 2 f_equal. lia.
Qed.

(** The first cluster of an empty file. *)
Lemma first_run F : file_ok [] F -> 0 < N ->
  exists c F1, alloc_clus rd fs F = Ret c F1 /\ c <> 0 /\
    let F' := setde e (fun d => with_file c (file_size d) (with_pos c 0 (with_index 1 (<[0%nat := c]> (inode d)) d))) F1 in
    grown [] [c] F F' /\ forall i, 0 <= i -> file_byte [c] F' i = file_byte [] F i.
Proof.
  intros HF HN. pose proof HF as [H1 H2 [[f I] M S' Fi Fs Cu] Hsv Bl H4]. cbn in H1, M. rewrite Nat.sub_0_r in H1.
  replace (Z.to_nat N) with (S (Z.to_nat N - 1)) in H1 by lia.
  destruct (alloc_run _ F H1) as (c & F1 & Ha & HV1 & (B & g & EF) & Hsc & Hz & Hn & Ho & Hzero & Hby). pose proof Hsc as [Hd _].
  destruct (data_range c Hd) as (R & _). exists c, F1. split; [done|]. split; [lia|]. intros F'.
  assert (Hmx : inodeMaxCluster (getde F e) = 0) by lia. rewrite Hmx in *. cbn [Z.to_nat take] in I.
  assert (Ed1 : getde F1 e = getde F e) by (subst F1; done).
  assert (Ed : getde F' e = with_file c (file_size (getde F e)) (with_pos c 0 (with_index 1 (<[0%nat := c]> (inode (getde F e))) (getde F e)))).
  { unfold F'. by rewrite getde_setde, decide_True, Ed1. }
  assert (Hv : forall s, view F' s = view F1 s) by (intros; by apply fst_view).
  assert (He : forall x, 0 <= x < 128 * fat_sz b -> entry F' x = entry F1 x) by (intros; by apply entry_view).
  assert (Hc' : forall x i, data_cluster b x -> 0 <= i < csz -> cbyte F' x i = cbyte F1 x i) by (intros; by apply cbyte_view).
  destruct (index_put_spec F e [] f c I) as (F2 & f' & Hp & I2 & T2); [cbn; lia|exact (pool_room_two _ _ Bl)|].
  assert (I3 : index_of F' e [c] f').
  { injection Hp as <-. refine (index_of_same _ F' e _ f' _ _ _ I2); [|subst F1; done..].
    rewrite Ed, getde_setde, decide_True by done. done. }
  split; [constructor|].
  - cbn [app]. constructor; [| | |by intros x ->%list_elem_of_singleton| |cbn; lia].
    + cbn [length]. apply (vol_entries _ F1 F' HV1); [by eapply (fst_ok F1), HV1|done|done|done].
    + constructor; [by intros x ->%list_elem_of_singleton|apply NoDup_singleton| |].
      * intros [|i] x x' Hx Hx'; done.
      * intros x [= <-]. rewrite He by (by apply data_range). rewrite Hn. unfold FAT32_EOC. lia.
    + constructor; rewrite ?Ed; cbn [inodeMaxCluster with_index with_file with_pos first_clus fileSystem cur_clus]; try done; try (cbn; lia).
      exists f'. exact I3.
    + rewrite Ed. subst F1. exact Bl.
  - constructor.
    + subst F1. done.
    + intros x Hx. unfold F'. rewrite getde_setde, decide_False by done. subst F1. done.
    + exists c, 1, (<[0%nat := c]> (inode (getde F e))), c, 0. by rewrite Ed.
  - apply (kept_step e F F' [] [c] f f' I); [done|done|by rewrite Ed|]. injection Hp as <-.
    refine (idx_step_trans _ _ _ _ _ _ _ _ _ T2 _). subst F1. by apply idx_step_same.
  - by intros x ->%list_elem_of_singleton.
  - intros x Hdx Hx. assert (x <> c) by (intros ->; apply Hx; by left).
    split; [rewrite He, Ho; [done|by apply data_range|done|by apply data_range]|]. intros i Hi. by rewrite Hc', Hby.
  - intros i Hi. apply (file_byte_push [] c F F' i Hi); [by intros x Hx%elem_of_nil| |by intros x j Hx%elem_of_nil].
    intros j Hj. by rewrite Hc', Hzero.
Qed.

(** ** The functions *)

(** Neither a device nor a directory. *)
Definition plain_file (F : FatS) : Prop :=
  let d := getde F e in
  de_dev d <> DEV_ZERO /\ de_dev d <> DEV_OSRELEASE /\ de_dev d <> DEV_NONE /\ has (attribute d) ATTR_DIRECTORY = false /\
  has (attribute d) ATTR_READ_ONLY = false /\ 0 <= file_size d < 2 ^ 32.

Lemma plain_steady F F' : steady e F F' -> plain_file F -> plain_file F' /\ file_size (getde F' e) = file_size (getde F e).
Proof. intros [_ _ (c & mx & it & cur & cnt & E)] H. unfold plain_file. by rewrite E. Qed.

Lemma eread_run ch F mm dst o n : file_ok ch F -> plain_file F -> 0 <= o <= file_size (getde F e) -> 0 <= n -> o + n < 2 ^ 32 ->
  file_size (getde F e) <= csz * Z.of_nat (length ch) ->
  let k := Z.min n (file_size (getde F e) - o) in io_buffer mm dst k ->
  exists F', eread rd e isUser dst o n (mkFK F mm) = Ret k (mkFK F' (deliver dst (bytes_at (file_byte ch F) o k) mm)) /\
    grown ch [] F F' /\ (forall i, 0 <= i -> file_byte ch F' i = file_byte ch F i).
Proof.
  intros HF (P1 & P2 & P3 & P4 & P5 & P6) Ho Hn Hon Hsz k Hbuf. unfold eread. rewrite (bind_Ret _ _ _ _ _ (de_run F mm e)).
  rewrite (proj2 (Z.eqb_neq _ _) P1), (proj2 (Z.eqb_neq _ _) P2), P4.
  rewrite (u32_small (o + n)) by lia. rewrite Z.gtb_ltb, (proj2 (Z.ltb_ge (file_size (getde F e)) o)), (proj2 (Z.ltb_ge (o + n) o)) by lia.
  cbn [orb]. rewrite (eo_fs _ _ (fo_ent _ _ HF)).
  assert (Ek : (if o + n >? file_size (getde F e) then file_size (getde F e) - o else n) = k).
  { unfold k. rewrite Z.gtb_ltb. destruct (Z.ltb_spec (file_size (getde F e)) (o + n)); lia. }
  rewrite Ek. pose proof (eread_loop ch k o dst (S (Z.to_nat k)) 0 F mm HF) as Hl. rewrite !Z.add_0_r, Z.sub_0_r in Hl.
  apply Hl; [lia..|done].
Qed.

(** Nothing is read behind the end. *)
Lemma eread_past F mm dst o n : plain_file F -> file_size (getde F e) < o ->
  eread rd e isUser dst o n (mkFK F mm) = Ret 0 (mkFK F mm).
Proof.
  intros (P1 & P2 & P3 & P4 & P5 & P6) Ho. unfold eread. rewrite (bind_Ret _ _ _ _ _ (de_run F mm e)).
  rewrite (proj2 (Z.eqb_neq _ _) P1), (proj2 (Z.eqb_neq _ _) P2), P4. by rewrite Z.gtb_ltb, (proj2 (Z.ltb_lt _ o)).
Qed.

Lemma grown_sized ch xs F F' sz : grown ch xs F F' ->
  let F2 := setde e (fun d => with_file (first_clus d) sz d) F' in
  file_ok (ch ++ xs) F2 /\ kept e F F2 /\ (forall i, file_byte (ch ++ xs) F2 i = file_byte (ch ++ xs) F' i) /\
  forall c, data_cluster b c -> c ∉ ch ++ xs -> entry F2 c = entry F c /\ forall i, 0 <= i < csz -> cbyte F2 c i = cbyte F c i.
Proof.
  intros [[HV HC [[f I] M S' Fi Fs Cu] Hsv Bl Hl] _ HK _ Hot] F2. assert (Hv : forall s, view F2 s = view F' s) by (intros; by apply fst_view).
  assert (Ed : getde F2 e = with_file (first_clus (getde F' e)) sz (getde F' e)) by (unfold F2; by rewrite getde_setde, decide_True).
  split_and!.
  - constructor; [| | |done|by rewrite Ed|done].
    + apply (vol_entries _ F' F2 HV); [by eapply (fst_ok F'), HV|done|done|]. intros; by apply entry_view.
    + eapply chained_entries; [exact HC|]. intros x Hx. by apply entry_view.
    + constructor; rewrite ?Ed; try done. exists f. eapply (index_of_same F'); [by rewrite Ed|done|done|done].
  - eapply kept_trans; [exact HK|]. by apply kept_same; rewrite ?Ed.
  - intros i. apply file_byte_same; [apply HC|]. intros c' j Hc' Hj. by apply cbyte_view.
  - intros c Hd Hc. destruct (Hot c Hd Hc) as [E1 E2]. split.
    + rewrite <- E1. by apply entry_view.
    + intros i Hi. rewrite <- E2 by done. by apply cbyte_view.
Qed.

(** The state after [n] bytes were written at [o]. *)
Record written (ch xs : list Z) (F F' : FatS) (o n : Z) (bytes : Z -> Z) : Prop := {
  wr_file : file_ok (ch ++ xs) F';
  wr_plain : plain_file F';
  wr_size : file_size (getde F' e) = Z.max (file_size (getde F e)) (o + n);
  wr_length : Z.of_nat (length (ch ++ xs)) = Z.max (Z.of_nat (length ch)) ((o + n - 1) / csz + 1);
  wr_bytes : forall i, 0 <= i -> file_byte (ch ++ xs) F' i = if decide (o <= i < o + n) then bytes (i - o) else file_byte ch F i;
  wr_free : forall c, c ∈ xs -> entry F c = 0;
  wr_other : forall c, data_cluster b c -> c ∉ ch ++ xs ->
    entry F' c = entry F c /\ forall i, 0 <= i < csz -> cbyte F' c i = cbyte F c i;
  wr_kept : kept e F F';
  wr_entries : forall x, x <> e -> getde F' x = getde F x;
}.

Lemma ewrite_run ch F mm src o n : file_ok ch F -> plain_file F -> 0 <= o -> 0 < n -> o + n < 2 ^ 32 ->
  o + n <= csz * N -> io_buffer mm src n ->
  exists xs F', ewrite rd e isUser src o n (mkFK F mm) = Ret n (mkFK F' mm) /\
    written ch xs F F' o n (fun j => load8 (mem mm) (addr (src + j))).
Proof.
  intros HF HP Ho Hn Hon Hlen Hbuf. pose proof HP as (P1 & P2 & P3 & P4 & P5 & P6). pose proof csz_pos as Hcz.
  unfold ewrite. rewrite (bind_Ret _ _ _ _ _ (de_run F mm e)), (proj2 (Z.eqb_neq _ _) P3), P5.
  rewrite (u32_small (o + n)), (proj2 (Z.ltb_ge (o + n) o)), Z.gtb_ltb, (proj2 (Z.ltb_ge 0xffffffff (o + n))) by lia. cbn [orb].
  rewrite (eo_fs _ _ (fo_ent _ _ HF)), (eo_first _ _ (fo_ent _ _ HF)).
  assert (Hq : 0 <= (o + n - 1) / csz) by (apply Z.div_pos; lia).
  (* the first cluster *)
  assert (H0 : exists ys F1, (when (default 0 (head ch) =? 0)
      (c ← lift (alloc_clus rd fs); upd_de e (fun d => with_file c (file_size d) (with_pos c 0 (with_index 1 (<[0%nat := c]> (inode d)) d)))))
      (mkFK F mm) = Ret tt (mkFK F1 mm) /\ grown ch ys F F1 /\ ch ++ ys <> [] /\ (length ys <= 1)%nat /\ (ys <> [] -> ch = []) /\
      forall i, 0 <= i -> file_byte (ch ++ ys) F1 i = file_byte ch F i).
  { destruct ch as [|c0 ch'].
    - destruct (first_run F HF ltac:(nia)) as (c & F1 & Ha & _ & HG & Hb). eexists [c], _. cbn [app head default].
      split; [|split_and!; [exact HG|done|cbn; lia|done|exact Hb]].
      cbn [Z.eqb when]. by rewrite (bind_Ret _ _ _ _ _ (lift_fat _ F mm _ _ Ha)).
    - exists [], F. rewrite app_nil_r. pose proof (data_range c0 (ch_data _ _ (fo_chain _ _ HF) c0 ltac:(by left))).
      split; [|split_and!; [apply grown_cached; [done|apply HF|apply cached_refl|done]|done|cbn; lia|done|done]].
      cbn. by rewrite (proj2 (Z.eqb_neq c0 0)) by lia. }
  destruct H0 as (ys & F1 & E0 & HG0 & Hne & Hly & Hch & Hb0). rewrite (bind_Ret _ _ _ _ _ E0).
  pose proof (ewrite_loop n o src mm (S (Z.to_nat n)) 0 (ch ++ ys) F1 (gr_file _ _ _ _ HG0) Hne) as Hl. rewrite !Z.add_0_r in Hl.
  destruct Hl as (zs & F2 & E & HG2 & Hl2 & Hb2); [lia..|done|]. rewrite (bind_Ret _ _ _ _ _ E).
  pose proof (grown_trans ch ys zs F F1 F2 HG0 HG2) as HG. rewrite <- app_assoc in Hl2, Hb2.
  destruct (plain_steady F F2 (gr_steady _ _ _ _ HG) HP) as [HP2 Hsz].
  assert (Hlen2 : Z.of_nat (length (ch ++ ys ++ zs)) = Z.max (Z.of_nat (length ch)) ((o + n - 1) / csz + 1)).
  { rewrite Hl2, (proj2 (Z.ltb_lt 0 n)), length_app by lia. destruct ys as [|y [|]]; [cbn; lia| |cbn in Hly; lia].
    rewrite Hch by done. cbn. lia. }
  assert (Hb : forall i, 0 <= i -> file_byte (ch ++ ys ++ zs) F2 i = if decide (o <= i < o + n) then load8 (mem mm) (addr (src + (i - o))) else file_byte ch F i).
  { intros i Hi. rewrite Hb2 by done. case_decide; [done|by apply Hb0]. }
  destruct (gr_steady _ _ _ _ HG) as [_ S2 _]. exists (ys ++ zs).
  assert (En : (n >? 0) = true) by (apply Z.gtb_lt; lia). rewrite En.
  rewrite (bind_Ret _ _ _ tt (mkFK (if o + n >? file_size (getde F e) then setde e (fun d => with_file (first_clus d) (o + n) d) F2 else F2) mm)).
  2: { unfold when at 1. rewrite (bind_Ret _ _ _ _ _ (de_run F2 mm e)), Hsz. by destruct (o + n >? file_size (getde F e)). }
  rewrite Z.gtb_ltb. destruct (Z.ltb_spec (file_size (getde F e)) (o + n)) as [Hg|Hg].
  - eexists. split; [done|]. destruct (grown_sized ch (ys ++ zs) F F2 (o + n) HG) as (W1 & WK & W2 & W3). set (F3 := setde e _ F2) in *.
    assert (Ed : getde F3 e = with_file (first_clus (getde F2 e)) (o + n) (getde F2 e)) by (unfold F3; by rewrite getde_setde, decide_True).
    constructor; [done| | |done| |apply HG|done|done|].
    + destruct HP2 as (Q1 & Q2 & Q3 & Q4 & Q5 & Q6). unfold plain_file. rewrite Ed. cbn. split_and!; [done..|lia|lia].
    + rewrite Ed. cbn. lia.
    + intros i Hi. by rewrite W2, Hb.
    + intros x Hx. unfold F3. rewrite getde_setde, decide_False by done. by apply S2.
  - exists F2. split; [done|]. constructor; [apply HG|done|lia|done|done|apply HG|apply HG|apply HG|done].
Qed.

End file.

(** ** Writing, then reading *)

(** C7. A file is a sequence of bytes.  On the buffer cache, for a working set [dom] of sectors that
    holds the table and the clusters of the file, for a file with the chain of clusters [ch]
    (maybe none), whose index holds a first part of them, on a volume on which it can grow to [N]
    clusters of the working set, for every offset and length within these, and for
    buffers in the kernel or in private pages of the user: [ewrite] writes all [n] bytes; the
    chain is extended, exactly as far as the bytes reach, by clusters that were free; every other byte
    of the file keeps its value, and is zero where there was no cluster; the size grows to cover
    the bytes; the table and the data of every other cluster of the volume and every other entry
    are unchanged.  [eread] of the same range then delivers exactly these bytes, into the kernel or
    to the user, and changes no other memory and no byte of the file; and a read of any range of
    the file before the write returns what is left before its end, and delivers its bytes. *)
Theorem ewrite_eread {CA : Caller} (wUser rUser : bool) tbl maps pf depth fs dv dom b e N top ch F mm src dst o n :
  let rd := fs_read (S depth) in let view := cache_view dv in let file_ok := file_ok fs dom (cache_ok fs dv dom) view b e N top in
  0 <= dv < 2 ^ 31 -> (forall n, dom n -> 0 <= n < 2 ^ 32) -> layout_ok dom b ->
  file_ok ch F -> plain_file e F -> 0 <= o -> 0 < n -> o + n < 2 ^ 32 ->
  o + n <= byts_per_clus b * N -> file_size (getde F e) <= byts_per_clus b * Z.of_nat (length ch) ->
  io_buffer wUser tbl maps pf mm src n -> io_buffer rUser tbl maps pf mm dst n ->
  exists xs F1 F2, ewrite rd e wUser src o n (mkFK F mm) = Ret n (mkFK F1 mm) /\
    written fs dom (cache_ok fs dv dom) view b e N top ch xs F F1 o n (fun j => load8 (mem mm) (buf_addr wUser pf (src + j))) /\
    eread rd e rUser dst o n (mkFK F1 mm) =
      Ret n (mkFK F2 (set_mem (put_bytes rUser pf dst (buf_bytes wUser mm pf src (Z.to_nat n))) mm)) /\
    grown fs dom (cache_ok fs dv dom) view b e N top (ch ++ xs) [] F1 F2 /\
    (forall i, 0 <= i -> file_byte view b (ch ++ xs) F2 i = file_byte view b (ch ++ xs) F1 i) /\
    (forall q, 0 <= q <= file_size (getde F e) -> q + n < 2 ^ 32 -> let k := Z.min n (file_size (getde F e) - q) in
       exists F3, eread rd e rUser dst q n (mkFK F mm) =
           Ret k (mkFK F3 (set_mem (put_bytes rUser pf dst (bytes_at (file_byte view b ch F) q k)) mm)) /\
         file_ok ch F3).
Proof.
  intros rd view fok Hdv Hdom L HF HP Ho Hn Hon Hlen Hsz Hbw Hbr. pose proof (csz_pos dom b L) as Hcz.
  pose proof (cache_files fs dv dom depth Hdv Hdom) as FS.
  destruct (ewrite_run _ fs dom _ view b e N top L wUser tbl maps pf ch F mm src o n) as (xs & F1 & E1 & W); [done..|].
  pose proof W as [W1 W2 W3 W4 W5 _ _ _ _].
  pose proof (Z.div_mod (o + n - 1) (byts_per_clus b) ltac:(lia)). pose proof (Z.mod_pos_bound (o + n - 1) _ Hcz).
  assert (Hsz1 : file_size (getde F1 e) <= byts_per_clus b * Z.of_nat (length (ch ++ xs))) by (rewrite W3, W4; nia).
  assert (Hk : Z.min n (file_size (getde F1 e) - o) = n) by lia.
  destruct (eread_run _ fs dom _ view b e N top L rUser tbl maps pf (ch ++ xs) F1 mm dst o n) as (F2 & E2 & HG2 & Hb2);
    [done|done|lia..|by rewrite Hk|]. rewrite Hk in E2.
  exists xs, F1, F2. split_and!; [done|done| |done|done|].
  - unfold rd. rewrite E2. do 5 f_equal. apply list_eq. intros i. destruct (decide (i < Z.to_nat n)%nat) as [Hi|Hi].
    + rewrite bytes_at_lookup, buf_bytes_lookup, W5, decide_True by lia. do 4 f_equal. lia.
    + rewrite !lookup_ge_None_2; [done|rewrite length_buf_bytes; lia|rewrite length_bytes_at; lia].
  - intros q Hq Hqn k. destruct (eread_run _ fs dom _ view b e N top L rUser tbl maps pf ch F mm dst q n) as (F3 & E3 & HG3 & _);
      [done|done|lia..|eapply io_buffer_sub; [exact Hbr|lia|lia]|].
    exists F3. split; [exact E3|]. apply gr_file in HG3. by rewrite app_nil_r in HG3.
Qed.

(** A file of 600 bytes with the chain 2, 4, of which the index holds the first cluster, on the
    volume of ClusterSpec.v: the write crosses from the second cluster into a new one. *)
Definition file_ex : Dirent :=
  with_meta [0x61] ATTR_ARCHIVE 0 1 0 (with_index 1 (2 :: replicate 63 0) (with_pos 2 0 (with_file 2 600 dirent0))).
Definition fat_file : FatS :=
  mkFatS (mkB (<[100 := [255; 255; 255; 15; 255; 255; 255; 15; 4; 0; 0; 0; 0; 0; 0; 0; 255; 255; 255; 15] ++ replicate 492 0]> ∅) ∅
      (lru (bio fat_vol)) 1 []) (fss fat_vol) (<[7 := file_ex]> ∅) 0 ∅ (replicate 16 0) (<[1 := [23; 0]]> ∅).

Lemma layout_ex : layout_ok dom_vol sb_vol.
Proof. constructor; [exact geometry_vol|reflexivity|cbn; lia|cbn; unfold FAT32_EOC; lia]. Qed.

(** A caller with the directory of UserCopy.v. *)
#[local] Instance caller_ex : Caller := {| caller_pageout := fun _ _ => panic; caller_dir := 200 |}.
Lemma kernel_buffer tbl maps pf mm a n : 0 <= a -> a + n < 2 ^ 64 -> io_buffer false tbl maps pf mm a n.
Proof. intros Ha Hn. split_and!; [done|done|cbn; lia|done]. Qed.

Lemma file_ok_ex : file_ok 1 dom_vol (cache_ok 1 0 dom_vol) (cache_view 0) sb_vol 7 4 5 [2; 4] fat_file.
Proof.
  constructor; [| | | | |cbn; lia].
  - constructor; [|reflexivity| |split; vm_compute; discriminate| |].
    + eapply cache_ok_vol; [reflexivity|reflexivity|]; intros; by apply disk_one.
    + change (bitmap_of 1 fat_file) with [23; 0].
      constructor; [repeat constructor; lia|vm_compute; discriminate|].
      assert (H : Forall (fun c => bitmap_used [23; 0] c = negb (fat_entry (cache_view 0) fat_file sb_vol c =? 0)) (seqZ 0 128))
        by (refine (bool_decide_unpack _ _); by vm_compute).
      intros c Hc. rewrite Forall_forall in H. apply H, elem_of_seqZ. cbn in Hc. lia.
    + exists [3; 5]. split; [done|]. split; [refine (bool_decide_unpack _ _); by vm_compute|].
      repeat constructor; unfold data_cluster; cbn; try lia; vm_compute; reflexivity.
    + intros c Hc _ _. by apply served_vol.
  - constructor.
    + intros c [-> | ->%list_elem_of_singleton]%elem_of_cons; unfold data_cluster; cbn; lia.
    + refine (bool_decide_unpack _ _); by vm_compute.
    + intros [|[|i]] c c' Hc Hc'; try done. injection Hc as <-. injection Hc' as <-. vm_compute. reflexivity.
    + intros c [= <-]. vm_compute. split; [discriminate|reflexivity].
  - constructor; try done; try (vm_compute; done).
    change (take (Z.to_nat (inodeMaxCluster (getde fat_file 7))) [2; 4]) with [2]. exists (fun _ => 0). split; [|cbn; lia]. constructor; try done; try (intros []; simpl; lia); try (intros; simpl in *; lia).
    + split; [done|]. apply Forall_replicate. lia.
    + intros pos H1 H2. cbn in H2. by assert (pos = 0) as -> by lia.
  - intros c [-> | ->%list_elem_of_singleton]%elem_of_cons; apply served_vol; unfold data_cluster; cbn; lia.
  - exists [0; 1]. split; [reflexivity|]. split; [refine (bool_decide_unpack _ _); by vm_compute|].
    repeat constructor; try lia; vm_compute; reflexivity.
Qed.

Lemma ewrite_eread_witness : exists mm xs F1 F2,
  ewrite (fs_read 1) 7 true 0x1234 1021 6 (mkFK fat_file mm) = Ret 6 (mkFK F1 mm) /\
  length ([2; 4] ++ xs) = 3%nat /\ file_size (getde F1 7) = 1027 /\
  eread (fs_read 1) 7 false 2000 1021 6 (mkFK F1 mm) =
    Ret 6 (mkFK F2 (set_mem (put_bytes false (fun _ => 300) 2000 (buf_bytes true mm (fun _ => 300) 0x1234 6)) mm)).
Proof.
  destruct user_ex as (mm & tbl & maps & I & Hr & Hu). exists mm.
  destruct (ewrite_eread true false tbl maps (fun _ => 300) 0 1 0 dom_vol sb_vol 7 4 5 [2; 4] fat_file mm 0x1234 2000 1021 6)
    as (xs & F1 & F2 & H1 & W & H2 & _).
  - lia.
  - exact dom_vol_range.
  - exact layout_ex.
  - exact file_ok_ex.
  - split_and!; try (vm_compute; discriminate); try (vm_compute; reflexivity).
  - lia.
  - lia.
  - lia.
  - cbn. lia.
  - vm_compute. discriminate.
  - split; [lia|]. split; [lia|]. split; [eapply (user_range_sub tbl maps 200); [exact Hu|lia|lia]|]. intros _. split; [exact I|exact Hr].
  - apply kernel_buffer; lia.
  - exists xs, F1, F2. split; [exact H1|].
    pose proof (wr_length _ _ _ _ _ _ _ _ _ _ _ _ _ _ _ W) as Hl. pose proof (wr_size _ _ _ _ _ _ _ _ _ _ _ _ _ _ _ W) as Hz.
    split; [apply Nat2Z.inj; rewrite Hl; reflexivity|]. split; [rewrite Hz; reflexivity|]. exact H2.
Defined.
