(* ===== verification/FileTrunc.v ===== *)
(** * Truncating a file

    [etrunc] walks the chain of a file, frees its clusters and its index: the file is empty
    again, and its clusters are free.  Of the index, it gives back all blocks of the second
    level; of the third, it stops 65536 positions too early (Fat.c:29). *)

From S2P Require Import Prelude CType Mem Config Queue Page PageSpec Bio Fat FatFile FatIndex BlockStore FatTable FileSystem ClusterSpec FileData.

(** ** The index *)

(** The paths whose blocks [eFreeInode] frees when the index has [n] clusters. *)
Definition freed (n : Z) (p : path) : Prop := active (match p with P2 _ => n | _ => n - 65536 end) p.
Lemma freed_active n p : freed n p -> active n p.
Proof. destruct p; cbn; lia. Qed.
(** Up to 1032 clusters, all; beyond, not the last block of the third level. *)
Lemma freed_all n p : n <= 1032 -> active n p -> freed n p.
Proof. destruct p; cbn; lia. Qed.
Lemma freed_leaks n : 1032 < n <= 164872 -> let p := P3 ((n - 1033) / 4096) in active n p /\ ~ freed n p.
Proof. cbn. intros H. Z.to_euclidean_division_equations; lia. Qed.

Section index.
Context (s : FatS) (e : Z) (l : list Z) (f : path -> Z) (I : index_of s e l f).
Local Notation len := (Z.of_nat (length l)).
Local Notation st bm := (set_inodeBitmap bm s).

(** Exactly the blocks at the paths [Q] went back to the pool. *)
Definition gives (Q : path -> Prop) (bm bm' : list Z) : Prop :=
  pool_ok bm' /\ forall x, 0 <= x -> bitmap_used bm' x = true <-> bitmap_used bm x = true /\ forall p, Q p -> f p <> x.
(** The paths [Q] exist, and their blocks are in use. *)
Definition inuse (Q : path -> Prop) (bm : list Z) : Prop :=
  pool_ok bm /\ forall p, Q p -> active len p /\ bitmap_used bm (f p) = true.

Lemma gives_none Q bm : pool_ok bm -> (forall p, ~ Q p) -> gives Q bm bm.
Proof. intros Hp Hn. split; [done|]. intros x Hx. split; [|by intros [? _]]. intros Hu. split; [done|]. intros p Hq. by destruct (Hn p). Qed.
Lemma gives_trans Q R T bm bm1 bm2 : gives Q bm bm1 -> gives R bm1 bm2 -> (forall p, T p <-> Q p \/ R p) -> gives T bm bm2.
Proof.
  intros [_ H1] [Hp H2] HT. split; [done|]. intros x Hx. rewrite H2, H1 by done. split.
  - intros [[Hu HQ] HR]. split; [done|]. intros p [?|?]%HT; [by apply HQ|by apply HR].
  - intros [Hu HQ]. split; [split; [done|]|]; intros p Hq; apply HQ, HT; [by left|by right].
Qed.
Lemma inuse_after Q R bm bm1 : inuse R bm -> gives Q bm bm1 -> (forall p, Q p -> active len p) ->
  (forall p q, Q p -> R q -> p <> q) -> inuse R bm1.
Proof.
  intros [_ HR] [Hp HQ] Ha Hne. destruct I as [J _]. split; [done|]. intros q Hq. destruct (HR q Hq) as [Haq Hu]. split; [done|].
  destruct (ii_used _ _ _ _ _ J q Haq) as [Hr _]. apply HQ; [lia|]. split; [done|]. intros p Hpq E.
  apply (ii_inj _ _ _ _ _ J) in E; [|by apply Ha|done]. by apply (Hne p q).
Qed.
Lemma inuse_sub Q R bm : inuse Q bm -> (forall p, R p -> Q p) -> inuse R bm.
Proof. intros [Hp H] HR. split; [done|]. intros p Hq. by apply H, HR. Qed.

Lemma free_block p bm : inuse (fun q => q = p) bm -> exists bm', inodeFree (f p) (st bm) = Ret tt (st bm') /\ gives (fun q => q = p) bm bm'.
Proof.
  intros [Hp Hu]. destruct (Hu p eq_refl) as [Ha Hu']. destruct I as [J _]. destruct (ii_used _ _ _ _ _ J p Ha) as [Hr _].
  destruct (inodeFree_spec (st bm) (f p) Hp ltac:(lia) Hu') as (bm1 & Hf & Hp1 & Hz1). exists bm1. split; [exact Hf|].
  split; [done|]. intros x Hx. rewrite Hz1, andb_true_iff, negb_true_iff, Z.eqb_neq by done. cbn [inodeBitmap set_inodeBitmap].
  split; intros [H1 H2]; (split; [done|]); [intros q ->; congruence|]. intros ->. by apply (H2 p).
Qed.

(** A loop that frees the blocks at the paths [Q i] in turn [i], while there are any. *)
Lemma free_while (Q : Z -> path -> Prop) cond body hi n : forall i bm, i + Z.of_nat n = hi ->
  (forall j bm, i <= j < hi -> cond j = true -> inuse (Q j) bm -> exists bm', body j (st bm) = Ret tt (st bm') /\ gives (Q j) bm bm') ->
  (forall j k p, j <= k < hi -> cond j = false -> ~ Q k p) -> (forall j k p q, j <> k -> Q j p -> Q k q -> p <> q) ->
  inuse (fun p => exists j, i <= j < hi /\ Q j p) bm ->
  exists bm', for_while n i cond body (st bm) = Ret tt (st bm') /\ gives (fun p => exists j, i <= j < hi /\ Q j p) bm bm'.
Proof.
  induction n as [|n IH]; intros i bm Hn Hbody Hend Hne Hu; cbn [for_while].
  { exists bm. split; [done|]. apply gives_none; [apply Hu|]. intros p (j & Hj & _). lia. }
  destruct (cond i) eqn:Hc.
  2: { exists bm. split; [done|]. apply gives_none; [apply Hu|]. intros p (j & Hj & Hq). by apply (Hend i j p). }
  destruct (Hbody i bm ltac:(lia) Hc) as (bm1 & E1 & G1).
  { eapply inuse_sub; [exact Hu|]. intros p Hq. exists i. split; [lia|done]. }
  destruct (IH (i + 1) bm1 ltac:(lia)) as (bm2 & E2 & G2).
  - intros j bm' Hj. apply Hbody. lia.
  - done.
  - done.
  - eapply inuse_after; [|exact G1| |].
    + eapply inuse_sub; [exact Hu|]. intros p (j & Hj & Hq). exists j. split; [lia|done].
    + intros p Hq. apply Hu. exists i. split; [lia|done].
    + intros p q Hp (j & Hj & Hq). apply (Hne i j); [lia|done|done].
  - exists bm2. split; [by rewrite (bind_Ret _ _ _ _ _ E1)|]. eapply gives_trans; [exact G1|exact G2|].
    intros p. split.
    + intros (j & Hj & Hq). destruct (decide (j = i)) as [-> |]; [by left|]. right. exists j. split; [lia|done].
    + intros [Hq|(j & Hj & Hq)]; [exists i; split; [lia|done]|]. exists j. split; [lia|done].
Qed.

Hypothesis Hmx : inodeMaxCluster (getde s e) = len.

Lemma read_p2 bm k : active len (P2 k) -> de_item e (8 + k) (st bm) = Ret (f (P2 k)) (st bm).
Proof. intros Ha. apply de_item_ret. by apply (ii_p2 _ _ _ _ _ (proj1 I)). Qed.
Lemma read_p3 bm k : active len (P3 k) -> de_item e (24 + k) (st bm) = Ret (f (P3 k)) (st bm).
Proof. intros Ha. apply de_item_ret. by apply (ii_p3 _ _ _ _ _ (proj1 I)). Qed.
Lemma read_p4 bm k j : active len (P4 k j) -> inode_item (f (P3 k)) j (st bm) = Ret (f (P4 k j)) (st bm).
Proof.
  intros Ha. destruct I as [J _]. pose proof (ii_parent _ _ _ _ _ J _ _ Ha) as Ha3. apply inode_item_ret; [by apply (ii_used _ _ _ _ _ J)|].
  by apply (ii_p4 _ _ _ _ _ J).
Qed.

(** The blocks of the second level. *)
Lemma free_second bm : inuse (freed len) bm ->
  exists bm', for_while 16 8 (fun i => len >? 8 + (i - 8) * 64) (fun i => x ← de_item e i; inodeFree x) (st bm) = Ret tt (st bm') /\
    gives (fun p => exists i, 8 <= i < 24 /\ (p = P2 (i - 8) /\ active len p)) bm bm'.
Proof.
  intros Hu. apply (free_while (fun i p => p = P2 (i - 8) /\ active len p)); [lia| | | |].
  - intros i bm1 Hi Hc Hu1. apply Z.gtb_lt in Hc. assert (Ha : active len (P2 (i - 8))) by (cbn; lia).
    destruct (free_block (P2 (i - 8)) bm1) as (bm2 & E & G); [eapply inuse_sub; [exact Hu1|]; by intros p ->|].
    exists bm2. pose proof (read_p2 bm1 (i - 8) Ha) as Er. replace (8 + (i - 8)) with i in Er by lia.
    split; [by rewrite (bind_Ret _ _ _ _ _ Er)|]. eapply gives_trans; [exact G|by apply (gives_none (fun _ => False)); [apply G|auto]|].
    intros p. split; [intros [-> _]; by left|]. intros [-> |[]]. done.
  - intros j k p Hj Hc [-> Ha]. rewrite Z.gtb_ltb in Hc. apply Z.ltb_ge in Hc. cbn in Ha. lia.
  - intros j k p q Hne [-> _] [-> _] [=]. lia.
  - eapply inuse_sub; [exact Hu|]. by intros p (i & _ & -> & Ha).
Qed.

(** Those of one item of the third level. *)
Lemma free_item bm i : 24 <= i < 64 -> len - 65536 > 1032 + 4096 * (i - 24) ->
  inuse (fun p => freed len p /\ (p = P3 (i - 24) \/ exists j, p = P4 (i - 24) j)) bm ->
  exists bm', (for_while 64 0 (fun j => len >? 1032 + (i - 8) * 64 * 64 + j * 64)
        (fun j => x ← de_item e i; y ← inode_item x j; inodeFree y) ;;
      x ← de_item e i; inodeFree x) (st bm) = Ret tt (st bm') /\
    gives (fun p => freed len p /\ (p = P3 (i - 24) \/ exists j, p = P4 (i - 24) j)) bm bm'.
Proof.
  intros Hi Hlen Hu. assert (Ha3 : active len (P3 (i - 24))) by (cbn; lia).
  assert (Er : forall bm, de_item e i (st bm) = Ret (f (P3 (i - 24))) (st bm)).
  { intros bm1. pose proof (read_p3 bm1 (i - 24) Ha3) as E. by replace (24 + (i - 24)) with i in E by lia. }
  destruct (free_while (fun j p => p = P4 (i - 24) j /\ freed len p) (fun j => len >? 1032 + (i - 8) * 64 * 64 + j * 64)
    (fun j => x ← de_item e i; y ← inode_item x j; inodeFree y) 64 64 0 bm ltac:(lia)) as (bm1 & E1 & G1).
  - intros j bm1 Hj Hc Hu1. apply Z.gtb_lt in Hc. assert (Hf : freed len (P4 (i - 24) j)) by (cbn; lia).
    destruct (free_block (P4 (i - 24) j) bm1) as (bm2 & E & G); [eapply inuse_sub; [exact Hu1|]; by intros p ->|].
    exists bm2. split; [by rewrite (bind_Ret _ _ _ _ _ (Er bm1)), (bind_Ret _ _ _ _ _ (read_p4 bm1 _ _ (freed_active _ _ Hf)))|].
    eapply gives_trans; [exact G|by apply (gives_none (fun _ => False)); [apply G|auto]|].
    intros p. split; [intros [-> _]; by left|]. intros [-> |[]]. done.
  - intros j k p Hj Hc [-> Ha]. rewrite Z.gtb_ltb in Hc. apply Z.ltb_ge in Hc. cbn in Ha. lia.
  - intros j k p q Hne [-> _] [-> _] [=]. lia.
  - eapply inuse_sub; [exact Hu|]. intros p (j & _ & -> & Hf). split; [done|right; by exists j].
  - destruct (free_block (P3 (i - 24)) bm1) as (bm2 & E2 & G2).
    { eapply inuse_after; [|exact G1| |].
      - eapply inuse_sub; [exact Hu|]. intros p ->. split; [cbn; lia|by left].
      - intros p (j & _ & _ & Hf). by apply freed_active.
      - by intros p q (j & _ & -> & _) ->. }
    exists bm2. split; [by rewrite (bind_Ret _ _ _ _ _ E1), (bind_Ret _ _ _ _ _ (Er bm1))|].
    eapply gives_trans; [exact G1|exact G2|]. intros p. split.
    + intros [Hf [-> |[j ->]]]; [by right|]. left. exists j. cbn in Hf. split; [lia|done].
    + intros [(j & _ & -> & Hf)| ->]; [split; [done|right; by exists j]|]. split; [cbn; lia|by left].
Qed.

(** Those of the third level. *)
Lemma free_third bm : inuse (fun p => freed len p /\ forall k, p <> P2 k) bm ->
  exists bm', for_while 40 24 (fun i => len >? 1032 + (i - 8) * 64 * 64)
      (fun i => for_while 64 0 (fun j => len >? 1032 + (i - 8) * 64 * 64 + j * 64)
          (fun j => x ← de_item e i; y ← inode_item x j; inodeFree y) ;;
        x ← de_item e i; inodeFree x) (st bm) = Ret tt (st bm') /\
    gives (fun p => exists i, 24 <= i < 64 /\ (freed len p /\ (p = P3 (i - 24) \/ exists j, p = P4 (i - 24) j))) bm bm'.
Proof.
  intros Hu. apply (free_while (fun i p => freed len p /\ (p = P3 (i - 24) \/ exists j, p = P4 (i - 24) j))); [lia| | | |].
  - intros i bm1 Hi Hc Hu1. apply Z.gtb_lt in Hc. by apply free_item; [|lia|].
  - intros j k p Hj Hc [Hf Hp]. rewrite Z.gtb_ltb in Hc. apply Z.ltb_ge in Hc. destruct Hp as [-> |[j' ->]]; cbn in Hf; lia.
  - intros j k p q Hne [_ [-> |[j' ->]]] [_ [-> |[k' ->]]] [=]; lia.
  - eapply inuse_sub; [exact Hu|]. intros p (i & _ & Hf & Hp). split; [done|]. by intros k ->; destruct Hp as [|[]].
Qed.

(** Freeing the index: the blocks of [freed] go back to the pool, no others. *)
Lemma eFreeInode_spec : exists bm, let s' := setde e (fun d => with_index 0 (inode d) d) (st bm) in
  eFreeInode e s = Ret tt s' /\ index_of s' e [] f /\ kept e s s' /\ gives (freed len) (inodeBitmap s) bm.
Proof.
  destruct I as [J Hl].
  assert (Hu : inuse (freed len) (inodeBitmap s)).
  { split; [apply J|]. intros p Hf%freed_active. split; [done|]. by apply (ii_used _ _ _ _ _ J). }
  destruct (free_second (inodeBitmap s) Hu) as (bm1 & E1 & G1).
  destruct (free_third bm1) as (bm2 & E2 & G2).
  { eapply inuse_after; [|exact G1| |].
    - eapply inuse_sub; [exact Hu|]. by intros p [? _].
    - by intros p (i & _ & _ & ?).
    - intros p q (i & _ & -> & _) [_ Hq] E. by apply (Hq (i - 8)). }
  assert (HG : gives (freed len) (inodeBitmap s) bm2).
  { eapply gives_trans; [exact G1|exact G2|]. intros p. split.
    - intros Hf. destruct p as [k|k|k j].
      + left. exists (8 + k). cbn in Hf. split; [lia|]. split; [f_equal; lia|done].
      + right. exists (24 + k). pose proof Hf as Hf'. cbn in Hf'. split; [lia|]. split; [done|]. left. f_equal. lia.
      + right. exists (24 + k). pose proof Hf as Hf'. cbn in Hf'. split; [lia|]. split; [done|]. right. exists j. f_equal. lia.
    - intros [(i & _ & -> & Ha)|(i & _ & Hf & _)]; done. }
  exists bm2. intros s'. replace (st (inodeBitmap s)) with s in E1 by by destruct s. split_and!; [| | |done].
  - unfold eFreeInode. change INODE_SECOND_ITEM_BASE with 8. change INODE_SECOND_LEVEL_BOTTOM with 8.
    change INODE_ITEM_NUM with 64. change INODE_THIRD_ITEM_BASE with 24. change INODE_THIRD_LEVEL_BOTTOM with 1032.
    rewrite bind_gets, Hmx, (bind_Ret _ _ _ _ _ E1). by rewrite (bind_Ret _ _ _ _ _ E2).
  - assert (Ei : inode (getde s' e) = inode (getde s e)) by (unfold s'; by rewrite getde_setde, decide_True).
    split; [|cbn; lia]. constructor; try (by intros []; cbn; lia); try (by intros; cbn in *; lia).
    + rewrite Ei. apply J.
    + apply J.
    + apply HG.
  - intros x Hx Hus Ho. split_and!; [|intros (p & Hp' & _)|done].
    + apply HG; [lia|]. split; [done|]. intros p Hf%freed_active <-. apply Ho. exists p. rewrite Hmx. split; [done|].
      by apply (block_of_index s e l f p (conj J Hl)).
    + unfold s' in Hp'. rewrite getde_setde, decide_True in Hp' by done. destruct p; cbn in Hp'; lia.
Qed.

(** The pool has the blocks again. *)
Lemma gives_room Q bm ps m : inuse Q (inodeBitmap s) -> gives Q (inodeBitmap s) bm -> NoDup ps -> (forall p, p ∈ ps -> Q p) ->
  pool_room (inodeBitmap s) m -> pool_room bm (m + length ps).
Proof.
  intros [_ Hu] [_ HG] Hn Hps (xs & Hl & Hnx & Hxs). rewrite Forall_forall in Hxs. destruct I as [J _].
  assert (Hf : forall p, p ∈ ps -> active len p /\ 0 <= f p < 1024 /\ bitmap_used (inodeBitmap s) (f p) = true).
  { intros p Hp. destruct (Hu p (Hps p Hp)) as [Ha Hus]. split; [done|]. split; [|done]. by apply (ii_used _ _ _ _ _ J). }
  exists (xs ++ map f ps). split_and!; [rewrite length_app, length_map; lia| |].
  - apply NoDup_app. split_and!; [done| |].
    + intros x Hx (p & -> & Hp)%list_elem_of_fmap. destruct (Hxs _ Hx) as [_ Hz]. destruct (Hf p Hp) as (_ & _ & Hus). congruence.
    + apply NoDup_fmap_2_strong; [|done]. intros p q Hp Hq E. apply (ii_inj _ _ _ _ _ J); [by apply Hf|by apply Hf|done].
  - apply Forall_forall. intros x [Hx|(p & -> & Hp)%list_elem_of_fmap]%elem_of_app.
    + destruct (Hxs x Hx) as [Hr Hz]. split; [done|]. apply not_true_is_false. intros [Hus _]%HG; [congruence|lia].
    + destruct (Hf p Hp) as (_ & Hr & _). split; [done|]. apply not_true_is_false. intros [_ Hno]%HG; [|lia]. by apply (Hno p (Hps p Hp)).
Qed.
End index.

(** ** The chain *)

Section trunc.
Context (rd : Z -> Z -> M FatS (option Z)) (fs : Z) (dom : Z -> Prop) (ok : FatS -> Prop)
  (view : FatS -> Z -> list Z) `{!FileStore rd fs dom ok view}.
Context (b : superblock) (e N top : Z).
Local Notation csz := (byts_per_clus b).
Local Notation entry F c := (fat_entry view F b c).
Local Notation cbyte F c i := (clus_byte view F (first_sec b c) i).
Hypothesis L : layout_ok dom b.
Local Notation vol_ok := (vol_ok fs dom ok view b top).
Local Notation chained := (chained view b).
Local Notation file_ok := (file_ok fs dom ok view b e N top).

(** One cluster given back. *)
Lemma release_run k F c : vol_ok k F -> data_cluster b c -> entry F c <> 0 -> (c <= top -> served dom b c) ->
  exists F', (next ← read_fat rd fs c; free_clus rd fs c ;; mret (inl next : Z + unit)) F = Ret (inl (entry F c)) F' /\
    vol_ok (if decide (c <= top) then S k else k) F' /\ beside_bitmap F F' /\ entry F' c = 0 /\
    (forall c', 0 <= c' < 128 * fat_sz b -> c' <> c -> entry F' c' = entry F c') /\
    forall c' i, data_cluster b c' -> 0 <= i < csz -> cbyte F' c' i = cbyte F c' i.
Proof.
  intros [H1 H2 H3 [H4 H4'] H5 H6] Hd Hnz Hsv. pose proof (g_cover _ _ (lo_geometry _ _ L)). pose proof (g_clus _ _ (lo_geometry _ _ L)).
  destruct (read_fat_spec rd fs dom ok view F b c H1 H2 (data_table dom b L c Hd)) as (F1 & Hr & Hok1 & Hca & Hv).
  destruct (cached_same _ _ Hca) as (E1 & _ & _ & _ & E5).
  assert (He1 : forall x, 0 <= x < 128 * fat_sz b -> entry F1 x = entry F x) by (intros; by apply entry_view).
  assert (Hb1 : sb F1 fs = b) by (unfold sb, getfs; by rewrite E1).
  assert (HA1 : bitmap_agrees fs view F1 b).
  { destruct H3 as [A1 A2 A3]. assert (Eb : bitmap_of fs F1 = bitmap_of fs F) by (unfold bitmap_of; by rewrite E5).
    constructor; rewrite ?Eb; [done|done|]. intros x Hx. by rewrite A3, He1. }
  destruct (free_clus_spec rd fs dom ok view b (lo_geometry _ _ L) F1 c Hok1 Hb1 HA1 Hd) as (F2 & Hf & Hok2 & (B & g & EF) & HA2 & Hz & Ho & Hk).
  destruct (data_range dom b L c Hd) as (R & T & _). exists F2.
  assert (Hent : forall x, 0 <= x < 128 * fat_sz b -> x <> c -> entry F2 x = entry F x) by (intros; by rewrite Ho, He1).
  split_and!; [| | |done|done|].
  - by rewrite (bind_Ret _ _ _ _ _ Hr), (bind_Ret _ _ _ _ _ Hf).
  - assert (Hy : forall y, (data_cluster b y /\ y <= top) /\ entry F y = 0 -> ((data_cluster b y /\ y <= top) /\ entry F2 y = 0) /\ y <> c).
    { intros y [[Hdy Hty] Hzy]. assert (y <> c) by (by intros ->). split; [|done]. split; [done|].
      rewrite Hent; [done|by apply (data_range dom)|done]. }
    constructor; [done|by subst F2|done|rewrite !Hent by lia; done| |].
    + case_decide; [eapply (has_room_add _ _ c); [exact Hy|by split|exact H5]|]. eapply has_room_mono; [|exact H5]. intros y Hyy. by apply Hy.
    + intros y Hdy Hty Hzy. destruct (decide (y = c)) as [-> |Hne]; [by apply Hsv|].
      rewrite Hent in Hzy; [by apply H6|by apply (data_range dom)|done].
  - exists B, g. rewrite EF, Hca. done.
  - intros x i Hx Hi. destruct (byte_sector dom b L x i Hx Hi) as (Hge & _). unfold clus_byte. by rewrite Hk, Hv.
Qed.

(** Where the walk of the chain [ch] starts. *)
Definition starts (v : Z) (ch : list Z) : Prop :=
  match ch with [] => v < 2 \/ FAT32_EOC <= v | c :: _ => v = c end.

Lemma chain_tail F F' c ch : chained F (c :: ch) -> (forall x, x ∈ ch -> entry F' x = entry F x) ->
  chained F' ch /\ starts (entry F c) ch.
Proof.
  intros [H1 H2 H3 H4] He. apply NoDup_cons in H2 as [_ H2]. split.
  - apply (chained_entries view b F F' ch); [|done]. constructor; [|done| |].
    + intros x Hx. apply H1. by right.
    + intros i x x' Hx Hx'. by apply (H3 (S i)).
    + intros x Hx. apply H4. destruct ch; done.
  - destruct ch as [|c' ch]; [right; apply H4; done|]. by apply (H3 0%nat).
Qed.

Lemma beside_trans F F1 F2 : beside_bitmap F F1 -> beside_bitmap F1 F2 -> beside_bitmap F F2.
Proof. intros (B & g & ->) (B' & g' & ->). by exists B', (fun m => g' (g m)). Qed.

Lemma trunc_loop ch : forall fuel F k v, vol_ok k F -> chained F ch -> (forall c, c ∈ ch -> c <= top -> served dom b c) -> starts v ch ->
  (length ch < fuel)%nat ->
  exists F', loop fuel (fun clus =>
      if (clus >=? 2) && (clus <? FAT32_EOC) then next ← read_fat rd fs clus; free_clus rd fs clus ;; mret (inl next)
      else mret (inr tt)) v F = Ret tt F' /\
    vol_ok (length (filter (fun c => c <= top) ch) + k) F' /\ beside_bitmap F F' /\ (forall c, c ∈ ch -> entry F' c = 0) /\
    (forall c, 0 <= c < 128 * fat_sz b -> c ∉ ch -> entry F' c = entry F c) /\
    forall c i, data_cluster b c -> 0 <= i < csz -> cbyte F' c i = cbyte F c i.
Proof.
  induction ch as [|c ch IH]; intros [|fuel] F k v HV HC Hsv Hs Hf; cbn in Hf; try lia; cbn [loop].
  - exists F. split_and!; [|done| |by intros c Hc%elem_of_nil|done|done].
    + assert (E : (v >=? 2) && (v <? FAT32_EOC) = false); [|by rewrite E]. rewrite Z.geb_leb. apply andb_false_iff.
      destruct Hs; [left; apply Z.leb_gt; lia|right; apply Z.ltb_ge; lia].
    + exists (bio F), (fun m => m). by destruct F.
  - cbn in Hs. subst v. assert (Hd : data_cluster b c) by (apply HC; by left).
    destruct (data_range dom b L c Hd) as (R & T & _). rewrite Z.geb_leb, (proj2 (Z.leb_le _ _)), (proj2 (Z.ltb_lt _ _)) by lia. cbn [andb].
    destruct (release_run k F c HV Hd) as (F1 & E1 & HV1 & HB1 & Hz1 & Ho1 & Hb1).
    { apply (chain_used dom view b L F (c :: ch)); [done|by left]. }
    { apply Hsv. by left. }
    rewrite E1. cbn [obind]. pose proof (ch_nodup _ _ _ _ HC) as Hn. apply NoDup_cons in Hn as [Hn _].
    assert (Hdt : forall x, x ∈ ch -> 0 <= x < 128 * fat_sz b).
    { intros x Hx. apply (data_range dom b L), (ch_data _ _ _ _ HC). by right. }
    destruct (chain_tail F F1 c ch HC) as [HC1 Hs1]; [intros x Hx; apply Ho1; [by apply Hdt|by intros ->]|].
    destruct (IH fuel F1 _ _ HV1 HC1 (fun x Hx => Hsv x (list_elem_of_further _ _ _ Hx)) Hs1 ltac:(lia)) as (F2 & E2 & HV2 & HB2 & Hz2 & Ho2 & Hb2).
    exists F2. split_and!; [done| |by eapply beside_trans| | |].
    + rewrite filter_cons. case_decide; [|done]. cbn [length]. rewrite Nat.add_succ_comm. done.
    + intros x [-> |Hx]%elem_of_cons; [by rewrite Ho2|by apply Hz2].
    + intros x Hx Hxn. apply not_elem_of_cons in Hxn as [? ?]. by rewrite Ho2, Ho1.
    + intros x i Hx Hi. by rewrite Hb2, Hb1.
Qed.

(** The blocks of the index of [e] that [eFreeInode] frees. *)
Definition frees (F : FatS) (x : Z) : Prop :=
  exists p, freed (inodeMaxCluster (getde F e)) p /\ block_of F e p = Some x.

(** The file [ch] was truncated. *)
Record truncated (ch : list Z) (k : nat) (F F' : FatS) : Prop := {
  tr_vol : vol_ok (length (filter (fun c => c <= top) ch) + k) F';
  tr_ent : ent_ok fs e [] F';
  tr_entry : exists it, getde F' e = with_index 0 it (with_file 0 0 (getde F e));
  tr_free : forall c, c ∈ ch -> entry F' c = 0 /\ bitmap_used (bitmap_of fs F') c = false;
  tr_blocks : forall x, 0 <= x < 1024 ->
    bitmap_used (inodeBitmap F') x = true <-> bitmap_used (inodeBitmap F) x = true /\ ~ frees F x;
  tr_other : forall c, data_cluster b c -> c ∉ ch -> entry F' c = entry F c;
  tr_bytes : forall c i, data_cluster b c -> 0 <= i < csz -> cbyte F' c i = cbyte F c i;
  tr_kept : kept e F F';
  tr_entries : forall x, x <> e -> getde F' x = getde F x;
}.

Lemma second_paths n : 0 <= n <= 1032 -> exists ps, NoDup ps /\ length ps = Z.to_nat (index_blocks n) /\ forall p, p ∈ ps -> freed n p.
Proof.
  intros Hn. exists (map P2 (seqZ 0 (index_blocks n))). split_and!.
  - apply NoDup_fmap_2; [by intros x y [=]|apply NoDup_seqZ].
  - by rewrite length_map, length_seqZ.
  - intros p (k & -> & Hk%elem_of_seqZ)%list_elem_of_fmap. cbn. unfold index_blocks in Hk.
    destruct (Z.leb_spec n 8), (Z.leb_spec n 1032); Z.to_euclidean_division_equations; lia.
Qed.

Lemma etrunc_run ch k F fuel : vol_ok k F -> chained F ch -> ent_ok fs e ch F -> (forall c, c ∈ ch -> c <= top -> served dom b c) ->
  (length ch < fuel)%nat -> exists F', etrunc rd fuel e F = Ret tt F' /\ truncated ch k F F' /\
    let mx := inodeMaxCluster (getde F e) in
    (mx <= 1032 -> forall m, pool_room (inodeBitmap F) m -> pool_room (inodeBitmap F') (m + Z.to_nat (index_blocks mx))) /\
    (1032 < mx -> exists x, 0 <= x < 1024 /\ owns F e x /\ bitmap_used (inodeBitmap F') x = true).
Proof.
  intros HV HC [[f I] M S' Fi Fs Cu] Hsv Hfuel.
  assert (Hst : starts (first_clus (getde F e)) ch) by (rewrite Fi; destruct ch; cbn; lia).
  destruct (trunc_loop ch fuel F _ _ HV HC Hsv Hst Hfuel) as (F1 & E1 & HV1 & (B & g & EF) & Hz1 & Ho1 & Hb1).
  set (F2 := setde e (with_file 0 0) F1).
  assert (Ed1 : getde F1 e = getde F e) by (subst F1; done).
  assert (Ed2 : getde F2 e = with_file 0 0 (getde F e)) by (unfold F2; by rewrite getde_setde, decide_True, Ed1).
  set (mx := inodeMaxCluster (getde F e)) in *. set (idx := take (Z.to_nat mx) ch) in *.
  assert (Hlt : Z.of_nat (length idx) = mx) by (unfold idx; rewrite length_take; lia).
  assert (I2 : index_of F2 e idx f) by (eapply (index_of_same F); [by rewrite Ed2|subst F1; done..|exact I]).
  destruct (eFreeInode_spec F2 e idx f I2) as (bm & E3 & I3 & HK3 & HG); [by rewrite Ed2, Hlt|]. rewrite Hlt in HG.
  set (F3 := setde e _ (set_inodeBitmap bm F2)) in *.
  assert (Ed3 : getde F3 e = with_index 0 (inode (getde F e)) (with_file 0 0 (getde F e))).
  { unfold F3. rewrite getde_setde, decide_True by done. change (getde (set_inodeBitmap bm F2) e) with (getde F2 e). by rewrite Ed2. }
  assert (Hv : forall s, view F3 s = view F1 s) by (intros; by apply fst_view).
  assert (He : forall x, entry F3 x = entry F1 x) by (intros; by apply entry_view).
  assert (HV3 : vol_ok (length (filter (fun c => c <= top) ch) + k) F3).
  { apply (vol_entries fs dom ok view b top L _ F1 F3); [done|by eapply (fst_ok F1), HV1|done|done|done]. }
  assert (Ebm : inodeBitmap F2 = inodeBitmap F) by (subst F1; done). rewrite Ebm in HG.
  assert (Hblk : forall p, active mx p -> block_of F e p = Some (f p)) by (intros p Hp; apply (block_of_index F e idx f p I); by rewrite Hlt).
  assert (Hused : forall x, 0 <= x < 1024 -> bitmap_used bm x = true <-> bitmap_used (inodeBitmap F) x = true /\ ~ frees F x).
  { intros x Hx. rewrite (proj2 HG) by lia. split; intros [Hu Hno]; (split; [done|]).
    - intros (p & Hf & Hb). rewrite Hblk in Hb by (by apply freed_active). injection Hb as Hb. by apply (Hno p).
    - intros p Hf <-. apply Hno. exists p. split; [done|]. by apply Hblk, freed_active. }
  exists F3. split; [|split; [|split]].
  { unfold etrunc. rewrite bind_gets, Fs, (bind_Ret _ _ _ _ _ E1), bind_modify. exact E3. }
  - constructor; [done| |by eexists| |done| | | |].
    + constructor; rewrite ?Ed3; try done. exists f. exact I3.
    + intros c Hc. destruct (data_range dom b L c (ch_data _ _ _ _ HC c Hc)) as (_ & T & _).
      assert (Ez : entry F3 c = 0) by (rewrite He; by apply Hz1). split; [done|].
      by rewrite (ba_bits _ _ _ _ (vo_map _ _ _ _ _ _ _ _ HV3)), Ez.
    + intros c Hd Hc. destruct (data_range dom b L c Hd) as (_ & T & _). by rewrite He, Ho1.
    + intros c i Hd Hi. rewrite <- Hb1 by done. by apply cbyte_view.
    + eapply kept_trans; [|exact HK3]. by apply kept_same; rewrite ?Ed2; subst F1.
    + intros x Hx. unfold F3. rewrite getde_setde, decide_False by done. change (getde (set_inodeBitmap bm F2) x) with (getde F2 x).
      unfold F2. rewrite getde_setde, decide_False by done. by subst F1.
  - intros Hle m Hm. destruct (second_paths mx ltac:(lia)) as (ps & Hn & <- & Hps).
    rewrite <- Ebm in HG, Hm. apply (gives_room F2 e idx f I2 (freed mx)); [|done|done|done|done].
    split; [apply I2|]. rewrite Hlt. intros p Hf%freed_active. split; [done|].
    by apply (ii_used _ _ _ _ _ (proj1 I2)); rewrite Hlt.
  - intros Hgt. destruct I as [J Jl]. destruct (freed_leaks mx ltac:(lia)) as [Ha Hnf]. set (p := P3 _) in *.
    destruct (ii_used _ _ _ _ _ J p) as [Hr Hu]; [by rewrite Hlt|]. exists (f p).
    split; [done|]. split; [exists p; split; [done|by apply Hblk]|]. apply Hused; [done|]. split; [done|].
    intros (q & Hf & Hb). pose proof (freed_active _ _ Hf) as Haq. rewrite Hblk in Hb by done. injection Hb as Hb.
    apply (ii_inj _ _ _ _ _ J) in Hb; [by subst q|by rewrite Hlt|by rewrite Hlt].
Qed.

Lemma chained_nil F : chained F [].
Proof. constructor; [by intros c Hc%elem_of_nil|apply NoDup_nil_2|done|done]. Qed.

Lemma owned_freed F x : inodeMaxCluster (getde F e) <= 1032 -> owns F e x -> frees F x.
Proof. intros Hm (p & Hp & Hb). exists p. split; [by apply freed_all|done]. Qed.

(** The file can grow again as far as it could. *)
Lemma trunc_again ch F F' fuel : file_ok ch F -> (forall c, c ∈ ch -> c <= top) -> inodeMaxCluster (getde F e) <= 1032 ->
  (length ch < fuel)%nat -> etrunc rd fuel e F = Ret tt F' -> file_ok [] F'.
Proof.
  intros [HV HC HE Hsv Bl Hl] Htop Hmx Hfuel E.
  destruct (etrunc_run ch _ F fuel HV HC HE (fun c Hc _ => Hsv c Hc) Hfuel) as (F2 & E2 & [T1 T2 (it & T3) _ _ _ _ _ _] & Hroom & _).
  rewrite E in E2. injection E2 as <-. pose proof (eo_max _ _ _ _ HE). set (mx := inodeMaxCluster (getde F e)) in *.
  pose proof (index_blocks_mono 0 mx ltac:(lia) ltac:(lia)). pose proof (index_blocks_mono mx N ltac:(lia) ltac:(lia)).
  change (index_blocks 0) with 0 in *. constructor; [|apply chained_nil|done|by intros c ?%elem_of_nil| |cbn; lia].
  - cbn [length]. rewrite Nat.sub_0_r. rewrite filter_all in T1 by done.
    by replace (Z.to_nat N) with (length ch + (Z.to_nat N - length ch))%nat by lia.
  - rewrite T3. apply (Hroom Hmx) in Bl. eapply eq_ind; [exact Bl|]. cbn [inodeMaxCluster with_index]. change (index_blocks 0) with 0. lia.
Qed.
End trunc.

(** C17. Truncating a file gives back its clusters, and its index as far as the code frees it.  On the
    buffer cache, for a working set that holds the table, and for a file of any chain, [etrunc]
    returns, after one turn for each cluster; the file is then empty and of size zero; each of
    its clusters is free, in the table and in the bitmap; of the index blocks of the pool exactly
    those of [frees] are given back: all of the second level, and those of the third level that a
    file with 65536 clusters less would have.  So for an index of up to 1032 clusters all its
    blocks are free again, and a file that could grow to [N] clusters can do so again; for a
    larger one a block stays in use that no entry has.  The table and the data of every other
    cluster of the volume, the index blocks of other files and every other entry are unchanged. *)
Theorem etrunc_frees depth fs dv dom b e N top ch k F fuel :
  let view := cache_view dv in let ok := cache_ok fs dv dom in
  0 <= dv < 2 ^ 31 -> (forall n, dom n -> 0 <= n < 2 ^ 32) -> layout_ok dom b ->
  vol_ok fs dom ok view b top k F -> chained view b F ch -> ent_ok fs e ch F ->
  (forall c, c ∈ ch -> c <= top -> served dom b c) -> (length ch < fuel)%nat ->
  let mx := inodeMaxCluster (getde F e) in
  exists F', etrunc (fs_read (S depth)) fuel e F = Ret tt F' /\ truncated fs dom ok view b e top ch k F F' /\
    (mx <= 1032 -> forall x, 0 <= x < 1024 -> owns F e x -> bitmap_used (inodeBitmap F') x = false) /\
    (1032 < mx -> exists x, 0 <= x < 1024 /\ owns F e x /\ bitmap_used (inodeBitmap F') x = true) /\
    (mx <= 1032 -> (forall c, c ∈ ch -> c <= top) ->
       file_ok fs dom ok view b e N top ch F -> file_ok fs dom ok view b e N top [] F').
Proof.
  intros view ok Hdv Hdom L HV HC HE Hsv Hfuel mx. pose proof (cache_files fs dv dom depth Hdv Hdom) as FS.
  destruct (etrunc_run _ fs dom ok view b e top L ch k F fuel HV HC HE Hsv Hfuel) as (F' & E & T & _ & Hleak).
  exists F'. split_and!; [done|done| |done|].
  - intros Hle x Hx Ho. apply not_true_is_false. rewrite (tr_blocks _ _ _ _ _ _ _ _ _ _ _ T) by done.
    intros [_ Hno]. by apply Hno, owned_freed.
  - intros Hle Htop HF. by eapply (trunc_again _ fs dom ok view b e N top L ch F F' fuel).
Qed.

(** The file of FileData.v: its clusters 2 and 4 are free afterwards. *)
Lemma etrunc_frees_witness : exists F', etrunc (fs_read 1) 3 7 fat_file = Ret tt F' /\
  file_size (getde F' 7) = 0 /\ fat_entry (cache_view 0) F' sb_vol 2 = 0 /\ fat_entry (cache_view 0) F' sb_vol 4 = 0.
Proof.
  pose proof file_ok_ex as [HV HC HE Hsv _ _].
  destruct (etrunc_frees 0 1 0 dom_vol sb_vol 7 4 5 [2; 4] _ fat_file 3 ltac:(lia) dom_vol_range layout_ex HV HC HE)
    as (F' & H1 & [_ _ (it & H2) H3 _ _ _ _ _] & _).
  - intros c Hc _. by apply Hsv.
  - cbn. lia.
  - exists F'. split; [exact H1|]. split; [by rewrite H2|]. split; apply H3; [by left|by right; left].
Defined.
