(* ===== verification/FileSet.v ===== *)
(** * The files of a volume

    All files of a volume together refine a map from entries to byte sequences: [ewrite],
    [eread] and [etrunc] on one of them do to it what they say, whatever clusters and index
    blocks they take or give back, and no other file changes.  Only the file of the call has to be in
    the working set of the cache. *)

From S2P Require Import Prelude CType Mem Config Queue Page PageInv PageSpec UserCopy Bio Fat FatFile FatIndex BlockStore FatTable FileSystem ClusterSpec FileData FileTrunc.

(** ** The specification *)

(** A file: its bytes, zero where nothing was written, and its size. *)
Record afile := mkA { abytes : Z -> Z; asize : Z }.
Definition awrite (o : Z) (bs : list Z) (a : afile) : afile :=
  let n := Z.of_nat (length bs) in
  mkA (fun i => if decide (o <= i < o + n) then default 0 (bs !! Z.to_nat (i - o)) else abytes a i) (Z.max (asize a) (o + n)).

(** The calls, with the buffer in the kernel or of the user. *)
Inductive fop :=
  | FWrite (isUser : bool) (e src o n : Z)
  | FRead (isUser : bool) (e dst o n : Z)
  | FTrunc (fuel : nat) (e : Z).

(** The buffer of a call. *)
Definition fop_user (op : fop) : bool := match op with FWrite u _ _ _ _ | FRead u _ _ _ _ => u | FTrunc _ _ => false end.
Definition fop_addr (op : fop) : Z := match op with FWrite _ _ a _ _ | FRead _ _ a _ _ => a | FTrunc _ _ => 0 end.
Definition fop_len (op : fop) : Z := match op with FWrite _ _ _ _ n | FRead _ _ _ _ n => n | FTrunc _ _ => 0 end.

(** What a call whose buffer holds [bs] returns, the files after it, and the bytes it delivers to the
    buffer. *)
Definition fspec (op : fop) (A : gmap Z afile) (bs : list Z) : option (Z * gmap Z afile * list Z) :=
  match op with
  | FWrite _ e _ o n => a ← A !! e; Some (n, <[e := awrite o bs a]> A, [])
  | FRead _ e _ o n => a ← A !! e; let k := Z.max 0 (Z.min n (asize a - o)) in Some (k, A, bytes_at (abytes a) o k)
  | FTrunc _ e => _ ← A !! e; Some (0, <[e := mkA (fun _ => 0) 0]> A, [])
  end.

Section files.
Context (rd : Z -> Z -> M FatS (option Z)) (fs : Z) (dom : Z -> Prop) (ok : FatS -> Prop)
  (view : FatS -> Z -> list Z) `{!FileStore rd fs dom ok view}.
Context (b : superblock).
Local Notation csz := (byts_per_clus b).
Local Notation entry F c := (fat_entry view F b c).
Local Notation cbyte F c i := (clus_byte view F (first_sec b c) i).
Hypothesis L : layout_ok dom b.
Local Notation vol_ok top k := (vol_ok fs dom ok view b top k).
Local Notation chained := (chained view b).
Local Notation ent_ok := (ent_ok fs).
Local Notation file_byte := (file_byte view b).

Definition fexec {CA : Caller} (op : fop) : M FK Z :=
  match op with
  | FWrite u e src o n => ewrite rd e u src o n
  | FRead u e dst o n => eread rd e u dst o n
  | FTrunc fuel e => lift (etrunc rd fuel e) ;; mret 0
  end.

(** ** The files *)

(** [G] gives the chain of each file; no cluster and no index block belongs to two of them. *)
Record files_ok (G : gmap Z (list Z)) (F : FatS) : Prop := {
  fk_vol : vol_ok 0 0 F;
  fk_chain : forall e ch, G !! e = Some ch -> chained F ch;
  fk_ent : forall e ch, G !! e = Some ch -> ent_ok e ch F;
  fk_apart : forall e e' ch ch' c, G !! e = Some ch -> G !! e' = Some ch' -> e <> e' -> c ∈ ch -> c ∉ ch';
  fk_owns : forall e e' ch ch' x, G !! e = Some ch -> G !! e' = Some ch' -> e <> e' -> owns F e x -> owns F e' x -> False;
}.

(** The file is in the working set, the volume has the clusters for [N] clusters of the file up to [top],
    in the working set, and the pool the index blocks. *)
Definition can_grow (F : FatS) (e : Z) (ch : list Z) (N top : Z) : Prop :=
  (forall c, c ∈ ch -> served dom b c) /\
  has_room (fun c => (data_cluster b c /\ c <= top) /\ entry F c = 0) (Z.to_nat N - length ch) /\
  (forall c, data_cluster b c -> c <= top -> entry F c = 0 -> served dom b c) /\
  pool_room (inodeBitmap F) (Z.to_nat (index_blocks N - index_blocks (inodeMaxCluster (getde F e))) + 2) /\
  Z.of_nat (length ch) <= N <= 164872.

Lemma vol_room j k F top top' : vol_ok top' j F -> has_room (fun c => (data_cluster b c /\ c <= top) /\ entry F c = 0) k ->
  (forall c, data_cluster b c -> c <= top -> entry F c = 0 -> served dom b c) -> vol_ok top k F.
Proof. intros [H1 H2 H3 H4 _ _] H. by constructor. Qed.
Lemma vol_none top k F : vol_ok top k F -> vol_ok 0 0 F.
Proof.
  intros H. eapply vol_room; [exact H| |].
  - exists []. split_and!; [done|apply NoDup_nil_2|done].
  - unfold data_cluster. intros c Hc Hle. lia.
Qed.

Lemma file_of G F e ch N top : files_ok G F -> G !! e = Some ch -> can_grow F e ch N top -> file_ok fs dom ok view b e N top ch F.
Proof.
  intros [H1 H2 H3 _ _] He (R0 & R1 & R2 & R3 & R4). constructor; [by eapply vol_room|by eapply H2|by eapply H3|done|done|done].
Qed.

(** What an operation on [e] must do for the other files: [ch1] are the clusters it has after. *)
Record one_file (e : Z) (ch ch1 : list Z) (F F' : FatS) : Prop := {
  of_vol : vol_ok 0 0 F';
  of_chain : chained F' ch1;
  of_ent : ent_ok e ch1 F';
  of_kept : kept e F F';
  of_entries : forall x, x <> e -> getde F' x = getde F x;
  of_free : forall c, c ∈ ch1 -> c ∈ ch \/ entry F c = 0;
  of_table : forall c, data_cluster b c -> c ∉ ch -> c ∉ ch1 -> entry F' c = entry F c;
  of_bytes : forall c i, data_cluster b c -> c ∉ ch -> c ∉ ch1 -> 0 <= i < csz -> cbyte F' c i = cbyte F c i;
}.

Section step.
Context (G : gmap Z (list Z)) (F F' : FatS) (e : Z) (ch ch1 : list Z).
Hypotheses (HG : files_ok G F) (He : G !! e = Some ch) (HS : one_file e ch ch1 F F').

(** A cluster of another file is not touched. *)
Lemma other_cluster e' ch' c : e' <> e -> G !! e' = Some ch' -> c ∈ ch' -> data_cluster b c /\ c ∉ ch /\ c ∉ ch1.
Proof.
  intros Hne He' Hc. assert (Hn : c ∉ ch) by (intros Hc2; by eapply (fk_apart _ _ HG e e')).
  split_and!; [by eapply (ch_data _ _ _ _ (fk_chain _ _ HG e' ch' He'))|done|].
  intros Hc1. destruct (of_free _ _ _ _ _ HS c Hc1) as [?|Hz]; [done|].
  by apply (chain_used dom view b L F ch' c (fk_chain _ _ HG e' ch' He')).
Qed.

Lemma other_bytes e' ch' i : e' <> e -> G !! e' = Some ch' -> file_byte ch' F' i = file_byte ch' F i.
Proof.
  intros Hne He'. apply (file_byte_same dom view b L); [apply (fk_chain _ _ HG e' ch' He')|].
  intros c j Hc Hj. destruct (other_cluster e' ch' c Hne He' Hc) as (H1 & H2 & H3). by apply (of_bytes _ _ _ _ _ HS).
Qed.

Lemma other_index e' ch' : e' <> e -> G !! e' = Some ch' -> ent_ok e' ch' F' /\ forall x, owns F' e' x <-> owns F e' x.
Proof.
  intros Hne He'. pose proof (fk_ent _ _ HG e' ch' He') as [[f I] M S' Fi Fs Cu].
  pose proof (of_entries _ _ _ _ _ HS e' Hne) as Ed. destruct (eo_index _ _ _ _ (of_ent _ _ _ _ _ HS)) as [g [J _]].
  destruct (kept_index e e' F F' _ f (of_kept _ _ _ _ _ HS) Hne Ed I) as [I' Ho].
  - rewrite length_take. lia.
  - apply J.
  - apply J.
  - intros x H1 H2. by eapply (fk_owns _ _ HG e e').
  - split; [|done]. constructor; rewrite ?Ed; try done. by exists f.
Qed.

(** A block of [e] after the step is no other file's. *)
Lemma new_owner e' ch' x : e' <> e -> G !! e' = Some ch' -> owns F' e x -> owns F' e' x -> False.
Proof.
  intros Hne He' H1 H2. apply (other_index e' ch' Hne He') in H2.
  pose proof (fk_ent _ _ HG e' ch' He') as [[f [I Hl]] M S' Fi Fs Cu]. destruct H2 as (p & Hp & Hb).
  assert (Hlen : Z.of_nat (length (take (Z.to_nat (inodeMaxCluster (getde F e'))) ch')) = inodeMaxCluster (getde F e'))
    by (rewrite length_take; lia).
  rewrite <- Hlen in Hp. pose proof (ii_used _ _ _ _ _ I p Hp) as [Hr Hu].
  rewrite (block_of_index F e' _ f p (conj I Hl) Hp) in Hb. injection Hb as <-.
  destruct (of_kept _ _ _ _ _ HS (f p) Hr Hu) as (_ & Hno & _); [|done].
  intros Ho. eapply (fk_owns _ _ HG e e'); [done..| |exact Ho|]; [done|]. exists p. rewrite <- Hlen.
  split; [done|]. by apply (block_of_index F e' _ f p (conj I Hl)).
Qed.

Lemma files_step : files_ok (<[e := ch1]> G) F'.
Proof.
  constructor.
  - apply HS.
  - intros x cx [[<- <-]|[Hne Hx]]%lookup_insert_Some; [apply HS|].
    eapply (chained_entries view b F); [exact (fk_chain _ _ HG x cx Hx)|].
    intros c Hc. destruct (other_cluster x cx c ltac:(done) Hx Hc) as (H1 & H2 & H3). by apply (of_table _ _ _ _ _ HS).
  - intros x cx [[<- <-]|[Hne Hx]]%lookup_insert_Some; [apply HS|]. by apply other_index.
  - intros x y cx cy c [[<- <-]|[Hxe Hx]]%lookup_insert_Some [[<- <-]|[Hye Hy]]%lookup_insert_Some Hne Hc Hc'; [done| | |].
    + by destruct (other_cluster y cy c ltac:(done) Hy Hc') as (_ & _ & ?).
    + by destruct (other_cluster x cx c ltac:(done) Hx Hc) as (_ & _ & ?).
    + by eapply (fk_apart _ _ HG x y).
  - intros x y cx cy z [[<- <-]|[Hxe Hx]]%lookup_insert_Some [[<- <-]|[Hye Hy]]%lookup_insert_Some Hne Ho Ho'; [done| | |].
    + by eapply (new_owner y).
    + by eapply (new_owner x).
    + apply (other_index x cx) in Ho; [|done|done]. apply (other_index y cy) in Ho'; [|done|done]. by eapply (fk_owns _ _ HG x y).
Qed.
End step.

(** ** The operations *)

Lemma write_one e N top ch xs F F' o n bytes : file_ok fs dom ok view b e N top ch F ->
  written fs dom ok view b e N top ch xs F F' o n bytes -> one_file e ch (ch ++ xs) F F'.
Proof.
  intros HF [W1 _ _ _ _ W6 W7 WK W8]. constructor; [by eapply vol_none, W1|apply W1|apply W1|done|done| | |].
  - intros c [Hc|Hc]%elem_of_app; [by left|right; by apply W6].
  - intros c Hd _ Hc. by apply W7.
  - intros c i Hd _ Hc Hi. by apply W7.
Qed.
Lemma read_one e N top ch F F' : grown fs dom ok view b e N top ch [] F F' -> one_file e ch ch F F'.
Proof.
  intros [W1 W2 WK _ W4]. rewrite app_nil_r in *. constructor; [by eapply vol_none, W1|apply W1|apply W1|done|apply W2|by left| |].
  - intros c Hd _ Hc. by apply W4.
  - intros c i Hd _ Hc Hi. by apply W4.
Qed.
Lemma trunc_one e top ch k F F' : truncated fs dom ok view b e top ch k F F' -> one_file e ch [] F F'.
Proof.
  intros [T1 T2 _ _ _ T6 T7 T8 T9]. constructor; [by eapply vol_none|apply chained_nil|done|done|done| | |].
  - by intros c Hc%elem_of_nil.
  - intros c Hd Hc _. by apply T6.
  - intros c i Hd _ _ Hi. by apply T7.
Qed.

(** ** The refinement *)

(** Entry [e] with the clusters [ch] is the file [a]. *)
Record is_file (F : FatS) (e : Z) (ch : list Z) (a : afile) : Prop := {
  if_plain : plain_file e F;
  if_size : file_size (getde F e) = asize a;
  if_covers : asize a <= csz * Z.of_nat (length ch);
  if_bytes : forall i, 0 <= i -> file_byte ch F i = abytes a i;
}.
Definition represents (G : gmap Z (list Z)) (A : gmap Z afile) (F : FatS) : Prop :=
  files_ok G F /\ forall e, match G !! e, A !! e with
    | Some ch, Some a => is_file F e ch a
    | None, None => True
    | _, _ => False
    end.

(** When a call can be carried out: its buffer is in the kernel or in private pages of the caller, the
    range is one of the file, and the volume and the pool have room for what it may take. *)
Definition enabled {CA : Caller} (tbl : gmap Z owner) (maps : gmap (Z * Z) Z) (pf : Z -> Z)
    (G : gmap Z (list Z)) (F : FatS) (mm : MM) (op : fop) : Prop :=
  match op with
  | FWrite u e src o n => exists ch N top, G !! e = Some ch /\ can_grow F e ch N top /\ 0 <= o /\ 0 < n /\ o + n < 2 ^ 32 /\
      o + n <= csz * N /\ io_buffer u tbl maps pf mm src n
  | FRead u e dst o n => exists ch, G !! e = Some ch /\ can_grow F e ch (Z.of_nat (length ch)) 0 /\
      0 <= o /\ 0 <= n /\ o + n < 2 ^ 32 /\ io_buffer u tbl maps pf mm dst n
  | FTrunc fuel e => exists ch, G !! e = Some ch /\ (length ch < fuel)%nat
  end.

Lemma represents_file G A F e ch : represents G A F -> G !! e = Some ch -> exists a, A !! e = Some a /\ is_file F e ch a.
Proof. intros [_ H] He. specialize (H e). rewrite He in H. destruct (A !! e) as [a|]; [|done]. by exists a. Qed.

(** One file changed, the others are what they were. *)
Lemma represents_step G A F F' e ch ch1 a1 : represents G A F -> G !! e = Some ch -> one_file e ch ch1 F F' ->
  is_file F' e ch1 a1 -> represents (<[e := ch1]> G) (<[e := a1]> A) F'.
Proof.
  intros [HG HA] He HS H1. split; [by eapply files_step|]. intros x. destruct (decide (x = e)) as [-> |Hne].
  { by rewrite !lookup_insert_eq. }
  rewrite !lookup_insert_ne by done. specialize (HA x). destruct (G !! x) as [cx|] eqn:Hx, (A !! x) as [ax|]; try done.
  destruct HA as [A1 A2 A3 A4]. pose proof (of_entries _ _ _ _ _ HS x Hne) as Ed.
  constructor; [unfold plain_file; by rewrite Ed|by rewrite Ed|done|].
  intros i Hi. rewrite <- A4 by done. by eapply (other_bytes G F F' e ch ch1).
Qed.

(** Each call is its specification. *)
Lemma files_run {CA : Caller} tbl maps pf G A F mm op : represents G A F -> enabled tbl maps pf G F mm op ->
  exists r F' G' A' out, fspec op A (buf_bytes (fop_user op) mm pf (fop_addr op) (Z.to_nat (fop_len op))) = Some (r, A', out) /\
    fexec op (mkFK F mm) = Ret r (mkFK F' (set_mem (put_bytes (fop_user op) pf (fop_addr op) out) mm)) /\ represents G' A' F'.
Proof.
  intros HR. pose proof HR as [HG _]. destruct op as [u e src o n|u e dst o n|fuel e]; cbn [enabled fexec fspec fop_user fop_addr fop_len].
  - intros (ch & N & top & He & Hgr & H1 & H2 & H3 & H4 & H5). destruct (represents_file G A F e ch HR He) as (a & Ha & [P S C B]).
    pose proof (file_of G F e ch N top HG He Hgr) as HF.
    destruct (ewrite_run rd fs dom ok view b e N top L u tbl maps pf ch F mm src o n) as (xs & F' & E & W); [done..|].
    rewrite Ha. eexists n, F', (<[e := ch ++ xs]> G), _, _. split; [reflexivity|]. cbn [put_bytes]. rewrite set_mem_id. split; [exact E|].
    eapply represents_step; [exact HR|exact He|by eapply write_one|]. pose proof (csz_pos dom b L) as Hcz.
    assert (El : Z.of_nat (length (buf_bytes u mm pf src (Z.to_nat n))) = n) by (rewrite length_buf_bytes; lia).
    constructor; [apply W| | |]; cbn [asize abytes awrite]; rewrite ?El.
    + rewrite (wr_size _ _ _ _ _ _ _ _ _ _ _ _ _ _ _ W), S. done.
    + rewrite (wr_length _ _ _ _ _ _ _ _ _ _ _ _ _ _ _ W). pose proof (Z.div_mod (o + n - 1) csz ltac:(lia)).
      pose proof (Z.mod_pos_bound (o + n - 1) csz Hcz). nia.
    + intros i Hi. rewrite (wr_bytes _ _ _ _ _ _ _ _ _ _ _ _ _ _ _ W) by done. case_decide; [|by apply B].
      rewrite buf_bytes_lookup by lia. cbn. do 3 f_equal. lia.
  - intros (ch & He & Hgr & H1 & H2 & H3 & H4). destruct (represents_file G A F e ch HR He) as (a & Ha & [P S C B]).
    pose proof (file_of G F e ch _ _ HG He Hgr) as HF.
    rewrite Ha. destruct (Z.lt_ge_cases (asize a) o) as [Hout|Hin].
    { assert (Ek : Z.max 0 (Z.min n (asize a - o)) = 0) by lia. eexists _, F, G, A, _. split_and!; [reflexivity| |done].
      rewrite Ek, bytes_at_zero. cbn [put_bytes]. rewrite set_mem_id. by apply eread_past; rewrite ?S. }
    destruct (eread_run rd fs dom ok view b e (Z.of_nat (length ch)) 0 L u tbl maps pf ch F mm dst o n) as (F' & E & HGr & Hb);
      [done|done|lia|lia|lia|lia|eapply io_buffer_sub; [exact H4|lia|lia]|].
    rewrite S in E. eexists _, F', (<[e := ch]> G), A, _. split_and!; [reflexivity| |].
    + rewrite (Z.max_r 0) by lia. rewrite E, (bytes_at_ext _ (abytes a)); [done|]. intros i Hi. apply B. lia.
    + rewrite <- (insert_id A e a Ha). eapply represents_step; [exact HR|exact He|by eapply read_one|].
      destruct (plain_steady e F F' (gr_steady _ _ _ _ _ _ _ _ _ _ _ _ HGr) P) as [P' S'].
      constructor; [done|by rewrite S'|done|]. intros i Hi. by rewrite Hb, B.
  - intros (ch & He & H2). destruct (represents_file G A F e ch HR He) as (a & Ha & [P S C B]).
    destruct (etrunc_run rd fs dom ok view b e 0 L ch 0 F fuel) as (F' & E & T & _);
      [apply HG|by eapply (fk_chain _ _ HG)|by eapply (fk_ent _ _ HG)| |done|].
    { intros c Hc Hle. pose proof (ch_data _ _ _ _ (fk_chain _ _ HG e ch He) c Hc) as Hd. unfold data_cluster in Hd. lia. }
    rewrite Ha. eexists 0, F', (<[e := []]> G), _, _. split; [reflexivity|]. cbn [put_bytes]. rewrite set_mem_id. split.
    + rewrite (bind_Ret _ _ _ _ _ (lift_fat _ F mm _ _ E)). done.
    + eapply represents_step; [exact HR|exact He|by eapply trunc_one|]. destruct (tr_entry _ _ _ _ _ _ _ _ _ _ _ T) as (it & Ed).
      destruct P as (P1 & P2 & P3 & P4 & P5 & P6). constructor; rewrite ?Ed; try done; [|cbn; lia].
      unfold plain_file. rewrite Ed. cbn. split_and!; done.
Qed.
End files.

(** C6. The files of a volume are independent byte sequences.  On the buffer cache with a working set [dom]
    of sectors that holds the table: in every state in which the volume holds the files [A] (their
    chains and index blocks disjoint, the bitmap in agreement with the table), each call of
    [ewrite] and [eread] on a file of the working set, with a buffer in the kernel or in private
    pages of the caller, and of [etrunc] on any file, that has the room it needs, returns; its
    result, the bytes it delivers and the files after it are those of the specification [fspec],
    which knows neither sectors, clusters nor index blocks; no other memory changes; and the volume
    then holds the files of the specification, all other files, wherever they are on the volume,
    with the bytes and the size they had. *)
Theorem files_refine {CA : Caller} tbl maps pf depth fs dv dom b G A F mm op :
  let holds := represents fs dom (cache_ok fs dv dom) (cache_view dv) b in
  0 <= dv < 2 ^ 31 -> (forall n, dom n -> 0 <= n < 2 ^ 32) -> layout_ok dom b ->
  holds G A F -> enabled dom (cache_view dv) b tbl maps pf G F mm op ->
  exists r F' G' A' out, fspec op A (buf_bytes (fop_user op) mm pf (fop_addr op) (Z.to_nat (fop_len op))) = Some (r, A', out) /\
    fexec (fs_read (S depth)) op (mkFK F mm) = Ret r (mkFK F' (set_mem (put_bytes (fop_user op) pf (fop_addr op) out) mm)) /\
    holds G' A' F'.
Proof.
  intros holds Hdv Hdom L HR He. pose proof (cache_files fs dv dom depth Hdv Hdom) as FS. by eapply files_run.
Qed.

(** The file of FileData.v and a second one of 100 bytes in cluster 5: a write to the first that
    takes the free cluster 3 leaves the second as it is. *)
Definition file_ex2 : Dirent :=
  with_meta [0x62] ATTR_ARCHIVE 0 1 0 (with_index 1 (5 :: replicate 63 0) (with_pos 5 0 (with_file 5 100 dirent0))).
Definition fat_files : FatS :=
  mkFatS (mkB (<[100 := [255; 255; 255; 15; 255; 255; 255; 15; 4; 0; 0; 0; 0; 0; 0; 0; 255; 255; 255; 15; 255; 255; 255; 15] ++ replicate 488 0]> ∅) ∅
      (lru (bio fat_vol)) 1 []) (fss fat_vol) (<[7 := file_ex]> (<[8 := file_ex2]> ∅)) 0 ∅ (replicate 16 0) (<[1 := [55; 0]]> ∅).
Definition chains_ex : gmap Z (list Z) := <[7 := [2; 4]]> (<[8 := [5]]> ∅).
Definition afiles_ex : gmap Z afile := <[7 := mkA (fun _ => 0) 600]> (<[8 := mkA (fun _ => 0) 100]> ∅).

Lemma chains_ex_inv e ch : chains_ex !! e = Some ch -> (e = 7 /\ ch = [2; 4]) \/ (e = 8 /\ ch = [5]).
Proof.
  unfold chains_ex. intros [[<- <-]|[_ H]]%lookup_insert_Some; [by left|]. apply lookup_insert_Some in H as [[<- <-]|[_ H]]; [by right|].
  by rewrite lookup_empty in H.
Qed.

Lemma index_ex e c d : getde fat_files e = d -> inodeMaxCluster d = 1 -> inode d = c :: replicate 63 0 -> index_of fat_files e [c] (fun _ => 0).
Proof.
  intros E Hm Hi. split; [|cbn; lia]. constructor; rewrite ?E, ?Hi; try done; try (intros []; simpl; lia); try (intros; simpl in *; lia).
  + split; [done|]. apply Forall_replicate. lia.
  + intros pos H1 H2. cbn in H2. by assert (pos = 0) as -> by lia.
Qed.

Lemma files_ok_ex : files_ok 1 dom_vol (cache_ok 1 0 dom_vol) (cache_view 0) sb_vol chains_ex fat_files.
Proof.
  constructor.
  - constructor; [|reflexivity| |split; vm_compute; discriminate|exists []; split_and!; [done|apply NoDup_nil_2|done]|].
    { eapply cache_ok_vol; [reflexivity|reflexivity|]; intros; by apply disk_one. }
    2: { intros c Hc _ _. by apply served_vol. }
    change (bitmap_of 1 fat_files) with [55; 0]. constructor; [repeat constructor; lia|vm_compute; discriminate|].
    assert (H : Forall (fun c => bitmap_used [55; 0] c = negb (fat_entry (cache_view 0) fat_files sb_vol c =? 0)) (seqZ 0 128))
      by (refine (bool_decide_unpack _ _); by vm_compute).
    intros c Hc. rewrite Forall_forall in H. apply H, elem_of_seqZ. cbn in Hc. lia.
  - intros e ch [[-> ->]|[-> ->]]%chains_ex_inv; constructor.
    + intros c [-> | ->%list_elem_of_singleton]%elem_of_cons; unfold data_cluster; cbn; lia.
    + refine (bool_decide_unpack _ _); by vm_compute.
    + intros [|[|i]] c c' Hc Hc'; try done. injection Hc as <-. injection Hc' as <-. vm_compute. reflexivity.
    + intros c [= <-]. vm_compute. split; [discriminate|reflexivity].
    + intros c ->%list_elem_of_singleton; unfold data_cluster; cbn; lia.
    + apply NoDup_singleton.
    + intros [|i] c c' Hc Hc'; done.
    + intros c [= <-]. vm_compute. split; [discriminate|reflexivity].
  - intros e ch [[-> ->]|[-> ->]]%chains_ex_inv; constructor; try done; try (vm_compute; done).
    + exists (fun _ => 0). change (take _ _) with [2]. by apply (index_ex 7 2 file_ex).
    + exists (fun _ => 0). change (take _ _) with [5]. by apply (index_ex 8 5 file_ex2).
  - intros e e' ch ch' c [[-> ->]|[-> ->]]%chains_ex_inv [[-> ->]|[-> ->]]%chains_ex_inv Hne; try done;
      rewrite ?elem_of_cons, ?elem_of_nil; lia.
  - intros e e' ch ch' x [[-> ->]|[-> ->]]%chains_ex_inv _ _ (p & Hp & _) _; exfalso.
    + change (inodeMaxCluster (getde fat_files 7)) with 1 in Hp. destruct p; cbn in Hp; lia.
    + change (inodeMaxCluster (getde fat_files 8)) with 1 in Hp. destruct p; cbn in Hp; lia.
Qed.

Lemma bytes_ex ch i : Forall (fun c => c = 2 \/ c = 4 \/ c = 5) ch -> file_byte (cache_view 0) sb_vol ch fat_files i = 0.
Proof.
  intros H. unfold file_byte. destruct (ch !! _) as [c|] eqn:E; [|done]. rewrite Forall_forall in H. apply list_elem_of_lookup_2, H in E.
  change (byts_per_clus sb_vol) with 512. pose proof (Z.mod_pos_bound i 512 ltac:(lia)). unfold clus_byte.
  rewrite (Z.div_small (i mod 512)), Z.add_0_r, Z.mod_mod by lia.
  assert (Ez : cache_view 0 fat_files (first_sec sb_vol c) = zero_block) by (destruct E as [-> |[-> | ->]]; vm_compute; reflexivity).
  rewrite Ez. unfold zero_block. rewrite lookup_replicate_2 by lia. done.
Qed.

Lemma files_refine_witness :
  let mm := mkMM (store_bytes 1000 [1; 2; 3; 4; 5; 6] ∅) ∅ ∅ [] 0 in
  exists F' G' A', @ewrite _ _ _ (@FK_env caller_ex) (fs_read 1) 7 false 1000 1021 6 (mkFK fat_files mm) = Ret 6 (mkFK F' mm) /\
    represents 1 dom_vol (cache_ok 1 0 dom_vol) (cache_view 0) sb_vol G' A' F' /\
    asize <$> A' !! 7 = Some 1027 /\ asize <$> A' !! 8 = Some 100.
Proof.
  intros mm. destruct (files_refine (CA := caller_ex) ∅ ∅ (fun a => a) 0 1 0 dom_vol sb_vol chains_ex afiles_ex fat_files mm
    (FWrite false 7 1000 1021 6)) as (r & F' & G' & A' & out & H2 & H1 & H3).
  - lia.
  - exact dom_vol_range.
  - exact layout_ex.
  - split; [exact files_ok_ex|]. intros e. unfold chains_ex, afiles_ex. rewrite !lookup_insert, !lookup_empty.
    destruct (decide (7 = e)) as [<-|]; [|destruct (decide (8 = e)) as [<-|]; [|done]].
    + constructor; [split_and!; try (vm_compute; discriminate); try (vm_compute; reflexivity)|reflexivity|vm_compute; discriminate|].
      intros i _. apply bytes_ex. repeat constructor; lia.
    + constructor; [split_and!; try (vm_compute; discriminate); try (vm_compute; reflexivity)|reflexivity|vm_compute; discriminate|].
      intros i _. apply bytes_ex. repeat constructor; lia.
  - exists [2; 4], 3, 5. split; [reflexivity|]. split_and!; try lia; [|cbn; lia|apply kernel_buffer; lia]. split_and!; try (cbn; lia).
    + intros c [-> | ->%list_elem_of_singleton]%elem_of_cons; apply served_vol; unfold data_cluster; cbn; lia.
    + exists [3]. split; [done|]. split; [apply NoDup_singleton|]. repeat constructor; unfold data_cluster; cbn; try lia; vm_compute; reflexivity.
    + intros c Hc _ _. by apply served_vol.
    + exists [0; 1]. split; [reflexivity|]. split; [refine (bool_decide_unpack _ _); by vm_compute|].
      repeat constructor; try lia; vm_compute; reflexivity.
  - assert (Hr : r = 6 /\ out = [] /\ asize <$> A' !! 7 = Some 1027 /\ asize <$> A' !! 8 = Some 100).
    { clear H1 H3. unfold fspec in H2. change (afiles_ex !! 7) with (Some (mkA (fun _ => 0) 600)) in H2.
      change (Some (mkA (fun _ => 0) 600) ≫= ?f) with (f (mkA (fun _ => 0) 600)) in H2. cbv beta in H2.
      assert (H := H2). apply (inj Some) in H. inversion H as [[Hr HA Hm]]. clear. split_and!; reflexivity. }
    destruct Hr as (-> & -> & H4 & H5). cbn [put_bytes] in H1. rewrite set_mem_id in H1.
    exists F', G', A'. split; [exact H1|]. split; [exact H3|]. split; [exact H4|exact H5].
Defined.
