(* ===== verification/SignalSpec.v ===== *)
(** * Signal.c: delivering a signal and returning from its handler

    [handleSignal] interrupts a thread, and [syscallSignalReturn] puts it back
    exactly where it was. *)

From S2P Require Import Prelude CType Mem Config Queue Page PageInv PageSpec UserCopy Sched SchedSpec FatFile.
From S2P Require Import Signal Kernel.

(** ** Masks *)

Lemma sigbit_range sig : 0 <= sigbit sig < 2 ^ 64.
Proof. apply Z.mod_pos_bound. lia. Qed.

Lemma signalSetAnd_eq sig set : sig <= 64 -> signalSetAnd sig set = Some (c_true (Z.land set (sigbit sig))).
Proof. intros. unfold signalSetAnd. rewrite Z.gtb_ltb. by rewrite (proj2 (Z.ltb_ge _ _)). Qed.

(** Setting the bit of a signal that is not being processed, and clearing it. *)
Lemma signal_mask_restored sig p : sig <= 64 -> 0 <= p < 2 ^ 64 -> Z.land p (sigbit sig) = 0 ->
  exists q, signalProcessStart sig p = Some q /\ signalProcessEnd sig q = Some p /\ q = Z.lor p (sigbit sig).
Proof.
  intros Hs Hp Hz. unfold signalProcessStart, signalProcessEnd. rewrite Z.gtb_ltb, (proj2 (Z.ltb_ge _ _)) by done.
  eexists. split; [done|]. split; [|done]. f_equal. pose proof (sigbit_range sig) as Hb.
  apply Z.bits_inj'. intros i Hi. rewrite Z.land_spec, Z.lor_spec.
  pose proof (f_equal (fun x => Z.testbit x i) Hz) as Hzi. cbn beta in Hzi. rewrite Z.land_spec, Z.bits_0 in Hzi.
  destruct (Z.lt_ge_cases i 64).
  - rewrite testbit_u64_lnot by lia. by destruct (Z.testbit p i), (Z.testbit (sigbit sig) i).
  - rewrite <- (Z.mod_small p (2 ^ 64)), <- (Z.mod_small (sigbit sig) (2 ^ 64)) by lia.
    rewrite !Z.mod_pow2_bits_high by lia. done.
Qed.

(** ** The waiting list *)

(** A waiting signal that is not delivered now. *)
Definition masked (b p : Z) (x : SignalContext) : Prop :=
  start x = false /\ signal x <= 64 /\ (Z.land b (sigbit (signal x)) <> 0 \/ Z.land p (sigbit (signal x)) <> 0).
(** One that is. *)
Definition ready (b p : Z) (x : SignalContext) : Prop :=
  start x = false /\ signal x <= 64 /\ Z.land b (sigbit (signal x)) = 0 /\ Z.land p (sigbit (signal x)) = 0.

Section lists.
Context {S : Type} `{!Part S PState} `{!Part S SigS}.

Lemma getctx_bind {B} c (k : SignalContext -> M S B) s : (getctx c ≫= k) s = k (ctx (part s) c) s.
Proof. unfold getctx. by rewrite bind_lift_gets. Qed.
Lemma thread_bind {B} t (k : Thread -> M S B) s : (thread t ≫= k) s = k (th_of (part s) t) s.
Proof. unfold thread. by rewrite bind_lift_gets. Qed.
Lemma set_thread_bind {B} t f (k : unit -> M S B) s :
  (set_thread t f ≫= k) s = k tt (set_part (upd_thread t f (part s)) s).
Proof. reflexivity. Qed.

Lemma first_context_ready b p (s : S) c pre post :
  (forall x, x ∈ pre -> masked b p (ctx (part s) x)) -> ready b p (ctx (part s) c) ->
  first_context b p (pre ++ c :: post) s = Ret (Some c) s.
Proof.
  intros Hpre (H1 & H2 & H3 & H4). induction pre as [|x pre IH]; cbn [app first_context]; rewrite getctx_bind.
  - rewrite H1. cbv beta. unfold mbind, M_bind. rewrite !signalSetAnd_eq, H3, H4 by done. done.
  - destruct (Hpre x ltac:(by left)) as (-> & Hs & Hm). cbv beta. unfold mbind, M_bind.
    rewrite !signalSetAnd_eq by done. unfold c_true at 1.
    assert (IH' := IH (fun y Hy => Hpre y (list_elem_of_further _ _ _ Hy))).
    destruct (Z.eqb_spec (Z.land b (sigbit (signal (ctx (part s) x)))) 0) as [E|E]; simpl; [|done].
    unfold c_true. destruct (Z.eqb_spec (Z.land p (sigbit (signal (ctx (part s) x)))) 0); simpl; [tauto|done].
Qed.

Lemma find_context_first f (s : S) c pre post :
  (forall x, x ∈ pre -> f (ctx (part s) x) = false) -> f (ctx (part s) c) = true ->
  find_context f (pre ++ c :: post) s = Ret (Some c) s.
Proof.
  intros Hpre Hc. induction pre as [|x pre IH]; cbn [app find_context]; rewrite getctx_bind; [by rewrite Hc|].
  rewrite (Hpre x) by by left. apply IH. intros y Hy. apply Hpre. by right.
Qed.
End lists.

(** ** The frame of the handler *)

Lemma hart_tf_upd f s : hart_tf (upd_hart_tf f s) = f (hart_tf s).
Proof. unfold hart_tf at 1, upd_hart_tf. simpl. by rewrite lookup_insert_eq. Qed.
Lemma upd_hart_tf_twice f g s : upd_hart_tf g (upd_hart_tf f s) = upd_hart_tf (fun tf => g (f tf)) s.
Proof.
  unfold upd_hart_tf at 1. rewrite hart_tf_upd. unfold upd_hart_tf. simpl. by rewrite insert_insert_eq.
Qed.

(** Mapping a page that was just taken from the free list. *)
Lemma insert_fresh mm tbl maps r va perm n fl :
  pt_inv mm tbl maps -> tbl !! r = Some (Root r) -> 0 <= va < 2 ^ 39 -> 0 <= perm < 1024 ->
  freePages mm = n :: fl -> (2 <= length fl)%nat ->
  exists mm' tbl', Page.pageInsert (page2pa r) va (page2pa n) perm (alloc_state n mm) = Ret 0 mm' /\
    pt_inv mm' tbl' (<[(r, vpn va) := new_pte (page2pa n) perm]> maps) /\ tbl ⊆ tbl'.
Proof.
  intros I Hr Hva Hperm Hf Hfl. destruct (alloc_fresh _ _ _ _ _ I Hf) as (Hok & Hnt & Hrt & Hr0 & Hnin).
  pose proof (alloc_inv _ _ _ _ _ I Hf) as I1.
  pose proof (alloc_state_free n fl mm (pi_free _ _ _ I) Hf) as Hf1.
  assert (Hpan : 0 <= page2pa n < 2 ^ 56) by (rewrite page2pa_ok by done; unfold page_ok in *; lia).
  destruct (pageInsert_spec _ tbl maps r va (page2pa n) perm I1 Hr Hva Hpan Hperm) as (mm' & tbl' & H & I' & F).
  - by rewrite Hf1.
  - rewrite page_align, pte_page_new by done. intros p [= <-]. rewrite Hf1, alloc_state_ref, Hr0.
    split_and!; [done|lia|lia].
  - rewrite page_align in I' by done. exists mm', tbl'. split_and!; [exact H|exact I'|apply F].
Qed.

Definition frame_perm : Z := Z.lor PTE_USER (Z.lor PTE_READ PTE_WRITE).
(** The stack pointer of the handler. *)
Definition frame_sp (tf : Trapframe) : Z := (reg tf tf_sp - 4096) - (reg tf tf_sp - 4096) mod 4096.

Lemma initFrame_spec (w : Kernel) tbl maps r t n fl :
  currentThread (k_p w) !! cpu (k_p w) = Some t ->
  pgdir (pr_of (k_p w) (process (th_of (k_p w) t))) = page2pa r ->
  pt_inv (k_m w) tbl maps -> tbl !! r = Some (Root r) ->
  8192 <= reg (hart_tf (k_p w)) tf_sp < 2 ^ 38 -> freePages (k_m w) = n :: fl -> (2 <= length fl)%nat ->
  let sp := frame_sp (hart_tf (k_p w)) in
  exists mm' tbl', initFrame w = Ret tt (set_part mm' (set_part (upd_hart_tf (fun tf =>
      <[tf_ra := SIGNAL_TRAMPOLINE_BASE]> (<[tf_sp := sp]> tf)) (k_p w)) w)) /\
    pt_inv mm' tbl' (<[(r, vpn (sp - 4096)) := new_pte (page2pa n) frame_perm]> maps) /\ tbl ⊆ tbl'.
Proof.
  intros Hc Hd I Hr Hsp Hf Hfl sp.
  assert (Hs : 0 <= sp - 4096 < 2 ^ 39 /\ 0 <= sp < 2 ^ 64)
    by (unfold sp, frame_sp; Z.to_euclidean_division_equations; lia).
  destruct (insert_fresh (k_m w) tbl maps r (sp - 4096) frame_perm n fl I Hr ltac:(lia)
    ltac:(by vm_compute) Hf Hfl) as (mm' & tbl' & H & I' & Hs').
  exists mm', tbl'. split; [|done]. unfold initFrame. run_step. change PAGE_SIZE with 4096.
  change (part w) with (k_p w). rewrite (u64_small (reg _ _ - 4096)), DOWN_ALIGN_4096 by lia.
  fold (frame_sp (hart_tf (k_p w))). fold sp.
  rewrite (bind_lift_Ret _ _ _ _ _ (pageAlloc_eq _ _ _ Hf)).
  set (w1 := set_part (alloc_state n (part w)) w).
  assert (Hp : myProcess (part w1) = Ret (Some (process (th_of (k_p w) t))) (part w1)).
  { unfold myProcess, myThread, mbind, M_bind, gets. change (part w1) with (k_p w). simpl. by rewrite Hc. }
  rewrite (bind_lift_Ret _ _ _ _ _ Hp), set_part_part. run_step. change (part w1) with (k_p w). rewrite Hd.
  rewrite (u64_small (sp - 4096)) by lia.
  rewrite (bind_lift_Ret _ _ _ 0 mm') by exact H. run_step.
  unfold lift, modify. cbn [olift]. f_equal.
  replace (4096 + sp - 4096) with sp by lia. rewrite u64_small by lia.
  unfold w1. destruct w. simpl. f_equal. by rewrite upd_hart_tf_twice.
Qed.

(** ** Delivery *)

(** A signal can be delivered: thread [t] runs and is not killed; [c] is the first
    waiting context whose signal is not masked; its process has a handler for the
    signal, a page table, thread-local storage and room for the new frame. *)
Record deliverable (w : Kernel) (t c : Z) (pre post : list Z) (tbl : gmap Z owner) (maps : gmap (Z * Z) Z)
    (r kr e : Z) (f : Z -> Z) : Prop := {
  dl_cur : currentThread (k_p w) !! cpu (k_p w) = Some t;
  dl_alive : killed (th_of (k_p w) t) = false;
  dl_wait : waitingSignal (th_of (k_p w) t) = pre ++ c :: post;
  dl_nodup : NoDup (pre ++ c :: post);
  dl_mask : 0 <= processing (th_of (k_p w) t) < 2 ^ 64;
  dl_pre : forall x, x ∈ pre ->
    masked (blocked (th_of (k_p w) t)) (processing (th_of (k_p w) t)) (ctx (k_sig w) x);
  dl_ready : ready (blocked (th_of (k_p w) t)) (processing (th_of (k_p w) t)) (ctx (k_sig w) c);
  dl_inv : pt_inv (k_m w) tbl maps;
  dl_root : tbl !! r = Some (Root r);
  dl_kroot : tbl !! kr = Some (Root kr);
  dl_dir : pgdir (pr_of (k_p w) (process (th_of (k_p w) t))) = page2pa r;
  dl_haddr : 0 <= handler_addr (process (th_of (k_p w) t)) (signal (ctx (k_sig w) c)) < 2 ^ 39;
  dl_hpage : maps !! (kr, vpn (handler_addr (process (th_of (k_p w) t)) (signal (ctx (k_sig w) c)))) = Some e;
  dl_hram : PTE2PA e <> 0;
  dl_tls : user_range tbl maps r (u64 (reg (trapframe (th_of (k_p w) t)) tf_tp - SIZEOF_PTHREAD)) SIZEOF_PTHREAD f;
  dl_sp : 8192 <= reg (hart_tf (k_p w)) tf_sp < 2 ^ 38;
  dl_free : (3 <= length (freePages (k_m w)))%nat;
}.

(** The handler of the signal of [c]. *)
Definition handler_of (w : Kernel) (t c e : Z) : Z :=
  load64 (mem (k_m w))
    (PTE2PA e + handler_addr (process (th_of (k_p w) t)) (signal (ctx (k_sig w) c)) mod 4096).

Definition enter (handler : Z) (tf : Trapframe) : Trapframe :=
  <[tf_epc := handler]> (<[tf_ra := SIGNAL_TRAMPOLINE_BASE]> (<[tf_sp := frame_sp tf]> tf)).

Lemma ctx_set_ctx s c g x : ctx (set_ctx c g s) x = if decide (x = c) then g (ctx s c) else ctx s x.
Proof.
  unfold ctx at 1, set_ctx. simpl. destruct (decide (x = c)) as [-> |].
  - by rewrite lookup_insert_eq.
  - by rewrite lookup_insert_ne.
Qed.
Lemma set_ctx_twice c g h s : set_ctx c h (set_ctx c g s) = set_ctx c (fun x => h (g x)) s.
Proof.
  unfold set_ctx at 1. rewrite ctx_set_ctx, decide_True by done. unfold set_ctx. simpl.
  by rewrite insert_insert_eq.
Qed.

Section delivery.
Context (pageout : Z -> Z -> M Kernel Z) (threadDestroy : Z -> M Kernel unit).

Lemma deliver w t c pre post tbl maps r kr e f :
  deliverable w t c pre post tbl maps r kr e f -> handler_of w t c e <> 0 ->
  let th := th_of (k_p w) t in
  let sig := signal (ctx (k_sig w) c) in
  exists mm' tbl' n,
    handleSignal pageout threadDestroy (page2pa kr) t w =
      Ret tt (mkK (upd_hart_tf (enter (handler_of w t c e))
                     (upd_thread t (t_masks (blocked th) (Z.lor (processing th) (sigbit sig))) (k_p w)))
                  mm' (k_pipes w) (k_fat w) (k_files w) (k_seg w)
                  (set_ctx c (fun _ => mkContext (hart_tf (k_p w)) true sig) (k_sig w))) /\
    n ∈ freePages (k_m w) /\
    pt_inv mm' tbl' (<[(r, vpn (frame_sp (hart_tf (k_p w)) - 4096)) := new_pte (page2pa n) frame_perm]> maps).
Proof.
  intros D Hh th sig. destruct D.
  fold th in dl_alive0, dl_wait0, dl_mask0, dl_pre0, dl_ready0, dl_dir0, dl_haddr0, dl_hpage0, dl_tls0.
  fold sig in dl_haddr0, dl_hpage0. destruct (freePages (k_m w)) as [|n fl] eqn:Hfree; [simpl in *; lia|].
  destruct (signal_mask_restored sig (processing th)) as (q & Hq & _ & ->); [apply dl_ready0|done|apply dl_ready0|].
  set (sig1 := set_ctx c (fun _ => mkContext (hart_tf (k_p w)) true sig) (k_sig w)).
  set (p1 := upd_thread t (t_masks (blocked th) (Z.lor (processing th) (sigbit sig))) (k_p w)).
  set (w1 := mkK p1 (k_m w) (k_pipes w) (k_fat w) (k_files w) (k_seg w) sig1).
  assert (Hth : th_of p1 t = t_masks (blocked th) (Z.lor (processing th) (sigbit sig)) th)
    by (unfold p1; by rewrite th_of_upd, decide_True).
  destruct (initFrame_spec w1 tbl maps r t n fl) as (mm' & tbl' & Hi & I' & Hs'); try done.
  { by change (k_p w1) with p1; rewrite Hth. }
  { simpl in *; lia. }
  pose proof (@copyin_spec Kernel Kernel_m pageout tbl maps r f dl_root0 w1 _ _ dl_inv0 dl_tls0
    ltac:(apply Z.leb_le; reflexivity)) as Hcp.
  exists mm', tbl', n. split; [|split; [by left|done]].
  unfold handleSignal. rewrite thread_bind. change (part w) with (k_p w). fold th. rewrite dl_wait0.
  cbn [loop]. unfold handle_step at 1. rewrite thread_bind. change (part w) with (k_p w). fold th.
  rewrite dl_alive0. cbn [when]. rewrite bind_mret.
  assert (Hg : getFirstSignalContext t w = Ret (Some c) w).
  { unfold getFirstSignalContext. rewrite thread_bind. change (part w) with (k_p w). fold th. rewrite dl_wait0.
    by apply first_context_ready. }
  rewrite (bind_Ret _ _ _ _ _ Hg), getctx_bind. change (part w) with (k_sig w).
  destruct dl_ready0 as (Hst & Hs & _). rewrite Hst, thread_bind. change (part w) with (k_p w). fold th sig.
  rewrite (bind_Ret _ _ _ _ _ (@kaddr_mapped Kernel Kernel_m w tbl maps kr _ e dl_inv0 dl_kroot0 dl_haddr0 dl_hpage0 dl_hram0)).
  unfold read_memory. rewrite bind_lift_gets. change (part w) with (k_m w). fold (handler_of w t c e).
  rewrite (proj2 (Z.eqb_neq _ 0)) by done. run_step. rewrite Hq. unfold opt. rewrite bind_mret, set_thread_bind.
  run_steps.
  match goal with |- obind (?m ?s) _ = _ => replace s with w1 end.
  2: { unfold w1, p1, sig1. destruct w. simpl. f_equal. by rewrite set_ctx_twice. }
  change (part w1) with p1. change (pr_of p1 (process th)) with (pr_of (k_p w) (process th)). rewrite dl_dir0.
  rewrite (bind_Ret _ _ _ _ _ Hcp).
  rewrite (bind_Ret _ _ _ _ _ Hi). run_step. cbn [obind]. f_equal.
  unfold w1, enter. simpl. f_equal. by rewrite upd_hart_tf_twice.
Qed.

(** The return from the handler, whatever registers and memory it left. *)
Lemma return_from w t c pre post tf sig b p q :
  currentThread (k_p w) !! cpu (k_p w) = Some t ->
  waitingSignal (th_of (k_p w) t) = pre ++ c :: post -> NoDup (pre ++ c :: post) ->
  (forall x, x ∈ pre -> start (ctx (k_sig w) x) = false) -> ctx (k_sig w) c = mkContext tf true sig ->
  blocked (th_of (k_p w) t) = b -> signalProcessEnd sig (processing (th_of (k_p w) t)) = Some p ->
  q = upd_thread t (fun th => t_signals (killed th) (pre ++ post) (t_masks b p th)) (upd_hart_tf (fun _ => tf) (k_p w)) ->
  syscallSignalReturn w = Ret tt (mkK q (k_m w) (k_pipes w) (k_fat w) (k_files w) (k_seg w)
    (mkSigS (contexts (k_sig w)) (c :: freeSignalContextList (k_sig w)))).
Proof.
  intros Hc Hw Hnd Hpre Hctx Hb Hp ->. unfold syscallSignalReturn, myThread. run_step.
  change (part w) with (k_p w). rewrite Hc.
  assert (Hg : getHandlingSignal t w = Ret c w).
  { unfold getHandlingSignal. rewrite thread_bind. change (part w) with (k_p w). rewrite Hw.
    assert (Hst : start (ctx (k_sig w) c) = true) by by rewrite Hctx.
    by rewrite (bind_Ret _ _ _ _ _ (@find_context_first Kernel Kernel_sig start w c pre post Hpre Hst)). }
  rewrite (bind_Ret _ _ _ _ _ Hg), getctx_bind. change (part w) with (k_sig w). rewrite Hctx. run_step.
  rewrite thread_bind. cbn [signal contextRecover].
  match goal with |- context [part ?s] => change (th_of (part s) t) with (th_of (k_p w) t) end.
  rewrite Hp. unfold opt. rewrite bind_mret, set_thread_bind. unfold signalFinish. rewrite set_thread_bind.
  unfold signalContextFree, lift, modify. cbn [olift]. f_equal. destruct w as [P mm pi fa fi se si]. simpl in *. f_equal.
  rewrite upd_thread_twice. unfold upd_thread. f_equal. f_equal.
  change (th_of (upd_hart_tf (fun _ => tf) P) t) with (th_of P t). subst b. rewrite <- (Queue.list_remove_split c) by done.
  by rewrite <- Hw.
Qed.
End delivery.

(** C26. Delivering a signal and returning from its handler.  When a signal can be
    delivered and has a handler, [handleSignal] returns with the program counter at
    the handler, the return address at the signal trampoline, the stack pointer on a
    new page mapped for the user, and the signal marked as being processed.  When the
    handler ends, whatever registers and memory it leaves, [syscallSignalReturn]
    restores every register of the interrupted thread and its masks, removes the
    signal from the waiting list and returns its context to the pool; no other
    thread changes. *)
Theorem signal_roundtrip pageout threadDestroy w t c pre post tbl maps r kr e f :
  deliverable w t c pre post tbl maps r kr e f -> handler_of w t c e <> 0 ->
  let th := th_of (k_p w) t in
  exists w1 tbl' n,
    handleSignal pageout threadDestroy (page2pa kr) t w = Ret tt w1 /\
    hart_tf (k_p w1) = enter (handler_of w t c e) (hart_tf (k_p w)) /\
    processing (th_of (k_p w1) t) = Z.lor (processing th) (sigbit (signal (ctx (k_sig w) c))) /\
    n ∈ freePages (k_m w) /\
    pt_inv (k_m w1) tbl'
      (<[(r, vpn (frame_sp (hart_tf (k_p w)) - 4096)) := new_pte (page2pa n) frame_perm]> maps) /\
    forall regs mm', exists w2,
      syscallSignalReturn (mkK (upd_hart_tf (fun _ => regs) (k_p w1)) mm' (k_pipes w1) (k_fat w1) (k_files w1)
        (k_seg w1) (k_sig w1)) = Ret tt w2 /\
      hart_tf (k_p w2) = hart_tf (k_p w) /\
      th_of (k_p w2) t = t_signals (killed th) (pre ++ post) th /\
      (forall u, u <> t -> th_of (k_p w2) u = th_of (k_p w) u) /\
      freeSignalContextList (k_sig w2) = c :: freeSignalContextList (k_sig w) /\ k_m w2 = mm'.
Proof.
  intros D Hh th.
  destruct (deliver pageout threadDestroy w t c pre post tbl maps r kr e f D Hh) as (mm1 & tbl' & n & Hrun & Hn & I').
  destruct D. fold th in dl_wait0, dl_mask0, dl_ready0. set (sig := signal (ctx (k_sig w) c)) in *.
  destruct (signal_mask_restored sig (processing th)) as (q & _ & Hq & ->); [apply dl_ready0|done|apply dl_ready0|].
  eexists _, tbl', n. split; [exact Hrun|]. cbn [k_p k_m k_pipes k_fat k_files k_seg k_sig].
  set (p1 := upd_thread t _ _) in *.
  assert (Hth : th_of p1 t = t_masks (blocked th) (Z.lor (processing th) (sigbit sig)) th)
    by (unfold p1; by rewrite th_of_upd, decide_True).
  split; [by rewrite hart_tf_upd|]. change (th_of (upd_hart_tf _ p1)) with (th_of p1). rewrite Hth.
  split_and!; try done. intros regs mm'. rewrite upd_hart_tf_twice. eexists. split.
  - eapply (return_from _ t c pre post (hart_tf (k_p w)) sig (blocked th) (processing th)); try done;
      cbn [k_p k_sig]; change (th_of (upd_hart_tf _ p1)) with (th_of p1); rewrite ?Hth; try done.
    + intros x Hx. rewrite ctx_set_ctx. destruct (dl_pre0 x Hx) as (Hs & _). case_decide; [|done].
      subst x. apply NoDup_app in dl_nodup0 as (_ & Hd & _). destruct (Hd c Hx). by left.
    + by rewrite ctx_set_ctx, decide_True.
  - cbn [k_p k_m k_sig freeSignalContextList]. rewrite upd_hart_tf_twice.
    set (p2 := upd_hart_tf _ p1). change (hart_tf (upd_thread _ _ p2)) with (hart_tf p2). unfold p2 at 1.
    rewrite hart_tf_upd, th_of_upd, decide_True by done. change (th_of p2) with (th_of p1). rewrite Hth.
    split_and!; try done.
    intros u Hu. rewrite th_of_upd, decide_False by done. change (th_of p2 u) with (th_of p1 u).
    unfold p1. by rewrite th_of_upd, decide_False.
Qed.

(** ** Signals without a handler *)

Definition maskedb (b p : Z) (x : SignalContext) : bool :=
  c_true (Z.land b (sigbit (signal x))) || c_true (Z.land p (sigbit (signal x))).

(** The waiting signals [ws] of thread [t], none of them being handled; those that
    are not masked have no handler in the table at [tab]. *)
Record ignorable (w : Kernel) (t kr tab : Z) (ws : list Z) : Prop := {
  ig_alive : killed (th_of (k_p w) t) = false;
  ig_wait : waitingSignal (th_of (k_p w) t) = ws;
  ig_nodup : NoDup ws;
  ig_fresh : forall x, x ∈ ws -> start (ctx (k_sig w) x) = false /\ signal (ctx (k_sig w) x) <= 64;
  ig_table : forall x, x ∈ ws ->
    maskedb (blocked (th_of (k_p w) t)) (processing (th_of (k_p w) t)) (ctx (k_sig w) x) = false ->
    kaddr kr (handler_addr (process (th_of (k_p w) t)) (signal (ctx (k_sig w) x))) w =
      Ret (tab + SIZEOF_ACTION * (signal (ctx (k_sig w) x) - 1)) w /\
    load64 (mem (k_m w)) (tab + SIZEOF_ACTION * (signal (ctx (k_sig w) x) - 1)) = 0;
}.

(** The state when the context [c] is dropped. *)
Definition dropped (t c : Z) (ws : list Z) (w : Kernel) : Kernel :=
  mkK (upd_thread t (fun th => t_signals (killed th) ws th) (k_p w)) (k_m w) (k_pipes w) (k_fat w) (k_files w)
    (k_seg w) (mkSigS (contexts (k_sig w)) (c :: freeSignalContextList (k_sig w))).

Lemma masked_iff b p x : start x = false -> signal x <= 64 -> maskedb b p x = true -> masked b p x.
Proof.
  intros H1 H2 Hm. split_and!; [done|done|]. unfold maskedb, c_true in Hm. apply orb_prop in Hm.
  by destruct Hm as [Hm|Hm]; apply negb_true_iff, Z.eqb_neq in Hm; [left|right].
Qed.
Lemma ready_iff b p x : start x = false -> signal x <= 64 -> maskedb b p x = false -> ready b p x.
Proof.
  intros H1 H2 Hm. unfold maskedb, c_true in Hm. apply orb_false_iff in Hm as [Ha Hb].
  apply negb_false_iff, Z.eqb_eq in Ha, Hb. done.
Qed.

Lemma first_context_none {S} `{!Part S SigS} b p (s : S) ws :
  (forall x, x ∈ ws -> masked b p (ctx (part s) x)) -> first_context b p ws s = Ret None s.
Proof.
  induction ws as [|x ws IH]; intros Hm; [done|]. cbn [first_context]. rewrite getctx_bind.
  destruct (Hm x ltac:(by left)) as (-> & Hs & Hx). unfold mbind, M_bind. rewrite !signalSetAnd_eq by done.
  assert (IH' := IH (fun y Hy => Hm y (list_elem_of_further _ _ _ Hy))). unfold c_true.
  destruct (Z.eqb_spec (Z.land b (sigbit (signal (ctx (part s) x)))) 0); simpl; [|done].
  destruct (Z.eqb_spec (Z.land p (sigbit (signal (ctx (part s) x)))) 0); simpl; [tauto|done].
Qed.

Section ignoring.
Context (pageout : Z -> Z -> M Kernel Z) (threadDestroy : Z -> M Kernel unit) (kr tab : Z).

Lemma signalFinish_drops w t pre c post :
  waitingSignal (th_of (k_p w) t) = pre ++ c :: post -> NoDup (pre ++ c :: post) ->
  signalFinish t c w = Ret tt (dropped t c (pre ++ post) w).
Proof.
  intros Hw Hnd. unfold signalFinish. rewrite set_thread_bind.
  unfold signalContextFree, lift, modify. cbn [olift]. f_equal.
  unfold dropped. destruct w as [P mm pi fa fi se si]. simpl in *. f_equal. unfold upd_thread. f_equal. f_equal.
  by rewrite Hw, Queue.list_remove_split.
Qed.

Lemma handle_ignored w t pre c post :
  ignorable w t kr tab (pre ++ c :: post) ->
  let test x := maskedb (blocked (th_of (k_p w) t)) (processing (th_of (k_p w) t)) (ctx (k_sig w) x) in
  (forall x, x ∈ pre -> test x = true) -> test c = false ->
  handle_step pageout threadDestroy kr t w = Ret (inl tt) (dropped t c (pre ++ post) w).
Proof.
  intros [Ha Hw Hnd Hf Ht] test Hpre Hc. unfold handle_step. rewrite thread_bind. change (part w) with (k_p w).
  rewrite Ha. cbn [when]. rewrite bind_mret.
  destruct (Hf c ltac:(set_solver)) as [Hst Hs].
  assert (Hg : getFirstSignalContext t w = Ret (Some c) w).
  { unfold getFirstSignalContext. rewrite thread_bind. change (part w) with (k_p w). rewrite Hw.
    apply first_context_ready; [|by apply ready_iff].
    intros x Hx. destruct (Hf x ltac:(set_solver)). by apply masked_iff; [| |apply Hpre]. }
  rewrite (bind_Ret _ _ _ _ _ Hg), getctx_bind. change (part w) with (k_sig w). rewrite Hst, thread_bind.
  change (part w) with (k_p w). destruct (Ht c ltac:(set_solver) Hc) as [Hk Hz].
  rewrite (bind_Ret _ _ _ _ _ Hk). unfold read_memory. rewrite bind_lift_gets. change (part w) with (k_m w).
  rewrite Hz. cbn [Z.eqb]. by rewrite (bind_Ret _ _ _ _ _ (signalFinish_drops w t pre c post Hw Hnd)).
Qed.

Lemma ignorable_dropped w t pre c post :
  ignorable w t kr tab (pre ++ c :: post) -> ignorable (dropped t c (pre ++ post) w) t kr tab (pre ++ post).
Proof.
  intros [Ha Hw Hnd Hf Ht].
  assert (Hth : th_of (k_p (dropped t c (pre ++ post) w)) t
    = t_signals (killed (th_of (k_p w) t)) (pre ++ post) (th_of (k_p w) t)).
  { unfold dropped. cbn [k_p]. by rewrite th_of_upd, decide_True. }
  assert (Hin : forall x, x ∈ pre ++ post -> x ∈ pre ++ c :: post) by set_solver.
  constructor; rewrite ?Hth; try done.
  - apply NoDup_app in Hnd as (H1 & H2 & H3). apply NoDup_cons in H3 as [H3 H4]. apply NoDup_app.
    split_and!; [done| |done]. intros x Hx Hx'. apply (H2 x Hx). by right.
  - intros x Hx. apply (Hf x (Hin x Hx)).
  - intros x Hx Hm. destruct (Ht x (Hin x Hx) Hm) as [Hk Hz]. split; [|done].
    revert Hk. unfold kaddr, mbind, M_bind, lift. change (part (dropped t c (pre ++ post) w)) with (k_m w).
    change (part w) with (k_m w). cbn [t_signals process ctx].
    change (ctx (k_sig (dropped t c (pre ++ post) w)) x) with (ctx (k_sig w) x).
    destruct (Page.pageLookup kr _ (k_m w)) as [a s| | | |]; simpl; try done.
    destruct (fst a =? 0); [done|]. unfold mret, M_ret. intros [= -> Hs]. f_equal.
    unfold dropped. simpl. f_equal. by apply (f_equal k_m) in Hs.
Qed.

(** Whether thread [t] masks the signal of a context. *)
Definition masks (w : Kernel) (t x : Z) : bool :=
  maskedb (blocked (th_of (k_p w) t)) (processing (th_of (k_p w) t)) (ctx (k_sig w) x).

Lemma masks_dropped w t c ws x : masks (dropped t c ws w) t x = masks w t x.
Proof. unfold masks, dropped. cbn [k_p k_sig]. by rewrite th_of_upd, decide_True. Qed.

Lemma handle_all_ignored n : forall w t ws,
  ignorable w t kr tab ws -> (length ws < n)%nat ->
  exists w', loop n (fun _ => handle_step pageout threadDestroy kr t) tt w = Ret tt w' /\
    waitingSignal (th_of (k_p w') t) = filter (fun x => masks w t x = true) ws /\
    freeSignalContextList (k_sig w') =
      reverse (filter (fun x => masks w t x = false) ws) ++ freeSignalContextList (k_sig w) /\
    hart_tf (k_p w') = hart_tf (k_p w) /\ k_m w' = k_m w.
Proof.
  induction n as [|n IH]; intros w t ws Hig Hn; [lia|]. cbn [loop].
  destruct (split_first (masks w t) ws) as [Hall|(pre & c & post & -> & Hpre & Hc)].
  - exists w. pose proof Hig as [Ha Hw _ Hf _].
    assert (Hstep : handle_step pageout threadDestroy kr t w = Ret (inr tt) w).
    { assert (Hg : getFirstSignalContext t w = Ret None w).
      { unfold getFirstSignalContext. rewrite thread_bind. change (part w) with (k_p w). rewrite Hw.
        apply first_context_none. intros x Hx. destruct (Hf x Hx). by apply masked_iff; [| |apply Hall]. }
      unfold handle_step. rewrite thread_bind. change (part w) with (k_p w). rewrite Ha. cbn [when].
      by rewrite bind_mret, (bind_Ret _ _ _ _ _ Hg). }
    rewrite Hstep. split_and!; try done.
    + rewrite Hw. symmetry. by apply filter_all.
    + rewrite filter_none; [done|]. intros x Hx. by rewrite Hall.
  - rewrite (handle_ignored w t pre c post Hig Hpre Hc). cbn [obind].
    destruct (IH _ t (pre ++ post) (ignorable_dropped w t pre c post Hig)) as (w' & R1 & R2 & R3 & R4 & R5);
      [rewrite length_app in *; simpl in Hn; lia|].
    exists w'. rewrite R1, R2, R3. split_and!; try done.
    + rewrite !filter_app, filter_cons_False by by rewrite Hc.
      f_equal; apply list_filter_iff; intros x; by rewrite masks_dropped.
    + rewrite !filter_app, filter_cons_True by done.
      rewrite !(filter_none _ pre) by (intros x Hx; rewrite ?masks_dropped; by rewrite Hpre).
      simpl. rewrite reverse_cons, <- app_assoc. simpl. f_equal. f_equal. apply list_filter_iff. intros x. by rewrite masks_dropped.
Qed.
End ignoring.

(** C28. Signals without a handler are discarded, and the loop of [handleSignal]
    ends: when the waiting signals that are not masked have no handler,
    [handleSignal] returns; the masked ones keep waiting, in order, the contexts of
    all others are back in the pool, and neither the registers nor the memory have
    changed. *)
Theorem ignored_signals_dropped pageout threadDestroy kr tab w t ws :
  ignorable w t kr tab ws ->
  exists w', handleSignal pageout threadDestroy kr t w = Ret tt w' /\
    waitingSignal (th_of (k_p w') t) = filter (fun x => masks w t x = true) ws /\
    freeSignalContextList (k_sig w') =
      reverse (filter (fun x => masks w t x = false) ws) ++ freeSignalContextList (k_sig w) /\
    hart_tf (k_p w') = hart_tf (k_p w) /\ k_m w' = k_m w.
Proof.
  intros Hig. unfold handleSignal. rewrite thread_bind. change (part w) with (k_p w).
  rewrite (ig_wait _ _ _ _ _ Hig). apply (handle_all_ignored _ _ _ tab); [done|lia].
Qed.

(** ** A concrete delivery *)

(** Page 300 holds both the handlers of process 0 and the thread-local storage; the
    handler of signal 1 is at 0x8000. *)
Definition mm_mapped : MM :=
  match Page.pageInsert (page2pa 200) PROCESS_SIGNAL_BASE (page2pa 300) frame_perm mm1 with
  | Ret _ m => m
  | _ => mm1
  end.
Definition mm_handler : MM := set_mem (store_bytes (page2pa 300 + 0) [0; 0x80]) mm_mapped.
Definition pte_handler : Z := new_pte (page2pa 300) frame_perm.
Definition tf_ex : Trapframe := <[tf_epc := 0x1000]> (<[tf_sp := 0x20000]> ∅).
Definition thread_ex : Thread :=
  mkThread (<[tf_tp := PROCESS_SIGNAL_BASE + 224]> ∅) 0 0 RUNNING 0 0 0 0 0 0 0 0 0 false [5].
Definition process_ex : Process := mkProcess (page2pa 200) 0 0 0 RUNNABLE ∅ 0 0 0 0 0 1 0 0 [] 0 0 0 0.
Definition w_sig : Kernel :=
  kernel_of (with_one_thread thread_ex process_ex tf_ex) mm_handler (mkSigS (<[5 := mkContext ∅ false 1]> ∅) []).
Definition maps_sig : gmap (Z * Z) Z := <[(200, vpn PROCESS_SIGNAL_BASE) := pte_handler]> ∅.

Lemma w_sig_deliverable : exists tbl, deliverable w_sig 0 5 [] [] tbl maps_sig 200 200 pte_handler (fun _ => 300).
Proof.
  destruct (mm1_insert_at PROCESS_SIGNAL_BASE frame_perm) as (m & tbl & H & I & Hr & Hp);
    [vm_compute; split; [discriminate|reflexivity]|vm_compute; split; [discriminate|reflexivity]|].
  assert (m = mm_mapped) as Em by (unfold mm_mapped; by rewrite H). rewrite Em in I. clear H Em.
  assert (Ih : pt_inv mm_handler tbl maps_sig).
  { apply store_bytes_inv; [exact I|unfold page_ok; lia|exact Hp|lia|simpl; lia]. }
  exists tbl. constructor; try (exact Ih || exact Hr || reflexivity).
  - apply NoDup_singleton.
  - vm_compute. split; [discriminate|reflexivity].
  - intros x Hx. by apply elem_of_nil in Hx.
  - split_and!; vm_compute; (reflexivity || discriminate).
  - vm_compute. split; [discriminate|reflexivity].
  - vm_compute. discriminate.
  - assert (Hv : forall a, PROCESS_SIGNAL_BASE <= a < PROCESS_SIGNAL_BASE + 224 -> vpn a = vpn PROCESS_SIGNAL_BASE).
    { intros a. change PROCESS_SIGNAL_BASE with 69793218560. intros Ha. unfold vpn.
      Z.to_euclidean_division_equations; lia. }
    change (u64 (reg (trapframe (th_of (k_p w_sig) 0)) tf_tp - SIZEOF_PTHREAD)) with PROCESS_SIGNAL_BASE.
    split_and!; [vm_compute; discriminate|vm_compute; discriminate| |].
    + intros a Ha. rewrite Hv by exact Ha. exists pte_handler.
      split_and!; [apply lookup_insert_eq|vm_compute; reflexivity|exact Hp|vm_compute; discriminate|
        vm_compute; reflexivity].
    + intros a b Ha Hb _. transitivity (vpn PROCESS_SIGNAL_BASE); [exact (Hv a Ha)|symmetry; exact (Hv b Hb)].
  - vm_compute. split; [discriminate|reflexivity].
Qed.

Lemma signal_roundtrip_witness :
  exists w1, handleSignal (fun _ _ => panic) (fun _ => panic) (page2pa 200) 0 w_sig = Ret tt w1 /\
    reg (hart_tf (k_p w1)) tf_epc = 0x8000 /\
    exists w2, syscallSignalReturn (mkK (upd_hart_tf (fun _ => ∅) (k_p w1)) mm1 (k_pipes w1) (k_fat w1) (k_files w1)
        (k_seg w1) (k_sig w1)) = Ret tt w2 /\ hart_tf (k_p w2) = tf_ex.
Proof.
  destruct w_sig_deliverable as [tbl D].
  assert (Hh : handler_of w_sig 0 5 pte_handler = 0x8000) by (vm_compute; reflexivity).
  destruct (signal_roundtrip (fun _ _ => panic) (fun _ => panic) w_sig 0 5 [] [] tbl maps_sig 200 200 pte_handler
    (fun _ => 300) D) as (w1 & tbl' & n & H1 & H2 & _ & _ & _ & H3).
  - rewrite Hh. discriminate.
  - exists w1. split; [exact H1|]. split; [rewrite H2, Hh; reflexivity|].
    destruct (H3 ∅ mm1) as (w2 & H4 & H5 & _). exists w2. split; [exact H4|exact H5].
Defined.

(** Signal 1 waits and has no handler, signal 2 waits and is blocked. *)
Definition w_ign : Kernel :=
  kernel_of (with_one_thread
      (mkThread ∅ 0 0 RUNNING 0 0 0 2 0 0 0 0 0 false [5; 6]) process_ex tf_ex) mm_mapped
    (mkSigS (<[5 := mkContext ∅ false 1]> (<[6 := mkContext ∅ false 2]> ∅)) []).

Lemma w_ign_ignorable : ignorable w_ign 0 (page2pa 200) (page2pa 300) [5; 6].
Proof.
  destruct (mm1_insert_at PROCESS_SIGNAL_BASE frame_perm) as (m & tbl & H & I & Hr & Hp);
    [vm_compute; split; [discriminate|reflexivity]|vm_compute; split; [discriminate|reflexivity]|].
  assert (m = mm_mapped) as Em by (unfold mm_mapped; by rewrite H). rewrite Em in I. clear H Em.
  constructor; try reflexivity.
  - apply (bool_decide_unpack _). vm_compute. exact Logic.I.
  - intros x [-> |[-> |[]%elem_of_nil]%elem_of_cons]%elem_of_cons; split; (reflexivity || (vm_compute; discriminate)).
  - intros x Hx Hm. assert (x = 5) as ->.
    { apply elem_of_cons in Hx as [-> |[-> |[]%elem_of_nil]%elem_of_cons]; [reflexivity|].
      vm_compute in Hm. discriminate. }
    split; [|vm_compute; reflexivity].
    refine (eq_trans (@kaddr_mapped Kernel Kernel_m w_ign tbl maps_sig 200 _ pte_handler I Hr _ _ _) _);
      [vm_compute; split; [discriminate|reflexivity]|vm_compute; reflexivity|vm_compute; discriminate|].
    f_equal. 
Qed.

Lemma ignored_signals_dropped_witness :
  exists w', handleSignal (fun _ _ => panic) (fun _ => panic) (page2pa 200) 0 w_ign = Ret tt w' /\
    waitingSignal (th_of (k_p w') 0) = [6] /\ freeSignalContextList (k_sig w') = [5].
Proof.
  destruct (ignored_signals_dropped (fun _ _ => panic) (fun _ => panic) (page2pa 200) (page2pa 300) w_ign 0 [5; 6]
    w_ign_ignorable) as (w' & H1 & H2 & H3 & _).
  exists w'. split; [exact H1|]. split; [rewrite H2|rewrite H3]; vm_compute; reflexivity.
Defined.
