(* ===== verification/FileSpec.v ===== *)
(** * File.c: the reference counts of open files

    The table of open files under any sequence of [filealloc], [filedup],
    [fileclose] and uses of open files: the count of an entry is the number of
    references to it that were handed out and not closed. *)

From S2P Require Import Prelude CType Mem Config Queue Page UserCopy Sched Bio Fat FatFile Pipe Segment File Signal Kernel.

Definition refs_of (hs : list Z) (f : Z) : Z := Z.of_nat (length (filter (fun x => x = f) hs)).

Lemma refs_of_cons g hs f : refs_of (g :: hs) f = refs_of hs f + (if decide (g = f) then 1 else 0).
Proof.
  unfold refs_of. destruct (decide (g = f)).
  - rewrite filter_cons_True by done. simpl. lia.
  - rewrite filter_cons_False by done. lia.
Qed.
Lemma refs_of_perm hs hs' f : hs ≡ₚ hs' -> refs_of hs f = refs_of hs' f.
Proof. intros H. unfold refs_of. by rewrite H. Qed.
Lemma refs_of_bound hs f : 0 <= refs_of hs f <= Z.of_nat (length hs).
Proof. unfold refs_of. pose proof (length_filter (fun x => x = f) hs). lia. Qed.
Lemma refs_of_in hs f : f ∈ hs <-> 1 <= refs_of hs f.
Proof.
  unfold refs_of. split.
  - intros H. assert (f ∈ filter (fun x => x = f) hs) as Hf by (apply list_elem_of_filter; done).
    destruct (filter _ hs); [by apply elem_of_nil in Hf|]. simpl. lia.
  - intros H. destruct (filter (fun x => x = f) hs) as [|y l] eqn:E; [simpl in H; lia|].
    assert (y ∈ filter (fun x => x = f) hs) as Hy by (rewrite E; by left).
    apply list_elem_of_filter in Hy as [-> Hy]. done.
Qed.

(** Every count is the number of references, and every reference is to an entry. *)
Record file_inv (s : FileS) (hs : list Z) : Prop := {
  fi_len : length (ftable s) = NFILE;
  fi_refs : forall f, 1 <= f <= Z.of_nat NFILE -> f_ref (getfile s f) = refs_of hs f;
  fi_hs : forall f, f ∈ hs -> 1 <= f <= Z.of_nat NFILE;
}.

(** ** Single operations *)

Lemma getfile_setfile s f g h : 1 <= f <= Z.of_nat (length (ftable s)) -> 1 <= h ->
  getfile (setfile f g s) h = if decide (h = f) then g (getfile s f) else getfile s h.
Proof.
  intros Hf Hh. unfold getfile, setfile. simpl. destruct (decide (h = f)) as [-> |].
  - rewrite list_lookup_alter_eq. destruct (lookup_lt_is_Some_2 (ftable s) (Z.to_nat (f - 1))) as [x ->]; [lia|]. done.
  - rewrite list_lookup_alter_ne by lia. done.
Qed.
Lemma setfile_len s f g : length (ftable (setfile f g s)) = length (ftable s).
Proof. apply length_alter. Qed.

(** [free_file] is the first entry that is not in use. *)
Lemma free_file_spec l i : 0 < i ->
  (free_file l i = 0 /\ forall k x, l !! k = Some x -> f_ref x <> 0) \/
  (exists k x, free_file l i = i + Z.of_nat k /\ l !! k = Some x /\ f_ref x = 0 /\
     forall j y, (j < k)%nat -> l !! j = Some y -> f_ref y <> 0).
Proof.
  revert i. induction l as [|a l IH]; intros i Hi; cbn [free_file].
  - left. split; [done|]. intros k x. by rewrite lookup_nil.
  - destruct (Z.eqb_spec (f_ref a) 0) as [E|E].
    + right. exists 0%nat, a. split_and!; [lia|done|done|]. intros j y Hj. lia.
    + destruct (IH (i + 1) ltac:(lia)) as [[H1 H2]|(k & x & H1 & H2 & H3 & H4)].
      * left. split; [done|]. intros [|k] x; simpl; [by intros [= <-]|apply H2].
      * right. exists (S k), x. split_and!; [lia|done|done|]. intros [|j] y Hj; simpl; [by intros [= <-]|].
        apply H4. lia.
Qed.

Lemma filealloc_inv s hs f s' : file_inv s hs -> filealloc s = Ret f s' ->
  (f = 0 /\ s' = s /\ forall g, 1 <= g <= Z.of_nat NFILE -> g ∈ hs) \/
  (f ∉ hs /\ file_inv s' (f :: hs)).
Proof.
  intros [Hl Hr Hh]. unfold filealloc. run_step.
  destruct (free_file_spec (ftable s) 1 ltac:(lia)) as [[-> Hall]|(k & x & -> & Hk & Hx & _)].
  - intros [= <- <-]. left. split_and!; [done|done|]. intros g Hg. apply refs_of_in. rewrite <- Hr by done.
    destruct (lookup_lt_is_Some_2 (ftable s) (Z.to_nat (g - 1))) as [y Hy]; [lia|].
    specialize (Hall _ _ Hy). pose proof (refs_of_bound hs g) as Hb. rewrite <- Hr in Hb by done.
    unfold getfile in *. rewrite Hy in *. simpl in *. lia.
  - rewrite (proj2 (Z.eqb_neq _ 0)) by lia. cbn [negb when]. run_step. intros [= <- <-]. right.
    pose proof (lookup_lt_Some _ _ _ Hk) as Hlt. set (f := 1 + Z.of_nat k).
    assert (Hgf : getfile s f = x) by (unfold getfile, f; by replace (Z.to_nat (1 + Z.of_nat k - 1)) with k by lia; rewrite Hk).
    assert (Hf : 1 <= f <= Z.of_nat NFILE) by lia.
    assert (H0 : refs_of hs f = 0) by (rewrite <- Hr, Hgf by done; done).
    split; [intros Hin%refs_of_in; lia|]. constructor.
    + by rewrite setfile_len.
    + intros g Hg. rewrite getfile_setfile, refs_of_cons by lia. destruct (decide (g = f)) as [-> |].
      * rewrite decide_True by done. simpl. lia.
      * rewrite decide_False by done. rewrite Hr by done. lia.
    + intros g [-> |Hg]%elem_of_cons; auto.
Qed.

Lemma fileinit_inv s s' : fileinit s = Ret tt s' -> file_inv s' [].
Proof.
  unfold fileinit, modify. generalize (replicate NFILE file0), (length_replicate NFILE file0),
    (lookup_replicate NFILE file0). intros l Hl Hlook [= <-].
  constructor; [done| |intros f Hf; by apply elem_of_nil in Hf].
  intros f Hf. unfold getfile. cbn [ftable]. rewrite (proj2 (Hlook file0 (Z.to_nat (f - 1)))); [done|].
  split; [done|lia].
Qed.

Lemma filedup_inv s hs f : file_inv s hs -> f ∈ hs -> Z.of_nat (length hs) < 2 ^ 31 - 1 ->
  exists s', filedup f s = Ret f s' /\ file_inv s' (f :: hs).
Proof.
  intros [Hl Hr Hh] Hin Hb. pose proof (Hh f Hin) as Hf. pose proof (refs_of_bound hs f).
  assert (H1 : 1 <= f_ref (getfile s f)) by (rewrite Hr by done; by apply refs_of_in).
  unfold filedup. run_step. rewrite (proj2 (Z.ltb_ge _ _)) by lia. run_step. eexists. split; [done|].
  assert (Hi : i32 (f_ref (getfile s f) + 1) = f_ref (getfile s f) + 1).
  { rewrite Hr by done. unfold i32. rewrite Z.mod_small; lia. }
  rewrite Hi. constructor.
  - by rewrite setfile_len.
  - intros g Hg. rewrite getfile_setfile, refs_of_cons by lia. destruct (decide (g = f)) as [-> |].
    + rewrite decide_True by done. simpl. rewrite Hr by done. lia.
    + rewrite decide_False by done. rewrite Hr by done. lia.
  - intros g [-> |Hg]%elem_of_cons; auto.
Qed.

(** ** Closing *)

Lemma pipeClose_files base pi wr (w : Kernel) :
  exists w', pipeClose base pi wr w = Ret tt w' /\ k_files w' = k_files w.
Proof.
  unfold pipeClose, wakeup, pipe_set, pipe_get, pipeFree, mbind, M_bind, lift, gets, modify.
  destruct wr; cbn; (match goal with |- context [when ?b _] => destruct b end); eexists; split; reflexivity.
Qed.

Lemma socketFree_files kpgdir i (w w' : Kernel) :
  socketFree kpgdir i w = Ret tt w' -> ftable (k_files w') = ftable (k_files w).
Proof.
  unfold socketFree. intros (a & w1 & H1 & H2)%bind_Ret_inv. unfold lift in H1.
  destruct (Page.pageRemove _ _ _); simpl in H1; simplify_eq.
  unfold upd_sock, lift, modify in H2. cbn in H2. injection H2 as <-. done.
Qed.

(** The table after [fileclose]: one reference less, and the entry is reset with the
    last one. *)
Definition closed (f : Z) (s : FileS) : FileS :=
  if 0 <? f_ref (getfile s f) - 1
  then setfile f (fun x => with_ref (f_type x) (f_ref x - 1) x) s
  else setfile f (with_ref FD_NONE 0) (setfile f (fun x => with_ref (f_type x) (f_ref x - 1) x) s).

Lemma fileclose_ftable kpgdir base f (w w' : Kernel) :
  fileclose kpgdir base f w = Ret tt w' ->
  1 <= f_ref (getfile (k_files w) f) /\ ftable (k_files w') = ftable (closed f (k_files w)).
Proof.
  unfold fileclose, file. rewrite bind_lift_gets. change (part w) with (k_files w). unfold closed.
  destruct (Z.ltb_spec (f_ref (getfile (k_files w) f)) 1); [done|]. unfold upd_file. run_step.
  destruct (0 <? _); [intros [= <-]; done|]. run_step. intros Hm. split; [done|]. revert Hm.
  destruct (f_type _).
  - by intros [= <-].
  - match goal with |- pipeClose ?b ?p ?wr ?s = _ -> _ => destruct (pipeClose_files b p wr s) as (w2 & -> & Hf) end.
    intros [= <-]. by rewrite Hf.
  - by intros [= <-].
  - by intros [= <-].
  - intros Hs%socketFree_files. done.
Qed.

Lemma fileclose_returns kpgdir base f (w : Kernel) :
  1 <= f_ref (getfile (k_files w) f) ->
  2 <= f_ref (getfile (k_files w) f) \/ f_type (getfile (k_files w) f) <> FD_SOCKET ->
  exists w', fileclose kpgdir base f w = Ret tt w'.
Proof.
  intros H1 Hs. unfold fileclose, file. rewrite bind_lift_gets. change (part w) with (k_files w).
  rewrite (proj2 (Z.ltb_ge _ _)) by done. unfold upd_file. run_step.
  destruct (Z.ltb_spec 0 (f_ref (getfile (k_files w) f) - 1)); [by eexists|]. run_step.
  destruct (f_type (getfile (k_files w) f)) eqn:Et; [by eexists| |by eexists|by eexists|].
  - match goal with |- exists w', pipeClose ?b ?p ?wr ?s = _ => destruct (pipeClose_files b p wr s) as (w2 & -> & _) end.
    by eexists.
  - destruct Hs; [lia|done].
Qed.

Lemma closed_inv s hs hs' f : file_inv s hs -> hs ≡ₚ f :: hs' -> file_inv (closed f s) hs'.
Proof.
  intros [Hl Hr Hh] Hp. assert (Hin : f ∈ hs) by (rewrite Hp; by left). pose proof (Hh f Hin) as Hf.
  assert (Hrf : forall g, refs_of hs g = refs_of hs' g + (if decide (f = g) then 1 else 0)).
  { intros g. by rewrite (refs_of_perm _ _ _ Hp), refs_of_cons. }
  pose proof (refs_of_bound hs' f) as Hb. pose proof (Hrf f) as Hff. rewrite decide_True in Hff by done.
  assert (Hc : f_ref (getfile s f) = refs_of hs' f + 1) by (by rewrite Hr).
  assert (Hlen : length (ftable (closed f s)) = NFILE)
    by (unfold closed; destruct (0 <? _); by rewrite !setfile_len).
  constructor; [done| |].
  - intros g Hg. unfold closed. rewrite Hc. destruct (Z.ltb_spec 0 (refs_of hs' f + 1 - 1)).
    + rewrite getfile_setfile by lia. destruct (decide (g = f)) as [-> |]; [simpl; lia|].
      rewrite Hr, Hrf, decide_False by done. lia.
    + rewrite getfile_setfile by (rewrite ?setfile_len; lia). destruct (decide (g = f)) as [-> |]; [simpl; lia|].
      rewrite getfile_setfile, decide_False by (done || lia). rewrite Hr, Hrf, decide_False by done. lia.
  - intros g Hg. apply Hh. rewrite Hp. by right.
Qed.

(** ** Any sequence of operations *)

(** A kernel state with the references that are held. *)
Inductive file_reach (kpgdir base : Z) : Kernel -> list Z -> Prop :=
  | fr_init w s' : fileinit (k_files w) = Ret tt s' -> file_reach kpgdir base (set_part s' w) []
  | fr_open w hs f w' : file_reach kpgdir base w hs -> lift filealloc w = Ret f w' -> f <> 0 ->
      file_reach kpgdir base w' (f :: hs)
  | fr_full w hs w' : file_reach kpgdir base w hs -> lift filealloc w = Ret 0 w' -> file_reach kpgdir base w' hs
  | fr_dup w hs f w' : file_reach kpgdir base w hs -> f ∈ hs -> Z.of_nat (length hs) < 2 ^ 31 - 1 ->
      lift (filedup f) w = Ret f w' -> file_reach kpgdir base w' (f :: hs)
  | fr_close w hs f hs' w' : file_reach kpgdir base w hs -> hs ≡ₚ f :: hs' ->
      fileclose kpgdir base f w = Ret tt w' -> file_reach kpgdir base w' hs'
  (** setting up, reading and writing open files, and whatever else happens *)
  | fr_use w hs w' : file_reach kpgdir base w hs ->
      map f_ref (ftable (k_files w')) = map f_ref (ftable (k_files w)) -> file_reach kpgdir base w' hs.

Lemma file_inv_ext s s' hs : map f_ref (ftable s') = map f_ref (ftable s) -> file_inv s hs -> file_inv s' hs.
Proof.
  intros E [Hl Hr Hh]. constructor; [|intros f Hf; rewrite <- Hr by done|done].
  - apply (f_equal length) in E. by rewrite !length_map, Hl in E.
  - unfold getfile. apply (f_equal (fun l => l !! Z.to_nat (f - 1))) in E. rewrite !list_lookup_fmap in E.
    destruct (ftable s' !! _), (ftable s !! _); simpl in *; simplify_eq; done.
Qed.

Lemma file_reach_inv kpgdir base w hs : file_reach kpgdir base w hs -> file_inv (k_files w) hs.
Proof.
  induction 1 as [w s' H|w hs f w' _ IH H Hf|w hs w' _ IH H|w hs f w' _ IH Hin Hb H|w hs f hs' w' _ IH Hp H|w hs w' _ IH E].
  - apply fileinit_inv in H. exact H.
  - unfold lift in H. destruct (filealloc (part w)) as [g s| | | |] eqn:E; simpl in H; simplify_eq.
    destruct (filealloc_inv _ _ _ _ IH E) as [(-> & _)|(_ & HI)]; [done|exact HI].
  - unfold lift in H. destruct (filealloc (part w)) as [g s| | | |] eqn:E; simpl in H; simplify_eq.
    destruct (filealloc_inv _ _ _ _ IH E) as [(_ & -> & _)|(_ & HI)]; [exact IH|].
    pose proof (fi_hs _ _ HI 0 ltac:(by left)). lia.
  - destruct (filedup_inv _ _ _ IH Hin Hb) as (s' & E & HI). rewrite (lift_Ret _ _ _ _ E) in H. by injection H as <-.
  - destruct (fileclose_ftable _ _ _ _ _ H) as [_ Et]. apply (file_inv_ext (closed f (k_files w))); [by rewrite Et|].
    by eapply closed_inv.
  - by eapply file_inv_ext.
Qed.

(** C25. Open files are counted exactly.  Under any sequence of opening,
    duplicating, closing and using open files, the count of every entry of the table
    is the number of references to it that are held.  So [filedup] of a reference
    that is held returns; [fileclose] of one returns (unless it is the last one of a
    socket, whose buffer is unmapped then), and releases the entry exactly when it
    was the last one; and [filealloc] never returns an entry that is still
    referenced: it returns NULL only when all are. *)
Theorem file_refs_exact kpgdir base w hs :
  file_reach kpgdir base w hs ->
  (forall f, 1 <= f <= Z.of_nat NFILE -> f_ref (getfile (k_files w) f) = refs_of hs f) /\
  (forall f, f ∈ hs -> Z.of_nat (length hs) < 2 ^ 31 - 1 -> exists w', lift (filedup f) w = Ret f w') /\
  (forall f hs', hs ≡ₚ f :: hs' ->
     (f ∈ hs' \/ f_type (getfile (k_files w) f) <> FD_SOCKET -> exists w', fileclose kpgdir base f w = Ret tt w') /\
     (forall w', fileclose kpgdir base f w = Ret tt w' ->
        f_ref (getfile (k_files w') f) = refs_of hs' f /\
        (f ∉ hs' -> f_type (getfile (k_files w') f) = FD_NONE))) /\
  (forall f w', lift filealloc w = Ret f w' ->
     (f <> 0 -> f ∉ hs) /\ (f = 0 -> forall g, 1 <= g <= Z.of_nat NFILE -> g ∈ hs)).
Proof.
  intros Hreach. pose proof (file_reach_inv _ _ _ _ Hreach) as Hinv. pose proof Hinv as [Hl Hr Hh].
  split_and!; [done| | |].
  - intros f Hf Hb. destruct (filedup_inv _ _ f Hinv Hf Hb) as (s' & E & _). eexists. exact (lift_Ret _ _ _ _ E).
  - intros f hs' Hp. assert (Hin : f ∈ hs) by (rewrite Hp; by left). pose proof (Hh f Hin) as Hf.
    assert (Href : f_ref (getfile (k_files w) f) = refs_of hs' f + 1).
    { by rewrite Hr, (refs_of_perm _ _ _ Hp), refs_of_cons, decide_True. }
    pose proof (refs_of_bound hs' f). split.
    + intros Hs. apply fileclose_returns; [lia|]. destruct Hs as [Hs%refs_of_in|]; [left; lia|by right].
    + intros w' Hc. destruct (fileclose_ftable _ _ _ _ _ Hc) as [_ Et].
      assert (Hg : getfile (k_files w') f = getfile (closed f (k_files w)) f) by (unfold getfile; by rewrite Et).
      rewrite Hg. split; [apply (fi_refs _ _ (closed_inv _ _ _ _ Hinv Hp) f Hf)|]. intros Hn.
      assert (refs_of hs' f = 0) by (rewrite refs_of_in in Hn; lia).
      unfold closed. rewrite (proj2 (Z.ltb_ge _ _)) by lia.
      rewrite getfile_setfile, decide_True by (rewrite ?setfile_len; (done || lia)). done.
  - intros f w' Ha. unfold lift in Ha. destruct (filealloc (part w)) as [g s| | | |] eqn:E; simpl in Ha; simplify_eq.
    destruct (filealloc_inv _ _ _ _ Hinv E) as [(-> & _ & Hall)|(Hn & HI)]; [split; [done|by intros _]|].
    split; [done|]. intros ->. pose proof (fi_hs _ _ HI 0 ltac:(by left)). lia.
Qed.

Lemma file_refs_exact_witness : exists w, file_reach 0 0 w [1; 1] /\ f_ref (getfile (k_files w) 1) = 2 /\
  exists w', fileclose 0 0 1 w = Ret tt w'.
Proof.
  pose (w0 := kernel_of (with_one_thread thread0 process0 ∅) (mkMM ∅ ∅ ∅ [] 0) (mkSigS ∅ [])).
  pose (w1 := set_part (mkFileS (replicate NFILE file0) ∅ 0) w0).
  assert (R1 : file_reach 0 0 w1 []) by exact (fr_init 0 0 w0 _ eq_refl).
  assert (R2 : exists w2, file_reach 0 0 w2 [1]).
  { eexists. apply (fr_open 0 0 w1 [] 1 _ R1); [vm_compute; reflexivity|discriminate]. }
  destruct R2 as [w2 R2].
  destruct (file_refs_exact 0 0 w2 [1] R2) as (_ & Hdup & _).
  destruct (Hdup 1) as [w3 H3]; [by left|simpl; lia|].
  assert (R3 : file_reach 0 0 w3 [1; 1]) by (apply (fr_dup 0 0 w2 [1] 1 w3 R2); [by left|simpl; lia|exact H3]).
  exists w3. split; [exact R3|].
  destruct (file_refs_exact 0 0 w3 [1; 1] R3) as (Href & _ & Hclose & _).
  split; [rewrite Href; [reflexivity|split; [lia|vm_compute; discriminate]]|].
  apply (Hclose 1 [1]); [reflexivity|]. left. by left.
Defined.
