(* ===== verification/PathSpec.v ===== *)
(** * Fat.c: path lookup is a walk over the components of the path

    [lookup_path] scans the path with [skipelem], follows mounts and searches the
    list of children of each directory.  Here it is related to a walk over the list
    of components that splitting the path at its slashes gives. *)

From S2P Require Import Prelude CType Mem Strings Config Queue Page Bio Fat FatFile.

(** ** Components *)

Definition SLASH : Z := 0x2f.
Fixpoint split_slash (p : list Z) : list (list Z) :=
  match p with
  | [] => [[]]
  | c :: p =>
      if c =? SLASH then [] :: split_slash p
      else match split_slash p with w :: ws => (c :: w) :: ws | [] => [[c]] end
  end.
(** The pieces that are not empty, cut to the length of a name. *)
Definition components (p : list Z) : list (list Z) :=
  map (take FAT32_MAX_FILENAME) (filter (fun w => w <> []) (split_slash p)).

Lemma components_slash p : components (SLASH :: p) = components p.
Proof. unfold components. cbn [split_slash]. rewrite Z.eqb_refl. by rewrite filter_cons_False by tauto. Qed.

Lemma components_skip p : components (skip_slashes p) = components p.
Proof.
  induction p as [|c p IH]; [done|]. cbn [skip_slashes]. change 0x2f with SLASH.
  destruct (Z.eqb_spec c SLASH) as [-> |]; [by rewrite components_slash|done].
Qed.

Lemma skip_slashes_head p : match skip_slashes p with c :: _ => c <> SLASH | [] => True end.
Proof.
  induction p as [|c p IH]; [done|]. cbn [skip_slashes]. change 0x2f with SLASH.
  by destruct (Z.eqb_spec c SLASH).
Qed.
Lemma skip_slashes_len p : (length (skip_slashes p) <= length p)%nat.
Proof. induction p as [|c p IH]; [done|]. cbn [skip_slashes]. destruct (c =? _); simpl in *; lia. Qed.

(** The first piece and the rest, which starts at a slash. *)
Lemma elem_of_path_split p : let '(e, r) := elem_of_path p in
  p = e ++ r /\ match r with
  | [] => split_slash p = [e]
  | c :: q => c = SLASH /\ split_slash p = e :: split_slash q
  end.
Proof.
  induction p as [|c p IH]; [done|]. cbn [elem_of_path split_slash]. change 0x2f with SLASH.
  destruct (Z.eqb_spec c SLASH) as [-> |]; [done|]. destruct (elem_of_path p) as [e r]. destruct IH as [-> IH].
  split; [done|]. destruct r as [|c' q]; [by rewrite IH|]. destruct IH as [-> IH]. by rewrite IH.
Qed.

(** [skipelem] returns the first component, and a shorter path that has the others. *)
Lemma skipelem_components p :
  match skipelem p with
  | None => components p = []
  | Some (rest, name) => components p = name :: components rest /\ (length rest < length p)%nat /\
      (rest = [] <-> components rest = [])
  end.
Proof.
  unfold skipelem. rewrite <- (components_skip p). pose proof (skip_slashes_len p) as Hlen.
  pose proof (skip_slashes_head p) as Hhd. destruct (skip_slashes p) as [|c q]; [done|].
  pose proof (elem_of_path_split (c :: q)) as Hs. cbn [elem_of_path] in Hs |- *. change 0x2f with SLASH in Hs |- *.
  rewrite (proj2 (Z.eqb_neq _ _)) in Hs |- * by done. destruct (elem_of_path q) as [e r]. destruct Hs as [Hp Hr].
  injection Hp as Hq. rewrite components_skip.
  assert (Hc : components (c :: q) = take FAT32_MAX_FILENAME (c :: e) :: components r).
  { unfold components. destruct r as [|d r]; [by rewrite Hr, filter_cons_True by done|].
    destruct Hr as [-> Hr]. rewrite Hr, filter_cons_True by done. symmetry. unfold components. cbn [split_slash].
    rewrite Z.eqb_refl. by rewrite (filter_cons_False _ []) by tauto. }
  split; [done|]. split.
  - pose proof (skip_slashes_len r). rewrite Hq in Hlen. simpl in Hlen. rewrite length_app in Hlen. lia.
  - split; [intros E; by rewrite <- (components_skip r), E|].
    intros E. rewrite <- (components_skip r) in E. pose proof (skip_slashes_head r) as Hh.
    destruct (skip_slashes r) as [|d q']; [done|]. exfalso.
    pose proof (elem_of_path_split (d :: q')) as Hs. cbn [elem_of_path] in Hs. change 0x2f with SLASH in Hs.
    rewrite (proj2 (Z.eqb_neq _ _)) in Hs by done. destruct (elem_of_path q') as [e' r']. destruct Hs as [_ Hs].
    unfold components in E. destruct r' as [|d' r']; [by rewrite Hs, filter_cons_True in E by done|].
    destruct Hs as [_ Hs]. by rewrite Hs, filter_cons_True in E by done.
Qed.

(** ** The walk *)

Section walk.
(** The entries of a directory, first to last. *)
Context (s : FatS) (kids : Z -> list Z).

Definition is_directory (e : Z) : bool := has (attribute (getde s e)) ATTR_DIRECTORY.
Definition is_link (e : Z) : bool := nt_res (getde s e) =? DT_LNK.
(** The root of the file system mounted at a directory, or the directory. *)
Definition mounted (e : Z) : Z := if de_head (getde s e) =? 0 then e else root_of (de_head (getde s e)).

(** The entry called [name] in directory [dp]: NULL (0) when there is none. *)
Definition entry_named (dp : Z) (name : list Z) : Z :=
  if name_eq name [0x2e] then dp
  else if name_eq name [0x2e; 0x2e] then
    if dp =? root_of (fileSystem (getde s dp)) then root_of (fileSystem (getde s dp)) else parent (getde s dp)
  else default 0 (List.find (fun c => name_eq (filename (getde s c)) name) (kids dp)).

(** The entry a list of names leads to, NULL when a name is not found or is looked up
    in something that is not a directory; [None] when the way goes through a symbolic
    link. *)
Fixpoint walk (e : Z) (names : list (list Z)) : option Z :=
  match names with
  | [] => Some e
  | n :: ns =>
      if is_link e then None
      else if negb (is_directory e) then Some 0
      else
        let next := entry_named (mounted e) n in
        if next =? 0 then Some 0 else walk next ns
  end.

(** The directory the last name is to be looked up in, and that name. *)
Fixpoint walk_parent (e : Z) (names : list (list Z)) : option (Z * list Z) :=
  match names with
  | [] => Some (0, [])
  | n :: ns =>
      if is_link e then None
      else if negb (is_directory e) then Some (0, n)
      else
        match ns with
        | [] => Some (mounted e, n)
        | _ =>
            let next := entry_named (mounted e) n in
            if next =? 0 then Some (0, n) else walk_parent next ns
        end
  end.

(** From [e], the [nextBrother] pointers go through [l] and end in NULL. *)
Fixpoint chain (e : Z) (l : list Z) : Prop :=
  match l with
  | [] => e = 0
  | c :: l => e = c /\ c <> 0 /\ chain (nextBrother (getde s c)) l
  end.

(** The lists of children are well linked and not longer than the pool of entries;
    what is mounted has a directory as its root. *)
Definition tree_ok : Prop :=
  (forall dp, chain (firstChild (getde s dp)) (kids dp) /\ Z.of_nat (length (kids dp)) <= DIRENT_NUM) /\
  (forall e, de_head (getde s e) <> 0 -> is_directory (root_of (de_head (getde s e))) = true).
End walk.

Section lookup.
Context {S : Type} `{!Part S FatS} `{!Part S MM} `{!FsEnv S}.
Implicit Types st : S.

Lemma de_bind {B} e (k : Dirent -> M S B) st : (de e ≫= k) st = k (getde (part st) e) st.
Proof. unfold de. by rewrite bind_lift_gets. Qed.

Lemma find_child_loop n st name l : forall e,
  chain (part st) e l -> (length l < n)%nat ->
  loop n (fun ep =>
    if ep =? 0 then mret (inr 0)
    else
      d ← de ep;
      if name_eq (filename d) name then mret (inr ep) else mret (inl (nextBrother d))) e st =
  Ret (default 0 (List.find (fun c => name_eq (filename (getde (part st) c)) name) l)) st.
Proof.
  revert l. induction n as [|n IH]; intros l e Hc Hn; [lia|]. cbn [loop]. destruct l as [|c l]; simpl in Hc.
  - by subst e.
  - destruct Hc as (-> & Hne & Hc). rewrite (proj2 (Z.eqb_neq _ _)) by done. rewrite de_bind. simpl.
    destruct (name_eq _ name); [done|]. simpl. apply IH; [done|]. simpl in Hn. lia.
Qed.

Lemma dirlookup_spec kids st dp name :
  tree_ok (part st) kids -> is_directory (part st) dp = true ->
  dirlookup dp name st = Ret (entry_named (part st) kids dp name) st.
Proof.
  intros [Ht _] Hd. unfold dirlookup, entry_named. rewrite de_bind. unfold is_directory in Hd. rewrite Hd. cbn [negb].
  destruct (name_eq name [0x2e]); [done|]. destruct (name_eq name [0x2e; 0x2e]); [by destruct (dp =? _)|].
  destruct (Ht dp) as [Hc Hl]. unfold find_child. apply find_child_loop; [done|]. unfold DIR_FUEL.
  clear -Hl. lia.
Qed.

Lemma jump_stays {f} (K : Z -> M S (Z + Z)) e st : e <> 0 -> is_link (part st) e = false ->
  loop (Datatypes.S f) (fun link =>
    if link =? 0 then panic
    else d ← de link; if nt_res d =? DT_LNK then K link else mret (inr link)) e st = Ret e st.
Proof.
  intros He Hl. cbn [loop]. rewrite (proj2 (Z.eqb_neq _ _)) by done. rewrite de_bind. unfold is_link in Hl.
  by rewrite Hl.
Qed.

(** The loop over the path, with [J] for [jumpToLinkDirent]. *)
Definition path_step (J : Z -> M S Z) (parent_ : bool) (l : Z * list Z * list Z) :
    M S ((Z * list Z * list Z) + (Z * list Z * bool)) :=
  let '(entry, path, name) := l in
  match skipelem path with
  | None => mret (inr (entry, name, true))
  | Some (path, name) =>
      entry ← J entry;
      d ← de entry;
      if negb (has (attribute d) ATTR_DIRECTORY) then mret (inr (0, name, false))
      else
        let entry := if de_head d =? 0 then entry else root_of (de_head d) in
        if parent_ && bool_decide (path = []) then mret (inr (entry, name, false))
        else
          next ← dirlookup entry name;
          if next =? 0 then mret (inr (0, name, false)) else mret (inl (next, path, name))
  end.

Context (kids : Z -> list Z) (J : Z -> M S Z) (st : S).
Hypothesis Htree : tree_ok (part st) kids.
Hypothesis HJ : forall e, e <> 0 -> is_link (part st) e = false -> J e st = Ret e st.

Lemma mounted_ok e : is_directory (part st) e = true -> is_directory (part st) (mounted (part st) e) = true.
Proof.
  intros Hd. unfold mounted. destruct (Z.eqb_spec (de_head (getde (part st) e)) 0); [done|]. by apply Htree.
Qed.

Lemma path_loop n : forall e p name x, e <> 0 -> (length p < n)%nat ->
  walk (part st) kids e (components p) = Some x ->
  exists nm b, loop n (path_step J false) (e, p, name) st = Ret (x, nm, b) st /\ (b = true <-> x <> 0).
Proof.
  induction n as [|n IH]; intros e p name x He Hn Hw; [lia|]. cbn [loop].
  pose proof (skipelem_components p) as Hs. unfold path_step at 1. destruct (skipelem p) as [[rest nm]|].
  2: { rewrite Hs in Hw. injection Hw as <-. by exists name, true. }
  destruct Hs as (Hc & Hlen & _). rewrite Hc in Hw. cbn [walk] in Hw.
  destruct (is_link (part st) e) eqn:El; [done|].
  rewrite (bind_Ret _ _ _ _ _ (HJ e He El)), de_bind. fold (is_directory (part st) e).
  destruct (is_directory (part st) e) eqn:Ed; cbn [negb] in Hw |- *.
  2: { injection Hw as <-. by exists nm, false. }
  cbn [andb]. fold (mounted (part st) e).
  rewrite (bind_Ret _ _ _ _ _ (dirlookup_spec kids st _ nm Htree (mounted_ok e Ed))).
  destruct (Z.eqb_spec (entry_named (part st) kids (mounted (part st) e) nm) 0).
  { injection Hw as <-. by exists nm, false. }
  apply (IH _ rest nm x); [done|lia|done].
Qed.

Lemma path_loop_parent n : forall e p name x, e <> 0 -> (length p < n)%nat -> components p <> [] ->
  walk_parent (part st) kids e (components p) = Some x ->
  loop n (path_step J true) (e, p, name) st = Ret (x.1, x.2, false) st.
Proof.
  induction n as [|n IH]; intros e p name x He Hn Hne Hw; [lia|]. cbn [loop].
  pose proof (skipelem_components p) as Hs. unfold path_step at 1. destruct (skipelem p) as [[rest nm]|]; [|done].
  destruct Hs as (Hc & Hlen & Hnil). rewrite Hc in Hw. cbn [walk_parent] in Hw.
  destruct (is_link (part st) e) eqn:El; [done|].
  rewrite (bind_Ret _ _ _ _ _ (HJ e He El)), de_bind. fold (is_directory (part st) e).
  destruct (is_directory (part st) e) eqn:Ed; cbn [negb] in Hw |- *.
  2: { by injection Hw as <-. }
  cbn [andb]. fold (mounted (part st) e). destruct (bool_decide (rest = [])) eqn:Er.
  { apply bool_decide_eq_true in Er. rewrite (proj1 Hnil Er) in Hw. by injection Hw as <-. }
  apply bool_decide_eq_false in Er. destruct (components rest) as [|n' ns] eqn:Ecr; [tauto|].
  rewrite (bind_Ret _ _ _ _ _ (dirlookup_spec kids st _ nm Htree (mounted_ok e Ed))).
  destruct (Z.eqb_spec (entry_named (part st) kids (mounted (part st) e) nm) 0).
  { by injection Hw as <-. }
  apply (IH _ rest nm x); [done|lia|by rewrite Ecr|by rewrite Ecr].
Qed.
End lookup.

(** Where the lookup of a path starts. *)
Definition starts_at {S} `{!FsEnv S} (st : S) (rootfs : Z) (path : list Z) (start : Z) : Prop :=
  start <> 0 /\
  match path with
  | [] => False
  | c :: _ => if c =? SLASH then start = root_of rootfs else my_cwd st = Ret start st
  end.

Section resolution.
Context {S : Type} `{!Part S FatS} `{!Part S MM} `{!FsEnv S}.
Context (fs_read : Z -> Z -> M FatS (option Z)) (buf_ rootfs : Z).

(** [jumpToLinkDirent], as [lookup_path] uses it. *)
Definition jump_link (fuel : nat) (link : Z) : M S Z :=
  loop fuel (fun link =>
    if link =? 0 then panic
    else
      d ← de link;
      if nt_res d =? DT_LNK then
        eread fs_read link false buf_ 0 255 ;;
        p ← kstr fuel buf_;
        r ← lookup_path fs_read fuel buf_ rootfs AT_FDCWD p false true;
        mret (inl (fst r))
      else mret (inr link)) link.

Lemma lookup_path_start fuel path start parent_ jump (st : S) :
  starts_at st rootfs path start ->
  lookup_path fs_read (Datatypes.S fuel) buf_ rootfs AT_FDCWD path parent_ jump st =
  (r ← loop (Datatypes.S (length path)) (path_step (jump_link fuel) parent_) (start, path, []);
   let '(entry, name, at_end) := r in
   if (at_end : bool) then
     entry ← (if jump then jump_link fuel entry else mret entry);
     mret (if parent_ then (0, name) else (entry, name))
   else mret (entry, name)) st.
Proof.
  intros [_ Hs]. destruct path as [|c p]; [done|]. cbn [lookup_path]. change 0x2f with SLASH.
  destruct (c =? SLASH); cbn [negb andb].
  - rewrite Hs. reflexivity.
  - change (AT_FDCWD =? AT_FDCWD) with true. cbn [negb andb bool_decide decide_rel].
    replace (bool_decide (c :: p = [])) with false by by rewrite bool_decide_eq_false_2.
    cbn [negb]. assert (E : (c ← my_cwd; mret (Some c)) st = Ret (Some start) st)
      by by rewrite (bind_Ret _ _ _ _ _ Hs).
    by rewrite (bind_Ret _ _ _ _ _ E).
Qed.

Lemma jump_link_stays fuel e (st : S) : (1 <= fuel)%nat -> e <> 0 -> is_link (part st) e = false ->
  jump_link fuel e st = Ret e st.
Proof. intros Hf He Hl. destruct fuel as [|f]; [lia|]. unfold jump_link. by apply jump_stays. Qed.

Lemma jump_link_at fuel (st : S) : (2 <= fuel)%nat ->
  forall e, e <> 0 -> is_link (part st) e = false -> jump_link (pred fuel) e st = Ret e st.
Proof. intros Hf e He Hl. apply jump_link_stays; (done || lia). Qed.

Lemma ename_walks kids start path fuel (st : S) x jump :
  tree_ok (part st) kids -> starts_at st rootfs path start -> (2 <= fuel)%nat ->
  walk (part st) kids start (components path) = Some x ->
  (jump = true -> x <> 0 -> is_link (part st) x = false) ->
  ename fs_read fuel buf_ rootfs AT_FDCWD path jump st = Ret x st.
Proof.
  intros Ht Hs Hf Hw Hj. pose proof (jump_link_at fuel st Hf) as HJ. destruct fuel as [|f]; [lia|]. simpl in HJ.
  unfold ename. unfold mbind at 1, M_bind. rewrite (lookup_path_start f path start) by done.
  destruct (path_loop kids (jump_link f) st Ht HJ (Datatypes.S (length path)) start path [] x (proj1 Hs)
    ltac:(lia) Hw) as (nm & b & Hl & Hb).
  rewrite (bind_Ret _ _ _ _ _ Hl). destruct b; [|done].
  assert (Hx : x <> 0) by by apply Hb. destruct jump; [|done].
  by rewrite (bind_Ret _ _ _ _ _ (HJ x Hx (Hj eq_refl Hx))).
Qed.

(** C22. Looking up a path is walking over its components.  In a tree of
    directories, whatever slashes the path has (leading, doubled, trailing), [ename]
    returns the entry that the names between the slashes, cut to 255 characters, lead
    to one after the other from the root or the working directory, through mounts,
    "." and ".."; it returns NULL exactly when a name is missing or something on the
    way is not a directory, and it always ends.  [enameparent] returns the directory
    the last name belongs to, and that name.  Neither changes the state. *)
Theorem path_lookup_walks kids start path fuel (st : S) :
  tree_ok (part st) kids -> starts_at st rootfs path start -> (2 <= fuel)%nat ->
  (forall x jump, walk (part st) kids start (components path) = Some x ->
     (jump = true -> x <> 0 -> is_link (part st) x = false) ->
     ename fs_read fuel buf_ rootfs AT_FDCWD path jump st = Ret x st) /\
  (forall x, components path <> [] -> walk_parent (part st) kids start (components path) = Some x ->
     enameparent fs_read fuel buf_ rootfs AT_FDCWD path st = Ret x st).
Proof.
  intros Ht Hs Hf. split; [intros x jump Hw Hj; by apply (ename_walks kids start)|].
  intros x Hc Hw. pose proof (jump_link_at fuel st Hf) as HJ. destruct fuel as [|f]; [lia|]. simpl in HJ.
  unfold enameparent. rewrite (lookup_path_start f path start) by done.
  rewrite (bind_Ret _ _ _ _ _ (path_loop_parent kids (jump_link f) st Ht HJ (Datatypes.S (length path))
    start path [] x (proj1 Hs) ltac:(lia) Hc Hw)). by destruct x.
Qed.
End resolution.

(** ** A concrete tree *)

(** Entry 1 is the directory /a of the file system 1, entry 2 the file /a/b. *)
Definition de_ex (name : list Z) (attr par next child : Z) : Dirent :=
  mkDe name attr 0 0 0 0 0 inode0 0 1 0 0 0 par next child.
Definition fat_tree : FatS :=
  mkFatS (mkB ∅ ∅ ∅ 0 []) ∅
    (<[-1 := de_ex [0x2f] 0x10 0 0 1]> (<[1 := de_ex [0x61] 0x10 (-1) 0 2]> (<[2 := de_ex [0x62] 0x20 1 0 0]> ∅)))
    0 ∅ [] ∅.
Definition kids_ex (dp : Z) : list Z := if dp =? -1 then [1] else if dp =? 1 then [2] else [].

Record FatMem := mkFatMem { fm_fat : FatS; fm_mm : MM }.
#[export] Instance FatMem_fat : Part FatMem FatS.
Proof. refine {| part := fm_fat; set_part := fun x k => mkFatMem x (fm_mm k) |}; by intros ? [] || by intros []. Defined.
#[export] Instance FatMem_mm : Part FatMem MM.
Proof. refine {| part := fm_mm; set_part := fun x k => mkFatMem (fm_fat k) x |}; by intros ? [] || by intros []. Defined.
(** A process whose working directory is the root. *)
#[export] Instance FatMem_env : FsEnv FatMem := {|
  user_copyout := fun _ _ => panic;
  user_copyin := fun _ _ => panic;
  user_memset := fun _ _ _ => panic;
  my_cwd := mret (-1);
  my_file_ep := fun _ => mret None;
|}.
Definition tree_ex : FatMem := mkFatMem fat_tree (mkMM ∅ ∅ ∅ [] 0).

Lemma fat_tree_ok : tree_ok fat_tree kids_ex.
Proof.
  split.
  - intros dp. unfold kids_ex. destruct (Z.eqb_spec dp (-1)) as [-> |]; [vm_compute; split_and!; done|].
    destruct (Z.eqb_spec dp 1) as [-> |]; [vm_compute; split_and!; done|]. simpl. split; [|done].
    unfold getde, fat_tree. cbn [dents]. rewrite !lookup_insert, lookup_empty. by repeat case_decide; subst.
  - intros e. unfold getde, fat_tree. cbn [dents]. rewrite !lookup_insert, lookup_empty.
    by repeat case_decide; subst.
Qed.

Lemma path_lookup_walks_witness :
  ename (fs_read 1) 2 0 1 AT_FDCWD [0x2f; 0x2f; 0x61; 0x2f; 0x62; 0x2f] true tree_ex = Ret 2 tree_ex /\
  enameparent (fs_read 1) 2 0 1 AT_FDCWD [0x61; 0x2f; 0x2e; 0x2f; 0x63] tree_ex = Ret (1, [0x63]) tree_ex.
Proof.
  split.
  - apply (@path_lookup_walks FatMem FatMem_fat FatMem_mm FatMem_env (fs_read 1) 0 1 kids_ex (-1) _ 2 tree_ex fat_tree_ok);
      [split; [discriminate|reflexivity]|lia|vm_compute; reflexivity|intros _ _; vm_compute; reflexivity].
  - apply (@path_lookup_walks FatMem FatMem_fat FatMem_mm FatMem_env (fs_read 1) 0 1 kids_ex (-1) _ 2 tree_ex fat_tree_ok);
      [split; [discriminate|reflexivity]|lia|vm_compute; discriminate|vm_compute; reflexivity].
Defined.

(** ** Creating an entry *)

Lemma getde_set s e f x : getde (setde e f s) x = if decide (x = e) then f (getde s e) else getde s x.
Proof.
  unfold getde at 1, setde, set_dents. simpl. destruct (decide (x = e)) as [-> |].
  - by rewrite lookup_insert_eq.
  - by rewrite lookup_insert_ne.
Qed.

(** The index of an entry with at most eight clusters needs no index blocks. *)
Lemma eFreeInode_small s e : inodeMaxCluster (getde s e) <= 8 ->
  eFreeInode e s = Ret tt (setde e (fun d => with_index 0 (inode d) d) s).
Proof.
  intros H. unfold eFreeInode. run_step. set (mx := inodeMaxCluster (getde s e)) in *.
  assert (Hw : forall n i c body, c i = false -> for_while n i c body s = Ret tt s).
  { intros n i c body Hc. destruct n; [done|]. cbn [for_while]. by rewrite Hc. }
  do 2 (match goal with |- (for_while ?n ?i ?c ?b ≫= _) s = _ => rewrite (bind_Ret _ _ _ _ _ (Hw n i c b
    ltac:(cbv beta; rewrite Z.gtb_ltb; apply Z.ltb_ge; transitivity 8; [exact H|vm_compute; discriminate]))) end).
  done.
Qed.

(** Entry [ep] can be taken for a new entry of directory [dp]: it is the head of the
    pool, in no directory, and its index was freed. *)
Record free_entry (s : FatS) (kids : Z -> list Z) (dp ep : Z) : Prop := {
  fe_head : direntHead s = ep;
  fe_ne : ep <> 0 /\ ep <> dp;
  fe_fresh : forall d, ep ∉ kids d;
  fe_root : forall e, de_head (getde s e) <> 0 -> root_of (de_head (getde s e)) <> ep;
  fe_index : inodeMaxCluster (getde s ep) <= 8;
  fe_room : Z.of_nat (length (kids dp)) < DIRENT_NUM;
}.

Definition kids_add (kids : Z -> list Z) (dp ep : Z) (d : Z) : list Z :=
  if decide (d = dp) then ep :: kids dp else kids d.

(** What [ealloc] leaves of the entries. *)
Definition added (s s' : FatS) (dp ep : Z) (name : list Z) : Prop :=
  (forall e, e <> ep -> e <> dp -> getde s' e = getde s e) /\
  getde s' dp = with_links (parent (getde s dp)) (nextBrother (getde s dp)) ep (getde s dp) /\
  filename (getde s' ep) = take FAT32_MAX_FILENAME name /\
  parent (getde s' ep) = dp /\ nextBrother (getde s' ep) = firstChild (getde s dp) /\
  firstChild (getde s' ep) = firstChild (getde s ep) /\ de_head (getde s' ep) = de_head (getde s ep) /\
  fileSystem (getde s' ep) = fileSystem (getde s dp).

Section creation.
Context {S : Type} `{!Part S FatS} `{!Part S MM} `{!FsEnv S}.
Context (fs_read : Z -> Z -> M FatS (option Z)).

Lemma ealloc_run kids (st : S) dp ep name attr :
  tree_ok (part st) kids -> is_directory (part st) dp = true -> entry_named (part st) kids dp name = 0 ->
  free_entry (part st) kids dp ep -> attr <> ATTR_LINK -> attr <> ATTR_DIRECTORY ->
  exists s', ealloc fs_read dp name attr st = Ret ep (set_part s' st) /\ added (part st) s' dp ep name /\
    attribute (getde s' ep) = Z.lor (u8 attr) ATTR_ARCHIVE.
Proof.
  intros Ht Hd Hn [Hh [Hne Hnd] _ _ Hi _] Ha1 Ha2. unfold ealloc. rewrite de_bind.
  unfold is_directory in Hd. rewrite Hd. cbn [negb].
  rewrite (bind_Ret _ _ _ _ _ (dirlookup_spec kids st dp name Ht Hd)), Hn. cbn [Z.eqb negb].
  assert (Hda : direntAlloc (part st) = Ret ep (set_direntHead (nextBrother (getde (part st) ep)) (part st))).
  { unfold direntAlloc. run_step. rewrite Hh, (proj2 (Z.eqb_neq _ _)) by done. done. }
  rewrite (bind_lift_Ret _ _ _ _ _ Hda). rewrite (proj2 (Z.eqb_neq attr ATTR_LINK)) by done.
  set (s1 := set_direntHead _ (part st)). unfold upd_de. run_step. rewrite part_set, set_part_set.
  match goal with |- context [set_part (setde ep ?f s1) st] => set (s2 := setde ep f s1) end.
  assert (Hef : eFreeInode ep (part (set_part s2 st)) = Ret tt (setde ep (fun d => with_index 0 (inode d) d) s2)).
  { rewrite part_set. apply eFreeInode_small. unfold s2. rewrite getde_set, decide_True by done. exact Hi. }
  rewrite (bind_lift_Ret _ _ _ _ _ Hef), set_part_set. set (s3 := setde ep _ s2). rewrite de_bind, part_set.
  run_steps. repeat rewrite ?part_set, ?set_part_set.
  rewrite (proj2 (Z.eqb_neq attr ATTR_DIRECTORY)) by done. run_steps. repeat rewrite ?part_set, ?set_part_set.
  assert (H3 : getde s3 dp = getde (part st) dp) by (unfold s3, s2; by rewrite !getde_set, !decide_False by done).
  rewrite H3. eexists. split; [reflexivity|]. unfold added, s3, s2.
  assert (H1 : forall e, getde s1 e = getde (part st) e) by done.
  split_and!; try (intros e He He'); repeat (rewrite getde_set; first [rewrite decide_True by done | rewrite decide_False by done]);
    rewrite ?H1; done.
Qed.

Lemma find_ext {A} (f g : A -> bool) (l : list A) : (forall x, x ∈ l -> f x = g x) -> List.find f l = List.find g l.
Proof.
  induction l as [|x l IH]; intros H; [done|]. simpl. rewrite (H x) by by left.
  destruct (g x); [done|]. apply IH. intros y Hy. apply H. by right.
Qed.

Lemma chain_added s s' dp ep name l : added s s' dp ep name -> ep ∉ l -> forall e, chain s e l -> chain s' e l.
Proof.
  intros (H1 & H2 & _). induction l as [|c l IH]; intros Hin e; [done|]. simpl.
  rewrite not_elem_of_cons in Hin. destruct Hin as [Hc Hl]. intros (-> & Hne & Hch). split_and!; [done|done|].
  replace (nextBrother (getde s' c)) with (nextBrother (getde s c)); [by apply IH|].
  destruct (decide (c = dp)) as [-> |]; [by rewrite H2|by rewrite H1].
Qed.

Lemma tree_ok_added kids s s' dp ep name :
  tree_ok s kids -> free_entry s kids dp ep -> added s s' dp ep name -> tree_ok s' (kids_add kids dp ep).
Proof.
  intros [Hk Hm] [_ [Hne Hnd] Hfr Hro _ Hroom] HA. pose proof HA as (H1 & H2 & _ & _ & H5 & H6 & H7 & _). split.
  - intros d. destruct (Hk d) as [Hc Hl]. pose proof (chain_added _ _ _ _ _ _ HA (Hfr d) _ Hc) as Hc'.
    unfold kids_add. destruct (decide (d = dp)) as [-> |Hd].
    + rewrite H2. simpl. rewrite H5. split_and!; [done|done|done|]. simpl in *. lia.
    + split; [|done]. destruct (decide (d = ep)) as [-> |]; [by rewrite H6|by rewrite H1].
  - assert (Hh : forall e, de_head (getde s' e) = de_head (getde s e)).
    { intros e. destruct (decide (e = ep)) as [-> |]; [done|]. destruct (decide (e = dp)) as [-> |]; [by rewrite H2|].
      by rewrite H1. }
    intros e. rewrite Hh. intros He. specialize (Hm e He). specialize (Hro e He). unfold is_directory in *.
    destruct (decide (root_of (de_head (getde s e)) = dp)) as [E|]; [by rewrite E, H2 in *|]. by rewrite H1.
Qed.

Lemma name_eq_take a b : name_eq (take FAT32_MAX_FILENAME a) b = name_eq a b.
Proof. unfold name_eq. by rewrite take_take, Nat.min_id. Qed.
Lemma name_eq_refl a : name_eq a a = true.
Proof. by apply bool_decide_eq_true. Qed.

Lemma entry_named_added kids s s' dp ep name d n :
  free_entry s kids dp ep -> added s s' dp ep name -> d <> ep -> (d = dp -> name_eq name n = false) ->
  entry_named s' (kids_add kids dp ep) d n = entry_named s kids d n.
Proof.
  intros [_ _ Hfr _ _ _] (H1 & H2 & H3 & _) Hd Hn. unfold entry_named.
  assert (Hp : parent (getde s' d) = parent (getde s d) /\ fileSystem (getde s' d) = fileSystem (getde s d)).
  { destruct (decide (d = dp)) as [-> |]; [by rewrite H2|by rewrite H1]. }
  destruct Hp as [-> ->]. destruct (name_eq n [0x2e]); [done|]. destruct (name_eq n [0x2e; 0x2e]); [done|].
  assert (Hf : forall c, c ∈ kids d -> name_eq (filename (getde s' c)) n = name_eq (filename (getde s c)) n).
  { intros c Hc. assert (c <> ep) by (intros ->; by apply (Hfr d)).
    destruct (decide (c = dp)) as [-> |]; [by rewrite H2|by rewrite H1]. }
  unfold kids_add. destruct (decide (d = dp)) as [-> |]; [|by rewrite (find_ext _ _ _ Hf)].
  simpl. rewrite H3, name_eq_take, Hn by done. by rewrite (find_ext _ _ _ Hf).
Qed.

(** C23. Creating an entry and looking it up.  In a directory that has no entry of
    the name, [ealloc] of a file takes the head of the pool of entries; afterwards the
    name, and only names that agree with it in the first 255 characters, is found in
    the directory, with the new entry as its result, every other lookup in every other
    entry gives what it gave before, the lists of children are well linked again, and
    a second [ealloc] of the name returns the same entry and changes nothing. *)
Theorem ealloc_then_lookup kids (st : S) dp ep name attr :
  tree_ok (part st) kids -> is_directory (part st) dp = true -> entry_named (part st) kids dp name = 0 ->
  name_eq name [0x2e] = false -> name_eq name [0x2e; 0x2e] = false ->
  free_entry (part st) kids dp ep -> attr <> ATTR_LINK -> attr <> ATTR_DIRECTORY ->
  exists s', let st' := set_part s' st in
    ealloc fs_read dp name attr st = Ret ep st' /\
    tree_ok s' (kids_add kids dp ep) /\
    dirlookup dp name st' = Ret ep st' /\
    (forall d n, d <> ep -> (d = dp -> name_eq name n = false) ->
       entry_named s' (kids_add kids dp ep) d n = entry_named (part st) kids d n) /\
    parent (getde s' ep) = dp /\ attribute (getde s' ep) = Z.lor (u8 attr) ATTR_ARCHIVE /\
    ealloc fs_read dp name attr st' = Ret ep st'.
Proof.
  intros Ht Hd Hn Hdot Hdd Hfe Ha1 Ha2.
  destruct (ealloc_run kids st dp ep name attr Ht Hd Hn Hfe Ha1 Ha2) as (s' & Hrun & HA & Hattr).
  pose proof (tree_ok_added _ _ _ _ _ _ Ht Hfe HA) as Ht'. pose proof Hfe as [_ [Hne Hnd] _ _ _ _].
  pose proof HA as (_ & H2 & H3 & H4 & _).
  assert (Hd' : is_directory (part (set_part s' st)) dp = true) by (rewrite part_set; unfold is_directory; by rewrite H2).
  assert (Hen : entry_named s' (kids_add kids dp ep) dp name = ep).
  { unfold entry_named. rewrite Hdot, Hdd. unfold kids_add. rewrite decide_True by done. simpl.
    by rewrite H3, name_eq_take, name_eq_refl. }
  assert (Hdl : dirlookup dp name (set_part s' st) = Ret ep (set_part s' st)).
  { rewrite (dirlookup_spec (kids_add kids dp ep)); [by rewrite part_set, Hen|by rewrite part_set|done]. }
  exists s'. split_and!; try done.
  - intros d n Hne' Hnn. by eapply entry_named_added.
  - unfold ealloc. rewrite de_bind. unfold is_directory in Hd'. rewrite Hd'. cbn [negb].
    rewrite (bind_Ret _ _ _ _ _ Hdl). by rewrite (proj2 (Z.eqb_neq _ _)).
Qed.
End creation.

(** Creating the file /a/c; entry 3 is free. *)
Definition tree_free : FatMem := mkFatMem (set_direntHead 3 fat_tree) (mkMM ∅ ∅ ∅ [] 0).

Lemma fat_tree_free : free_entry (set_direntHead 3 fat_tree) kids_ex 1 3.
Proof.
  constructor; try reflexivity.
  - split; discriminate.
  - intros d. unfold kids_ex. destruct (d =? -1); [by apply (bool_decide_unpack _); vm_compute|].
    destruct (d =? 1); by apply (bool_decide_unpack _); vm_compute.
  - intros e He. change (getde (set_direntHead 3 fat_tree) e) with (getde fat_tree e) in *.
    destruct He. unfold getde, fat_tree. cbn [dents]. rewrite !lookup_insert, lookup_empty.
    by repeat case_decide; subst.
  - vm_compute. discriminate.
Qed.

Lemma ealloc_then_lookup_witness :
  exists st', ealloc (fs_read 1) 1 [0x63] 0 tree_free = Ret 3 st' /\ dirlookup 1 [0x63] st' = Ret 3 st'.
Proof.
  destruct (@ealloc_then_lookup FatMem FatMem_fat (fs_read 1) kids_ex tree_free 1 3 [0x63] 0)
    as (s' & H1 & _ & H2 & _).
  - exact fat_tree_ok.
  - vm_compute. reflexivity.
  - vm_compute. reflexivity.
  - vm_compute. reflexivity.
  - vm_compute. reflexivity.
  - exact fat_tree_free.
  - discriminate.
  - discriminate.
  - exists (set_part s' tree_free). split; [exact H1|exact H2].
Defined.
