(* ===== verification/Process.v ===== *)
(** * Process.c, Thread.c and Clone.c: the life of processes and threads

    Creation, forking, exit and waiting.  [root_fs] is the root file system,
    allocated when it does not exist yet; [trampoline] and [signalTrampoline] are
    the addresses of the assembly pages; [proc_addr] gives the address of an entry
    of [processes[]], the channel its parent waits on. *)

From S2P Require Import Prelude CType Mem Config Queue Page PageSpec UserCopy Sched Bio Fat FatFile Pipe Segment File Signal.

Definition WNOHANG : Z := 1.
Definition CLONE_VM : Z := 0x100.
Definition NOT_ELF_FILE : Z := 6.

(** ** ElfLoader.c: fields of the headers in memory *)

Definition ELF_MAGIC : list Z := [0x7f; 0x45; 0x4c; 0x46].
Definition is_elf_format (m : gmap Z Z) (binary : Z) : bool := bool_decide (load_bytes m binary 4 = ELF_MAGIC).
Definition load16 (m : gmap Z Z) (a : Z) : Z := load_le m a 2.
Definition ehdr_entry (m : gmap Z Z) (b : Z) : Z := load64 m (b + 24).
Definition ehdr_phoff (m : gmap Z Z) (b : Z) : Z := load64 m (b + 32).
Definition ehdr_phentsize (m : gmap Z Z) (b : Z) : Z := load16 m (b + 54).
Definition ehdr_phnum (m : gmap Z Z) (b : Z) : Z := load16 m (b + 56).
Definition load_phdr (m : gmap Z Z) (a : Z) : Phdr :=
  mkPhdr (load32 m a) (load32 m (a + 4)) (load64 m (a + 8)) (load64 m (a + 16)) (load64 m (a + 32)) (load64 m (a + 40)).

Definition RWXU : Z := Z.lor (Z.lor PTE_EXECUTE PTE_READ) (Z.lor PTE_WRITE PTE_USER).

(** Page by page over [from, size) of a segment at [va]: [fill] fills the new
    page at offset [i] with [r] bytes. *)
Definition map_pages (dir va size : Z) (fill : Z -> Z -> Z -> gmap Z Z -> gmap Z Z) (fuel : nat) (i r : Z) :
    M MM (Z * Z) :=
  loop fuel (fun '(i, r) =>
    if i <? size then
      p ← Page.pageAlloc;
      Page.pageInsert dir (u64 (va + i)) (page2pa p) RWXU ;;
      let r := Z.min PAGE_SIZE (size - i) in
      modify (set_mem (fill i (page2pa p) r)) ;;
      mret (inl (i + r, r))
    else mret (inr (i, r))) (i, r).

(** The page of an address inside a page: the one that is mapped, or a new one. *)
Definition page_at (dir va : Z) : M MM Z :=
  r ← Page.pageLookup dir va;
  match pa2page (fst r) with
  | Some p => mret p
  | None => p ← Page.pageAlloc; Page.pageInsert dir va (page2pa p) RWXU ;; mret p
  end.

(** [pageAlloc] does not fail: it panics. *)
Definition codeMapper (dir va segmentSize binary binSize : Z) : M MM Z :=
  let offset := va - DOWN_ALIGN va PAGE_SIZE in
  let fuel := S (Z.to_nat (Z.max binSize segmentSize)) in
  r ← (if 0 <? offset then
         p ← page_at dir va;
         let r := Z.min binSize (PAGE_SIZE - offset) in
         modify (set_mem (bcopy binary (page2pa p + offset) r)) ;;
         mret r
       else mret 0);
  ir ← map_pages dir va binSize (fun i pa r => bcopy (binary + i) pa r) fuel r r;
  let '(i, r) := ir in
  let offset := u64 (va + i) - DOWN_ALIGN (u64 (va + i)) PAGE_SIZE in
  r ← (if 0 <? offset then
         p ← page_at dir (u64 (va + i));
         let r := Z.min (u64 (segmentSize - i)) (PAGE_SIZE - offset) in
         modify (set_mem (bzero (page2pa p + offset) r)) ;;
         mret r
       else mret r);
  map_pages dir va segmentSize (fun _ pa r => bzero pa r) fuel (i + r) r ;;
  mret 0.

(** [map] is called with a segment's address, sizes and bytes. *)
Fixpoint load_segments {S} `{!Part S MM} (map : Z -> Z -> Z -> Z -> M S Z) (n : nat) (binary entsize ph : Z) : M S Z :=
  match n with
  | O => mret 0
  | Datatypes.S n =>
      h ← lift (gets (fun mm => load_phdr (mem mm) ph));
      r ← (if ph_type h =? PT_LOAD
           then map (ph_vaddr h) (u32 (ph_memsz h)) (u64 (binary + ph_offset h)) (u32 (ph_filesz h))
           else mret 0);
      if r <? 0 then mret r else load_segments map n binary entsize (ph + entsize)
  end.

(** The return value and the entry point. *)
Definition loadElf {S} `{!Part S MM} (binary size : Z) (map : Z -> Z -> Z -> Z -> M S Z) : M S (Z * Z) :=
  m ← lift (gets mem);
  if (size <? 4) || negb (is_elf_format m binary) then mret (- NOT_ELF_FILE, 0)
  else
    r ← load_segments map (Z.to_nat (ehdr_phnum m binary)) binary (ehdr_phentsize m binary)
          (u64 (binary + ehdr_phoff m binary));
    if r <? 0 then mret (r, 0)
    else m ← lift (gets mem); mret (0, ehdr_entry m binary).

Section processes.
Context {S : Type} `{!Part S PState} `{!Part S MM} `{!Part S PipeS} `{!Part S FatS} `{!Part S FileS}.
Context `{!Part S SegS} `{!Part S SigS} `{!Boot S} `{!FsEnv S}.
Context (pageout_ : Z -> Z -> M S Z) (root_fs : M S Z) (proc_addr : Z -> Z).
Context (kpgdir pipe_base trampoline signalTrampoline : Z) (waits : nat).

Definition proc (p : Z) : M S Process := lift (gets (fun s => pr_of s p)).
Definition set_proc (p : Z) (f : Process -> Process) : M S unit := lift (modify (upd_process p f)).
Definition lazy_panic {A} (o : option A) : M S A := match o with Some a => mret a | None => panic end.

(** ** Exit *)

Definition close_fd (p fd : Z) : M S unit :=
  pr ← proc p;
  match ofile pr !! fd with
  | Some f =>
      fileclose kpgdir pipe_base f ;;
      set_proc p (fun pr => p_files (delete fd (ofile pr)) (cwd pr) (priority pr) pr)
  | None => mret tt
  end.

Definition processFree (p : Z) : M S unit :=
  pr ← proc p;
  lift (Page.pgdirFree (pgdir pr)) ;;
  set_proc p (p_state ZOMBIE) ;;
  for_up (Z.to_nat NOFILE) 0 (close_fd p) ;;
  processMapFree p ;;
  pr ← proc p;
  when (parentId pr >? 0)
    (r ← lift (pid2Process (parentId pr) false);
     match r with
     | (0, Some parent) => lift (wakeup (proc_addr parent))
     | _ => mret tt
     end).

Definition free_contexts (cs : list Z) : M S unit :=
  foldr (fun c rest => lift (signalContextFree c) ;; rest) (mret tt) cs.

Definition threadFree (th : Z) : M S unit :=
  t ← thread th;
  let p := process t in
  free_contexts (waitingSignal t) ;;
  set_thread th (fun t => t_signals (killed t) [] t) ;;
  when (negb (clearChildTid t =? 0))
    (pr ← proc p;
     copyout pageout_ (pgdir pr) (clearChildTid t) [0; 0; 0; 0] ;;
     lift (futexWake (clearChildTid t) 1)) ;;
  set_proc p (fun pr => p_threads (threadCount pr - 1) (p_retValue pr) pr) ;;
  pr ← proc p;
  when (threadCount pr =? 0)
    (t ← thread th;
     set_proc p (fun pr => p_threads (threadCount pr) (retValue t) pr) ;;
     processFree p) ;;
  set_thread th (t_state UNUSED) ;;
  lift (modify (fun s => upd_lists (th :: freeThreads s) (Queue.list_remove th (usedThreads s)) s)).

Definition threadDestroy (th : Z) : M S unit :=
  threadFree th ;;
  cur ← lift myThread;
  if bool_decide (cur = Some th) then
    lift (modify (fun s => upd_current (delete (cpu s) (currentThread s)) s)) ;;
    yield
  else mret tt.

(** Syscall.c *)
Definition syscallExit : M S unit :=
  tf ← lift (gets hart_tf);
  r ← lift (tid2Thread 0 true);
  match r with
  | (0, Some th) =>
      set_thread th (t_ret (u32 (Z.shiftl (i32 (reg tf tf_a0)) 8))) ;;
      threadDestroy th ;;
      panic
  | _ => panic
  end.

(** ** Creation *)

Definition map_stack_page (va : Z) : M S unit :=
  page ← lift Page.pageAlloc;
  lift (Page.pageInsert kpgdir va (page2pa page) (Z.lor PTE_READ PTE_WRITE)) ;; mret tt.

(** The fourth page that is allocated is not mapped. *)
Definition threadSetup (th : Z) : M S unit :=
  set_thread th (fun t =>
    mkThread (trapframe t) 0 (id t) UNUSED 0 0 0 (blocked t) (processing t) 0 0 (process t) 0 false []) ;;
  map_stack_page (u64 (getThreadTopSp th - PAGE_SIZE)) ;;
  map_stack_page (u64 (getThreadTopSp th - PAGE_SIZE * 2)) ;;
  map_stack_page (u64 (getThreadTopSp th - PAGE_SIZE * 3)) ;;
  lift Page.pageAlloc ;; mret tt.

Definition processSetup (p : Z) : M S unit :=
  page ← lift Page.allocPgdir;
  let dir := page2pa page in
  fs ← root_fs;
  set_proc p (fun pr =>
    mkProcess dir (processId pr) 0 (priority pr) UNUSED (ofile pr) 0 USER_BRK_HEAP_BOTTOM USER_MMAP_HEAP_BOTTOM
      (execFile pr) (root_of fs) (threadCount pr) NOFILE NOFILE (segmentMaps pr)
      (cpu_user pr) (cpu_kernel pr) (dead_user pr) (dead_kernel pr)) ;;
  let rwx := Z.lor (Z.lor PTE_READ PTE_WRITE) PTE_EXECUTE in
  lift (Page.pageInsert dir TRAMPOLINE_BASE trampoline rwx) ;;
  lift (Page.pageInsert dir (TRAMPOLINE_BASE + PAGE_SIZE) (trampoline + PAGE_SIZE) rwx) ;;
  lift (Page.pageInsert dir SIGNAL_TRAMPOLINE_BASE signalTrampoline RWXU) ;;
  map_stack_page (getSignalHandler p).

Definition processAlloc (parent : Z) : M S Z :=
  fl ← lift (gets freeProcesses);
  match fl with
  | [] => panic
  | p :: _ =>
      lift (modify (fun s => upd_plists (Queue.list_remove p (freeProcesses s)) (p :: usedProcesses s) s)) ;;
      processSetup p ;;
      pid ← lift (generateProcessId p);
      set_proc p (p_ids pid parent) ;;
      set_proc p (p_state RUNNABLE) ;;
      mret p
  end.

(** What [mainThreadAlloc] and [threadAlloc] share. *)
Definition take_thread (userSp : Z) : M S Z :=
  fl ← lift (gets freeThreads);
  match fl with
  | [] => panic
  | th :: _ =>
      lift (modify (fun s => upd_lists (Queue.list_remove th (freeThreads s)) (th :: usedThreads s) s)) ;;
      threadSetup th ;;
      tid ← lift (generateThreadId th);
      set_thread th (t_id tid) ;;
      set_thread th (t_state RUNNABLE) ;;
      set_thread th (t_frame (fun tf => <[tf_sp := userSp]> (<[tf_kernelSp := getThreadTopSp th]> tf))) ;;
      mret th
  end.
Definition add_thread (th p : Z) : M S unit :=
  set_thread th (fun t => t_owner p (clearChildTid t) t) ;;
  set_proc p (fun pr => p_threads (threadCount pr + 1) (p_retValue pr) pr).

Definition mainThreadAlloc (parent : Z) : M S Z :=
  th ← take_thread (USER_STACK_TOP - 24);
  p ← processAlloc parent;
  add_thread th p ;;
  mret th.
Definition threadAlloc (p userSp : Z) : M S Z :=
  th ← take_thread userSp; add_thread th p ;; mret th.

Definition enqueue (th : Z) : M S unit :=
  lift (modify (upd_sched (fun m => <[0 := default [] (m !! 0) ++ [th]]> m))).

Definition processCreatePriority (binary size prio : Z) : M S unit :=
  th ← mainThreadAlloc 0;
  t ← thread th;
  let p := process t in
  set_proc p (fun pr => p_files (ofile pr) (cwd pr) prio pr) ;;
  pr ← proc p;
  r ← loadElf binary size (fun va sz bin binsz => lift (codeMapper (pgdir pr) va sz bin binsz));
  if fst r <? 0 then panic
  else set_thread th (t_frame (<[tf_epc := snd r]>)) ;; enqueue th.

(** ** Waiting *)

Definition updateAncestorsCpuTime (np : Z) : M S unit :=
  pr ← proc np;
  loop (Datatypes.S (Z.to_nat PROCESS_TOTAL_NUMBER)) (fun pp =>
    x ← proc pp;
    if 0 <? parentId x then
      r ← lift (pid2Process (parentId x) false);
      match r with
      | (0, Some q) =>
          set_proc q (fun y => p_dead (dead_user y + cpu_user pr) (dead_kernel y + cpu_kernel pr) y) ;;
          mret (inl q)
      | _ => mret (inr tt)
      end
    else mret (inr tt)) np.

(** The first used process that is a child of [pid] and [target] asks for, when
    it is a zombie, and whether there is a child at all. *)
Fixpoint find_zombie (pid target : Z) (ps : list Z) (have : bool) : M S (option Z * bool) :=
  match ps with
  | [] => mret (None, have)
  | np :: ps =>
      pr ← proc np;
      if parentId pr =? pid then
        if ((target =? -1) || (processId pr =? u32 target)) && bool_decide (pstate pr = ZOMBIE)
        then mret (Some np, true)
        else find_zombie pid target ps true
      else find_zombie pid target ps have
  end.

Definition reap (np : Z) : M S unit :=
  updateAncestorsCpuTime np ;;
  set_proc np (p_state UNUSED) ;;
  lift (modify (fun s => upd_plists (np :: freeProcesses s) (Queue.list_remove np (usedProcesses s)) s)).

Definition wait (target addr flags : Z) : M S Z :=
  p ← lift myProcess;
  match p with
  | None => panic
  | Some p =>
      loop (Datatypes.S waits) (fun _ : unit =>
        me ← proc p;
        ps ← lift (gets usedProcesses);
        r ← find_zombie (processId me) target ps false;
        match r with
        | (Some np, _) =>
            z ← proc np;
            when (negb (addr =? 0))
              (copyout pageout_ (pgdir me) addr
                 [u8 (p_retValue z); u8 (Z.shiftr (p_retValue z) 8);
                  u8 (Z.shiftr (p_retValue z) 16); u8 (Z.shiftr (p_retValue z) 24)]) ;;
            reap np ;;
            mret (inr (i32 (processId z)))
        | (None, have) =>
            if c_true (Z.land flags WNOHANG) then mret (inr (-1))
            else if negb have then mret (inr 0)
            else sleep threadDestroy (proc_addr p) ;; mret (inl tt)
        end) tt
  end.

(** ** Clone.c *)

(** One entry of the parent's leaf table: shared copy-on-write. *)
Definition fork_entry (child_dir va pte : Z) : M MM unit :=
  e ← gets (fun mm => load64 (mem mm) pte);
  when (c_true (Z.land e PTE_VALID) && negb (va =? TRAMPOLINE_BASE) && negb (va =? TRAMPOLINE_BASE + PAGE_SIZE))
    (when (c_true (Z.land e PTE_WRITE))
       (modify (set_mem (store64 pte (Z.lor e PTE_COW))) ;;
        e ← gets (fun mm => load64 (mem mm) pte);
        modify (set_mem (store64 pte (Z.land e (u64 (Z.lnot PTE_WRITE)))))) ;;
     e ← gets (fun mm => load64 (mem mm) pte);
     Page.pageInsert child_dir va (PTE2PA e) (PTE2PERM e) ;; mret tt).

Definition fork_memory (dir child_dir : Z) : M MM unit :=
  for_up 512 0 (fun i =>
    e ← gets (fun mm => load64 (mem mm) (dir + 8 * i));
    when (c_true (Z.land e PTE_VALID)) (
      let pa := PTE2PA e in
      for_up 512 0 (fun j =>
        e ← gets (fun mm => load64 (mem mm) (pa + 8 * j));
        when (c_true (Z.land e PTE_VALID)) (
          let pa2 := PTE2PA e in
          for_up 512 0 (fun k =>
            fork_entry child_dir (Z.shiftl i 30 + Z.shiftl j 21 + Z.shiftl k 12) (pa2 + 8 * k)))))).

Fixpoint fork_segments (child : Z) (maps : list Z) : M S unit :=
  match maps with
  | [] => mret tt
  | i :: maps =>
      m ← lift (gets (fun s => getpsm s i));
      n ← lift segmentMapAlloc;
      lift (set_psm n m) ;;
      lift (appendSegmentMap child n) ;;
      fork_segments child maps
  end.

Definition fork_file (current child fd : Z) : M S unit :=
  pr ← proc current;
  match ofile pr !! fd with
  | Some f =>
      lift (filedup f) ;;
      set_proc child (fun c => p_files (<[fd := f]> (ofile c)) (cwd c) (priority c) c)
  | None => mret tt
  end.

Definition processFork : M S Z :=
  cur ← lift myProcess;
  match cur with
  | None => panic
  | Some cur =>
      me ← proc cur;
      th ← mainThreadAlloc (processId me);
      t ← thread th;
      let child := process t in
      me ← proc cur;
      set_proc child (fun c => p_files (ofile c) (cwd me) (priority c) c) ;;
      fork_segments child (segmentMaps me) ;;
      c ← proc child;
      for_up (Z.to_nat (fd_hard c)) 0 (fork_file cur child) ;;
      set_proc child (fun c => p_files (ofile c) (cwd c) (priority me) c) ;;
      set_proc child (p_heap (brkHeapBottom me) (mmapHeapBottom me)) ;;
      tf ← lift (gets hart_tf);
      set_thread th (t_frame (fun _ => <[tf_kernelSp := getThreadTopSp th]> (<[tf_a0 := 0]> tf))) ;;
      c ← proc child;
      lift (fork_memory (pgdir me) (pgdir c)) ;;
      enqueue th ;;
      mret (i32 (processId c))
  end.

Definition threadFork (stackVa ptid tls ctid : Z) : M S Z :=
  cur ← lift myProcess;
  match cur with
  | None => panic
  | Some cur =>
      th ← threadAlloc cur stackVa;
      tf ← lift (gets hart_tf);
      set_thread th (t_frame (fun _ =>
        <[tf_sp := stackVa]> (<[tf_kernelSp := getThreadTopSp th]> (<[tf_tp := tls]> (<[tf_a0 := 0]> tf))))) ;;
      t ← thread th;
      me ← proc cur;
      when (negb (ptid =? 0))
        (copyout pageout_ (pgdir me) ptid
           [u8 (id t); u8 (Z.shiftr (id t) 8); u8 (Z.shiftr (id t) 16); u8 (Z.shiftr (id t) 24)]) ;;
      set_thread th (fun t => t_owner (process t) ctid t) ;;
      enqueue th ;;
      mret (i32 (id t))
  end.

Definition clone (flags stackVa ptid tls ctid : Z) : M S Z :=
  if c_true (Z.land flags CLONE_VM) then threadFork stackVa ptid tls ctid else processFork.
End processes.

(** The loader of the built-in programs leaves a hole in the zero-initialised part
    of a segment whose file part ends on a page boundary: with 0x1000 bytes of data and
    0x3000 bytes of memory at 0x1000, [codeMapper] returns success and maps the pages at
    0x1000 and at 0x3000, but not the one at 0x2000. *)
Theorem codeMapper_skips_page :
  exists mm', codeMapper (page2pa 200) 0x1000 0x3000 0x80500000 0x1000 mm1 = Ret 0 mm' /\
    (exists pa, translates mm' 200 0x1000 pa /\ IS_RAM pa = true) /\
    translates mm' 200 0x2000 0 /\
    (exists pa, translates mm' 200 0x3000 pa /\ IS_RAM pa = true).
Proof.
  destruct (ret_test_true (codeMapper (page2pa 200) 0x1000 0x3000 0x80500000 0x1000 mm1)
    (fun x m => (x =? 0) && ret_test (Page.pageLookup (page2pa 200) 0x1000 m) (fun r _ => IS_RAM (fst r))
                && ret_test (Page.pageLookup (page2pa 200) 0x2000 m) (fun r _ => fst r =? 0)
                && ret_test (Page.pageLookup (page2pa 200) 0x3000 m) (fun r _ => IS_RAM (fst r))))
    as (x & m & -> & Ht); [vm_compute; reflexivity|].
  apply andb_prop in Ht as [Ht H3]. apply andb_prop in Ht as [Ht H2]. apply andb_prop in Ht as [Hx H1].
  apply Z.eqb_eq in Hx. subst x. exists m. split; [reflexivity|].
  assert (Hl : forall va t, ret_test (Page.pageLookup (page2pa 200) va m) (fun r _ => t (fst r)) = true ->
    exists pa, translates m 200 va pa /\ t pa = true).
  { intros va t. destruct (pageLookup_readonly (page2pa 200) va m) as [[pa pte] Hr]. rewrite Hr. intros H.
    exists pa. split; [by exists pte|exact H]. }
  split_and!; [by apply Hl| |by apply Hl].
  destruct (Hl 0x2000 (fun pa => pa =? 0) H2) as (pa & Hpa & E). apply Z.eqb_eq in E. by subst pa.
Qed.
