(* ===== verification/Syscall.v ===== *)
(** * Sysarg.c and Syscall.c: system calls on processes, memory, signals and sockets

    Each handler reads its arguments from the trap frame of the hart it runs on and
    leaves its result in [a0] of that frame (a handler that sleeps may be resumed on
    another hart, but keeps the pointer).  The structures it exchanges with the user
    are byte lists, little-endian.  [putchar] and [hasChar] are the console driver,
    [r_cycle] the cycle counter. *)

From S2P Require Import Prelude CType Mem Strings Config Queue Page UserCopy Sched Bio Fat FatFile.
From S2P Require Import Pipe Segment File Signal Process.

Definition EINVAL : Z := 22.
Definition PROT_READ : Z := 4.
Definition PROT_WRITE : Z := 2.
Definition PROT_EXEC : Z := 1.
Definition RLIMIT_NOFILE : Z := 7.
Definition FUTEX_WAIT : Z := 0.
Definition FUTEX_WAKE : Z := 1.
Definition FUTEX_REQUEUE : Z := 3.
Definition FUTEX_PRIVATE_FLAG : Z := 128.
Definition SYSLOG_ACTION_READ_ALL : Z := 3.
Definition SYSLOG_ACTION_SIZE_BUFFER : Z := 10.
Definition TIOCGWINSZ : Z := 0x5413.
Definition SIGSEGV : Z := 11.

(** Words in byte lists, and signed 64-bit values. *)
Definition le_bytes (n : nat) (v : Z) : list Z := map (fun i => u8 (Z.shiftr v (8 * i))) (seqZ 0 (Z.of_nat n)).
Fixpoint of_le (bs : list Z) : Z := match bs with [] => 0 | b :: bs => b + 256 * of_le bs end.
Definition word (off n : nat) (bs : list Z) : Z := of_le (take n (drop off bs)).
Definition i64 (x : Z) : Z := (x + 2 ^ 63) mod 2 ^ 64 - 2 ^ 63.

Definition prot_perm (prot : Z) : Z :=
  Z.lor (Z.lor (if c_true (Z.land prot PROT_EXEC) then Z.lor PTE_EXECUTE PTE_READ else 0)
               (if c_true (Z.land prot PROT_READ) then PTE_READ else 0))
        (if c_true (Z.land prot PROT_WRITE) then Z.lor PTE_WRITE PTE_READ else 0).

(** The bytes before the first NUL, and whether there is one. *)
Fixpoint until_nul (bs : list Z) : list Z * bool :=
  match bs with
  | [] => ([], false)
  | c :: bs => if c =? 0 then ([], true) else let '(s, b) := until_nul bs in (c :: s, b)
  end.

Definition socket_addr (bs : list Z) : SocketAddr := mkAddr (word 0 2 bs) (word 2 2 bs) (word 4 4 bs) (take 24 (drop 8 bs)).
Definition SIZEOF_SOCKADDR : Z := 32.
Definition addr_bytes (a : SocketAddr) : list Z :=
  le_bytes 2 (family a) ++ le_bytes 2 (port a) ++ le_bytes 4 (addr a) ++ zero a.

(** The interval timer of Timer.c. *)
Record IntervalTimer := mkTimer { interval : Z * Z; expiration : Z * Z }.

(** The register frame of hart [h]. *)
Definition upd_frame (h : Z) (f : Trapframe -> Trapframe) (s : PState) : PState :=
  mkP (threads s) (freeThreads s) (usedThreads s) (scheduleList s) (currentThread s) (nextTid s)
    (processes s) (freeProcesses s) (usedProcesses s) (nextPid s) (futexQueue s) (processTimeCount s)
    (processBelongList s) (<[h := f (default ∅ (hartTrapframe s !! h))]> (hartTrapframe s)) (cpu s) (timer s)
    (ticks s) (first s).
Definition arg (n : Z) (tf : Trapframe) : Z := reg tf (tf_a0 + n).

Section syscalls.
Context {S : Type} `{!Part S PState} `{!Part S MM} `{!Part S PipeS} `{!Part S FatS} `{!Part S FileS}.
Context `{!Part S SegS} `{!Part S SigS} `{!Boot S} `{!FsEnv S}.
Context (pageout_ : Z -> Z -> M S Z) (root_fs : M S Z) (proc_addr : Z -> Z).
Context (fs_read : Z -> Z -> M FatS (option Z)).
Context (kpgdir pipe_base sock_base trampoline signalTrampoline : Z) (waits : nat).
Context (dev_read dev_write : Z -> option (bool -> Z -> Z -> Z -> M S Z)).
Context (putchar : Z -> M S unit) (hasChar : M S bool) (r_cycle : M S Z).
(** What local variables hold before they are assigned. *)
Context (uninit : nat -> list Z).

Local Notation destroy := (threadDestroy pageout_ proc_addr kpgdir pipe_base).

(** ** Arguments *)

Definition frame : M S Trapframe := lift (gets hart_tf).
Definition hart : M S Z := lift (gets cpu).
Definition set_a0 (h v : Z) : M S unit := lift (modify (upd_frame h (<[tf_a0 := u64 v]>))).
Definition me : M S Z := p ← lift myProcess; match p with Some p => mret p | None => panic end.
Definition self : M S Z := t ← lift myThread; match t with Some t => mret t | None => panic end.
Definition dir : M S Z := p ← me; pr ← proc p; mret (pgdir pr).

Definition argraw (n : Z) : M S Z := tf ← frame; if (0 <=? n) && (n <=? 5) then mret (arg n tf) else panic.
Definition argint (n : Z) : M S Z := x ← argraw n; mret (i32 x).
Definition argaddr (n : Z) : M S Z := argraw n.
(** [copyin] of [n] bytes, as the user asks, to a local variable of [size] bytes: a longer
    copy overwrites the frame of the function. *)
Definition copyin_local (size a n : Z) : M S (list Z) :=
  bs ← user_copyin a n; if n >? size then panic else mret (bs ++ drop (length bs) (uninit (Z.to_nat size))).
Definition fetchaddr (a : Z) : M S Z := bs ← user_copyin a 8; mret (word 0 8 bs).

Fixpoint copyinstr_loop (fuel : nat) (pgdir_ srcva max : Z) : M S (option (list Z)) :=
  match fuel with
  | O => fun _ => NoFuel
  | Datatypes.S fuel =>
      if max >? 0 then
        let va0 := DOWN_ALIGN srcva PGSIZE in
        pa0 ← resolve_read pageout_ pgdir_ srcva;
        let n := PGSIZE - (srcva - va0) in
        let n := if n >? max then max else n in
        bs ← read_memory (fun m => load_bytes m pa0 (Z.to_nat n));
        match until_nul bs with
        | (s, true) => mret (Some s)
        | (s, false) =>
            r ← copyinstr_loop fuel pgdir_ (u64 (va0 + PGSIZE)) (max - n);
            mret (match r with Some s' => Some (s ++ s') | None => None end)
        end
      else mret None
  end.
(** The string, [None] for -1. *)
Definition copyinstr (pgdir_ srcva max : Z) : M S (option (list Z)) :=
  copyinstr_loop (Datatypes.S (Z.to_nat max)) pgdir_ srcva max.
Definition fetchstr (uva max : Z) : M S (option (list Z)) := d ← dir; copyinstr d uva max.
Definition argstr (n max : Z) : M S (option (list Z)) := a ← argaddr n; fetchstr a max.

(** [None] for -1; the descriptor and the file. *)
Definition argfd (n : Z) : M S (option (Z * Z)) :=
  fd ← argint n;
  if (fd <? 0) || (fd >=? NOFILE) then mret None
  else f ← my_file fd; mret (if f =? 0 then None else Some (fd, f)).

(** ** Processes and threads *)

Definition syscallPutchar : M S unit := tf ← frame; putchar (u8 (arg 0 tf)).
Definition syscallGetProcessId : M S unit := h ← hart; p ← me; pr ← proc p; set_a0 h (processId pr).
Definition syscallGetParentProcessId : M S unit := h ← hart; p ← me; pr ← proc p; set_a0 h (parentId pr).
Definition syscallWait : M S unit :=
  h ← hart; tf ← frame;
  r ← wait pageout_ proc_addr kpgdir pipe_base waits (i32 (arg 0 tf)) (arg 1 tf) (i32 (arg 2 tf));
  set_a0 h r.
Definition syscallYield : M S unit := yield.
Definition syscallClone : M S unit :=
  h ← hart; tf ← frame;
  r ← clone pageout_ root_fs kpgdir trampoline signalTrampoline (u32 (arg 0 tf)) (arg 1 tf) (arg 2 tf) (arg 3 tf) (arg 4 tf);
  set_a0 h r.
Definition syscallPutString : M S unit :=
  tf ← frame; d ← dir;
  let va := arg 0 tf in
  r ← lift (Page.pageLookup d va);
  let pa := u64 (fst r + Z.land va 0xfff) in
  if pa =? 0 then panic
  else for_up (Z.to_nat (u32 (arg 1 tf))) 0 (fun i => c ← read_memory (fun m => load8 m (pa + i)); putchar c).
Definition syscallSetTidAddress : M S unit :=
  h ← hart; tf ← frame; t ← self;
  set_thread t (fun th => t_owner (process th) (arg 0 tf) th) ;;
  th ← thread t; set_a0 h (id th).
Definition syscallExitGroup : M S unit := h ← hart; set_a0 h 0.
Definition syscallGetTheardId : M S unit := h ← hart; t ← self; th ← thread t; set_a0 h (id th).
Definition syscallGetRobustList : M S unit :=
  h ← hart; tf ← frame; t ← self; th ← thread t;
  user_copyout (arg 1 tf) (le_bytes 8 (robustHeadPointer th)) ;; set_a0 h 0.
Definition set_robust (a : Z) (t : Thread) : Thread :=
  mkThread (trapframe t) (awakeTime t) (id t) (state t) (chan t) (reason t) (retValue t) (blocked t) (processing t)
    (setChildTid t) (clearChildTid t) (process t) a (killed t) (waitingSignal t).
Definition syscallSetRobustList : M S unit :=
  h ← hart; tf ← frame; t ← self;
  bs ← user_copyin (arg 1 tf) 8; set_thread t (set_robust (word 0 8 bs)) ;; set_a0 h 0.

(** ** Time *)

Definition timespec_bytes (s n : Z) : list Z := le_bytes 8 s ++ le_bytes 8 n.
Definition syscallGetCpuTimes : M S unit :=
  h ← hart; tf ← frame; p ← me; pr ← proc p;
  user_copyout (arg 0 tf) (le_bytes 8 (cpu_user pr) ++ le_bytes 8 (cpu_kernel pr) ++
    le_bytes 8 (dead_user pr) ++ le_bytes 8 (dead_kernel pr)) ;;
  c ← r_cycle; set_a0 h (Z.land c 0x3FFFFFFF).
Definition syscallGetClockTime : M S unit :=
  h ← hart; tf ← frame; t ← lift r_time;
  user_copyout (arg 1 tf) (timespec_bytes (t / 1000000) (t mod 1000000 * 1000)) ;; set_a0 h 0.
Definition syscallGetTimeOfDay : M S unit :=
  h ← hart; tf ← frame; t ← lift r_time;
  user_copyout (arg 1 tf) (timespec_bytes (t / 1000000) (t mod 1000000)) ;; set_a0 h 0.
Definition syscallSleepTime : M S unit :=
  tf ← frame; bs ← user_copyin (arg 0 tf) 16; t ← self; now ← lift r_time;
  set_thread t (t_awake (u64 (now + word 0 8 bs * 1000000 + Z.quot (i64 (word 8 8 bs)) 1000))) ;;
  yield.
Definition timer_bytes (t : IntervalTimer) : list Z :=
  timespec_bytes (fst (interval t)) (snd (interval t)) ++ timespec_bytes (fst (expiration t)) (snd (expiration t)).
Definition bytes_timer (bs : list Z) : IntervalTimer :=
  mkTimer (word 0 8 bs, word 8 8 bs) (word 16 8 bs, word 24 8 bs).
Definition setTimer (t : IntervalTimer) : M IntervalTimer unit := modify (fun _ => t).
Definition getTimer : M IntervalTimer IntervalTimer := gets (fun t => t).
Definition syscallSetTimer `{!Part S IntervalTimer} : M S unit :=
  h ← hart; tf ← frame; time ← lift getTimer;
  when (negb (arg 2 tf =? 0)) (user_copyout (arg 2 tf) (timer_bytes time)) ;;
  when (negb (arg 1 tf =? 0)) (bs ← user_copyin (arg 1 tf) 32; lift (setTimer (bytes_timer bs))) ;;
  set_a0 h 0.
Definition syscallGetRandom : M S unit := h ← hart; t ← lift r_time; set_a0 h t.
Definition syscallGetResouceUsage : M S unit :=
  h ← hart; tf ← frame;
  assert (i32 (arg 0 tf) =? 0) ;;
  p ← me; pr ← proc p;
  user_copyout (arg 1 tf) (
    timespec_bytes (Z.quot (cpu_user pr) 1000000) (Z.rem (cpu_user pr) 1000000 * 1000) ++
    timespec_bytes (Z.quot (cpu_kernel pr) 1000000) (Z.rem (cpu_kernel pr) 1000000 * 1000) ++ uninit 112) ;;
  set_a0 h 0.

(** ** Memory *)

Definition sys_sbrk (len : Z) : M S Z :=
  p ← me; pr ← proc p;
  r ← growproc (pgdir pr) (brkHeapBottom pr) (i32 len);
  match r with
  | Some b => set_proc p (fun pr => p_heap b (mmapHeapBottom pr) pr) ;; mret (brkHeapBottom pr)
  | None => mret (-1)
  end.
Definition syscallBrk : M S unit :=
  h ← hart; tf ← frame; p ← me; pr ← proc p;
  let a := arg 0 tf in
  if a =? 0 then set_a0 h (brkHeapBottom pr)
  else when (a >=? brkHeapBottom pr) (sys_sbrk (u32 (a - brkHeapBottom pr)) ;; mret tt).
Definition syscallSetBrk : M S unit :=
  h ← hart; tf ← frame; r ← sys_sbrk (u32 (arg 0 tf)); set_a0 h r.

Definition syscallMapMemory : M S unit :=
  h ← hart; tf ← frame;
  if arg 1 tf =? 0 then set_a0 h (- EINVAL)
  else
    fd ← argfd 4;
    r ← do_mmap fs_read pageout_ destroy kpgdir pipe_base waits dev_read
          (match fd with Some (_, f) => f | None => 0 end)
          (arg 0 tf) (arg 1 tf) (prot_perm (arg 2 tf)) (arg 3 tf) (arg 5 tf);
    set_a0 h r.

(** Whole pages inside the range; the first one that is not mapped ends the call. *)
Definition syscallUnMapMemory : M S unit :=
  h ← hart; tf ← frame; d ← dir;
  let start := UP_ALIGN (arg 0 tf) PAGE_SIZE in
  let fin := DOWN_ALIGN (u64 (arg 0 tf + arg 1 tf)) PAGE_SIZE in
  loop (Datatypes.S (Z.to_nat ((fin - start) / PGSIZE + 1))) (fun a =>
    if a <? fin then
      r ← lift (Page.pageRemove d a);
      if r <? 0 then set_a0 h (-1) ;; mret (inr tt) else mret (inl (u64 (a + PGSIZE)))
    else set_a0 h 0 ;; mret (inr tt)) start.

(** The entry of a mapped page with new permission bits. *)
Definition protected (e perm : Z) : Z :=
  Z.lor (Z.land e (u64 (Z.lnot (Z.lor PTE_READ (Z.lor PTE_WRITE PTE_EXECUTE))))) perm.
Definition protect_page (d perm a : Z) : M S unit :=
  r ← lift (Page.pageLookup d a);
  match r with
  | (0, _) => pageout_ d a ;; mret tt
  | (_, Some pte) => set_memory (fun m => store64 pte (protected (load64 m pte) perm) m)
  | (_, None) => panic
  end.
Definition syscallMemoryProtect : M S unit :=
  h ← hart; tf ← frame; d ← dir;
  let start := DOWN_ALIGN (arg 0 tf) PGSIZE in
  let fin := UP_ALIGN (u64 (arg 0 tf + arg 1 tf)) PGSIZE in
  loop (Datatypes.S (Z.to_nat ((fin - start) / PGSIZE + 1))) (fun a =>
    if a <? fin then protect_page d (prot_perm (arg 2 tf)) a ;; mret (inl (u64 (a + PGSIZE)))
    else mret (inr tt)) start ;;
  set_a0 h 0.

(** ** Signals *)

(** A set of signals has sixteen words, of which only the first is used. *)
Definition SIZEOF_SIGSET : Z := 128.
Definition syscallSignProccessMask : M S unit :=
  h ← hart; tf ← frame;
  bs ← copyin_local SIZEOF_SIGSET (arg 1 tf) (arg 3 tf);
  when (negb (arg 2 tf =? 0))
    (t ← self; th ← thread t;
     user_copyout (arg 2 tf) (take (Z.to_nat (arg 3 tf)) (le_bytes 8 (blocked th) ++ replicate 120 0))) ;;
  r ← signProccessMask (arg 0 tf) (word 0 8 bs);
  set_a0 h r.
Definition syscallSignalAction : M S unit :=
  h ← hart; tf ← frame; r ← doSignalAction kpgdir (i32 (arg 0 tf)) (arg 1 tf) (arg 2 tf); set_a0 h r.
Definition SIZEOF_SIGINFO : Z := 128.
Definition syscallSignalTimedWait : M S unit :=
  h ← hart; tf ← frame;
  when (negb (arg 2 tf =? 0)) (user_copyin (arg 2 tf) 16 ;; mret tt) ;;
  copyin_local SIZEOF_SIGSET (arg 0 tf) (arg 3 tf) ;;
  user_copyin (arg 0 tf) SIZEOF_SIGINFO ;;
  r ← doSignalTimedWait; set_a0 h r.
Definition syscallProcessKill : M S unit :=
  h ← hart; tf ← frame; r ← processSignalSend (i32 (arg 0 tf)) (i32 (arg 1 tf)); set_a0 h r.
Definition syscallThreadKill : M S unit :=
  h ← hart; tf ← frame; r ← signalSend 0 (i32 (arg 0 tf)) (i32 (arg 1 tf)); set_a0 h r.
Definition syscallThreadGroupKill : M S unit :=
  h ← hart; tf ← frame; r ← signalSend (i32 (arg 0 tf)) (i32 (arg 1 tf)) (i32 (arg 2 tf)); set_a0 h r.

(** ** Limits and information *)

Definition syscallProcessResourceLimit : M S unit :=
  h ← hart; tf ← frame;
  if negb (arg 0 tf =? 0) then panic
  else
    p ← me;
    bs ← (if arg 2 tf =? 0 then mret (uninit 16) else user_copyin (arg 2 tf) 16);
    when (arg 1 tf =? RLIMIT_NOFILE)
      (when (negb (arg 2 tf =? 0)) (set_proc p (p_limits (word 0 8 bs) (word 8 8 bs))) ;;
       when (negb (arg 3 tf =? 0))
         (pr ← proc p; user_copyout (arg 3 tf) (le_bytes 8 (fd_soft pr) ++ le_bytes 8 (fd_hard pr)))) ;;
    set_a0 h 0.
(** [winSize]: 24 rows of 80 columns. *)
Definition syscallIOControl : M S unit :=
  h ← hart; tf ← frame;
  when (arg 1 tf =? TIOCGWINSZ) (user_copyout (arg 2 tf) (le_bytes 2 24 ++ le_bytes 2 80 ++ le_bytes 4 0)) ;;
  set_a0 h 0.
(** my_linux, my_node, 10.2.0, MIPS-OS, Risc-V sifive_u, Beijing *)
Definition utsname : list Z := concat (map (strncpy_bytes 65) [
  [109; 121; 95; 108; 105; 110; 117; 120];
  [109; 121; 95; 110; 111; 100; 101];
  [49; 48; 46; 50; 46; 48];
  [77; 73; 80; 83; 45; 79; 83];
  [82; 105; 115; 99; 45; 86; 32; 115; 105; 102; 105; 118; 101; 95; 117];
  [66; 101; 105; 106; 105; 110; 103]]).
Definition syscallUname : M S unit := h ← hart; tf ← frame; user_copyout (arg 0 tf) utsname ;; set_a0 h 0.
(** We havn't support syslog yet! *)
Definition syslog_text : list Z :=
  [87; 101; 32; 104; 97; 118; 110; 39; 116; 32; 115; 117; 112; 112; 111; 114; 116; 32; 115; 121; 115; 108; 111; 103; 32; 121; 101; 116; 33; 10; 0].
Definition syscallLog : M S unit :=
  h ← hart; tf ← frame;
  let n := Z.min 31 (u32 (arg 2 tf)) in
  if i32 (arg 0 tf) =? SYSLOG_ACTION_READ_ALL then
    user_copyout (arg 1 tf) (take (Z.to_nat n) syslog_text) ;; set_a0 h n
  else if i32 (arg 0 tf) =? SYSLOG_ACTION_SIZE_BUFFER then set_a0 h 31
  else panic.
(** The calls that only answer 0: user, group and process-group identifiers, socket
    options, barriers, system information, msync and madvise. *)
Definition syscallGetUserId : M S unit := h ← hart; set_a0 h 0.
Definition syscallGetEffectiveUserId : M S unit := h ← hart; set_a0 h 0.
Definition syscallMemoryBarrier : M S unit := h ← hart; set_a0 h 0.
Definition syscallSystemInfo : M S unit := h ← hart; set_a0 h 0.
Definition syscallSetSocketOption : M S unit := h ← hart; set_a0 h 0.
Definition syscallMemorySychronize : M S unit := h ← hart; set_a0 h 0.
Definition syscallMemeryAdvise : M S unit := h ← hart; set_a0 h 0.
Definition syscallGetGroupId : M S unit := h ← hart; set_a0 h 0.
Definition syscallGetEffectiveGroupId : M S unit := h ← hart; set_a0 h 0.

(** ** Futexes *)

Definition syscallFutex : M S unit :=
  h ← hart; tf ← frame;
  let op := Z.land (i32 (arg 1 tf)) (FUTEX_PRIVATE_FLAG - 1) in
  if op =? FUTEX_WAIT then
    bs ← user_copyin (arg 0 tf) 4;
    ts ← (if arg 3 tf =? 0 then mret None
          else b ← user_copyin (arg 3 tf) 16; mret (Some (word 0 8 b, i64 (word 8 8 b))));
    if negb (i32 (word 0 4 bs) =? i32 (arg 2 tf)) then set_a0 h (-1)
    else t ← self; futexWait (arg 0 tf) t ts
  else if op =? FUTEX_WAKE then lift (futexWake (arg 0 tf) (i32 (arg 2 tf))) ;; set_a0 h 0
  else if op =? FUTEX_REQUEUE then lift (futexRequeue (arg 0 tf) (i32 (arg 2 tf)) (arg 4 tf)) ;; set_a0 h 0
  else panic.

(** ** Sockets *)

Definition syscallSocket : M S unit := h ← hart; tf ← frame; r ← createSocket kpgdir (i32 (arg 0 tf)); set_a0 h r.
Definition syscallBind : M S unit :=
  h ← hart; tf ← frame; bs ← copyin_local SIZEOF_SOCKADDR (arg 1 tf) (arg 2 tf);
  r ← bindSocket (i32 (arg 0 tf)) (socket_addr bs); set_a0 h r.
Definition syscallGetSocketName : M S unit :=
  h ← hart; tf ← frame; r ← getSocketName addr_bytes (i32 (arg 0 tf)) (arg 1 tf); set_a0 h r.
(** [myProcess()->ofile[fd]->socket] *)
Definition fd_socket (fd : Z) : M S Z := f ← my_file fd; if f =? 0 then panic else ff ← file f; mret (f_socket ff).
Definition syscallSendTo : M S unit :=
  h ← hart; tf ← frame;
  assert (arg 5 tf =? SIZEOF_SOCKADDR) ;;
  user_copyin (arg 4 tf) SIZEOF_SOCKADDR ;;
  buf_ ← user_copyin (arg 1 tf) (Z.min (arg 2 tf) PAGE_SIZE);
  so ← fd_socket (arg 0 tf);
  r ← sendTo kpgdir so buf_ PAGE_SIZE (u32 (arg 2 tf)); set_a0 h r.
Definition syscallReceiveFrom : M S unit :=
  h ← hart; tf ← frame; so ← fd_socket (arg 0 tf);
  r ← receiveFrom kpgdir so (arg 1 tf) (u32 (arg 2 tf)); set_a0 h r.
Definition syscallListen : M S unit := h ← hart; tf ← frame; r ← listen (i32 (arg 0 tf)); set_a0 h r.
Definition syscallConnect : M S unit :=
  h ← hart; tf ← frame; bs ← copyin_local SIZEOF_SOCKADDR (arg 1 tf) (arg 2 tf);
  r ← connect destroy sock_base uninit (i32 (arg 0 tf)) (socket_addr bs); set_a0 h r.
Definition syscallAccept : M S unit :=
  h ← hart; tf ← frame; r ← accept kpgdir sock_base (i32 (arg 0 tf));
  set_a0 h (fst r) ;;
  user_copyout (arg 1 tf) (match snd r with Some a => addr_bytes a | None => uninit 32 end).

(** ** Waiting for files *)

Definition syscallPoll : M S unit :=
  h ← hart; tf ← frame;
  for_up (Z.to_nat (i32 (arg 1 tf))) 0 (fun i =>
    let va := u64 (arg 0 tf + 8 * i) in
    bs ← user_copyin va 8;
    user_copyout va (take 6 bs ++ [0; 0])) ;;
  set_a0 h 1.

(** The bit of descriptor [i] in a set of two words. *)
Definition fd_bit (b0 b1 i : Z) : Z :=
  if i <? 64 then Z.land b0 (u64 (Z.shiftl 1 (Z.land i 63))) else Z.land b1 (u64 (Z.shiftl 1 (Z.land (i - 64) 63))).
Definition ready_to_read (f : Z) : M S bool :=
  ff ← file f;
  match f_type ff with
  | FD_PIPE => pipe_get (f_pipe ff) (fun p => negb (nread p =? nwrite p))
  | FD_SOCKET =>
      k ← sock (f_socket ff);
      mret (negb (used k && (head k =? tail k) && (negb (listening k) || (listening k && (pending_h k =? pending_t k)))))
  | FD_DEVICE => hasChar
  | _ => mret true
  end.
(** The count of ready descriptors and the words of the set, from descriptor [i] on. *)
Fixpoint select_read (n : nat) (i b0 b1 : Z) (l : Z * Z * Z) : M S (Z * Z * Z) :=
  match n with
  | O => mret l
  | Datatypes.S n =>
      let '(cnt, r0, r1) := l in
      let cur := fd_bit b0 b1 i in
      f ← (if cur =? 0 then mret 0 else my_file i);
      if f =? 0 then select_read n (i + 1) b0 b1 l
      else
        ok ← ready_to_read f;
        select_read n (i + 1) b0 b1
          (if (ok : bool) then (cnt + 1, r0, r1)
           else if i <? 64 then (cnt, Z.land r0 (u64 (Z.lnot cur)), r1) else (cnt, r0, Z.land r1 (u64 (Z.lnot cur))))
  end.
Definition select_write (b0 b1 nfd : Z) : Z :=
  fold_left (fun c i => c + b2z (c_true (fd_bit b0 b1 i))) (seqZ 0 nfd) 0.

(** The set of writable descriptors is overwritten with the bytes of the local variable
    that holds its address. *)
Definition syscallSelect : M S unit :=
  h ← hart; tf ← frame;
  let nfd := i32 (arg 0 tf) in
  l ← (if arg 1 tf =? 0 then mret (0, word 0 8 (uninit 16), word 8 8 (uninit 16))
       else bs ← user_copyin (arg 1 tf) 16;
            select_read (Z.to_nat nfd) 0 (word 0 8 bs) (word 8 8 bs) (0, word 0 8 bs, word 8 8 bs));
  let '(cnt, r0, r1) := l in
  cnt ← (if arg 2 tf =? 0 then mret cnt
         else
           bs ← user_copyin (arg 2 tf) 16;
           user_copyout (arg 2 tf) (le_bytes 8 (arg 2 tf) ++ uninit 8) ;;
           mret (cnt + select_write (word 0 8 bs) (word 8 8 bs) nfd));
  when (negb (arg 3 tf =? 0)) (user_memset (arg 3 tf) 0 (u64 nfd)) ;;
  zero ← (if arg 4 tf =? 0 then mret false
          else if cnt =? 0 then bs ← user_copyin (arg 4 tf) 16; mret ((word 0 8 bs =? 0) && (word 8 8 bs =? 0))
          else mret false);
  (if (cnt =? 0) && negb zero then
     lift (modify (upd_frame h (fun f => <[tf_epc := u64 (reg f tf_epc - 4)]> f))) ;; yield
   else mret tt) ;;
  user_copyout (arg 1 tf) (le_bytes 8 r0 ++ le_bytes 8 r1) ;;
  set_a0 h cnt.
End syscalls.
