(* ===== verification/FetchSpec.v ===== *)
(** * String arguments of system calls

    [copyinstr] (Sysarg.c) fetches a NUL-terminated string from the program, page by page,
    and looks at no page beyond the one the NUL is in. *)

From S2P Require Import Prelude CType Mem Config Queue Page PageInv PageSpec UserCopy Sched Bio Fat FatFile.
From S2P Require Import Pipe Segment File Signal Process Syscall.

(** The NUL-terminated string [str] is at the user address [va], mapped up to its NUL. *)
Definition user_string (mm : MM) (tbl : gmap Z owner) (maps : gmap (Z * Z) Z) (r : Z) (f : Z -> Z) (va : Z) (str : list Z) : Prop :=
  let n := Z.of_nat (length str) + 1 in
  0 ∉ str /\ user_range tbl maps r va n f /\ user_bytes mm f va (Z.to_nat n) = str ++ [0].

Lemma until_nul_found str junk : 0 ∉ str -> until_nul (str ++ 0 :: junk) = (str, true).
Proof.
  induction str as [|c str IH]; [done|]. rewrite not_elem_of_cons. intros [Hc Hs]. simpl.
  rewrite (proj2 (Z.eqb_neq _ _)) by done. by rewrite IH.
Qed.
Lemma until_nul_none str : 0 ∉ str -> until_nul str = (str, false).
Proof.
  induction str as [|c str IH]; [done|]. rewrite not_elem_of_cons. intros [Hc Hs]. simpl.
  rewrite (proj2 (Z.eqb_neq _ _)) by done. by rewrite IH.
Qed.

Lemma first_part_fits va n max : 0 < n -> n <= first_part va max -> first_part va n = n.
Proof. unfold first_part. rewrite !Z.gtb_ltb. do 2 case_match; lia. Qed.
Lemma first_part_page va n max : n <= max -> first_part va max < n -> first_part va n = first_part va max.
Proof. unfold first_part. rewrite !Z.gtb_ltb. do 2 case_match; lia. Qed.

Section fetch.
Context {S : Type} `{!Part S MM} (pageout_ : Z -> Z -> M S Z).
Context (tbl : gmap Z owner) (maps : gmap (Z * Z) Z) (r : Z) (f : Z -> Z).
Hypothesis Hr : tbl !! r = Some (Root r).

(** One turn: the bytes up to the end of the page, or [max]. *)
Lemma copyinstr_turn (s : S) fuel va n max : pt_inv (part s) tbl maps -> user_range tbl maps r va n f -> 0 < n <= max ->
  copyinstr_loop pageout_ (Datatypes.S fuel) (page2pa r) va max s =
  match until_nul (load_bytes (mem (part s)) (user_addr f va) (Z.to_nat (first_part va max))) with
  | (str, true) => Ret (Some str) s
  | (str, false) =>
      (r ← copyinstr_loop pageout_ fuel (page2pa r) (u64 (DOWN_ALIGN va PGSIZE + PGSIZE)) (max - first_part va max);
       mret (match r with Some s' => Some (str ++ s') | None => None end)) s
  end.
Proof.
  intros I Hu Hn. destruct (resolve_read_spec pageout_ tbl maps r f Hr s va n I Hu ltac:(lia)) as (_ & Hrd & _).
  pose proof Hu as (H0 & H1 & _). destruct (next_page va n H0 H1 ltac:(lia)) as (E0 & E1 & _).
  cbn [copyinstr_loop]. rewrite Z.gtb_ltb, (proj2 (Z.ltb_lt _ _)) by lia.
  rewrite (bind_Ret _ _ _ _ _ Hrd), E1. fold (first_part va max).
  unfold read_memory. rewrite bind_lift_gets. by destruct (until_nul _) as [str []].
Qed.

Lemma user_split (mm : MM) va k l : (k <= length l)%nat -> user_bytes mm f va (length l) = l ->
  user_bytes mm f va k = take k l /\ user_bytes mm f (va + Z.of_nat k) (length (drop k l)) = drop k l.
Proof.
  intros Hk Hl. rewrite length_drop. replace (length l) with (k + (length l - k))%nat in Hl at 1 by lia.
  rewrite user_bytes_app in Hl. rewrite <- (take_drop k l) in Hl at 2.
  apply app_inj_1 in Hl as [-> ->]; [done|]. unfold user_bytes. rewrite length_map, length_seqZ, length_take. lia.
Qed.

Lemma next_range va n max : user_range tbl maps r va n f -> 0 < n <= max -> first_part va max < n ->
  u64 (DOWN_ALIGN va PGSIZE + PGSIZE) = va + first_part va max /\
  user_range tbl maps r (va + first_part va max) (n - first_part va max) f.
Proof.
  intros Hu Hn Hk. pose proof Hu as (H0 & H1 & _). rewrite <- (first_part_page va n max) in * by lia.
  split; [apply (next_page va n); try done; lia|]. apply user_range_next; [done|lia].
Qed.

Lemma copyinstr_found (s : S) fuel : forall str va max,
  let n := Z.of_nat (length str) + 1 in
  pt_inv (part s) tbl maps -> user_range tbl maps r va n f -> 0 ∉ str ->
  user_bytes (part s) f va (length (str ++ [0])) = str ++ [0] -> n <= max -> max < Z.of_nat fuel ->
  copyinstr_loop pageout_ fuel (page2pa r) va max s = Ret (Some str) s.
Proof.
  induction fuel as [|fuel IH]; intros str va max n I Hu Hs Hb Hm Hf; [lia|].
  rewrite (copyinstr_turn s fuel va n max) by (done || lia). set (k := first_part va max).
  pose proof Hu as (H0 & _). destruct (first_part_range va max ltac:(lia)) as [Hk _]. fold k in Hk.
  assert (Hlen : Z.of_nat (length (str ++ [0])) = n) by (rewrite length_app; simpl; lia).
  destruct (decide (n <= k)) as [Hfit|Hfit].
  - pose proof (first_part_fits va n max ltac:(lia) Hfit) as E.
    rewrite (user_bytes_first _ _ _ n) in Hb by lia.
    replace (Z.to_nat k) with (length (str ++ [0%Z]) + Z.to_nat (k - n))%nat by lia.
    rewrite load_bytes_app, Hb, <- app_assoc. simpl. by rewrite until_nul_found.
  - destruct (next_range va n max Hu ltac:(lia) ltac:(fold k; lia)) as [En Hu']. fold k in En, Hu'.
    destruct (user_split (part s) va (Z.to_nat k) (str ++ [0]) ltac:(lia) Hb) as [Hb1 Hb2].
    rewrite take_app_le in Hb1 by lia. rewrite drop_app_le in Hb2 by lia. rewrite Z2Nat.id in Hb2 by lia.
    rewrite (user_bytes_first _ _ _ n) in Hb1 by (rewrite ?(first_part_page va n max); fold k; lia).
    rewrite <- (take_drop (Z.to_nat k) str), not_elem_of_app in Hs. destruct Hs as [Hs1 Hs2].
    rewrite Hb1, until_nul_none by done.
    rewrite En, (bind_Ret _ _ _ (Some (drop (Z.to_nat k) str)) s).
    + by rewrite take_drop.
    + apply IH; try done; [| |lia]; rewrite length_drop; [|lia].
      by replace (Z.of_nat (length str - Z.to_nat k) + 1) with (n - k) by lia.
Qed.

Lemma copyinstr_none (s : S) fuel : forall va max,
  pt_inv (part s) tbl maps -> user_range tbl maps r va max f -> 0 ∉ user_bytes (part s) f va (Z.to_nat max) ->
  0 <= max < Z.of_nat fuel -> copyinstr_loop pageout_ fuel (page2pa r) va max s = Ret None s.
Proof.
  induction fuel as [|fuel IH]; intros va max I Hu Hs Hm; [lia|].
  destruct (decide (max = 0)) as [-> |Hne]; [done|].
  rewrite (copyinstr_turn s fuel va max max) by (done || lia). set (k := first_part va max).
  pose proof Hu as (H0 & _). destruct (first_part_range va max ltac:(lia)) as [Hk _]. fold k in Hk.
  replace (Z.to_nat max) with (Z.to_nat k + Z.to_nat (max - k))%nat in Hs by lia.
  rewrite user_bytes_app, not_elem_of_app, Z2Nat.id in Hs by lia. destruct Hs as [Hs1 Hs2].
  rewrite (user_bytes_first _ _ _ max) in Hs1 by (fold k; lia). rewrite until_nul_none by done.
  destruct (decide (k = max)) as [Ek|Ek].
  - rewrite Ek, Z.sub_diag. destruct fuel; [lia|]. done.
  - destruct (next_range va max max Hu ltac:(lia) ltac:(fold k; lia)) as [En Hu']. fold k in En, Hu'.
    rewrite En, (bind_Ret _ _ _ None s); [done|]. apply IH; try done. lia.
Qed.
End fetch.

(** C24. Fetching a string argument.  When the bytes of the program at [va] up to a NUL
    are mapped, at most [max] of them with the NUL, [copyinstr] returns the characters before
    the NUL, whatever follows, mapped or not.  When [max] bytes are mapped and none is NUL,
    it fails.  In both cases nothing changes and the loop ends within its bound. *)
Theorem copyinstr_spec {S} `{!Part S MM} (pageout_ : Z -> Z -> M S Z) tbl maps r f va max (s : S) :
  pt_inv (part s) tbl maps -> tbl !! r = Some (Root r) -> 0 <= max ->
  (forall str, user_string (part s) tbl maps r f va str -> Z.of_nat (length str) < max ->
     copyinstr pageout_ (page2pa r) va max s = Ret (Some str) s) /\
  (user_range tbl maps r va max f -> 0 ∉ user_bytes (part s) f va (Z.to_nat max) ->
     copyinstr pageout_ (page2pa r) va max s = Ret None s).
Proof.
  intros I Hr Hmax. split.
  - intros str (Hs & Hu & Hb) Hn. apply (copyinstr_found pageout_ tbl maps r f Hr s); try done; try lia.
    rewrite length_app. by replace (length str + length [0%Z])%nat with (Z.to_nat (Z.of_nat (length str) + 1)) by (simpl; lia).
  - intros Hu Hs. apply (copyinstr_none pageout_ tbl maps r f Hr s); try done. lia.
Qed.

(** The string "l" in the last two bytes of a page; the next page is not mapped. *)
Lemma copyinstr_spec_witness :
  exists mm, copyinstr (fun _ _ => panic) (page2pa 200) 0x1ffe 260 mm = Ret (Some [0x6c]) mm.
Proof.
  destruct (mm1_insert (Z.lor PTE_USER (Z.lor PTE_READ PTE_WRITE))) as (mm & tbl & _ & I0 & Hr & Hp);
    [vm_compute; split; [discriminate|reflexivity]|].
  assert (I := store_bytes_inv mm tbl _ 300 0xffe [0x6c; 0] I0 ltac:(unfold page_ok; lia) Hp ltac:(lia) ltac:(simpl; lia)).
  set (mm' := set_mem _ mm) in I.
  destruct (@copyinstr_spec MM MM_MM (fun _ _ => panic) tbl _ 200 (fun _ => 300) 0x1ffe 260 mm' I Hr ltac:(lia)) as [H _].
  exists mm'. apply H; [|simpl; lia]. split_and!; [by intros ?%list_elem_of_singleton| |].
  - assert (Hv : forall a, 0x1ffe <= a < 0x1ffe + 2 -> vpn a = 1)
      by (intros a Ha; unfold vpn; Z.to_euclidean_division_equations; lia).
    split_and!; [lia|vm_compute; discriminate| |].
    + intros a Ha. rewrite Hv by exact Ha. eexists.
      split_and!; [by rewrite lookup_insert_eq|vm_compute; reflexivity|exact Hp|vm_compute; discriminate|
        vm_compute; reflexivity].
    + intros a b Ha Hb _. rewrite !Hv; [reflexivity|exact Hb|exact Ha].
  - rewrite (user_bytes_first mm' _ 0x1ffe 2) by (vm_compute; first [discriminate|reflexivity]).
    unfold mm'. rewrite mem_set_mem. apply load_store_bytes. repeat constructor; lia.
Defined.
