(* ===== verification/Sysfile.v ===== *)
(** * Sysfile.c: system calls on files

    The handlers of Syscall.v for files, directories and mounts.  [rootfs] is
    [rootFileSystem]; [link_buf], [path_buf], [io_buf], [cnt_], [de_] are the kernel
    addresses of local variables; [lfuel] bounds the symbolic links followed in a path
    (FatFile.v), [tfuel] the clusters of a file that is truncated, [depth] and [dfuel] the
    directories of a volume that is mounted (FileSystem.v). *)

From S2P Require Import Prelude CType Mem Strings Config Queue Page UserCopy Sched Bio Fat FatFile.
From S2P Require Import Pipe Segment File Signal FileSystem Process Syscall.

Definition ENOENT : Z := 2.
Definition EBADF : Z := 9.
Definition EEXIST : Z := 17.
Definition EMFILE : Z := 24.
Definition FCNTL_GETFD : Z := 1.
Definition FCNTL_SETFD : Z := 2.
Definition FCNTL_GET_FILE_STATUS : Z := 3.
Definition FCNTL_SETFL : Z := 4.
Definition FCNTL_DUPFD_CLOEXEC : Z := 1030.
Definition IOVMAX : Z := 64.
Definition FAT32_MAX_PATH : Z := 260.
Definition O_WRONLY : Z := 0x001.
Definition O_RDWR : Z := 0x002.
Definition O_CREATE_GLIBC : Z := 0x40.
Definition O_CREATE_GPP : Z := 0x200.
Definition O_APPEND : Z := 0x400.
Definition O_TRUNC : Z := 0x200.
Definition O_DIRECTORY : Z := 0x0200000.
Definition SEEK_SET : Z := 0.
Definition SEEK_CUR : Z := 1.
Definition SEEK_END : Z := 2.
Definition DT_DIR : Z := 4.
Definition DT_REG : Z := 8.

Definition with_entry (o ep : Z) (r w : bool) (f : File) : File :=
  mkFile FD_ENTRY (f_ref f) r w (f_pipe f) ep (f_socket f) (u32 o) (f_major f) (f_curChild f).
Definition with_device (major : Z) (r w : bool) (f : File) : File :=
  mkFile FD_DEVICE (f_ref f) r w (f_pipe f) 0 (f_socket f) 0 major (f_curChild f).
Definition with_child (c : Z) (f : File) : File :=
  mkFile (f_type f) (f_ref f) (f_readable f) (f_writable f) (f_pipe f) (f_ep f) (f_socket f) (f_off f) (f_major f) c.
Definition with_nt (nt : Z) (d : Dirent) : Dirent :=
  with_meta (filename d) (attribute d) nt (fileSystem d) (de_off d) d.
Definition with_head (h : Z) (d : Dirent) : Dirent :=
  mkDe (filename d) (attribute d) (first_clus d) (file_size d) (cur_clus d) (inodeMaxCluster d) (clus_cnt d)
    (inode d) (nt_res d) (fileSystem d) (de_dev d) h (de_off d) (parent d) (nextBrother d) (firstChild d).

(** [struct stat]; the padding is what the stack held. *)
Definition stat_bytes (u : list Z) (st : stat) : list Z :=
  let pad off n := take n (drop off u) in
  le_bytes 8 (st_dev st) ++ le_bytes 8 (st_ino st) ++ le_bytes 4 (st_mode st) ++ le_bytes 4 1 ++
  le_bytes 4 0 ++ le_bytes 4 0 ++ le_bytes 8 0 ++ pad 40%nat 8%nat ++ le_bytes 8 (st_size st) ++
  le_bytes 4 (st_blksize st) ++ pad 60%nat 4%nat ++ le_bytes 8 (st_blocks st) ++
  le_bytes 8 (st_atime_sec st) ++ le_bytes 8 0 ++ le_bytes 8 (st_mtime_sec st) ++ le_bytes 8 0 ++
  le_bytes 8 0 ++ le_bytes 8 0 ++ pad 120%nat 8%nat.

(** [struct linux_dirent64] before the name. *)
Definition DIRENT64 : Z := 19.
Definition dirent64 (reclen type : Z) : list Z := le_bytes 8 0 ++ le_bytes 8 0 ++ le_bytes 2 reclen ++ [type].

Section sysfile.
Context {S : Type} `{!Part S PState} `{!Part S MM} `{!Part S PipeS} `{!Part S FatS} `{!Part S FileS}.
Context `{!Part S SegS} `{!Part S SigS} `{!Boot S} `{!FsEnv S}.
Context (pageout_ : Z -> Z -> M S Z) (proc_addr : Z -> Z).
Context (fs_read : Z -> Z -> M FatS (option Z)).
Context (kpgdir pipe_base : Z) (waits : nat).
Context (dev_read dev_write : Z -> option (bool -> Z -> Z -> Z -> M S Z)).
Context (rootfs link_buf path_buf io_buf cnt_ de_ : Z) (lfuel tfuel depth dfuel : nat).
(** What local variables hold before they are assigned. *)
Context (uninit : nat -> list Z).

Local Notation destroy := (threadDestroy pageout_ proc_addr kpgdir pipe_base).
Local Notation fileread := (fileread fs_read pageout_ destroy kpgdir pipe_base waits dev_read).
Local Notation filewrite := (filewrite fs_read pageout_ destroy kpgdir pipe_base waits dev_write).
Local Notation fileclose := (fileclose kpgdir pipe_base).
Local Notation ename := (ename fs_read lfuel link_buf rootfs).
Local Notation create := (create fs_read lfuel link_buf rootfs).
Local Notation fetchstr := (fetchstr pageout_).

(** ** Descriptors *)

Definition set_ofile (fd f : Z) : M S unit :=
  p ← me;
  set_proc p (fun pr => p_files (if f =? 0 then delete fd (ofile pr) else <[fd := f]> (ofile pr)) (cwd pr) (priority pr) pr).
(** [fd < 0 || fd >= NOFILE || (f = myProcess()->ofile[fd]) == NULL] is [None]. *)
Definition open_fd (fd : Z) : M S (option Z) :=
  if (fd <? 0) || (fd >=? NOFILE) then mret None
  else f ← my_file fd; mret (if f =? 0 then None else Some f).

Definition syscallDup : M S unit :=
  h ← hart; tf ← frame; f ← open_fd (i32 (arg 0 tf));
  match f with
  | None => set_a0 h (-1)
  | Some f =>
      fd ← fdalloc f;
      if fd <? 0 then set_a0 h (- EMFILE) else lift (filedup f) ;; set_a0 h fd
  end.

Definition syscallDupAndSet : M S unit :=
  h ← hart; tf ← frame; f ← open_fd (i32 (arg 0 tf));
  let fdnew := i32 (arg 1 tf) in
  match f with
  | None => set_a0 h (-1)
  | Some f =>
      if (fdnew <? 0) || (fdnew >=? NOFILE) then set_a0 h (-1)
      else
        f2 ← my_file fdnew;
        when (negb (f2 =? 0)) (fileclose f2) ;;
        set_ofile fdnew f ;; lift (filedup f) ;; set_a0 h fdnew
  end.

Definition syscall_fcntl : M S unit :=
  h ← hart; tf ← frame; f ← open_fd (i32 (arg 0 tf));
  match f with
  | None => set_a0 h (-1)
  | Some f =>
      let cmd := arg 1 tf in
      if cmd =? FCNTL_GETFD then set_a0 h 1
      else if cmd =? FCNTL_SETFD then set_a0 h 0
      else if cmd =? FCNTL_GET_FILE_STATUS then set_a0 h 2048
      else if cmd =? FCNTL_DUPFD_CLOEXEC then fd ← fdalloc f; lift (filedup f) ;; set_a0 h fd
      else if cmd =? FCNTL_SETFL then set_a0 h 0
      else panic
  end.

Definition syscallClose : M S unit :=
  h ← hart; tf ← frame;
  let fd := i32 (arg 0 tf) in
  f ← open_fd fd;
  match f with
  | None => set_a0 h (-1)
  | Some f => set_ofile fd 0 ;; fileclose f ;; set_a0 h 0
  end.

(** ** Reading and writing *)

Definition syscallRead : M S unit :=
  h ← hart; tf ← frame; f ← open_fd (i32 (arg 0 tf));
  match f with
  | None => set_a0 h (-1)
  | Some f =>
      if i32 (arg 2 tf) <? 0 then set_a0 h (-1)
      else r ← fileread f true (arg 1 tf) (i32 (arg 2 tf)); set_a0 h r
  end.
Definition syscallWrite : M S unit :=
  h ← hart; tf ← frame; f ← open_fd (i32 (arg 0 tf));
  match f with
  | None => set_a0 h (-1)
  | Some f =>
      if i32 (arg 2 tf) <? 0 then set_a0 h (-1)
      else r ← filewrite f true (arg 1 tf) (i32 (arg 2 tf)); set_a0 h r
  end.

(** The sum of the results of [io] over the vector. *)
Fixpoint each_iovec (io : Z -> Z -> M S Z) (n : nat) (vec : list Z) (len : Z) : M S Z :=
  match n with
  | O => mret len
  | Datatypes.S n => r ← io (word 0 8 vec) (i32 (word 8 8 vec)); each_iovec io n (drop 16 vec) (u64 (len + r))
  end.
Definition io_vector (io : Z -> Z -> Z -> M S Z) : M S unit :=
  h ← hart; tf ← frame; f ← open_fd (i32 (arg 0 tf));
  let cnt := i32 (arg 2 tf) in
  match f with
  | None => set_a0 h (-1)
  | Some f =>
      if (cnt <? 0) || (cnt >=? IOVMAX) then set_a0 h (-1)
      else
        vec ← user_copyin (arg 1 tf) (cnt * 16);
        len ← each_iovec (io f) (Z.to_nat cnt) vec 0;
        set_a0 h len
  end.
Definition syscallWriteVector : M S unit := io_vector (fun f a n => filewrite f true a n).
Definition syscallReadVector : M S unit := io_vector (fun f a n => fileread f true a n).

(** The entry of an open file, which must not be NULL. *)
Definition file_ep (f : Z) : M S Z := ff ← file f; if f_ep ff =? 0 then panic else mret (f_ep ff).

Definition syscallLSeek : M S unit :=
  h ← hart; tf ← frame; f ← open_fd (i32 (arg 0 tf));
  match f with
  | None => set_a0 h (-1)
  | Some f =>
      let mode := i32 (arg 2 tf) in
      base ← (if mode =? SEEK_SET then mret (Some 0)
              else if mode =? SEEK_CUR then ff ← file f; mret (Some (f_off ff))
              else if mode =? SEEK_END then ep ← file_ep f; d ← de ep; mret (Some (file_size d))
              else mret None);
      match base with
      | None => set_a0 h (-1)
      | Some b => let off := u64 (arg 1 tf + b) in upd_file f (with_off off) ;; set_a0 h off
      end
  end.

(** The descriptor is not checked. *)
Definition syscallPRead : M S unit :=
  h ← hart; tf ← frame; f ← my_file (i32 (arg 0 tf));
  if f =? 0 then set_a0 h (-1)
  else
    ff ← file f; ep ← file_ep f;
    r ← eread fs_read ep true (arg 1 tf) (u32 (arg 3 tf)) (u32 (arg 2 tf));
    set_a0 h (i32 r) ;; upd_file f (with_off (f_off ff)).

Definition send_step (inFile outFile : Z) (l : Z * Z) : M S ((Z * Z) + Z) :=
  let '(count, size) := l in
  if count >? 0 then
    let len := Z.min count 512 in
    r ← fileread inFile false io_buf len;
    r ← (if r >? 0 then filewrite outFile false io_buf r else mret r);
    let size := u32 (size + r) in
    if negb (r =? len) then mret (inr size) else mret (inl (count - len, size))
  else mret (inr size).
Definition syscallSendFile : M S unit :=
  h ← hart; tf ← frame;
  outFile ← open_fd (i32 (arg 0 tf)); inFile ← open_fd (i32 (arg 1 tf));
  match outFile, inFile with
  | Some outFile, Some inFile =>
      when (negb (arg 2 tf =? 0)) (bs ← user_copyin (arg 2 tf) 4; upd_file inFile (with_off (word 0 4 bs))) ;;
      let count := u32 (arg 3 tf) in
      size ← loop (Datatypes.S (Datatypes.S (Z.to_nat (count / 512)))) (send_step inFile outFile) (count, 0);
      when (negb (arg 2 tf =? 0)) (ff ← file inFile; user_copyout (arg 2 tf) (le_bytes 4 (f_off ff))) ;;
      set_a0 h size
  | _, _ => set_a0 h (-1)
  end.

(** ** Status and directories *)

Definition syscallGetFileState : M S unit :=
  h ← hart; tf ← frame; f ← open_fd (i32 (arg 0 tf));
  match f with
  | None => set_a0 h (-1)
  | Some f => r ← filestat fs_read (stat_bytes (uninit 128)) cnt_ de_ f (arg 1 tf); set_a0 h r
  end.
Definition syscallGetFileStateAt : M S unit :=
  h ← hart; tf ← frame; path ← fetchstr (arg 1 tf) FAT32_MAX_PATH;
  match path with
  | None => set_a0 h (-1)
  | Some path =>
      e ← ename (i32 (arg 0 tf)) path true;
      if e =? 0 then set_a0 h (- ENOENT)
      else
        st ← estat fs_read e cnt_ de_;
        user_copyout (arg 2 tf) (stat_bytes (uninit 128) st) ;; set_a0 h 0
  end.

(** Local variables: [addr], [n], [nread]. *)
Definition dirent_step (f : Z) (l : Z * Z * Z) : M S ((Z * Z * Z) + Z) :=
  let '(addr_, n, nread_) := l in
  ff ← file f;
  let cur := f_curChild ff in
  if cur =? 0 then mret (inr nread_)
  else
    d ← de cur;
    let size := DIRENT64 + Z.of_nat (length (filename d)) + 1 in
    if n <? size then mret (inr nread_)
    else
      user_copyout addr_ (dirent64 size (if has (attribute d) ATTR_DIRECTORY then DT_DIR else DT_REG)) ;;
      user_copyout (u64 (addr_ + DIRENT64)) (filename d ++ [0]) ;;
      upd_file f (with_child (nextBrother d)) ;;
      mret (inl (u64 (addr_ + size), n - size, nread_ + size)).
Definition syscallGetDirent : M S unit :=
  h ← hart; f ← argfd 0; addr_ ← argaddr 1; n ← argint 2;
  match f with
  | None => set_a0 h (-2)
  | Some (_, f) =>
      ff ← file f;
      if bool_decide (f_type ff = FD_ENTRY) then r ← loop DIR_FUEL (dirent_step f) (addr_, n, 0); set_a0 h r
      else set_a0 h (-5)
  end.

(** The path of [d] from the root, in [maxLen] bytes; the buffer is filled from its end. *)
Definition abspath_step (maxLen : Z) (l : Z * Z * list Z) : M S ((Z * Z * list Z) + option (list Z)) :=
  let '(d, pos, acc) := l in
  dd ← de d;
  if parent dd =? 0 then mret (inr (Some acc))
  else
    let pos := pos - Z.of_nat (length (filename dd)) in
    if (pos <=? 0) || (pos <=? FAT32_MAX_PATH - maxLen) then mret (inr None)
    else mret (inl (parent dd, pos - 1, 0x2f :: filename dd ++ acc)).
Definition getAbsolutePath (d : Z) (isUser : bool) (buf_ maxLen : Z) : M S Z :=
  dd ← de d;
  if parent dd =? 0 then either_copyout isUser buf_ [0x2f; 0]
  else
    r ← loop (Z.to_nat (FAT32_MAX_PATH + 1)) (abspath_step maxLen) (d, FAT32_MAX_PATH - 1, []);
    match r with
    | None => mret (-1)
    | Some s => either_copyout isUser buf_ (s ++ [0])
    end.
Definition syscallGetWorkDir : M S unit :=
  h ← hart; tf ← frame;
  let uva := arg 0 tf in
  if uva =? 0 then panic
  else
    p ← me; pr ← proc p;
    len ← getAbsolutePath (cwd pr) true uva (i32 (arg 1 tf));
    set_a0 h (if len <? 0 then -1 else uva).

Definition syscallChangeDir : M S unit :=
  h ← hart; tf ← frame; p ← me; path ← fetchstr (arg 0 tf) FAT32_MAX_PATH;
  e ← (match path with None => mret 0 | Some path => ename AT_FDCWD path true end);
  if e =? 0 then set_a0 h (-1)
  else
    d ← de e;
    if negb (has (attribute d) ATTR_DIRECTORY) then set_a0 h (-1)
    else set_proc p (fun pr => p_files (ofile pr) e (priority pr) pr) ;; set_a0 h 0.

Definition syscallMakeDirAt : M S unit :=
  h ← hart; tf ← frame; path ← fetchstr (arg 1 tf) FAT32_MAX_PATH;
  match path with
  | None => set_a0 h (-1)
  | Some path =>
      if forallb (fun c => c =? 0x2f) path then set_a0 h (- EEXIST)
      else
        e ← create (i32 (arg 0 tf)) path T_DIR (i32 (arg 2 tf));
        set_a0 h (if e =? 0 then -1 else 0)
  end.

(** ** Opening *)

(** A file and a descriptor for it; the file is closed again when there is none. *)
Definition new_file : M S (option (Z * Z)) :=
  f ← lift filealloc;
  if f =? 0 then mret None
  else
    fd ← fdalloc f;
    if fd <? 0 then fileclose f ;; mret None else mret (Some (f, fd)).

(** The common part of the two calls; [creat] is the flag that asks for a new file. *)
Definition do_open (h startFd : Z) (path : list Z) (flags mode creat : Z) (set_child : bool) : M S unit :=
  e ← (if has flags creat then e ← create startFd path T_FILE mode; mret (if e =? 0 then inl (-1) else inr e)
       else
         e ← ename startFd path true;
         if e =? 0 then mret (inl (-2))
         else
           d ← de e;
           let isdir := has (attribute d) ATTR_DIRECTORY in
           if (negb isdir && has flags O_DIRECTORY) || (isdir && negb (Z.land flags 0xFFF =? O_RDONLY))
           then mret (inl (-1)) else mret (inr e));
  match e with
  | inl err => set_a0 h err
  | inr e =>
      r ← new_file;
      match r with
      | None => set_a0 h (-24)
      | Some (f, fd) =>
          d ← de e;
          let isdir := has (attribute d) ATTR_DIRECTORY in
          when (negb isdir && has flags O_TRUNC) (lift (etrunc fs_read tfuel e)) ;;
          d ← de e;
          upd_file f (with_entry (if has flags O_APPEND then file_size d else 0) e
            (negb (has flags O_WRONLY)) (has flags O_WRONLY || has flags O_RDWR)) ;;
          when set_child (upd_file f (with_child (if isdir then firstChild d else 0))) ;;
          set_a0 h fd
      end
  end.
Definition syscallOpenAt : M S unit :=
  h ← hart; tf ← frame; path ← fetchstr (arg 1 tf) FAT32_MAX_PATH;
  match path with
  | None => set_a0 h (-1)
  | Some path => do_open h (i32 (arg 0 tf)) path (i32 (arg 2 tf)) (i32 (arg 3 tf)) O_CREATE_GLIBC true
  end.
Definition syscallOpen : M S unit :=
  h ← hart; tf ← frame; path ← fetchstr (arg 0 tf) FAT32_MAX_PATH;
  match path with
  | None => set_a0 h (-1)
  | Some path => do_open h AT_FDCWD path (i32 (arg 1 tf)) 0 O_CREATE_GPP false
  end.

Definition syscallPipe : M S unit :=
  h ← hart; tf ← frame; r ← pipeNew kpgdir pipe_base;
  match r with
  | None => set_a0 h (-1)
  | Some (rf, wf) =>
      fd0 ← fdalloc rf;
      fd1 ← (if fd0 <? 0 then mret (-1) else fdalloc wf);
      if (fd0 <? 0) || (fd1 <? 0) then
        when (fd0 >=? 0) (set_ofile fd0 0) ;;
        fileclose rf ;; fileclose wf ;; set_a0 h (-1)
      else
        user_copyout (arg 0 tf) (le_bytes 4 fd0) ;;
        user_copyout (u64 (arg 0 tf + 4)) (le_bytes 4 fd1) ;;
        set_a0 h 0
  end.

Definition syscallDevice : M S unit :=
  h ← hart; tf ← frame;
  let omode := i32 (arg 1 tf) in
  let major := i32 (arg 0 tf) in
  if has omode O_CREATE_GLIBC then panic
  else if (major <? 0) || (major >=? NDEV) then set_a0 h (-1)
  else
    r ← new_file;
    match r with
    | None => set_a0 h (-1)
    | Some (f, fd) =>
        upd_file f (with_device major (negb (has omode O_WRONLY)) (has omode O_WRONLY || has omode O_RDWR)) ;;
        set_a0 h fd
    end.

(** ** Links *)

(** A link is a file that holds the path of its target. *)
Definition do_linkat (oldDirFd : Z) (oldPath : list Z) (newDirFd : Z) (newPath : list Z) : M S Z :=
  e ← ename oldDirFd oldPath true;
  if e =? 0 then mret (-1)
  else
    t ← create newDirFd newPath T_FILE O_RDWR;
    if t =? 0 then mret (-1)
    else
      r ← getAbsolutePath e false path_buf FAT32_MAX_PATH;
      if r <? 0 then eremove t ;; mret (-1)
      else
        s ← kstr (Z.to_nat FAT32_MAX_PATH) path_buf;
        let n := Z.of_nat (length s) + 1 in
        k ← ewrite fs_read t false path_buf 0 n;
        if negb (i32 k =? n) then eremove t ;; mret (-1)
        else upd_de t (with_nt DT_LNK) ;; mret 0.
Definition syscallLinkAt : M S unit :=
  h ← hart; tf ← frame;
  assert (i32 (arg 4 tf) =? 0) ;;
  old ← fetchstr (arg 1 tf) FAT32_MAX_PATH;
  match old with
  | None => set_a0 h (-1)
  | Some old =>
      new ← fetchstr (arg 3 tf) FAT32_MAX_PATH;
      match new with
      | None => set_a0 h (-1)
      | Some new => r ← do_linkat (i32 (arg 0 tf)) old (i32 (arg 2 tf)) new; set_a0 h r
      end
  end.

(** The path is followed through links: what is removed is the file a link points at. *)
Definition do_unlinkat (fd : Z) (path : list Z) : M S Z :=
  e ← ename fd path true;
  if e =? 0 then mret (-1)
  else
    lift (etrunc fs_read tfuel e) ;;
    upd_de e (with_nt 0) ;;
    eremove e ;;
    mret 0.
Definition syscallUnlinkAt : M S unit :=
  h ← hart; tf ← frame; path ← fetchstr (arg 1 tf) FAT32_MAX_PATH;
  match path with
  | None => set_a0 h (-1)
  | Some path => r ← do_unlinkat (i32 (arg 0 tf)) path; set_a0 h r
  end.

Definition syscallAccess : M S unit :=
  h ← hart; tf ← frame; path ← fetchstr (arg 1 tf) FAT32_MAX_PATH;
  match path with
  | None => set_a0 h (-1)
  | Some path => e ← ename (i32 (arg 0 tf)) path true; set_a0 h (if e =? 0 then - ENOENT else 0)
  end.
Definition syscallReadLinkAt : M S unit :=
  h ← hart; tf ← frame; path ← fetchstr (arg 1 tf) FAT32_MAX_PATH;
  match path with
  | None => set_a0 h (-1)
  | Some path =>
      set_a0 h (-1) ;;
      e ← ename (i32 (arg 0 tf)) path false;
      if e =? 0 then set_a0 h (-1)
      else d ← de e; set_a0 h (if nt_res d =? DT_LNK then 0 else -1)
  end.

Definition syscallUtimensat : M S unit :=
  h ← hart; tf ← frame;
  let dirFd := i32 (arg 0 tf) in
  r ← (if negb (arg 1 tf =? 0) then
         path ← fetchstr (arg 1 tf) FAT32_MAX_PATH;
         match path with
         | None => mret (inl (-1))
         | Some path =>
             if ((dirFd <? 0) && negb (dirFd =? AT_FDCWD)) || (dirFd >=? NOFILE) then mret (inl (- EBADF))
             else e ← ename dirFd path true; mret (if e =? 0 then inl (- ENOENT) else inr e)
         end
       else
         f ← open_fd dirFd;
         match f with None => mret (inl (- EBADF)) | Some f => ff ← file f; mret (inr (f_ep ff)) end);
  match r with
  | inl err => set_a0 h err
  | inr e =>
      when (negb (arg 2 tf =? 0))
        (bs ← user_copyin (arg 2 tf) 32;
         assert (negb (e =? 0)) ;;
         now ← lift r_time;
         eSetTime fs_read e cnt_ de_ now ((word 0 8 bs, i64 (word 8 8 bs)), (word 16 8 bs, i64 (word 24 8 bs)))) ;;
      set_a0 h 0
  end.

(** ** Mounting *)

(** A string of at most [FAT32_MAX_PATH] bytes copied to an array of [FAT32_MAX_FILENAME]. *)
Definition short_path (s : list Z) : M S unit := assert (length s <? FAT32_MAX_FILENAME)%nat.
Definition mount_path (uva : Z) : M S Z :=
  s ← fetchstr uva FAT32_MAX_PATH;
  match s with None => mret 0 | Some s => short_path s ;; ename AT_FDCWD s true end.
(** "vfat" *)
Definition vfat : list Z := [118; 102; 97; 116].

(** Not called: the image of the root file system stays NULL. *)
Definition initRootFileSystem : M S unit :=
  f ← lift filealloc;
  lift (modify (set_fss (fun m =>
    let x := default fs0 (m !! rootfs) in
    <[rootfs := mkFs (fs_valid x) (fs_name x) (superBlock x) (ImgDevice 0) (fs_next x) (deviceNumber x) (fs_reader x)]> m))) ;;
  if f =? 0 then panic
  else upd_file f (fun x => mkFile FD_DEVICE (f_ref x) true true (f_pipe x) (f_ep x) (f_socket x) (f_off x) 0 (f_curChild x)).

(** A file that serves as image: the entry itself, or the image of the file system mounted
    there, whose [major] is not copied. *)
Definition do_mount (ep dp : Z) : M S (option unit) :=
  fs ← lift fsAlloc;
  if fs =? 0 then mret None
  else
    f ← lift filealloc;
    if f =? 0 then panic
    else
      d ← de ep;
      image ← (if de_head d =? 0 then mret (ImgEntry ep)
               else
                 up ← lift (gets (fun s => fs_image (getfs s (de_head d))));
                 match up with
                 | ImgNone => panic
                 | ImgDevice _ => ff ← file f; mret (ImgDevice (f_major ff))
                 | ImgEntry e => mret (ImgEntry e)
                 end);
      upd_file f (fun x => match image with
                           | ImgEntry e => with_entry 0 e true true x
                           | _ => with_device (f_major x) true true x
                           end) ;;
      lift (modify (set_fss (fun m =>
        let x := default fs0 (m !! fs) in
        <[fs := mkFs (fs_valid x) [109] (superBlock x) image (fs_next x) (deviceNumber x) MountBlockRead]> m))) ;;
      fatInit fs_read de_ kpgdir depth dfuel fs ;;
      t ← de dp;
      lift (modify (set_fss (fun m =>
        let x := default fs0 (m !! fs) in
        <[fs := mkFs (fs_valid x) (fs_name x) (superBlock x) (fs_image x) (de_head t) (deviceNumber x) (fs_reader x)]> m))) ;;
      upd_de dp (with_head fs) ;;
      mret (Some tt).
Definition syscallMount : M S unit :=
  h ← hart; tf ← frame; type ← fetchstr (arg 2 tf) 10;
  if negb (match type with Some t => bool_decide (take 4 t = vfat) | None => false end) then set_a0 h (-1)
  else
    ep ← mount_path (arg 0 tf);
    if ep =? 0 then set_a0 h (-1)
    else
      dp ← mount_path (arg 1 tf);
      if dp =? 0 then set_a0 h (-1)
      else
        data_ ← (if arg 4 tf =? 0 then mret (Some []) else fetchstr (arg 4 tf) 10);
        match data_ with
        | None => set_a0 h (-1)
        | Some _ =>
            assert (i32 (arg 3 tf) =? 0) ;;
            r ← do_mount ep dp;
            set_a0 h (match r with Some _ => 0 | None => -1 end)
        end.
Definition syscallUmount : M S unit :=
  h ← hart; tf ← frame; e ← mount_path (arg 0 tf);
  if e =? 0 then set_a0 h (-1)
  else
    assert (i32 (arg 1 tf) =? 0) ;;
    d ← de e;
    if de_head d =? 0 then set_a0 h (-1)
    else
      lift (modify (set_fss (fun m =>
        let x := default fs0 (m !! de_head d) in
        <[de_head d := mkFs false (fs_name x) (superBlock x) (fs_image x) (fs_next x) (deviceNumber x) (fs_reader x)]> m))) ;;
      x ← lift (gets (fun s => getfs s (de_head d)));
      upd_de e (with_head (fs_next x)) ;;
      set_a0 h 0.

Definition syscallStateFileSystem : M S unit :=
  h ← hart; tf ← frame; path ← argstr pageout_ 0 FAT32_MAX_PATH;
  match path with
  | None => set_a0 h (-1)
  | Some path =>
      r ← getFsStatus fs_read lfuel link_buf rootfs path;
      match r with
      | None => set_a0 h (-1)
      | Some ws => set_a0 h 0 ;; tf ← frame; user_copyout (arg 1 tf) (concat (map (le_bytes 8) ws))
      end
  end.

(** Renaming is compiled out; the others only answer 0. *)
Definition syscallRenameAt : M S unit := h ← hart; set_a0 h 0.
Definition syscallUmask : M S unit := h ← hart; set_a0 h 0.
Definition syscallFileSychornize : M S unit := h ← hart; set_a0 h 0.
Definition syscallChangeModAt : M S unit := h ← hart; set_a0 h 0.
End sysfile.
