(* ===== verification/CwdSpec.v ===== *)
(** * The path of a directory leads back to it

    [getAbsolutePath] (Sysfile.c), which getcwd, linkat and exec use, climbs from an entry
    to the root and fills a buffer from its end; [ename] (Fat.c) descends along a path. *)

From S2P Require Import Prelude CType Mem Strings Config Queue Page Bio Fat FatFile PathSpec Sysfile.

Definition abs_path (ns : list (list Z)) : list Z := concat (map (cons SLASH) ns).

(** A name that can stand between two slashes. *)
Definition plain_name (n : list Z) : Prop :=
  n <> [] /\ SLASH ∉ n /\ (length n <= FAT32_MAX_FILENAME)%nat.

(** Within one volume, the names [ns] lead from its root [root], which has no parent also
    when the volume is mounted, to [e], through directories on which nothing is mounted;
    each entry on the way has the directory it is found in as its parent. *)
Inductive path_to (s : FatS) (kids : Z -> list Z) (root : Z) : Z -> list (list Z) -> Prop :=
  | pt_root : parent (getde s root) = 0 -> path_to s kids root root []
  | pt_child p e ns : path_to s kids root p ns -> p <> 0 -> e <> 0 -> parent (getde s e) = p ->
      is_directory s p = true -> is_link s p = false -> de_head (getde s p) = 0 ->
      plain_name (filename (getde s e)) -> entry_named s kids p (filename (getde s e)) = e ->
      path_to s kids root e (ns ++ [filename (getde s e)]).

(** ** Splitting what was joined *)

Lemma split_slash_word n p : SLASH ∉ n -> split_slash (n ++ SLASH :: p) = n :: split_slash p.
Proof.
  induction n as [|c n IH]; intros Hn; [done|].
  apply not_elem_of_cons in Hn as [Hc Hn]. simpl. rewrite (proj2 (Z.eqb_neq _ _)) by done. by rewrite IH.
Qed.
Lemma split_slash_last n : SLASH ∉ n -> split_slash n = [n].
Proof.
  induction n as [|c n IH]; intros Hn; [done|].
  apply not_elem_of_cons in Hn as [Hc Hn]. simpl. rewrite (proj2 (Z.eqb_neq _ _)) by done. by rewrite IH.
Qed.

Lemma components_abs ns : Forall plain_name ns -> components (abs_path ns) = ns.
Proof.
  intros H. assert (E : forall n ns, Forall plain_name (n :: ns) -> split_slash (n ++ abs_path ns) = n :: ns).
  { clear. intros n ns. revert n. induction ns as [|m ns IH]; intros n Hn; apply Forall_cons in Hn as [(_ & Hs & _) Hn].
    - unfold abs_path. simpl. rewrite app_nil_r. by apply split_slash_last.
    - change (abs_path (m :: ns)) with (SLASH :: m ++ abs_path ns). rewrite split_slash_word by done. by rewrite IH. }
  destruct ns as [|n ns]; [done|]. change (abs_path (n :: ns)) with (SLASH :: n ++ abs_path ns).
  rewrite components_slash. unfold components. rewrite E by done.
  rewrite (filter_all (fun w => w <> [])).
  - clear E. induction H as [|m ms (_ & _ & Hl) _ IH]; [done|]. cbn [map]. by rewrite IH, take_ge.
  - intros w Hw. rewrite Forall_forall in H. by apply H.
Qed.

Section paths.
Context (s : FatS) (kids : Z -> list Z) (root : Z).

Lemma path_to_names e ns : path_to s kids root e ns -> Forall plain_name ns.
Proof. induction 1; [constructor|]. apply Forall_app. split; [done|]. by apply Forall_singleton. Qed.

Lemma walk_app ns ns' : forall e p, walk s kids e ns = Some p -> p <> 0 -> walk s kids e (ns ++ ns') = walk s kids p ns'.
Proof.
  induction ns as [|n ns IH]; intros e p Hw Hp; [by injection Hw as <-|]. cbn [walk app] in Hw |- *.
  destruct (is_link s e); [done|]. destruct (negb (is_directory s e)); [by injection Hw as <-|].
  destruct (_ =? 0); [by injection Hw as <-|]. by apply IH.
Qed.

Lemma path_to_walk e ns : path_to s kids root e ns -> walk s kids root ns = Some e.
Proof.
  induction 1 as [|p e ns _ IH Hp He _ Hd Hl Hh _ Hn]; [done|]. rewrite (walk_app _ _ _ _ IH Hp).
  cbn [walk]. rewrite Hl, Hd. cbn [negb]. unfold mounted. rewrite Hh. simpl. rewrite Hn.
  by rewrite (proj2 (Z.eqb_neq _ _)).
Qed.

Lemma path_to_start e ns : path_to s kids root e ns -> ns <> [] ->
  is_directory s root = true /\ is_link s root = false /\ de_head (getde s root) = 0.
Proof.
  induction 1 as [|p e ns Hp IH _ _ _ Hd Hl Hh _ _]; [done|]. intros _.
  destruct ns; [|by apply IH]. inversion Hp as [E|? ? ms _ _ _ _ _ _ _ _ _ Ems]; [by subst p|by destruct ms].
Qed.

(** Through the directory [m] on which the volume is mounted, [ns] leads on from the root
    of the volume. *)
Lemma walk_mounted m e ns : path_to s kids root e ns -> ns <> [] ->
  is_directory s m = true -> is_link s m = false -> mounted s m = root -> walk s kids m ns = Some e.
Proof.
  intros Hp Hne Hd Hl Hm. destruct (path_to_start e ns Hp Hne) as (Hrd & Hrl & Hrh).
  rewrite <- (path_to_walk e ns Hp). destruct ns as [|n ns]; [done|]. cbn [walk].
  rewrite Hd, Hl, Hm, Hrd, Hrl. by rewrite (eq_refl : mounted s root = if de_head (getde s root) =? 0 then root else _), Hrh.
Qed.
End paths.

(** ** Climbing *)

Section climbing.
Context {S : Type} `{!Part S FatS} `{!Part S MM} `{!FsEnv S}.

Lemma abs_path_snoc ns n : abs_path (ns ++ [n]) = abs_path ns ++ SLASH :: n.
Proof. unfold abs_path. rewrite map_app, concat_app. simpl. by rewrite app_nil_r. Qed.

Lemma climb (st : S) kids root maxLen e ns :
  let m := Z.min FAT32_MAX_PATH maxLen in
  path_to (part st) kids root e ns -> forall fuel acc, (acc = [] \/ Z.of_nat (length acc) < m) ->
  260 - Z.of_nat (length acc) < Z.of_nat fuel ->
  loop fuel (abspath_step maxLen) (e, 259 - Z.of_nat (length acc), acc) st =
  Ret (if bool_decide (ns = [] \/ Z.of_nat (length (abs_path ns ++ acc)) < m) then Some (abs_path ns ++ acc) else None) st.
Proof.
  intros m. induction 1 as [Hroot|p e ns _ IH Hp He Hpar Hd Hl Hh (Hn & _ & Hlen) Hnm]; intros fuel acc Hacc Hf.
  - destruct fuel as [|fuel]; [destruct Hacc as [-> | Hacc]; simpl in *; unfold m, FAT32_MAX_PATH in *; lia|].
    cbn [loop]. unfold abspath_step. rewrite de_bind, Hroot. rewrite bool_decide_true by by left. done.
  - destruct fuel as [|fuel]; [destruct Hacc as [-> | Hacc]; simpl in *; unfold m, FAT32_MAX_PATH in *; lia|].
    cbn [loop]. unfold abspath_step at 1. rewrite de_bind, Hpar, (proj2 (Z.eqb_neq p 0)) by done.
    set (n := filename (getde (part st) e)) in *. rewrite abs_path_snoc, <- app_assoc.
    assert (Hln : (1 <= length n)%nat) by (destruct n; [done|unfold FAT32_MAX_FILENAME; simpl; lia]).
    assert (Eacc : Z.of_nat (length (SLASH :: n ++ acc)) = Z.of_nat (length n) + Z.of_nat (length acc) + 1)
      by (rewrite length_cons, length_app; lia).
    destruct (_ || _) eqn:Eg.
    + rewrite bool_decide_false; [done|]. intros [E|E]; [by destruct ns|].
      rewrite length_app in E. change ((SLASH :: n) ++ acc) with (SLASH :: n ++ acc) in E.
      apply orb_true_iff in Eg. rewrite !Z.leb_le in Eg. unfold m, FAT32_MAX_PATH in *. lia.
    + apply orb_false_iff in Eg. rewrite !Z.leb_gt in Eg. simpl.
      change (47 :: n ++ acc) with (SLASH :: n ++ acc).
      replace (259 - Z.of_nat (length acc) - Z.of_nat (length n) - 1) with (259 - Z.of_nat (length (SLASH :: n ++ acc))) by lia.
      assert (Hm : Z.of_nat (length (SLASH :: n ++ acc)) < m) by (unfold m, FAT32_MAX_PATH in *; lia).
      rewrite IH by (by right || lia). f_equal.
      destruct (decide (ns = [])) as [-> |Hns].
      * rewrite !bool_decide_true; [done|by right|by left].
      * destruct (decide (Z.of_nat (length (abs_path ns ++ SLASH :: n ++ acc)) < m)) as [Hlt|Hlt].
        -- rewrite !bool_decide_true by by right. done.
        -- rewrite !bool_decide_false; [done|by intros [E|E]; [destruct ns|]..].
Qed.

Lemma getAbsolutePath_root (st : S) e isUser buf_ maxLen : parent (getde (part st) e) = 0 ->
  getAbsolutePath e isUser buf_ maxLen st = either_copyout isUser buf_ [SLASH; 0] st.
Proof. intros Hr. unfold getAbsolutePath. by rewrite de_bind, Hr. Qed.

Lemma getAbsolutePath_below (st : S) kids root e ns isUser buf_ maxLen :
  path_to (part st) kids root e ns -> ns <> [] ->
  getAbsolutePath e isUser buf_ maxLen st =
    if bool_decide (Z.of_nat (length (abs_path ns)) < Z.min FAT32_MAX_PATH maxLen)
    then either_copyout isUser buf_ (abs_path ns ++ [0]) st else Ret (-1) st.
Proof.
  intros Hp E.
  pose proof (climb st kids _ maxLen e ns Hp (Z.to_nat (FAT32_MAX_PATH + 1)) [] (or_introl eq_refl) ltac:(unfold FAT32_MAX_PATH; simpl; lia)) as Hc.
  change (259 - Z.of_nat (length [])) with (FAT32_MAX_PATH - 1) in Hc. rewrite app_nil_r in Hc.
  assert (Hpar : parent (getde (part st) e) <> 0) by (destruct Hp; [done|congruence]).
  unfold getAbsolutePath. rewrite de_bind, (proj2 (Z.eqb_neq _ _)) by done. rewrite (bind_Ret _ _ _ _ _ Hc).
  destruct (decide (Z.of_nat (length (abs_path ns)) < Z.min FAT32_MAX_PATH maxLen)).
  - by rewrite !bool_decide_true by tauto.
  - by rewrite !bool_decide_false by tauto.
Qed.
End climbing.

(** C14. The path of an entry leads back to it.  The entry [e] lies in a volume with root
    [r], the names [ns] lead from [r] to [e].  For the root of a volume [getAbsolutePath]
    stores "/" and a NUL, whatever the size of the caller's buffer is.  For any other entry it
    stores the names, each after a slash, and a NUL when they fit 260 bytes and the caller's
    buffer, and otherwise stores nothing and returns -1.  When the volume is the root file
    system, looking that path up from anywhere yields the entry.  The names stop at the root of
    the volume: when it is mounted on the directory the names [ms] lead to, the path that
    leads to the entry is that of [ms] followed by [ns]. *)
Theorem getcwd_roundtrip {S} `{!Part S FatS} `{!Part S MM} `{!FsEnv S} fs_read lbuf rootfs fuel kids r e ns isUser buf_ maxLen (st : S) :
  tree_ok (part st) kids -> path_to (part st) kids r e ns -> rootfs <> 0 -> (2 <= fuel)%nat ->
  (ns = [] -> getAbsolutePath e isUser buf_ maxLen st = either_copyout isUser buf_ [SLASH; 0] st) /\
  (ns <> [] -> getAbsolutePath e isUser buf_ maxLen st =
     if bool_decide (Z.of_nat (length (abs_path ns)) < Z.min FAT32_MAX_PATH maxLen)
     then either_copyout isUser buf_ (abs_path ns ++ [0]) st else Ret (-1) st) /\
  (is_link (part st) e = false ->
     (r = root_of rootfs ->
        ename fs_read fuel lbuf rootfs AT_FDCWD (match ns with [] => [SLASH] | _ => abs_path ns end) true st = Ret e st) /\
     (forall m ms, path_to (part st) kids (root_of rootfs) m ms -> is_directory (part st) m = true ->
        is_link (part st) m = false -> mounted (part st) m = r -> ns <> [] ->
        ename fs_read fuel lbuf rootfs AT_FDCWD (abs_path (ms ++ ns)) true st = Ret e st)).
Proof.
  intros Ht Hp Hroot Hf.
  assert (Hlook : forall names, Forall plain_name names -> walk (part st) kids (root_of rootfs) names = Some e ->
    is_link (part st) e = false ->
    ename fs_read fuel lbuf rootfs AT_FDCWD (match names with [] => [SLASH] | _ => abs_path names end) true st = Ret e st).
  { intros names Hn Hw Hl. apply (ename_walks fs_read lbuf rootfs kids (root_of rootfs)); try done.
    - split; [unfold root_of; lia|]. by destruct names.
    - destruct names; [done|]. by rewrite components_abs. }
  split_and!; [by intros ?; apply getAbsolutePath_root; destruct Hp as [|? ? ns']; [|destruct ns']
              |by intros; eapply getAbsolutePath_below|intros Hl; split].
  - intros ->. apply Hlook; [by eapply path_to_names|by apply path_to_walk|done].
  - intros m ms Hm Hd Hlm Hmt Hne.
    replace (abs_path (ms ++ ns)) with (match ms ++ ns with [] => [SLASH] | _ => abs_path (ms ++ ns) end)
      by (destruct ms; [by destruct ns|done]).
    apply Hlook; [apply Forall_app; split; by eapply path_to_names| |done].
    assert (m <> 0) by (destruct Hm; [unfold root_of; lia|done]).
    rewrite (walk_app _ _ _ _ _ _ (path_to_walk _ _ _ _ _ Hm)) by done. by eapply walk_mounted.
Qed.

(** The file /a/b of PathSpec.v. *)
Lemma getcwd_roundtrip_witness :
  getAbsolutePath 2 false 5000 64 tree_ex =
    either_copyout false 5000 ([0x2f; 0x61; 0x2f; 0x62] ++ [0]) tree_ex /\
  ename (Fat.fs_read 1) 2 0 1 AT_FDCWD [0x2f; 0x61; 0x2f; 0x62] true tree_ex = Ret 2 tree_ex /\
  getAbsolutePath 2 false 5000 4 tree_ex = Ret (-1) tree_ex /\
  getAbsolutePath (-1) false 5000 1 tree_ex = either_copyout false 5000 [0x2f; 0] tree_ex.
Proof.
  assert (Hroot : path_to fat_tree kids_ex (root_of 1) (-1) []) by by constructor.
  assert (Hp : path_to fat_tree kids_ex (root_of 1) 2 [[0x61]; [0x62]]).
  { assert (Hn : forall c, c <> SLASH -> plain_name [c])
      by (intros c Hc; split_and!; [done|by intros ?%list_elem_of_singleton|unfold FAT32_MAX_FILENAME; simpl; lia]).
    apply (pt_child fat_tree kids_ex (-1) 1 2 [[0x61]]); try done; [|by apply Hn].
    apply (pt_child fat_tree kids_ex (-1) (-1) 1 []); try done. by apply Hn. }
  pose proof (fun r e ns => @getcwd_roundtrip FatMem FatMem_fat FatMem_mm FatMem_env (Fat.fs_read 1) 0 1 2 kids_ex r e ns
    false 5000) as T.
  destruct (T (root_of 1) 2 _ 64 tree_ex fat_tree_ok Hp ltac:(done) ltac:(lia)) as (_ & H1 & H2).
  destruct (T (root_of 1) 2 _ 4 tree_ex fat_tree_ok Hp ltac:(done) ltac:(lia)) as (_ & H3 & _).
  destruct (T (root_of 1) (-1) _ 1 tree_ex fat_tree_ok Hroot ltac:(done) ltac:(lia)) as (H4 & _).
  split_and!; [by apply H1|by apply H2|by apply H3|by apply H4].
Defined.
