(* ===== verification/Exec.v ===== *)
(** * Exec.c: replacing the program of a process

    [exec] reads the program from its file: scripts are handed to their interpreter; of an
    ELF file the loadable segments become segment maps, filled in on page faults
    (Segment.v), and the dynamic linker is mapped at once.  The arguments, the environment
    and the auxiliary vector go to the new stack.  [elf_], [ph_], [bprm_] and [path_buf] are
    the kernel addresses of local variables, one [bprm_] for each nested call; the argument
    strings, which nothing changes while [exec] runs, are passed by value. *)

From S2P Require Import Prelude CType Mem Strings Config Queue Page UserCopy Sched Bio Fat FatFile.
From S2P Require Import Pipe Segment File Signal FileSystem Process Syscall Sysfile.

Definition MAXARG : Z := 32.
Definition MAXPATH : Z := 128.
Definition BINPRM_BUF_SIZE : Z := 128.
Definition ENOEXEC : Z := 8.
Definition PT_INTERP : Z := 3.
Definition PT_GNU_PROPERTY : Z := 0x60000000 + 0x474e553.
Definition ET_EXEC : Z := 2.
Definition ET_DYN : Z := 3.
Definition SIZEOF_EHDR : Z := 64.
Definition SIZEOF_PHDR : Z := 56.
Definition MAP_PRIVATE : Z := 2.
Definition ehdr_type (m : gmap Z Z) (b : Z) : Z := load16 m (b + 16).

(** ** Scripts *)

Definition blank (c : Z) : bool := (c =? 0x20) || (c =? 0x09).
Fixpoint skip_blanks (l : list Z) : list Z :=
  match l with c :: r => if blank c then skip_blanks r else l | [] => [] end.
Fixpoint until_blank (l : list Z) : list Z * list Z :=
  match l with
  | [] => ([], [])
  | c :: r => if blank c then ([], l) else let '(a, b) := until_blank r in (c :: a, b)
  end.
(** The first line of the buffer, [None] when it does not end within the buffer. *)
Fixpoint first_line (l : list Z) : option (list Z) :=
  match l with
  | [] => None
  | c :: r => if (c =? 0x0a) || (c =? 0) then Some [] else cons c <$> first_line r
  end.
(** Blanks are cut off from the end of the line. *)
Definition trim_end (l : list Z) : list Z := reverse (skip_blanks (reverse l)).

(** The interpreter and its argument, [inl] of an error when there is no name. *)
Definition parse_script (line : list Z) : Z + (list Z * option (list Z)) :=
  match skip_blanks (drop 2 (trim_end line)) with
  | [] => inl (- ENOEXEC)
  | l =>
      let '(name, rest) := until_blank l in
      inr (name, match skip_blanks rest with [] => None | a => Some a end)
  end.

(** ** Program headers *)

Definition make_prot (p_flags : Z) : Z :=
  Z.lor PTE_READ (Z.lor PTE_WRITE (Z.lor PTE_EXECUTE (Z.lor PTE_USER PTE_ACCESSED))).

(** The auxiliary vector: program headers, entry points, identifiers and the random bytes. *)
Definition aux_vector (phdr_addr phnum base entry rand execfn : Z) : list Z :=
  [16; 0; 6; PAGE_SIZE; 3; phdr_addr; 4; SIZEOF_PHDR; 5; phnum; 7; base; 9; entry;
   11; 0; 12; 0; 13; 0; 14; 0; 23; 0; 25; rand; 31; execfn; 0; 0].
(** "LD_LIBRARY_PATH=/" and "PATH=/:/usr/bin:/musl-gcc/include:/bin/" *)
Definition envVariable : list (list Z) :=
  [[76; 68; 95; 76; 73; 66; 82; 65; 82; 89; 95; 80; 65; 84; 72; 61; 47];
   [80; 65; 84; 72; 61; 47; 58; 47; 117; 115; 114; 47; 98; 105; 110; 58; 47; 109; 117; 115; 108; 45; 103; 99; 99; 47;
    105; 110; 99; 108; 117; 100; 101; 58; 47; 98; 105; 110; 47]].
Definition k_rand_bytes : list Z := seqZ 0 16.
(** "/proc/self/exe" *)
Definition self_exe : list Z := [47; 112; 114; 111; 99; 47; 115; 101; 108; 102; 47; 101; 120; 101].

Section exec.
Context {S : Type} `{!Part S PState} `{!Part S MM} `{!Part S PipeS} `{!Part S FatS} `{!Part S FileS}.
Context `{!Part S SegS} `{!Part S SigS} `{!Boot S} `{!FsEnv S}.
Context (pageout_ : Z -> Z -> M S Z) (proc_addr : Z -> Z).
Context (fs_read : Z -> Z -> M FatS (option Z)).
Context (kpgdir pipe_base trampoline signalTrampoline : Z) (waits : nat).
Context (dev_read : Z -> option (bool -> Z -> Z -> Z -> M S Z)).
Context (rootfs link_buf path_buf elf_ ph_ : Z) (bprm_ : nat -> Z) (lfuel : nat).

Local Notation destroy := (threadDestroy pageout_ proc_addr kpgdir pipe_base).
Local Notation ename := (ename fs_read lfuel link_buf rootfs).
Local Notation eread := (eread fs_read).
Local Notation do_mmap := (do_mmap fs_read pageout_ destroy kpgdir pipe_base waits dev_read).

(** ** The dynamic linker *)

(** The file is a local variable of the caller: an open directory entry. *)
Definition elf_map (interpreter addr_ : Z) (ph : Phdr) (prot type total_size : Z) : M S Z :=
  let size := u64 (ph_filesz ph + PAGE_OFFSET (ph_vaddr ph) PAGE_SIZE) in
  let off := u64 (ph_offset ph - PAGE_OFFSET (ph_vaddr ph) PAGE_SIZE) in
  let addr_ := DOWN_ALIGN addr_ PAGE_SIZE in
  if size =? 0 then mret addr_
  else
    addr_ ← (if total_size =? 0 then mret addr_ else do_mmap 0 addr_ (UP_ALIGN total_size PAGE_SIZE) prot type off);
    start ← do_mmap 0 addr_ size prot type off;
    r ← eread interpreter true start (u32 off) (u32 size);
    if i32 r >=? 0 then mret start else panic.

(** Local variables: [load_addr], [load_addr_set], [total_size].  The base address the
    linker is asked for is 0. *)
Fixpoint load_interp_segments (type interpreter : Z) (phs : list Phdr) (load_addr : Z) (set : bool) (total_size : Z) : M S Z :=
  match phs with
  | [] => mret load_addr
  | ph :: phs =>
      if ph_type ph =? PT_LOAD then
        let flags := if (type =? ET_EXEC) || set then Z.lor MAP_PRIVATE MAP_FIXED else MAP_PRIVATE in
        map_addr ← elf_map interpreter (u64 (load_addr + ph_vaddr ph)) ph (make_prot (ph_flags ph)) flags total_size;
        if negb set && (type =? ET_DYN) then
          load_interp_segments type interpreter phs (u64 (map_addr - PAGE_OFFSET (ph_vaddr ph) PAGE_SIZE)) true 0
        else load_interp_segments type interpreter phs load_addr set 0
      else load_interp_segments type interpreter phs load_addr set total_size
  end.
Definition load_elf_interp (type interpreter : Z) (phs : list Phdr) : M S Z :=
  let total_size := total_mapping_size phs in
  if total_size =? 0 then mret (u64 (- EINVAL)) else load_interp_segments type interpreter phs 0 false total_size.

(** ** The segments of the program *)

(** The header at [off] of the file, [None] when it cannot be read. *)
Definition read_phdr (e off : Z) : M S (option Phdr) :=
  r ← eread e false ph_ (u32 off) SIZEOF_PHDR;
  if i32 r =? SIZEOF_PHDR then ph ← read_memory (fun m => load_phdr m ph_); mret (Some ph) else mret None.

Definition add_segment (p : Z) (m : ProcessSegmentMap) : M S unit :=
  i ← lift segmentMapAlloc; lift (set_psm i m) ;; lift (appendSegmentMap p i).

(** The address of the program headers in the process; [None] for a file that is refused. *)
Fixpoint map_segments (n : nat) (p e off phoff offset phdr_addr : Z) : M S (option Z) :=
  match n with
  | O => mret (Some phdr_addr)
  | Datatypes.S n =>
      r ← read_phdr e off;
      match r with
      | None => mret None
      | Some ph =>
          let off' := i32 (off + SIZEOF_PHDR) in
          if negb (ph_type ph =? PT_LOAD) then map_segments n p e off' phoff offset phdr_addr
          else if ph_memsz ph <? ph_filesz ph then mret None
          else
            when (ph_filesz ph >? 0)
              (add_segment p (mkPsm e (u64 (ph_vaddr ph + offset)) (ph_offset ph) (u32 (ph_filesz ph))
                 (Z.lor PTE_EXECUTE (Z.lor PTE_READ PTE_WRITE)))) ;;
            when (ph_memsz ph >? ph_filesz ph)
              (add_segment p (mkPsm 0 (u64 (ph_vaddr ph + ph_filesz ph + offset)) 0 (u32 (ph_memsz ph - ph_filesz ph))
                 (Z.lor PTE_READ (Z.lor PTE_WRITE MAP_ZERO)))) ;;
            map_segments n p e off' phoff offset
              (if (ph_offset ph <=? phoff) && (phoff <? u64 (ph_offset ph + ph_filesz ph))
               then u64 (phoff - ph_offset ph + ph_vaddr ph + offset) else phdr_addr)
      end
  end.

(** The dynamic linker (0 when there is none) and the address of its header; the last
    PT_INTERP counts. *)
Fixpoint find_interp (n : nat) (e off : Z) (found : Z * Z) : M S (option (Z * Z)) :=
  match n with
  | O => mret (Some found)
  | Datatypes.S n =>
      r ← read_phdr e off;
      match r with
      | None => mret None
      | Some ph =>
          let off' := i32 (off + SIZEOF_PHDR) in
          if ph_type ph =? PT_GNU_PROPERTY then panic
          else if negb (ph_type ph =? PT_INTERP) then find_interp n e off' found
          else if ph_memsz ph <? ph_filesz ph then mret None
          else if (ph_filesz ph >? 4096) || (ph_filesz ph <? 2) then panic
          else
            name ← kmalloc (ph_filesz ph);
            r ← eread e false name (u32 (ph_offset ph)) (ph_filesz ph);
            assert (i32 r >=? 0) ;;
            c ← read_memory (fun m => load8 m (name + ph_filesz ph - 1));
            assert (c =? 0) ;;
            s ← kstr 4097 name;
            i ← ename AT_FDCWD s true;
            assert (negb (i =? 0)) ;;
            hdr ← kmalloc SIZEOF_EHDR;
            r ← eread i false hdr 0 SIZEOF_EHDR;
            assert (i32 r >=? 0) ;;
            find_interp n e off' (i, hdr)
      end
  end.

Fixpoint phdrs (n : nat) (m : gmap Z Z) (a : Z) : list Phdr :=
  match n with O => [] | Datatypes.S n => load_phdr m a :: phdrs n m (a + SIZEOF_PHDR) end.

(** The entry point and the load address of the linker. *)
Definition start_interp (interpreter hdr : Z) : M S (Z * Z) :=
  phnum ← read_memory (fun m => ehdr_phnum m hdr);
  phoff ← read_memory (fun m => ehdr_phoff m hdr);
  let size := SIZEOF_PHDR * phnum in
  data_ ← kmalloc size;
  eread interpreter false data_ (u32 phoff) size ;;
  phs ← read_memory (fun m => phdrs (Z.to_nat phnum) m data_);
  type ← read_memory (fun m => ehdr_type m hdr);
  base ← load_elf_interp type interpreter phs;
  entry ← read_memory (fun m => ehdr_entry m hdr);
  mret (u64 (base + entry), base).

(** ** The stack *)

(** [sp -= n; sp -= sp % 16], [None] below the page of the stack. *)
Definition push_room (sp n : Z) : option Z :=
  let sp := sp - n in
  let sp := sp - sp mod 16 in
  if sp <? USER_STACK_TOP - PGSIZE then None else Some sp.

(** The strings, each with its NUL; the final stack pointer and their addresses. *)
Fixpoint push_strings (pagetable sp : Z) (strs : list (list Z)) : M S (option (Z * list Z)) :=
  match strs with
  | [] => mret (Some (sp, []))
  | s :: strs =>
      match push_room sp (Z.of_nat (length s) + 1) with
      | None => mret None
      | Some sp =>
          copyout pageout_ pagetable sp (s ++ [0]) ;;
          r ← push_strings pagetable sp strs;
          mret (match r with Some (sp', l) => Some (sp', sp :: l) | None => None end)
      end
  end.

(** The random bytes, and at the final stack pointer the count, the pointers and the
    auxiliary vector. *)
Definition push_vector (pagetable sp argc : Z) (args envs : list Z) (phdr_addr phnum base entry : Z) : M S (option Z) :=
  match push_room sp 32 with
  | None => mret None
  | Some rand =>
      copyout pageout_ pagetable rand k_rand_bytes ;;
      let ustack := argc :: args ++ [0] ++ envs ++ [0] ++
        aux_vector phdr_addr phnum base entry rand (match args with a :: _ => a | [] => 0 end) in
      match push_room rand (8 * Z.of_nat (length ustack)) with
      | None => mret None
      | Some sp => copyout pageout_ pagetable sp (concat (map (le_bytes 8) ustack)) ;; mret (Some sp)
      end
  end.

(** The stack of the new program: the final stack pointer. *)
Definition build_stack (pagetable : Z) (argv : list (list Z)) (phdr_addr phnum base entry : Z) : M S (option Z) :=
  if Z.of_nat (length argv) >? MAXARG then
    (* the first MAXARG strings are pushed before the call fails *)
    push_strings pagetable USER_STACK_TOP (take (Z.to_nat MAXARG) argv) ;; mret None
  else
    a ← push_strings pagetable USER_STACK_TOP argv;
    match a with
    | None => mret None
    | Some (sp, args) =>
        e ← push_strings pagetable sp envVariable;
        match e with
        | None => mret None
        | Some (sp, envs) => push_vector pagetable sp (Z.of_nat (length argv)) args envs phdr_addr phnum base entry
        end
    end.

(** ** exec *)

(** The page table of the new program: the trampolines and a page of stack. *)
Definition exec_pgdir : M S Z :=
  page ← lift Page.allocPgdir;
  let dir := page2pa page in
  let rwx := Z.lor (Z.lor PTE_READ PTE_WRITE) PTE_EXECUTE in
  lift (Page.pageInsert dir TRAMPOLINE_BASE trampoline rwx) ;;
  lift (Page.pageInsert dir (TRAMPOLINE_BASE + PAGE_SIZE) (trampoline + PAGE_SIZE) rwx) ;;
  lift (Page.pageInsert dir SIGNAL_TRAMPOLINE_BASE signalTrampoline RWXU) ;;
  page ← lift Page.pageAlloc;
  lift (Page.pageInsert dir (USER_STACK_TOP - PGSIZE) (page2pa page) RWXU) ;;
  mret dir.

Definition set_pgdir (p dir : Z) : M S unit :=
  set_proc p (fun pr => p_space dir (execFile pr) (segmentMaps pr) pr).

(** The program in file [e]: the entry point and the stack pointer, [None] for the jump to
    [bad]. *)
Definition load_program (p e pagetable : Z) (argv : list (list Z)) : M S (option (Z * Z)) :=
  r ← eread e false elf_ 0 SIZEOF_EHDR;
  ok ← read_memory (fun m => is_elf_format m elf_);
  if negb (i32 r =? SIZEOF_EHDR) || negb ok then mret None
  else
    type ← read_memory (fun m => ehdr_type m elf_);
    phoff ← read_memory (fun m => ehdr_phoff m elf_);
    phnum ← read_memory (fun m => ehdr_phnum m elf_);
    entry ← read_memory (fun m => ehdr_entry m elf_);
    let offset := if type =? ET_DYN then 0x10000 else 0 in
    ph ← map_segments (Z.to_nat phnum) p e (i32 phoff) phoff offset 0;
    match ph with
    | None => mret None
    | Some phdr_addr =>
        i ← find_interp (Z.to_nat phnum) e (i32 phoff) (0, 0);
        match i with
        | None => mret None
        | Some (interpreter, hdr) =>
            r ← (if interpreter =? 0 then mret (u64 (entry + offset), 0) else start_interp interpreter hdr);
            let '(elf_entry, base) := r in
            page ← lift Page.pageAlloc;
            lift (Page.pageInsert pagetable (USER_STACK_TOP - PGSIZE) (page2pa page) RWXU) ;;
            sp ← build_stack pagetable argv phdr_addr phnum base (u64 (entry + offset));
            mret (match sp with Some sp => Some (elf_entry, sp) | None => None end)
        end
    end.

(** The text of the link /proc/self/exe. *)
Definition write_self_exe (e : Z) : M S unit :=
  r ← getAbsolutePath e false path_buf FAT32_MAX_PATH;
  assert (r =? 0) ;;
  l ← ename AT_FDCWD self_exe false;
  assert (negb (l =? 0)) ;;
  s ← kstr (Z.to_nat FAT32_MAX_PATH) path_buf;
  r ← ewrite fs_read l false path_buf 0 (Z.of_nat (length s) + 1);
  assert (i32 r >=? 0).

(** [fuel] bounds the scripts that name scripts. *)
Fixpoint exec (fuel : nat) (path : list Z) (argv : list (list Z)) : M S Z :=
  match fuel with
  | O => fun _ => NoFuel
  | Datatypes.S fuel =>
      p ← me;
      processMapFree p ;;
      pr ← proc p;
      e ← ename AT_FDCWD path true;
      if e =? 0 then mret (-1)
      else
        eread e false (bprm_ fuel) 0 (BINPRM_BUF_SIZE - 1) ;;
        buf_ ← kload (bprm_ fuel) BINPRM_BUF_SIZE;
        if bool_decide (take 2 buf_ = [0x23; 0x21]) then
          match first_line buf_ with
          | None => panic
          | Some line =>
              match parse_script line with
              | inl err => mret err
              | inr (name, a) =>
                  let argv := name :: (match a with Some a => [a] | None => [] end) ++ argv in
                  assert (Z.of_nat (length argv) <? MAXARG) ;;
                  exec fuel name argv
              end
          end
        else
          pagetable ← exec_pgdir;
          set_pgdir p pagetable ;;
          r ← load_program p e pagetable argv;
          match r with
          | None => set_pgdir p (pgdir pr) ;; lift (Page.pgdirFree pagetable) ;; mret (-1)
          | Some (elf_entry, sp) =>
              lift (modify (upd_hart_tf (fun f => <[tf_sp := sp]> (<[tf_epc := elf_entry]> (<[tf_a0 + 1 := sp]> f))))) ;;
              set_proc p (fun pr => p_space (pgdir pr) e (segmentMaps pr) (p_heap USER_BRK_HEAP_BOTTOM USER_MMAP_HEAP_BOTTOM pr)) ;;
              write_self_exe e ;;
              t ← self;
              set_thread t (fun th => t_owner (process th) 0 th) ;;
              lift (Page.pgdirFree (pgdir pr)) ;;
              mret 0
          end
  end.

(** The argument strings and the pages they are copied to; [false] when a string or the
    number of arguments is too large. *)
Fixpoint fetch_args (n : nat) (uargv i : Z) : M S (bool * list (Z * list Z)) :=
  match n with
  | O => mret (false, [])
  | Datatypes.S n =>
      uarg ← fetchaddr (u64 (uargv + 8 * i));
      if uarg =? 0 then mret (true, [])
      else
        page ← lift Page.pageAlloc;
        s ← fetchstr pageout_ uarg PGSIZE;
        match s with
        | None => mret (false, [(page, [])])
        | Some s =>
            kstore (page2pa page) (s ++ [0]) ;;
            r ← fetch_args n uargv (i + 1);
            mret (fst r, (page, s) :: snd r)
        end
  end.
Definition sys_exec (fuel : nat) : M S Z :=
  path ← argstr pageout_ 0 MAXPATH;
  uargv ← argaddr 1;
  match path with
  | None => mret (-1)
  | Some path =>
      a ← fetch_args (Z.to_nat MAXARG) uargv 0;
      let '(ok, args) := a in
      ret ← (if (ok : bool) then exec fuel path (map snd args) else mret (-1));
      foldr (fun '(page, _) rest => lift (Page.pageFree page) ;; rest) (mret tt) args ;;
      mret ret
  end.
Definition syscallExec (fuel : nat) : M S unit := h ← hart; r ← sys_exec fuel; set_a0 h r.
End exec.
