(* ===== verification/StackSpec.v ===== *)
(** * The stack a program starts with

    [build_stack] (exec of Exec.c) fills the page below [USER_STACK_TOP] of the new address
    space downwards: the argument strings, the environment, sixteen bytes for the seed of
    the random numbers, and at the stack pointer the words of the System V layout. *)

From S2P Require Import Prelude CType Mem Strings Config Queue Page PageInv PageSpec UserCopy Sched Bio Fat FatFile.
From S2P Require Import Pipe Segment File Signal FileSystem Process Syscall Sysfile Exec.

(** The bytes a piece of [n] bytes takes on the stack. *)
Definition room (n : Z) : Z := (n + 15) / 16 * 16.
Definition strings_room (strs : list (list Z)) : Z :=
  foldr (fun s n => room (Z.of_nat (length s) + 1) + n) 0 strs.
(** The words at the stack pointer: 3 for the count and the two terminators, 30 for the
    auxiliary vector. *)
Definition stack_words (argv : list (list Z)) : Z := Z.of_nat (length argv) + Z.of_nat (length envVariable) + 33.
Definition stack_size (argv : list (list Z)) : Z :=
  strings_room argv + strings_room envVariable + 32 + room (8 * stack_words argv).

Lemma room_bounds n : n <= room n < n + 16 /\ room n mod 16 = 0.
Proof. unfold room. Z.to_euclidean_division_equations; lia. Qed.
Lemma strings_room_nonneg strs : 0 <= strings_room strs /\ strings_room strs mod 16 = 0.
Proof.
  induction strs as [|s strs [IH1 IH2]]; [done|]. cbn [strings_room foldr]. fold (strings_room strs).
  pose proof (room_bounds (Z.of_nat (length s) + 1)) as [? ?]. Z.to_euclidean_division_equations; lia.
Qed.

Definition BOTTOM : Z := USER_STACK_TOP - PGSIZE.

Lemma push_room_spec sp n : sp mod 16 = 0 -> 0 <= n ->
  push_room sp n = if BOTTOM <=? sp - room n then Some (sp - room n) else None.
Proof.
  intros Hsp Hn. unfold push_room. fold BOTTOM.
  replace (sp - n - (sp - n) mod 16) with (sp - room n)
    by (unfold room; Z.to_euclidean_division_equations; lia).
  rewrite Z.ltb_antisym. by destruct (BOTTOM <=? _).
Qed.

Section stack.
Context {S : Type} `{!Part S MM} (pageout_ : Z -> Z -> M S Z).
Context (tbl : gmap Z owner) (maps : gmap (Z * Z) Z) (r : Z) (f : Z -> Z).
Hypothesis Hr : tbl !! r = Some (Root r).
Hypothesis Hrange : user_range tbl maps r BOTTOM PGSIZE f.

(** The bytes [bs] are at the user address [a], inside the stack page. *)
Definition reads (mm : MM) (a : Z) (bs : list Z) : Prop :=
  BOTTOM <= a /\ a + Z.of_nat (length bs) <= USER_STACK_TOP /\ user_bytes mm f a (length bs) = bs.

(** From [mm] to [mm'] only the part of the stack page below [lo] was written. *)
Record extends (lo : Z) (mm mm' : MM) : Prop := {
  ex_inv : pt_inv mm' tbl maps;
  ex_free : freePages mm' = freePages mm;
  ex_ref : forall q, ref mm' q = ref mm q;
  ex_keep : forall a bs, lo <= a -> reads mm a bs -> reads mm' a bs;
  ex_else : forall b, (forall a, BOTTOM <= a < USER_STACK_TOP -> b <> user_addr f a) -> load8 (mem mm') b = load8 (mem mm) b;
}.

Lemma extends_refl lo mm : pt_inv mm tbl maps -> extends lo mm mm.
Proof. by split. Qed.
Lemma extends_trans lo lo' mm mm1 mm2 : lo' <= lo -> extends lo mm mm1 -> extends lo' mm1 mm2 -> extends lo mm mm2.
Proof.
  intros Hlo [I1 F1 R1 K1 E1] [I2 F2 R2 K2 E2]. split; [done|congruence|congruence| |].
  - intros a bs Ha H. apply K2; [lia|]. by apply K1.
  - intros b Hb. rewrite E2, E1; done.
Qed.

Lemma copyout_extends (s : S) va src lo :
  pt_inv (part s) tbl maps -> Forall (fun b => 0 <= b < 2 ^ 8) src ->
  BOTTOM <= va -> va + Z.of_nat (length src) <= lo -> lo <= USER_STACK_TOP ->
  exists mm', copyout pageout_ (page2pa r) va src s = Ret tt (set_part mm' s) /\
    extends lo (part s) mm' /\ reads mm' va src.
Proof.
  intros I Hb Hva Hlo Htop. pose proof Hrange as (G0 & G1 & G2 & G3).
  assert (E : BOTTOM + PGSIZE = USER_STACK_TOP) by done. rewrite E in *.
  assert (Hu : user_range tbl maps r va (Z.of_nat (length src)) f).
  { split_and!; [lia|change MAXVA with (2 ^ 38) in *; lia|intros; apply G2; lia|intros; apply G3; try lia; done]. }
  destruct (copyout_loop_spec pageout_ tbl maps r f Hr (Datatypes.S (length src)) va src s I Hu Hb ltac:(lia))
    as (mm' & R1 & R2 & R3 & [R4 R4'] & R5).
  exists mm'. split_and!; [done| |by split_and!; [|lia|]].
  split; [done|done|done| |].
  - intros a bs Ha (Ha1 & Ha2 & Hbs). split_and!; [done|done|]. rewrite <- Hbs at 2. unfold user_bytes.
    apply map_ext_in. intros i Hi%list_elem_of_In%elem_of_seqZ. apply R5. intros x Hx Eq.
    apply (user_addr_inj tbl maps r f BOTTOM PGSIZE) in Eq; rewrite ?E; try done; lia.
  - intros b Hbb. apply R5. intros a Ha. apply Hbb. lia.
Qed.

(** The addresses of the strings, in order. *)
Definition placed (mm : MM) (lo hi : Z) (a : Z) (str : list Z) : Prop :=
  lo <= a /\ a + Z.of_nat (length str) + 1 <= hi /\ reads mm a (str ++ [0]).

Lemma placed_extends lo' lo hi mm mm' addrs strs : lo' <= lo ->
  extends lo' mm mm' -> Forall2 (placed mm lo hi) addrs strs -> Forall2 (placed mm' lo hi) addrs strs.
Proof.
  intros Hlo HE HF. eapply Forall2_impl; [exact HF|]. intros a str (H1 & H2 & H3). split_and!; [done|done|].
  apply (ex_keep _ _ _ HE); [lia|done].
Qed.

Lemma push_strings_spec strs : forall sp (s : S),
  pt_inv (part s) tbl maps -> Forall (Forall (fun b => 0 <= b < 2 ^ 8)) strs ->
  sp mod 16 = 0 -> BOTTOM <= sp <= USER_STACK_TOP ->
  let sp' := sp - strings_room strs in
  exists mm', extends sp (part s) mm' /\
    if BOTTOM <=? sp' then
      exists addrs, push_strings pageout_ (page2pa r) sp strs s = Ret (Some (sp', addrs)) (set_part mm' s) /\
        Forall2 (placed mm' sp' sp) addrs strs
    else push_strings pageout_ (page2pa r) sp strs s = Ret None (set_part mm' s).
Proof.
  induction strs as [|str strs IH]; intros sp s I Hb Hsp Hrg sp'; unfold sp'; clear sp'; cbn [strings_room foldr].
  { exists (part s). split; [by apply extends_refl|]. rewrite Z.sub_0_r, (proj2 (Z.leb_le _ _)) by lia.
    exists []. split; [|constructor]. cbn [push_strings]. by rewrite set_part_part. }
  fold (strings_room strs). apply Forall_cons in Hb as [Hb1 Hb]. cbn [push_strings].
  set (n := Z.of_nat (length str) + 1). pose proof (room_bounds n) as [Hn1 Hn2].
  pose proof (strings_room_nonneg strs) as [Hs1 Hs2]. rewrite push_room_spec by lia.
  destruct (Z.leb_spec BOTTOM (sp - room n)) as [Hfit|Hfit].
  2: { exists (part s). split; [by apply extends_refl|]. rewrite (proj2 (Z.leb_gt _ _)) by lia. by rewrite set_part_part. }
  assert (Hlen : Z.of_nat (length (str ++ [0])) = n) by (rewrite length_app; simpl; lia).
  destruct (copyout_extends s (sp - room n) (str ++ [0]) sp) as (mm1 & R1 & HE1 & Hrd); try done; try lia.
  { apply Forall_app. split; [done|]. by constructor. }
  rewrite (bind_Ret _ _ _ _ _ R1).
  destruct (IH (sp - room n) (set_part mm1 s)) as (mm2 & HE2 & HR); rewrite ?part_set; try done; try lia.
  { by apply HE1. }
  { Z.to_euclidean_division_equations; lia. }
  rewrite part_set in HE2. replace (sp - (room n + strings_room strs)) with (sp - room n - strings_room strs) by lia.
  exists mm2. split; [apply (extends_trans _ (sp - room n) _ mm1); [lia|done..]|].
  destruct (Z.leb_spec BOTTOM (sp - room n - strings_room strs)).
  - destruct HR as (addrs & HR & HF). exists ((sp - room n) :: addrs). rewrite (bind_Ret _ _ _ _ _ HR).
    rewrite set_part_set. split; [done|]. constructor.
    + split_and!; [lia|lia|]. apply (ex_keep _ _ _ HE2); [lia|done].
    + eapply Forall2_impl; [done|]. intros a str' (? & ? & ?). split_and!; [done|lia|done].
  - by rewrite (bind_Ret _ _ _ _ _ HR), set_part_set.
Qed.

Definition words (ws : list Z) : list Z := concat (map (le_bytes 8) ws).

Lemma words_bytes ws : Forall (fun b => 0 <= b < 2 ^ 8) (words ws).
Proof.
  induction ws as [|w ws IH]; [constructor|]. apply Forall_app. split; [|done].
  apply Forall_map, Forall_forall. intros i _. unfold u8. apply Z.mod_pos_bound. lia.
Qed.
Lemma length_words ws : Z.of_nat (length (words ws)) = 8 * Z.of_nat (length ws).
Proof. induction ws as [|w ws IH]; [done|]. unfold words in *. cbn [map concat]. rewrite length_app. simpl. lia. Qed.

Lemma env_bytes : Forall (Forall (fun b => 0 <= b < 2 ^ 8)) envVariable /\ Forall (fun b => 0 <= b < 2 ^ 8) k_rand_bytes.
Proof. split; refine (bool_decide_unpack _ _); by vm_compute. Qed.

(** What the program finds: the count, the pointers and the vector at [sp], the strings and
    the seed where they point. *)
Definition stack_image (mm : MM) (sp : Z) (argv : list (list Z)) (phdr_addr phnum base entry : Z) : Prop :=
  exists args envs rand,
    reads mm sp (words (Z.of_nat (length argv) :: args ++ [0] ++ envs ++ [0] ++
      aux_vector phdr_addr phnum base entry rand (match args with a :: _ => a | [] => 0 end))) /\
    Forall2 (fun a str => reads mm a (str ++ [0])) args argv /\
    Forall2 (fun a str => reads mm a (str ++ [0])) envs envVariable /\
    reads mm rand k_rand_bytes.

Lemma placed_reads mm mm' lo hi addrs strs : extends lo mm mm' -> Forall2 (placed mm lo hi) addrs strs ->
  Forall2 (fun a str => reads mm' a (str ++ [0])) addrs strs.
Proof.
  intros HE H. eapply Forall2_impl; [exact H|]. intros a str (? & _ & ?). by apply (ex_keep _ _ _ HE).
Qed.

(** The words and the room they take. *)
Lemma push_vector_spec sp argc args envs phdr_addr phnum base entry (s : S) :
  pt_inv (part s) tbl maps -> sp mod 16 = 0 -> BOTTOM <= sp <= USER_STACK_TOP ->
  let n := Z.of_nat (length args) + Z.of_nat (length envs) + 33 in
  let sp' := sp - 32 - room (8 * n) in
  exists mm', extends sp (part s) mm' /\
    if BOTTOM <=? sp' then
      exists rand, push_vector pageout_ (page2pa r) sp argc args envs phdr_addr phnum base entry s = Ret (Some sp') (set_part mm' s) /\
        reads mm' rand k_rand_bytes /\
        reads mm' sp' (words (argc :: args ++ [0] ++ envs ++ [0] ++
          aux_vector phdr_addr phnum base entry rand (match args with a :: _ => a | [] => 0 end)))
    else push_vector pageout_ (page2pa r) sp argc args envs phdr_addr phnum base entry s = Ret None (set_part mm' s).
Proof.
  intros I Hsp Hrg n sp'. unfold push_vector. rewrite push_room_spec by lia. change (room 32) with 32.
  pose proof (room_bounds (8 * n)) as [Hn1 Hn2]. assert (0 <= n) by (unfold n; lia).
  destruct (Z.leb_spec BOTTOM (sp - 32)) as [Hf|Hf].
  2: { exists (part s). split; [by apply extends_refl|]. rewrite (proj2 (Z.leb_gt _ _)) by (unfold sp'; lia). by rewrite set_part_part. }
  destruct (copyout_extends s (sp - 32) k_rand_bytes sp) as (mm1 & R1 & HE1 & Hrd); try done; try lia.
  { apply env_bytes. } { change (Z.of_nat (length k_rand_bytes)) with 16. lia. }
  rewrite (bind_Ret _ _ _ _ _ R1). set (ws := argc :: _). fold (words ws).
  assert (Hws : Z.of_nat (length ws) = n) by (unfold ws, aux_vector; simpl; rewrite !length_app; simpl; rewrite length_app; simpl; lia).
  assert (Hsp' : (sp - 32) mod 16 = 0) by (clear -Hsp; Z.to_euclidean_division_equations; lia).
  rewrite Hws, push_room_spec by lia. fold sp'.
  destruct (Z.leb_spec BOTTOM sp') as [Hf'|Hf']; [|by exists mm1].
  destruct (copyout_extends (set_part mm1 s) sp' (words ws) (sp - 32)) as (mm2 & R2 & HE2 & Hrd2);
    rewrite ?part_set, ?length_words; try done; try lia.
  { by apply HE1. } { apply words_bytes. }
  rewrite part_set in HE2. exists mm2. split; [apply (extends_trans _ (sp - 32) _ mm1); [lia|done..]|].
  exists (sp - 32). rewrite (bind_Ret _ _ _ _ _ R2), set_part_set. split_and!; [done| |done].
  by apply (ex_keep _ _ _ HE2).
Qed.

Lemma build_stack_spec argv phdr_addr phnum base entry (s : S) :
  pt_inv (part s) tbl maps -> Forall (Forall (fun b => 0 <= b < 2 ^ 8)) argv ->
  exists mm', extends USER_STACK_TOP (part s) mm' /\
    if (Z.of_nat (length argv) <=? MAXARG) && (stack_size argv <=? PGSIZE) then
      let sp := USER_STACK_TOP - stack_size argv in
      build_stack pageout_ (page2pa r) argv phdr_addr phnum base entry s = Ret (Some sp) (set_part mm' s) /\
      stack_image mm' sp argv phdr_addr phnum base entry
    else build_stack pageout_ (page2pa r) argv phdr_addr phnum base entry s = Ret None (set_part mm' s).
Proof.
  intros I Hb. unfold build_stack, stack_size. rewrite Z.gtb_ltb, Z.ltb_antisym.
  assert (Htop : USER_STACK_TOP mod 16 = 0 /\ BOTTOM = USER_STACK_TOP - PGSIZE) by by vm_compute.
  destruct Htop as [Htop HB]. assert (HP : 0 < PGSIZE) by done. destruct env_bytes as [Henv _].
  destruct (Z.leb_spec (Z.of_nat (length argv)) MAXARG) as [Hmax|Hmax]; cbn [negb andb].
  2: { destruct (push_strings_spec (take (Z.to_nat MAXARG) argv) USER_STACK_TOP s) as (mm' & HE & HR);
         [done|by apply Forall_take|done|lia|].
       exists mm'. split; [done|]. destruct (BOTTOM <=? _); [destruct HR as (addrs & HR & _)|]; by rewrite (bind_Ret _ _ _ _ _ HR). }
  pose proof (strings_room_nonneg argv) as [Ha1 Ha2]. pose proof (strings_room_nonneg envVariable) as [He1 He2].
  pose proof (room_bounds (8 * stack_words argv)) as [Hw1 Hw2].
  assert (Hws : 0 <= stack_words argv) by (unfold stack_words; lia).
  destruct (push_strings_spec argv USER_STACK_TOP s) as (mm1 & HE1 & HR1); [done..|lia|].
  set (sp1 := USER_STACK_TOP - strings_room argv) in *.
  destruct (Z.leb_spec BOTTOM sp1) as [Hf1|Hf1].
  2: { exists mm1. split; [done|]. rewrite (proj2 (Z.leb_gt _ _)) by lia. by rewrite (bind_Ret _ _ _ _ _ HR1). }
  destruct HR1 as (args & HR1 & HF1). rewrite (bind_Ret _ _ _ _ _ HR1).
  destruct (push_strings_spec envVariable sp1 (set_part mm1 s)) as (mm2 & HE2 & HR2); rewrite ?part_set;
    [by apply HE1|done|unfold sp1; Z.to_euclidean_division_equations; lia|lia|].
  rewrite part_set in HE2. set (sp2 := sp1 - strings_room envVariable) in *.
  assert (HE02 : extends USER_STACK_TOP (part s) mm2) by (apply (extends_trans _ sp1 _ mm1); [lia|done..]).
  destruct (Z.leb_spec BOTTOM sp2) as [Hf2|Hf2].
  2: { exists mm2. split; [done|]. rewrite (proj2 (Z.leb_gt _ _)) by lia. by rewrite (bind_Ret _ _ _ _ _ HR2), set_part_set. }
  destruct HR2 as (envs & HR2 & HF2). rewrite (bind_Ret _ _ _ _ _ HR2), set_part_set.
  destruct (push_vector_spec sp2 (Z.of_nat (length argv)) args envs phdr_addr phnum base entry (set_part mm2 s))
    as (mm3 & HE3 & HR3); rewrite ?part_set; [by apply HE02|unfold sp2, sp1; Z.to_euclidean_division_equations; lia|lia|].
  rewrite part_set in HE3. rewrite (Forall2_length _ _ _ HF1), (Forall2_length _ _ _ HF2) in HR3. fold (stack_words argv) in HR3.
  exists mm3. split; [apply (extends_trans _ sp2 _ mm2); [lia|done..]|].
  replace (sp2 - 32 - room (8 * stack_words argv))
    with (USER_STACK_TOP - (strings_room argv + strings_room envVariable + 32 + room (8 * stack_words argv))) in HR3 by lia.
  set (size := _ + room _) in *. replace (size <=? PGSIZE) with (BOTTOM <=? USER_STACK_TOP - size)
    by (apply eq_true_iff_eq; rewrite !Z.leb_le; lia).
  destruct (BOTTOM <=? USER_STACK_TOP - size); rewrite set_part_set in HR3; [|done].
  destruct HR3 as (rand & HR3 & Hrd & Hwd). split; [done|]. exists args, envs, rand. split_and!; try done.
  - apply (placed_reads mm1 mm3 sp1 USER_STACK_TOP); [|done]. apply (extends_trans _ sp2 _ mm2); [lia|done..].
  - by apply (placed_reads mm2 mm3 sp2 sp1).
Qed.
End stack.

Lemma stack_vpn a : BOTTOM <= a < BOTTOM + PGSIZE -> vpn a = vpn BOTTOM.
Proof.
  intros Ha. assert (BOTTOM mod 4096 = 0) by by vm_compute. change PGSIZE with 4096 in Ha. unfold vpn.
  Z.to_euclidean_division_equations; lia.
Qed.
Lemma stack_range tbl maps r p : user_page tbl maps r (vpn BOTTOM) p -> user_range tbl maps r BOTTOM PGSIZE (fun _ => p).
Proof.
  intros Hp. split_and!; [by vm_compute|by vm_compute| |].
  - intros a Ha. by rewrite stack_vpn.
  - intros a b Ha Hb _. by rewrite (stack_vpn a), (stack_vpn b).
Qed.

(** C8. The stack of a new program.  When the page below [USER_STACK_TOP] is mapped for the
    user, [build_stack] succeeds exactly when there are at most 32 arguments and everything
    fits the page.  Then the stack pointer is a multiple of 16; at it are, as 64-bit words, the
    number of arguments, their addresses, 0, the addresses of the environment, 0 and the
    auxiliary vector; every address leads to its string with the terminating NUL, intact
    after all later pushes.  In both cases nothing outside the page changes: no other byte
    of memory, no page table, no reference count, no other part of the kernel. *)
Theorem exec_stack {S} `{!Part S MM} (pageout_ : Z -> Z -> M S Z) tbl maps r p argv phdr_addr phnum base entry (s : S) :
  pt_inv (part s) tbl maps -> tbl !! r = Some (Root r) -> user_page tbl maps r (vpn BOTTOM) p ->
  Forall (Forall (fun b => 0 <= b < 2 ^ 8)) argv ->
  let f := fun _ => p in let sp := USER_STACK_TOP - stack_size argv in
  exists mm', extends tbl maps f USER_STACK_TOP (part s) mm' /\
    if (Z.of_nat (length argv) <=? MAXARG) && (stack_size argv <=? PGSIZE) then
      build_stack pageout_ (page2pa r) argv phdr_addr phnum base entry s = Ret (Some sp) (set_part mm' s) /\
      sp mod 16 = 0 /\ stack_image f mm' sp argv phdr_addr phnum base entry
    else build_stack pageout_ (page2pa r) argv phdr_addr phnum base entry s = Ret None (set_part mm' s).
Proof.
  intros I Hr Hp Hb f sp.
  destruct (build_stack_spec pageout_ tbl maps r f Hr (stack_range _ _ _ _ Hp) argv phdr_addr phnum base entry s I Hb)
    as (mm' & HE & H).
  exists mm'. split; [done|]. destruct (_ && _); [|done]. destruct H as [H1 H2]. split_and!; try done.
  assert (USER_STACK_TOP mod 16 = 0) by by vm_compute. unfold sp, stack_size.
  pose proof (strings_room_nonneg argv) as [_ ?]. pose proof (strings_room_nonneg envVariable) as [_ ?].
  pose proof (room_bounds (8 * stack_words argv)) as [_ ?]. Z.to_euclidean_division_equations; lia.
Qed.

(** The arguments "ls", "/" on a fresh stack page. *)
Lemma exec_stack_witness : exists mm mm' sp,
  build_stack (fun _ _ => panic) (page2pa 200) [[0x6c; 0x73]; [0x2f]] 64 9 0 0x1000 mm = Ret (Some sp) mm' /\
  sp mod 16 = 0 /\ stack_image (fun _ => 300) mm' sp [[0x6c; 0x73]; [0x2f]] 64 9 0 0x1000.
Proof.
  destruct (mm1_insert_at BOTTOM (Z.lor PTE_USER (Z.lor PTE_READ PTE_WRITE))) as (mm & tbl & _ & I & Hr & Hp);
    [vm_compute; split; [discriminate|reflexivity]..|].
  destruct (@exec_stack MM MM_MM (fun _ _ => panic) tbl _ 200 300 [[0x6c; 0x73]; [0x2f]] 64 9 0 0x1000 mm I Hr)
    as (mm' & _ & H).
  - eexists. split; [by rewrite lookup_insert_eq|].
    split_and!; [vm_compute; reflexivity|exact Hp|vm_compute; discriminate|vm_compute; reflexivity].
  - repeat constructor; lia.
  - destruct H as (H1 & H2 & H3). exists mm, mm', (USER_STACK_TOP - stack_size [[0x6c; 0x73]; [0x2f]]).
    split_and!; [exact H1|exact H2|exact H3].
Defined.
