(* ===== verification/System.v ===== *)
(** * The whole kernel: environments, system call table and traps

    The components put together on one state.  [Machine] is the kernel's memory of Kernel.v
    with the console and the interval timer; the card is the disk of the buffer cache, as
    SdSpec.v justifies.  The interfaces the components were written
    against are implemented here: [FsEnv] by the copies of UserCopy.v in the address space of
    the current process, [Boot] by the set-up of the root file system in Thread.c.  Then
    come the table of system calls (Syscall.c) and the traps (Trap.c).

    [Layout] holds what the linker and the compiler decide, the addresses of global arrays
    and of local variables, and the bounds of the loops that depend on the disk. *)

From Stdlib Require Ascii.
From Stdlib Require Import (notations) String.
From S2P Require Import Prelude CType Mem Strings Config Queue Page UserCopy Sched Bio Fat FatFile.
From S2P Require Import Pipe Segment File Console Signal Kernel FileSystem Process Syscall Sysfile Exec Sd.

Record Machine := mkMachine {
  m_kernel : Kernel;
  m_console : ConsoleS;
  m_timer : IntervalTimer;
}.

Local Ltac by_cases := by intros ? [] || by intros [].
#[export] Instance Machine_kernel : Part Machine Kernel.
Proof.
  refine {| part := m_kernel; set_part := fun x m => mkMachine x (m_console m) (m_timer m) |}; by_cases.
Defined.
#[export] Instance Machine_console : Part Machine ConsoleS.
Proof.
  refine {| part := m_console; set_part := fun x m => mkMachine (m_kernel m) x (m_timer m) |}; by_cases.
Defined.
#[export] Instance Machine_timer : Part Machine IntervalTimer.
Proof.
  refine {| part := m_timer; set_part := fun x m => mkMachine (m_kernel m) (m_console m) x |}; by_cases.
Defined.
(** A part of the kernel is a part of the machine. *)
Definition kernel_part {T} `{!Part Kernel T} : Part Machine T.
Proof.
  refine {| part := fun m => part (m_kernel m);
            set_part := fun x m => mkMachine (set_part x (m_kernel m)) (m_console m) (m_timer m) |}.
  - intros x [k c t]. simpl. apply part_set.
  - intros x y [k c t]. simpl. by rewrite set_part_set.
  - intros [k c t]. simpl. by rewrite set_part_part.
Defined.
#[export] Instance Machine_p : Part Machine PState := kernel_part.
#[export] Instance Machine_m : Part Machine MM := kernel_part.
#[export] Instance Machine_pipes : Part Machine PipeS := kernel_part.
#[export] Instance Machine_fat : Part Machine FatS := kernel_part.
#[export] Instance Machine_files : Part Machine FileS := kernel_part.
#[export] Instance Machine_seg : Part Machine SegS := kernel_part.
#[export] Instance Machine_sig : Part Machine SigS := kernel_part.

Record Layout := mkLayout {
  kernelPageDirectory : Z;
  pipes_at : Z;
  sockets_at : Z;
  processes_at : Z -> Z;
  trampoline_at : Z;
  signalTrampoline_at : Z;
  link_at : Z;
  path_at : Z;
  io_at : Z;
  sdbuf_at : Z;
  n_sectors : Z;
  entcnt_at : Z;
  dentry_at : Z;
  ehdr_at : Z;
  phdr_at : Z;
  bprm_at : nat -> Z;
  stack_garbage : nat -> list Z;
  uart_irq : Z;
  disk_irq : Z;
  cycles : Machine -> Z;
  n_sched : nat;
  n_waits : nat;
  n_images : nat;
  n_links : nat;
  n_clusters : nat;
  n_dirs : nat;
  n_entries : nat;
  n_scripts : nat;
}.

(** [rootFileSystem]: the first file system that is allocated. *)
Definition ROOT_FS : Z := 1.

(** The paths of [root_setup]: characters of a string. *)
Definition chars (s : String.string) : list Z := map (fun c => Z.of_N (Ascii.N_of_ascii c)) (String.list_ascii_of_string s).
Local Arguments chars s%_string_scope.

Section system.
Context (L : Layout).
Local Notation S := Machine.

Definition blocks : Z -> Z -> M FatS (option Z) := Fat.fs_read (n_images L).

(** ** The interfaces *)

Definition cwd_of_me : M S Z := p ← me; pr ← proc p; mret (cwd pr).
Definition file_ep_of_me (fd : Z) : M S (option Z) :=
  f ← my_file fd;
  if f =? 0 then mret None else ff ← file f; mret (Some (f_ep ff)).

(** Page faults read program files into kernel memory: no user memory is involved. *)
Definition fault_env : FsEnv S := {|
  user_copyout := fun _ _ => panic; user_copyin := fun _ _ => panic; user_memset := fun _ _ _ => panic;
  my_cwd := cwd_of_me; my_file_ep := file_ep_of_me |}.
Definition page_fault : Z -> Z -> M S Z := @pageout S _ _ _ _ fault_env blocks.
#[local] Instance user_env : FsEnv S := {|
  user_copyout := fun a bs => d ← dir; copyout page_fault d a bs;
  user_copyin := fun a n => d ← dir; copyin page_fault d a n;
  user_memset := fun a v n => d ← dir; memsetOut page_fault d a v n;
  my_cwd := cwd_of_me; my_file_ep := file_ep_of_me |}.

(** ** Thread.c: the root file system, set up by the first thread that runs *)

(** The entries created at boot, with their [dev] field. *)
Definition boot_entries : list (list Z * Z * option Z) :=
  [(chars "/var/tmp/XXX", T_FILE, None); (chars "/dev", T_DIR, None); (chars "/dev/vda2", T_DIR, None);
   (chars "/dev/shm", T_DIR, None); (chars "/dev/null", T_CHAR, Some DEV_NONE); (chars "/tmp", T_DIR, None);
   (chars "/dev/zero", T_CHAR, Some DEV_ZERO); (chars "/dev/tty", T_CHAR, None); (chars "/dev/rtc", T_CHAR, None);
   (chars "/dev/rtc0", T_CHAR, None); (chars "/dev/misc", T_DIR, None); (chars "/dev/misc/rtc", T_CHAR, None);
   (chars "/proc", T_DIR, None); (chars "/proc/meminfo", T_CHAR, None); (chars "/proc/mounts", T_CHAR, None);
   (chars "/proc/localtime", T_CHAR, None); (chars "/proc/sys", T_DIR, None); (chars "/proc/sys/kernel", T_DIR, None);
   (chars "/proc/sys/kernel/osrelease", T_CHAR, Some DEV_OSRELEASE); (chars "/proc/self", T_DIR, None)].
(** Created after the link /proc/self/exe; the results of the three in the middle are not
    checked. *)
Definition late_entries : list (list Z * Z * bool) :=
  [(chars "/etc", T_DIR, true); (chars "/etc/adjtime", T_CHAR, true); (chars "/etc/localtime", T_CHAR, false);
   (chars "/var", T_DIR, false); (chars "/var/tmp", T_DIR, false); (chars "/var/tmp/XXX", T_FILE, true)].

Local Notation create := (create blocks (n_links L) (link_at L) ROOT_FS).
Definition with_dev (v : Z) (d : Dirent) : Dirent :=
  mkDe (filename d) (attribute d) (first_clus d) (file_size d) (cur_clus d) (inodeMaxCluster d) (clus_cnt d)
    (inode d) (nt_res d) (fileSystem d) v (de_head d) (de_off d) (parent d) (nextBrother d) (firstChild d).

Definition root_fs : M S Z :=
  v ← lift (gets (fun s => fs_valid (getfs s ROOT_FS)));
  if (v : bool) then mret ROOT_FS else lift fsAlloc.

Definition boot_entry (e : list Z * Z * option Z) : M S unit :=
  let '(path, type, dev) := e in
  ep ← create AT_FDCWD path type O_RDONLY;
  assert (negb (ep =? 0)) ;;
  when (bool_decide (path = chars "/dev/vda2")) (upd_de ep (with_head ROOT_FS)) ;;
  match dev with Some v => upd_de ep (with_dev v) | None => mret tt end.
Definition late_entry (e : list Z * Z * bool) : M S unit :=
  let '(path, type, checked) := e in
  ep ← create AT_FDCWD path type O_RDONLY;
  when checked (assert (negb (ep =? 0))).
Fixpoint each {A} (f : A -> M S unit) (l : list A) : M S unit :=
  match l with [] => mret tt | a :: l => f a ;; each f l end.

Definition setup_root : M S unit :=
  root_fs ;;
  lift (modify (set_fss (fun m =>
    let x := default fs0 (m !! ROOT_FS) in
    <[ROOT_FS := mkFs (fs_valid x) (chars "fat32") (superBlock x) (fs_image x) (fs_next x) (deviceNumber x) BlockRead]> m))) ;;
  lift direntInit ;;
  fatInit blocks (dentry_at L) (kernelPageDirectory L) (n_dirs L) (n_entries L) ROOT_FS ;;
  each boot_entry boot_entries ;;
  r ← do_linkat blocks ROOT_FS (link_at L) (path_at L) (n_links L) AT_FDCWD (chars "/") AT_FDCWD (chars "/proc/self/exe");
  assert (negb (r <? 0)) ;;
  each late_entry late_entries.
#[local] Instance boot : Boot S := {| root_setup := setup_root; sched_fuel := n_sched L |}.

(** ** Syscall.c: the table of system calls *)

Local Notation pf := page_fault.
Local Notation at_ := (processes_at L).
Local Notation kdir := (kernelPageDirectory L).
Local Notation pb := (pipes_at L).
Local Notation sb_ := (sockets_at L).
Local Notation lk := (link_at L).
Local Notation nl := (n_links L).
Local Notation nw := (n_waits L).
Local Notation junk := (stack_garbage L).
Definition destroy : Z -> M S unit := threadDestroy pf at_ kdir pb.
Definition console_ch (c : Z) : M S unit := lift (putchar c).
Definition console_has : M S bool := lift hasChar.
Definition r_cycle : M S Z := gets (cycles L).

(** The device table, with the card as the disk of the buffer cache. *)
Definition device_read : Z -> option (bool -> Z -> Z -> Z -> M S Z) :=
  devsw_read (sdCardRead (sector_read (n_sectors L)) (sdbuf_at L)).
Definition device_write : Z -> option (bool -> Z -> Z -> Z -> M S Z) :=
  devsw_write (sdCardWrite (sector_write (n_sectors L)) (sdbuf_at L)).

Definition syscallVector (n : Z) : option (M S unit) :=
  match n with
  | 4 => Some (syscallPutchar console_ch)
  | 124 => Some syscallYield
  | 220 => Some (syscallClone pf root_fs kdir (trampoline_at L) (signalTrampoline_at L))
  | 5 => Some (syscallPutString console_ch)
  | 172 => Some syscallGetProcessId
  | 173 => Some syscallGetParentProcessId
  | 260 => Some (syscallWait pf at_ kdir pb nw)
  | 20 => Some (syscallDevice kdir pb)
  | 23 => Some syscallDup
  | 93 => Some (syscallExit pf at_ kdir pb)
  | 59 => Some (syscallPipe kdir pb)
  | 64 => Some (syscallWrite pf at_ blocks kdir pb nw device_write)
  | 63 => Some (syscallRead pf at_ blocks kdir pb nw device_read)
  | 57 => Some (syscallClose kdir pb)
  | 56 => Some (syscallOpenAt pf blocks kdir pb ROOT_FS lk nl (n_clusters L))
  | 153 => Some (syscallGetCpuTimes r_cycle)
  | 169 => Some syscallGetTimeOfDay
  | 101 => Some syscallSleepTime
  | 24 => Some (syscallDupAndSet kdir pb)
  | 25 => Some syscall_fcntl
  | 49 => Some (syscallChangeDir pf blocks ROOT_FS lk nl)
  | 17 => Some syscallGetWorkDir
  | 34 => Some (syscallMakeDirAt pf blocks ROOT_FS lk nl)
  | 214 => Some syscallBrk
  | 13 => Some syscallSetBrk
  | 80 => Some (syscallGetFileState blocks (entcnt_at L) (dentry_at L) junk)
  | 79 => Some (syscallGetFileStateAt pf blocks ROOT_FS lk (entcnt_at L) (dentry_at L) nl junk)
  | 222 => Some (syscallMapMemory pf at_ blocks kdir pb nw device_read)
  | 215 => Some syscallUnMapMemory
  | 221 => Some (syscallExec pf at_ blocks kdir pb (trampoline_at L) (signalTrampoline_at L) nw device_read ROOT_FS lk
                   (path_at L) (ehdr_at L) (phdr_at L) (bprm_at L) nl (n_scripts L))
  | 61 => Some syscallGetDirent
  | 40 => Some (syscallMount pf blocks kdir ROOT_FS lk (dentry_at L) nl (n_dirs L) (n_entries L))
  | 39 => Some (syscallUmount pf blocks ROOT_FS lk nl)
  | 37 => Some (syscallLinkAt pf blocks ROOT_FS lk (path_at L) nl)
  | 35 => Some (syscallUnlinkAt pf blocks ROOT_FS lk nl (n_clusters L))
  | 160 => Some syscallUname
  | 96 => Some syscallSetTidAddress
  | 94 => Some syscallExitGroup
  | 135 => Some (syscallSignProccessMask junk)
  | 134 => Some (syscallSignalAction kdir)
  | 137 => Some (syscallSignalTimedWait junk)
  | 178 => Some syscallGetTheardId
  | 261 => Some (syscallProcessResourceLimit junk)
  | 113 => Some syscallGetClockTime
  | 62 => Some syscallLSeek
  | 29 => Some syscallIOControl
  | 198 => Some (syscallSocket kdir)
  | 200 => Some (syscallBind junk)
  | 204 => Some syscallGetSocketName
  | 208 => Some syscallSetSocketOption
  | 206 => Some (syscallSendTo kdir)
  | 207 => Some (syscallReceiveFrom kdir)
  | 201 => Some syscallListen
  | 203 => Some (syscallConnect pf at_ kdir pb sb_ junk)
  | 202 => Some (syscallAccept kdir sb_ junk)
  | 66 => Some (syscallWriteVector pf at_ blocks kdir pb nw device_write)
  | 65 => Some (syscallReadVector pf at_ blocks kdir pb nw device_read)
  | 98 => Some syscallFutex
  | 129 => Some syscallProcessKill
  | 130 => Some syscallThreadKill
  | 131 => Some syscallThreadGroupKill
  | 73 => Some syscallPoll
  | 226 => Some (syscallMemoryProtect pf)
  | 99 => Some syscallSetRobustList
  | 100 => Some syscallGetRobustList
  | 43 => Some (syscallStateFileSystem pf blocks ROOT_FS lk nl)
  | 67 => Some (syscallPRead blocks)
  | 88 => Some (syscallUtimensat pf blocks ROOT_FS lk (entcnt_at L) (dentry_at L) nl)
  | 175 => Some syscallGetEffectiveUserId
  | 174 | 155 | 154 => Some syscallGetUserId
  | 283 => Some syscallMemoryBarrier
  | 139 => Some syscallSignalReturn
  | 71 => Some (syscallSendFile pf at_ blocks kdir pb nw device_read device_write (io_at L))
  | 116 => Some syscallLog
  | 48 => Some (syscallAccess pf blocks ROOT_FS lk nl)
  | 179 => Some syscallSystemInfo
  | 276 => Some syscallRenameAt
  | 78 => Some (syscallReadLinkAt pf blocks ROOT_FS lk nl)
  | 165 => Some (syscallGetResouceUsage junk)
  | 72 => Some (syscallSelect console_has junk)
  | 103 => Some syscallSetTimer
  | 166 => Some syscallUmask
  | 82 => Some syscallFileSychornize
  | 227 => Some syscallMemorySychronize
  | 1024 => Some (syscallOpen pf blocks kdir pb ROOT_FS lk nl (n_clusters L))
  | 233 => Some syscallMemeryAdvise
  | 176 => Some syscallGetGroupId
  | 177 => Some syscallGetEffectiveGroupId
  | 278 => Some syscallGetRandom
  | 53 => Some syscallChangeModAt
  | _ => None
  end.

(** ** Trap.c *)

(** The bit of interrupts and the codes of Scause.h. *)
Definition SCAUSE_INTERRUPT : Z := Z.shiftl 1 63.
Definition SCAUSE_EXCEPTION_CODE : Z := Z.shiftl 1 63 - 1.
Definition SCAUSE_SUPERVISOR_TIMER : Z := 5.
Definition SCAUSE_SUPERVISOR_EXTERNAL : Z := 9.
Definition SCAUSE_ENVIRONMENT_CALL : Z := 8.
Definition SCAUSE_LOAD_PAGE_FAULT : Z := 13.
Definition SCAUSE_STORE_PAGE_FAULT : Z := 15.
Inductive device := UNKNOWN_DEVICE | SOFTWARE_TRAP | TIMER_INTERRUPT.

(** [irq] is what the interrupt controller reports.  [timerTick] counts in a variable
    nothing reads and sets the next time-out. *)
Definition trapDevice (scause irq : Z) : M S device :=
  let code := Z.land scause SCAUSE_EXCEPTION_CODE in
  if has scause SCAUSE_INTERRUPT && (code =? SCAUSE_SUPERVISOR_EXTERNAL) then
    (if irq =? uart_irq L then lift getchar ;; mret tt
     else if irq =? disk_irq L then mret tt
     else if negb (irq =? 0) then panic else mret tt) ;;
    mret SOFTWARE_TRAP
  else if has scause SCAUSE_INTERRUPT && (code =? SCAUSE_SUPERVISOR_TIMER) then mret TIMER_INTERRUPT
  else mret UNKNOWN_DEVICE.

(** The trap inside the kernel; [spp] and [sie] are the bits of [sstatus]. *)
Definition kernelTrap (spp sie : bool) (scause irq : Z) : M S unit :=
  if negb spp then panic
  else if sie then panic
  else
    d ← trapDevice scause irq;
    match d with
    | UNKNOWN_DEVICE => panic
    | TIMER_INTERRUPT => yield
    | SOFTWARE_TRAP => mret tt
    end.

Definition tf_trapHandler : Z := 2.
Definition tf_kernelHartId : Z := 4.
Definition tf_a7 : Z := 21.
(** Up to the jump to user mode; [userTrap_at] is the address of [userTrap]. *)
Definition userTrapReturn (userTrap_at : Z) : M S unit :=
  t ← self; h ← hart;
  lift (modify (upd_frame h (fun f => <[tf_kernelHartId := h]> (<[tf_trapHandler := userTrap_at]>
    (<[tf_kernelSp := getThreadTopSp t]> f))))) ;;
  handleSignal pf destroy kdir t.

Definition syscall : M S unit :=
  h ← hart;
  lift (modify (upd_frame h (fun f => <[tf_epc := u64 (reg f tf_epc + 4)]> f))) ;;
  tf ← frame;
  match syscallVector (reg tf tf_a7) with Some f => f | None => panic end.

(** The address of the faulting access is not mapped: the page is fetched.  Otherwise the
    access is one that [handled] takes care of, one that is not allowed, or none that can fault. *)
Definition fault (d stval forbidden : Z) (handled : Z -> option (M S unit)) : M S unit :=
  r ← lift (Page.pageLookup d stval);
  match r with
  | (0, _) => pf d stval ;; mret tt
  | (_, None) => panic
  | (_, Some pte) =>
      e ← read_memory (fun m => load64 m pte);
      match handled e with
      | Some m => m
      | None =>
          if has e forbidden then panic
          else p ← me; pr ← proc p; processSignalSend (processId pr) SIGSEGV ;; mret tt
      end
  end.
Definition load_fault (d stval : Z) : M S unit := fault d stval PTE_READ (fun _ => None).
Definition store_fault (d stval : Z) : M S unit :=
  fault d stval PTE_WRITE (fun e => if has e PTE_COW then Some (lift (Page.cowHandler d stval) ;; mret tt) else None).

Definition userTrap (userTrap_at : Z) (spp : bool) (scause stval irq : Z) : M S unit :=
  d ← dir;
  if spp then panic
  else
    (if has scause SCAUSE_INTERRUPT then trapDevice scause irq ;; yield
     else
       let code := Z.land scause SCAUSE_EXCEPTION_CODE in
       if code =? SCAUSE_ENVIRONMENT_CALL then syscall
       else if code =? SCAUSE_LOAD_PAGE_FAULT then load_fault d stval
       else if code =? SCAUSE_STORE_PAGE_FAULT then store_fault d stval
       else pf d stval ;; mret tt) ;;
    userTrapReturn userTrap_at.
End system.
