(* ===== verification/TrapSpec.v ===== *)
(** * Store faults of user programs

    What [userTrap] (Trap.c) does with a store that faults, by the translation of the
    address: the whole path from the trap through the page tables to the return to user
    mode. *)

From S2P Require Import Prelude CType Mem Strings Config Queue Page PageInv PageSpec UserCopy Sched Bio Fat FatFile.
From S2P Require Import Pipe Segment File Console Signal Kernel FileSystem Process Syscall Sysfile Exec System.

(** The page-table part of the machine. *)
Definition machine_mm (m : Machine) : MM := k_m (m_kernel m).
Definition with_mm (mm : MM) (m : Machine) : Machine := set_part mm m.

Section traps.
Context (L : Layout) (back : Z).

Lemma userTrap_store m d stval irq :
  (dir : M Machine Z) m = Ret d m ->
  userTrap L back false SCAUSE_STORE_PAGE_FAULT stval irq m = (store_fault L d stval ;; userTrapReturn L back) m.
Proof. intros Hd. unfold userTrap. by rewrite (bind_Ret _ _ _ _ _ Hd). Qed.

Lemma fault_mapped m tbl maps r stval e forbidden handled :
  pt_inv (machine_mm m) tbl maps -> tbl !! r = Some (Root r) -> 0 <= stval < 2 ^ 39 ->
  maps !! (r, vpn stval) = Some e -> PTE2PA e <> 0 ->
  fault L (page2pa r) stval forbidden handled m =
    match handled e with
    | Some k => k m
    | None => if has e forbidden then Panic
              else (p ← me; pr ← proc p; processSignalSend (processId pr) SIGSEGV ;; mret tt) m
    end.
Proof.
  intros I Hr Hv He Hpa. pose proof (pageLookup_spec _ _ _ _ _ I Hr Hv) as HL. rewrite He in HL.
  destruct HL as (q & _ & Hent & _ & HL). unfold fault.
  rewrite (bind_lift_Ret _ _ m _ _ HL). unfold machine_mm.
  change (set_part (k_m (m_kernel m)) m) with (set_part (part m : MM) m). rewrite set_part_part.
  destruct (PTE2PA e) eqn:E; [done| |];
    unfold read_memory; rewrite bind_lift_gets; change (load64 _ _) with (entry (machine_mm m) q (GET_PAGE_TABLE_INDEX stval 0));
    rewrite Hent; destruct (handled e); try done; by destruct (has e forbidden).
Qed.

Lemma fault_unmapped m tbl maps r stval forbidden handled :
  pt_inv (machine_mm m) tbl maps -> tbl !! r = Some (Root r) -> 0 <= stval < 2 ^ 39 ->
  maps !! (r, vpn stval) = None ->
  fault L (page2pa r) stval forbidden handled m = (page_fault L (page2pa r) stval ;; mret tt) m.
Proof.
  intros I Hr Hv He. pose proof (pageLookup_spec _ _ _ _ _ I Hr Hv) as HL. rewrite He in HL. unfold fault.
  rewrite (bind_lift_Ret _ _ m _ _ HL).
  change (set_part (machine_mm m) m) with (set_part (part m : MM) m). by rewrite set_part_part.
Qed.
End traps.

(** C10. A store that faults, from the trap to the return to the program.  On an address
    without a translation the page is fetched.  On a page shared for copy on write the
    program continues, its registers and its program counter unchanged, with the address
    translated to a page that was free, holds the same 4096 bytes, is referenced once and is
    writable, so that the store is executed again and reaches only this process; every
    other translation stays.  On a page that is mapped without write permission the process gets SIGSEGV.  A
    fault on a page that permits the store cannot happen: the kernel panics. *)
Theorem store_fault_decides L back m tbl maps r stval irq :
  (dir : M Machine Z) m = Ret (page2pa r) m -> pt_inv (machine_mm m) tbl maps -> tbl !! r = Some (Root r) ->
  0 <= stval < 2 ^ 39 ->
  let trap := userTrap L back false SCAUSE_STORE_PAGE_FAULT stval irq m in
  match maps !! (r, vpn stval) with
  | None => trap = ((page_fault L (page2pa r) stval ;; mret tt) ;; userTrapReturn L back) m
  | Some e => forall p n fl, 0 <= e < 2 ^ 54 -> pte_page e = Some p -> tbl !! p = None ->
      freePages (machine_mm m) = n :: fl -> (2 <= length fl)%nat ->
      if has e PTE_COW then
        exists mm' tbl', trap = userTrapReturn L back (with_mm mm' m) /\
          pt_inv mm' tbl' (<[(r, vpn stval) := new_pte (page2pa n) (cow_perm e)]> maps) /\
          ref mm' n = 1 /\ ref mm' p = ref (machine_mm m) p - 1 /\
          (forall i, 0 <= i < 4096 -> load8 (mem mm') (page2pa n + i) = load8 (mem (machine_mm m)) (page2pa p + i))
      else if has e PTE_WRITE then trap = Panic
      else trap = ((p ← me; pr ← proc p; processSignalSend (processId pr) SIGSEGV ;; mret tt) ;; userTrapReturn L back) m
  end.
Proof.
  intros Hd I Hr Hv trap. unfold trap. rewrite (userTrap_store L back m _ _ _ Hd). unfold store_fault.
  destruct (maps !! (r, vpn stval)) as [e|] eqn:He.
  2: { unfold mbind at 1, M_bind at 1. by rewrite (fault_unmapped L m tbl maps). }
  intros p n fl Hre Hp Hnt Hf Hfl. destruct (pte_page_Some _ _ Hp) as (Hok & _ & Hpa).
  assert (H0 : PTE2PA e <> 0) by (rewrite Hpa, page2pa_ok by done; unfold page_ok in *; lia).
  pose proof (fault_mapped L m tbl maps r stval e PTE_WRITE) as HF.
  destruct (has e PTE_COW) eqn:Ecow.
  - assert (Hc : Z.land e PTE_COW <> 0) by (by apply Z.eqb_neq, negb_true_iff).
    destruct (cowHandler_spec _ _ _ _ _ _ _ _ _ I Hr Hv He Hre Hp Hc Hf Hfl)
      as (mm' & tbl' & Hrun & I' & _ & Hn & Hpr & Hcopy & _).
    exists mm', tbl'. split_and!; try done; [|by apply Hcopy].
    rewrite (bind_Ret _ _ _ tt (with_mm mm' m)); [done|]. rewrite HF by done. rewrite Ecow.
    by rewrite (bind_lift_Ret _ _ m _ _ Hrun).
  - assert (HF' := HF (fun e => if has e PTE_COW then Some (lift (Page.cowHandler (page2pa r) stval) ;; mret tt) else None)
      I Hr Hv He H0). cbn beta in HF'. rewrite Ecow in HF'.
    destruct (has e PTE_WRITE); unfold mbind at 1, M_bind at 1; by rewrite HF'.
Qed.

(** The process of directory 200 stores to its copy-on-write page. *)
Definition layout0 : Layout :=
  mkLayout 0 0 0 (fun _ => 0) 0 0 0 0 0 0 0 0 0 0 0 (fun _ => 0) (fun _ => []) 10 1 (fun _ => 0) 0 0 0 0 0 0 0 0.
Definition machine0 : Machine :=
  mkMachine (kernel_of (with_one_thread thread0 (p_space (page2pa 200) 0 [] process0) ∅) mm2 (mkSigS ∅ []))
    (mkC ∅ 0 0 [] []) (mkTimer (0, 0) (0, 0)).
Lemma store_fault_decides_witness : exists mm',
  userTrap layout0 0 false SCAUSE_STORE_PAGE_FAULT 0x1008 0 machine0 = userTrapReturn layout0 0 (with_mm mm' machine0) /\
  ref mm' 203 = 1 /\ ref mm' 300 = 0.
Proof.
  destruct mm2_inv as (_ & tbl & I & Hr & Hp).
  pose proof (store_fault_decides layout0 0 machine0 tbl maps2 200 0x1008 0 eq_refl I Hr ltac:(lia)) as H.
  replace (maps2 !! (200, vpn 0x1008)) with (Some pte2) in H by (vm_compute; reflexivity).
  destruct (H 300 203 [204; 205]) as (mm' & tbl' & H1 & _ & H2 & H3 & _).
  - vm_compute. split; [discriminate|reflexivity].
  - vm_compute. reflexivity.
  - exact Hp.
  - exact (proj1 mm2_free).
  - simpl. lia.
  - exists mm'. split_and!; [exact H1|exact H2|]. rewrite H3.
    change (machine_mm machine0) with mm2. rewrite (proj2 mm2_free). reflexivity.
Defined.
