(* ===== verification/ForkSpec.v ===== *)
(** * Clone.c: what a fork does to memory

    [fork_memory] walks the parent's page table and gives the child the same
    pages; a page that was writable becomes copy-on-write in both.  The walk is
    related to the map of translations of PageInv.v: after [n] virtual pages the
    translations below [n] are shared and the others are as before. *)

From S2P Require Import Prelude CType Mem Config Queue Page PageInv PageSpec UserCopy Sched Bio Fat FatFile Pipe.
From S2P Require Import Segment File Signal Process.

(** The entry the parent is left with, and the child's. *)
Definition cow_entry (e : Z) : Z :=
  if c_true (Z.land e PTE_WRITE) then Z.land (Z.lor e PTE_COW) (u64 (Z.lnot PTE_WRITE)) else e.
Definition child_entry (e : Z) : Z := new_pte (PTE2PA (cow_entry e)) (PTE2PERM (cow_entry e)).

Definition trampoline_page (v : Z) : bool :=
  (v * 4096 =? TRAMPOLINE_BASE) || (v * 4096 =? TRAMPOLINE_BASE + PAGE_SIZE).

(** ** Bits of entries *)

Local Notation PA_MASK := PTE_PA_MASK.

Lemma u64_pa_mask e : Z.land (u64 e) PA_MASK = Z.land e PA_MASK.
Proof. unfold u64. rewrite <- Z.land_ones by lia. rewrite <- Z.land_assoc. by change (Z.land (Z.ones 64) PA_MASK) with PA_MASK. Qed.

Lemma PTE2PA_mask e e' : Z.land e PA_MASK = Z.land e' PA_MASK -> PTE2PA e = PTE2PA e'.
Proof. unfold PTE2PA. rewrite !u64_pa_mask. by intros ->. Qed.

Lemma lor_cow_mask e : Z.land (Z.lor e PTE_COW) PA_MASK = Z.land e PA_MASK.
Proof. rewrite Z.land_lor_distr_l. change (Z.land PTE_COW PA_MASK) with 0. apply Z.lor_0_r. Qed.
Lemma land_write_mask e : Z.land (Z.land e (u64 (Z.lnot PTE_WRITE))) PA_MASK = Z.land e PA_MASK.
Proof. rewrite <- Z.land_assoc. by change (Z.land (u64 (Z.lnot PTE_WRITE)) PA_MASK) with PA_MASK. Qed.

Lemma lor_cow_valid e : pte_valid (Z.lor e PTE_COW) = pte_valid e.
Proof.
  unfold pte_valid. rewrite Z.land_lor_distr_l. change (Z.land PTE_COW PTE_VALID) with 0. by rewrite Z.lor_0_r.
Qed.
Lemma land_write_valid e : pte_valid (Z.land e (u64 (Z.lnot PTE_WRITE))) = pte_valid e.
Proof.
  unfold pte_valid. rewrite <- Z.land_assoc.
  by change (Z.land (u64 (Z.lnot PTE_WRITE)) PTE_VALID) with PTE_VALID.
Qed.

Lemma cow_entry_pa e : PTE2PA (cow_entry e) = PTE2PA e.
Proof.
  unfold cow_entry. destruct (c_true _); [|done].
  rewrite (PTE2PA_mask _ _ (land_write_mask _)). apply PTE2PA_mask, lor_cow_mask.
Qed.
Lemma cow_entry_valid e : pte_valid (cow_entry e) = pte_valid e.
Proof. unfold cow_entry. destruct (c_true _); [|done]. by rewrite land_write_valid, lor_cow_valid. Qed.
Lemma cow_entry_page e : pte_page (cow_entry e) = pte_page e.
Proof. unfold pte_page. by rewrite cow_entry_pa. Qed.

Lemma cow_entry_range n e : 9 <= n -> 0 <= e < 2 ^ n -> 0 <= cow_entry e < 2 ^ n.
Proof.
  intros Hn He. unfold cow_entry. destruct (c_true _); [|done].
  assert (0 <= Z.lor e PTE_COW < 2 ^ n).
  { apply lor_low_bound; [lia|done|]. change PTE_COW with (2 ^ 8).
    split; [lia|]. apply Z.pow_lt_mono_r; lia. }
  pose proof (land_le_l (Z.lor e PTE_COW) (u64 (Z.lnot PTE_WRITE))). lia.
Qed.

(** A shared entry cannot be written through, and says copy-on-write if it could. *)
Lemma cow_entry_readonly e : Z.land (cow_entry e) PTE_WRITE = 0 /\
  (Z.land e PTE_WRITE <> 0 -> Z.land (cow_entry e) PTE_COW <> 0).
Proof.
  unfold cow_entry, c_true. destruct (Z.eqb_spec (Z.land e PTE_WRITE) 0) as [E|E]; cbn [negb].
  - split; [done|]. tauto.
  - split; [rewrite <- Z.land_assoc; by change (Z.land (u64 (Z.lnot PTE_WRITE)) PTE_WRITE) with 0; apply Z.land_0_r|].
    intros _. rewrite <- Z.land_assoc. change (Z.land (u64 (Z.lnot PTE_WRITE)) PTE_COW) with PTE_COW.
    rewrite Z.land_lor_distr_l, Z.land_diag. change PTE_COW with (2 ^ 8) at 2. intros H.
    apply (f_equal (fun x => Z.testbit x 8)) in H. rewrite Z.lor_spec, Z.bits_0, Z.pow2_bits_true in H by lia.
    by rewrite orb_true_r in H.
Qed.

Lemma child_entry_page e : 0 <= e < 2 ^ 54 -> pte_page (child_entry e) = pte_page e.
Proof.
  intros He. unfold child_entry, pte_page. destruct (PTE2PA_aligned (cow_entry e)) as [Hal Hr].
  rewrite PTE2PA_new_pte; [by rewrite cow_entry_pa|done|done|].
  rewrite PTE2PERM_arith by (apply cow_entry_range; [lia|done]). apply Z.mod_pos_bound. lia.
Qed.

(** The child's entry has the permissions of the parent's new one, and the parent
    keeps its other permissions. *)
Lemma child_entry_bits e b : 0 <= e < 2 ^ 54 -> b ∈ [PTE_READ; PTE_WRITE; PTE_EXECUTE; PTE_USER; PTE_COW] ->
  Z.land (child_entry e) b = Z.land (cow_entry e) b.
Proof.
  intros He Hb. assert (Hk : exists k, 0 <= k < 10 /\ b = Z.shiftl 1 k /\
    Z.land PTE_ACCESSED b = 0 /\ Z.land PTE_DIRTY b = 0 /\ Z.land PTE_VALID b = 0).
  { set_unfold in Hb. destruct_or! Hb; subst b;
      [exists 1|exists 2|exists 3|exists 4|exists 8]; (split; [lia|done]). }
  destruct Hk as (k & Hk & Hb' & H1 & H2 & H3). unfold child_entry, new_pte. rewrite Hb', land_mk_pte by done.
  rewrite <- Hb', !Z.land_lor_distr_l, H1, H2, H3, !Z.lor_0_r.
  rewrite PTE2PERM_arith by (apply cow_entry_range; [lia|done]). change 1024 with (2 ^ 10).
  rewrite <- Z.land_ones, <- Z.land_assoc by lia. f_equal. rewrite Z.land_comm, Z.land_ones by lia.
  subst b. rewrite Z.shiftl_1_l. apply Z.mod_small. split; [lia|]. apply Z.pow_lt_mono_r; lia.
Qed.

Lemma cow_entry_bits e b : b ∈ [PTE_READ; PTE_EXECUTE; PTE_USER] -> Z.land (cow_entry e) b = Z.land e b.
Proof.
  intros Hb. unfold cow_entry. destruct (c_true _); [|done].
  assert (Z.land (u64 (Z.lnot PTE_WRITE)) b = b /\ Z.land PTE_COW b = 0) as [H1 H2].
  { set_unfold in Hb. destruct_or! Hb; by subst b. }
  by rewrite <- Z.land_assoc, H1, Z.land_lor_distr_l, H2, Z.lor_0_r.
Qed.

(** ** Virtual pages by table index *)

Lemma fork_va i j k : 0 <= i < 512 -> 0 <= j < 512 -> 0 <= k < 512 ->
  Z.shiftl i 30 + Z.shiftl j 21 + Z.shiftl k 12 = leaf_vpn i j k * 4096.
Proof. intros. rewrite !Z.shiftl_mul_pow2 by lia. unfold leaf_vpn. lia. Qed.

(** ** One entry *)

(** Replacing an entry by one for the same page. *)
Lemma replace_entry mm tbl maps r va q e v :
  pt_inv mm tbl maps -> leaf_of tbl r va q -> 0 <= va < 2 ^ 39 -> 0 <= v < 2 ^ 64 ->
  maps !! (r, vpn va) = Some e -> pte_valid v = true -> pte_page v = pte_page e ->
  pt_inv (set_mem (store64 (page2pa q + 8 * GET_PAGE_TABLE_INDEX va 0) v) mm) tbl (<[(r, vpn va) := v]> maps).
Proof.
  intros I Hq Hva Hv He Hval Hpg.
  replace (<[(r, vpn va) := v]> maps) with (set_leaf maps r va v) by (unfold set_leaf; by rewrite Hval).
  apply (store_leaf mm tbl maps r va q v); auto; [apply (pi_free _ _ _ I)|].
  intros p Hp. rewrite ref_set_mem. pose proof (pi_refs _ _ _ I p Hp) as Hr.
  unfold set_leaf. rewrite Hval, refs_to_insert, Hpg.
  rewrite (refs_to_delete maps (r, vpn va)), He in Hr. done.
Qed.

Definition protect (pte : Z) : M MM unit :=
  e ← gets (fun mm => load64 (mem mm) pte);
  when (c_true (Z.land e PTE_WRITE))
    (modify (set_mem (store64 pte (Z.lor e PTE_COW))) ;;
     e ← gets (fun mm => load64 (mem mm) pte);
     modify (set_mem (store64 pte (Z.land e (u64 (Z.lnot PTE_WRITE)))))).

(** The parent's entry becomes [cow_entry] and nothing else changes. *)
Lemma protect_spec mm tbl maps r va q e :
  pt_inv mm tbl maps -> leaf_of tbl r va q -> 0 <= va < 2 ^ 39 ->
  maps !! (r, vpn va) = Some e -> entry mm q (GET_PAGE_TABLE_INDEX va 0) = e -> 0 <= e < 2 ^ 64 ->
  exists mm1, protect (page2pa q + 8 * GET_PAGE_TABLE_INDEX va 0) mm = Ret tt mm1 /\
    pt_inv mm1 tbl (<[(r, vpn va) := cow_entry e]> maps) /\
    entry mm1 q (GET_PAGE_TABLE_INDEX va 0) = cow_entry e /\
    freePages mm1 = freePages mm /\ (forall p, ref mm1 p = ref mm p) /\
    forall a, ~ in_page q a -> load8 (mem mm1) a = load8 (mem mm) a.
Proof.
  intros I Hq Hva He Hent Hr. pose proof (index_range va 0) as Hi.
  pose proof (pi_tbl _ _ _ I _ _ Hq) as Hqok.
  assert (Hval : pte_valid e = true).
  { pose proof (pi_leaf _ _ _ I _ _ _ _ _ Hq Hi) as Hl. rewrite indices_vpn, He, Hent in Hl by done.
    by destruct (pte_valid e). }
  set (pte := page2pa q + 8 * GET_PAGE_TABLE_INDEX va 0). unfold protect. rewrite bind_gets.
  change (load64 (mem mm) pte) with (entry mm q (GET_PAGE_TABLE_INDEX va 0)). rewrite Hent.
  assert (Hce : cow_entry e = if c_true (Z.land e PTE_WRITE)
    then Z.land (Z.lor e PTE_COW) (u64 (Z.lnot PTE_WRITE)) else e) by done.
  destruct (c_true (Z.land e PTE_WRITE)); cbn [when].
  2: { exists mm. rewrite Hce, insert_id by done. done. }
  run_steps. rewrite mem_set_mem, load64_store64_eq.
  assert (H1 : 0 <= Z.lor e PTE_COW < 2 ^ 64) by (apply lor_low_bound; [lia|done|vm_compute; split; [discriminate|done]]).
  rewrite u64_small by done.
  set (mm1 := set_mem (store64 pte (Z.lor e PTE_COW)) mm).
  assert (I1 : pt_inv mm1 tbl (<[(r, vpn va) := Z.lor e PTE_COW]> maps)).
  { apply (replace_entry mm tbl maps r va q e); try done; [by rewrite lor_cow_valid|].
    unfold pte_page. by rewrite (PTE2PA_mask _ _ (lor_cow_mask e)). }
  set (v := Z.land (Z.lor e PTE_COW) (u64 (Z.lnot PTE_WRITE))).
  assert (Hv : 0 <= v < 2 ^ 64) by (pose proof (land_le_l (Z.lor e PTE_COW) (u64 (Z.lnot PTE_WRITE))); unfold v; lia).
  exists (set_mem (store64 pte v) mm1). split; [done|]. rewrite Hce. fold v. split.
  { rewrite <- (insert_insert_eq maps (r, vpn va) v (Z.lor e PTE_COW)).
    apply (replace_entry mm1 tbl _ r va q (Z.lor e PTE_COW)); try done; [by rewrite lookup_insert_eq| |].
    - unfold v. by rewrite land_write_valid, lor_cow_valid.
    - unfold v, pte_page. by rewrite (PTE2PA_mask _ _ (land_write_mask _)). }
  split_and!; try done.
  - unfold entry. rewrite mem_set_mem. fold pte. rewrite load64_store64_eq. by apply u64_small.
  - intros a Ha. unfold mm1. rewrite !mem_set_mem. unfold pte. by rewrite !store_entry_data.
Qed.

Lemma fork_entry_protect dir va pte mm :
  fork_entry dir va pte mm =
  (e ← gets (fun mm => load64 (mem mm) pte);
   when (c_true (Z.land e PTE_VALID) && negb (va =? TRAMPOLINE_BASE) && negb (va =? TRAMPOLINE_BASE + PAGE_SIZE))
     (protect pte ;;
      e ← gets (fun mm => load64 (mem mm) pte);
      Page.pageInsert dir va (PTE2PA e) (PTE2PERM e) ;; mret tt)) mm.
Proof.
  unfold fork_entry, protect. rewrite !bind_gets. destruct (_ && _ && _); [|done].
  cbn [when]. unfold mbind, M_bind, gets. simpl.
  by destruct (when (c_true (Z.land (load64 (mem mm) pte) PTE_WRITE)) _ mm).
Qed.

(** ** The walk *)

(** The number of translations of root [r] from virtual page [n] on. *)
Definition pages_from (maps : gmap (Z * Z) Z) (r n : Z) : nat :=
  size (filter (fun kv : (Z * Z) * Z => kv.1.1 = r /\ n <= kv.1.2) maps).

(** What a fork needs: distinct roots, entries as [pageInsert] makes them, a child
    that maps none of the parent's user pages to another page of RAM (its
    set-up maps the signal trampoline, which the parent maps to the same page),
    room in the counts and two pages for tables per shared page. *)
Record fork_pre (mm : MM) (tbl : gmap Z owner) (maps : gmap (Z * Z) Z) (r c : Z) : Prop := {
  fp_inv : pt_inv mm tbl maps;
  fp_r : tbl !! r = Some (Root r);
  fp_c : tbl !! c = Some (Root c);
  fp_ne : r <> c;
  fp_range : forall v e, maps !! (r, v) = Some e -> 0 <= e < 2 ^ 54;
  fp_child : forall v e p, maps !! (r, v) = Some e -> trampoline_page v = false ->
    maps !! (c, v) ≫= pte_page = Some p -> pte_page e = Some p;
  fp_ref : forall p, ref mm p < 2 ^ 31;
  fp_free : (2 * pages_from maps r 0 <= length (freePages mm))%nat;
}.

Section walk.
Context (mm0 : MM) (tbl0 : gmap Z owner) (maps0 : gmap (Z * Z) Z) (r c : Z).
Hypothesis Hpre : fork_pre mm0 tbl0 maps0 r c.

(** The translations when the virtual pages below [n] are done. *)
Definition forked (n : Z) (k : Z * Z) : option Z :=
  if (k.2 <? n) && negb (trampoline_page k.2) then
    if decide (k.1 = r) then cow_entry <$> maps0 !! k
    else if decide (k.1 = c) then
      match maps0 !! (r, k.2) with Some e => Some (child_entry e) | None => maps0 !! k end
    else maps0 !! k
  else maps0 !! k.

Local Notation todo := (pages_from maps0 r).

Lemma todo_mono n : (todo (n + 1) <= todo n)%nat.
Proof.
  unfold pages_from. apply map_subseteq_size. apply map_subseteq_spec. intros k e.
  rewrite !map_lookup_filter_Some. simpl. intros (H1 & H2 & H3). split_and!; [done|done|lia].
Qed.

Lemma todo_step n e : maps0 !! (r, n) = Some e -> todo n = S (todo (n + 1)).
Proof.
  intros He. unfold pages_from.
  replace (filter (fun kv : (Z * Z) * Z => kv.1.1 = r /\ n <= kv.1.2) maps0) with
    (<[(r, n) := e]> (filter (fun kv : (Z * Z) * Z => kv.1.1 = r /\ n + 1 <= kv.1.2) maps0)).
  - apply map_size_insert_None. apply map_lookup_filter_None. right. intros x _ [_ H]. simpl in H. lia.
  - apply map_eq. intros [a b]. apply option_eq. intros x. rewrite lookup_insert_Some, !map_lookup_filter_Some.
    simpl. split.
    + intros [[Hk ->]|(Hk & H1 & H2 & H3)]; [simplify_eq; split_and!; try done; lia|split_and!; try done; lia].
    + intros (H1 & -> & H3). destruct (decide (b = n)) as [-> |]; [left; by simplify_eq|].
      right. split; [congruence|]. split_and!; try done. lia.
Qed.

Record fork_at (n : Z) (mm : MM) (tbl : gmap Z owner) (maps : gmap (Z * Z) Z) : Prop := {
  fa_inv : pt_inv mm tbl maps;
  fa_tbl : tbl0 ⊆ tbl;
  fa_maps : forall k, maps !! k = forked n k;
  fa_room : (2 * todo n <= length (freePages mm))%nat;
  fa_ref : forall p, p ∉ freePages mm0 -> ref mm p <= ref mm0 p + n;
  fa_free : forall q, q ∈ freePages mm -> q ∈ freePages mm0;
  fa_new : forall q, tbl0 !! q = None -> is_Some (tbl !! q) -> q ∈ freePages mm0;
  fa_data : forall a, (forall q, q ∈ freePages mm0 \/ is_Some (tbl0 !! q) -> ~ in_page q a) ->
    load8 (mem mm) a = load8 (mem mm0) a;
}.

Lemma forked_skip n k : (maps0 !! (r, n) = None \/ trampoline_page n = true) -> forked (n + 1) k = forked n k.
Proof.
  intros H. unfold forked. destruct k as [a b]. simpl.
  destruct (decide (b = n)) as [-> |Hne].
  - rewrite (proj2 (Z.ltb_lt n (n + 1))), (proj2 (Z.ltb_ge n n)) by lia. simpl.
    destruct (trampoline_page n); [done|]. destruct H as [H|H]; [|done]. simpl. rewrite H.
    destruct (decide (a = r)) as [-> |]; [by rewrite H|]. by destruct (decide (a = c)).
  - replace (b <? n + 1) with (b <? n); [done|].
    destruct (Z.ltb_spec b n), (Z.ltb_spec b (n + 1)); lia.
Qed.

Lemma fork_at_skip n mm tbl maps :
  fork_at n mm tbl maps -> (maps0 !! (r, n) = None \/ trampoline_page n = true) -> fork_at (n + 1) mm tbl maps.
Proof.
  intros [] H. constructor; try done.
  - intros k. by rewrite forked_skip.
  - pose proof (todo_mono n). lia.
  - intros p Hp. specialize (fa_ref0 p Hp). lia.
Qed.

Lemma forked_self n : forked n (r, n) = maps0 !! (r, n).
Proof. unfold forked. simpl. by rewrite Z.ltb_irrefl. Qed.

(** The translations after virtual page [n] is shared. *)
Lemma forked_step n e k : maps0 !! (r, n) = Some e -> trampoline_page n = false ->
  forked (n + 1) k = if decide (k = (c, n)) then Some (child_entry e)
                     else if decide (k = (r, n)) then Some (cow_entry e) else forked n k.
Proof.
  intros He Ht. pose proof (fp_ne _ _ _ _ _ Hpre). unfold forked. destruct k as [a b]. simpl.
  destruct (decide (b = n)) as [-> |Hne].
  - rewrite (proj2 (Z.ltb_lt n (n + 1))), Ht, Z.ltb_irrefl by lia. simpl.
    destruct (decide (a = r)) as [-> |]; [rewrite decide_False, decide_True, He by congruence; done|].
    destruct (decide (a = c)) as [-> |]; [rewrite decide_True, He by done; done|].
    by rewrite !decide_False by congruence.
  - rewrite (decide_False (P := (a, b) = (c, n))), (decide_False (P := (a, b) = (r, n))) by congruence.
    replace (b <? n + 1) with (b <? n); [done|].
    destruct (Z.ltb_spec b n), (Z.ltb_spec b (n + 1)); lia.
Qed.

(** Two translations of a page are two references. *)
Lemma shared_ref mm tbl maps k k' e e' p :
  pt_inv mm tbl maps -> k <> k' -> maps !! k = Some e -> maps !! k' = Some e' ->
  pte_page e = Some p -> pte_page e' = Some p -> 2 <= ref mm p.
Proof.
  intros I Hne He He' Hp Hp'. destruct (pte_page_Some _ _ Hp) as (Hok & _).
  pose proof (pi_refs _ _ _ I p Hok) as Hr.
  rewrite (refs_to_delete maps k), He, decide_True in Hr by done.
  rewrite (refs_to_delete (delete k maps) k'), lookup_delete_ne, He', decide_True in Hr by done.
  assert (0 <= refs_to (delete k' (delete k maps)) p) by (unfold refs_to; lia).
  destruct (tbl !! p); lia.
Qed.

Lemma fork_entry_step n mm tbl maps i j k q :
  fork_at n mm tbl maps -> n = leaf_vpn i j k -> 0 <= i < 512 -> 0 <= j < 512 -> 0 <= k < 512 ->
  tbl !! q = Some (Leaf r i j) ->
  exists mm' tbl' maps', fork_entry (page2pa c) (n * 4096) (page2pa q + 8 * k) mm = Ret tt mm' /\
    fork_at (n + 1) mm' tbl' maps' /\ tbl ⊆ tbl'.
Proof.
  intros HA Hn Hi Hj Hk Hq. pose proof HA as [I Htbl Hmaps Hroom Href Hfree Hnew Hdata].
  destruct (leaf_index i j k Hi Hj Hk) as (Hva & Hvpn & Hi2 & Hi1 & Hi0). rewrite <- Hn in *.
  set (va := n * 4096) in *.
  pose proof (pi_leaf _ _ _ I _ _ _ _ _ Hq Hk) as Hl. rewrite <- Hn, Hmaps, forked_self in Hl.
  rewrite fork_entry_protect, bind_gets.
  change (load64 (mem mm) (page2pa q + 8 * k)) with (entry mm q k).
  fold (pte_valid (entry mm q k)). set (e := entry mm q k) in *.
  destruct (pte_valid e) eqn:Hval.
  2: { exists mm, tbl, maps. split; [done|]. split; [apply fork_at_skip; [done|by left]|done]. }
  cbn [andb]. rewrite <- negb_orb. change ((va =? TRAMPOLINE_BASE) || (va =? TRAMPOLINE_BASE + PAGE_SIZE))
    with (trampoline_page n).
  destruct (trampoline_page n) eqn:Ht; cbn [negb when].
  { exists mm, tbl, maps. split; [done|]. split; [apply fork_at_skip; [done|by right]|done]. }
  pose proof (fp_range _ _ _ _ _ Hpre n e Hl) as He. pose proof (fp_ne _ _ _ _ _ Hpre) as Hrc.
  assert (Hme : maps !! (r, vpn va) = Some e) by (by rewrite Hvpn, Hmaps, forked_self).
  assert (Hlo : leaf_of tbl r va q) by (unfold leaf_of; by rewrite Hi2, Hi1).
  destruct (protect_spec mm tbl maps r va q e I Hlo Hva Hme) as (mm1 & P1 & I1 & P2 & P3 & P4 & P5);
    [by rewrite Hi0|lia|].
  rewrite Hi0 in *. rewrite (bind_Ret _ _ _ _ _ P1), bind_gets.
  change (load64 (mem mm1) (page2pa q + 8 * k)) with (entry mm1 q k). rewrite P2.
  pose proof (cow_entry_range 54 e ltac:(lia) He) as Hce.
  destruct (PTE2PA_aligned (cow_entry e)) as [Hal Hpar].
  assert (Hperm : 0 <= PTE2PERM (cow_entry e) < 1024)
    by (rewrite PTE2PERM_arith by done; apply Z.mod_pos_bound; lia).
  assert (Hold : forall p, old_page (<[(r, vpn va) := cow_entry e]> maps) c va = Some p ->
    pte_page e = Some p /\ 2 <= ref mm1 p).
  { intros p Hp. unfold old_page in Hp. rewrite Hvpn, lookup_insert_ne in Hp by congruence.
    assert (Hc0 : maps !! (c, n) = maps0 !! (c, n)) by (rewrite Hmaps; unfold forked; simpl; by rewrite Z.ltb_irrefl).
    rewrite Hc0 in Hp. pose proof (fp_child _ _ _ _ _ Hpre n e p Hl Ht Hp) as Hpe. split; [done|].
    rewrite P4. destruct (maps0 !! (c, n)) as [e'|] eqn:Ec; [|done].
    rewrite Hvpn in Hme. eapply (shared_ref mm tbl maps (r, n) (c, n)); try done; congruence. }
  pose proof (todo_step n e Hl) as Htd.
  destruct (pageInsert_spec mm1 tbl (<[(r, vpn va) := cow_entry e]> maps) c va (PTE2PA (cow_entry e))
    (PTE2PERM (cow_entry e)) I1) as (mm2 & tbl2 & Hins & I2 & F); try done.
  { eapply lookup_weaken; [apply (fp_c _ _ _ _ _ Hpre)|done]. }
  { rewrite P3. lia. }
  { rewrite Hal, Z.sub_0_r. fold (child_entry e). rewrite child_entry_page by done. intros p Hp.
    destruct (pte_page_Some _ _ Hp) as (Hpok & _).
    assert (Hnf : p ∉ freePages mm) by (by eapply (mapped_not_free I)).
    assert (Hnf0 : p ∉ freePages mm0).
    { eapply (mapped_not_free (fp_inv _ _ _ _ _ Hpre)); [exact Hl|done|done]. }
    rewrite P3. split; [done|]. rewrite P4. specialize (Href p Hnf0). pose proof (fp_ref _ _ _ _ _ Hpre p).
    split; [unfold va in Hva; lia|]. intros Ho. destruct (Hold p Ho) as [_ H2]. rewrite P4 in H2. lia. }
  rewrite Hal, Z.sub_0_r in *. fold (child_entry e) in I2, F. rewrite Hvpn in *.
  rewrite (bind_Ret _ _ _ _ _ Hins). exists mm2, tbl2, (<[(c, n) := child_entry e]> (<[(r, n) := cow_entry e]> maps)).
  split; [done|]. destruct F as [F1 F2 F3 F4 F5 F6 F7]. rewrite P3 in *. split; [|done].
  assert (Hnf1 : forall p, p ∉ freePages mm0 -> p ∉ freePages mm) by (intros p Hp Hp'; auto).
  constructor.
  - done.
  - by transitivity tbl.
  - intros k0. rewrite (forked_step n e) by done. rewrite !lookup_insert.
    repeat case_decide; (done || congruence || by rewrite Hmaps).
  - lia.
  - intros p Hp. rewrite F4, P4 by auto. specialize (Href p Hp). repeat case_decide; lia.
  - intros p Hp. destruct (F5 p Hp) as [Hp'|[Ho H1]]; [auto|]. destruct (Hold p Ho) as [_ H2]. lia.
  - intros p Hp Hp2. destruct (tbl !! p) eqn:E; [apply Hnew; [done|by rewrite E]|]. apply Hfree. by apply F2.
  - intros a Ha. rewrite F3, P5, Hdata; [done|done| |].
    + destruct (tbl0 !! q) eqn:E; [apply Ha; right; by rewrite E|].
      apply Ha. left. apply Hnew; [done|by rewrite Hq].
    + intros p [Hp|Hp]; [apply Ha; left; auto|].
      destruct (tbl0 !! p) eqn:E; [apply Ha; right; by rewrite E|]. apply Ha. left. by apply Hnew.
Qed.

(** Entries that are not there: a range of virtual pages is skipped. *)
Lemma fork_at_skip_range n m mm tbl maps :
  fork_at n mm tbl maps -> (forall v, n <= v < n + Z.of_nat m -> maps0 !! (r, v) = None) ->
  fork_at (n + Z.of_nat m) mm tbl maps.
Proof.
  revert n. induction m as [|m IH]; intros n HA H; [by rewrite Z.add_0_r|].
  replace (n + Z.of_nat (S m)) with (n + 1 + Z.of_nat m) by lia. apply IH.
  - apply fork_at_skip; [done|]. left. apply H. lia.
  - intros v Hv. apply H. lia.
Qed.

(** From the state of the walk on, the parent's translations are the original ones. *)
Lemma fork_at_later n mm tbl maps v : fork_at n mm tbl maps -> n <= v -> maps !! (r, v) = maps0 !! (r, v).
Proof.
  intros HA Hv. rewrite (fa_maps _ _ _ _ HA). unfold forked. simpl. by rewrite (proj2 (Z.ltb_ge _ _)).
Qed.

Lemma no_leaf_no_map n mm tbl maps i j v :
  fork_at n mm tbl maps -> (forall q, tbl !! q <> Some (Leaf r i j)) ->
  0 <= i < 512 -> 0 <= j < 512 -> n <= v -> leaf_vpn i j 0 <= v < leaf_vpn i j 0 + 512 -> maps0 !! (r, v) = None.
Proof.
  intros HA Hno Hi Hj Hn Hv. rewrite <- (fork_at_later n mm tbl maps v HA Hn).
  destruct (maps !! (r, v)) as [e|] eqn:E; [exfalso|done].
  destruct (pi_maps _ _ _ (fa_inv _ _ _ _ HA) _ _ _ E) as (p & i2 & i1 & i0 & Hp & H2 & H1 & H0 & Hvv).
  assert (i2 = i /\ i1 = j) as [-> ->] by (unfold leaf_vpn in *; lia). by apply (Hno p).
Qed.

Lemma fork_leaf i j q mm tbl maps :
  fork_at (leaf_vpn i j 0) mm tbl maps -> 0 <= i < 512 -> 0 <= j < 512 -> tbl !! q = Some (Leaf r i j) ->
  exists mm' tbl' maps',
    for_up 512 0 (fun k =>
      fork_entry (page2pa c) (Z.shiftl i 30 + Z.shiftl j 21 + Z.shiftl k 12) (page2pa q + 8 * k)) mm = Ret tt mm' /\
    fork_at (leaf_vpn i (j + 1) 0) mm' tbl' maps' /\ tbl ⊆ tbl'.
Proof.
  intros HA Hi Hj Hq.
  destruct (for_up_inv (fun k mm' => exists tbl' maps', fork_at (leaf_vpn i j k) mm' tbl' maps' /\ tbl ⊆ tbl')
    (fun k => fork_entry (page2pa c) (Z.shiftl i 30 + Z.shiftl j 21 + Z.shiftl k 12) (page2pa q + 8 * k)) 512 0 mm)
    as (mm' & Hrun & tbl' & maps' & HA' & Hs).
  - intros k s Hk (t & m & HAk & Hsub). rewrite fork_va by lia.
    destruct (fork_entry_step (leaf_vpn i j k) s t m i j k q HAk eq_refl) as (s' & t' & m' & H1 & H2 & H3);
      try lia; [by eapply lookup_weaken|].
    exists s'. split; [done|]. exists t', m'. split; [|by transitivity t].
    by replace (leaf_vpn i j (k + 1)) with (leaf_vpn i j k + 1) by (unfold leaf_vpn; lia).
  - eauto.
  - exists mm', tbl', maps'. split_and!; [done| |done].
    by replace (leaf_vpn i (j + 1) 0) with (leaf_vpn i j (0 + Z.of_nat 512)) by (unfold leaf_vpn; lia).
Qed.

Lemma fork_mid i q1 mm tbl maps :
  fork_at (leaf_vpn i 0 0) mm tbl maps -> 0 <= i < 512 -> tbl !! q1 = Some (Mid r i) ->
  exists mm' tbl' maps',
    for_up 512 0 (fun j =>
      e ← gets (fun mm => load64 (mem mm) (page2pa q1 + 8 * j));
      when (c_true (Z.land e PTE_VALID)) (
        let pa2 := PTE2PA e in
        for_up 512 0 (fun k =>
          fork_entry (page2pa c) (Z.shiftl i 30 + Z.shiftl j 21 + Z.shiftl k 12) (pa2 + 8 * k)))) mm = Ret tt mm' /\
    fork_at (leaf_vpn (i + 1) 0 0) mm' tbl' maps' /\ tbl ⊆ tbl'.
Proof.
  intros HA Hi Hq.
  match goal with |- exists mm' tbl' maps', for_up 512 0 ?body mm = _ /\ _ =>
    destruct (for_up_inv (fun j mm' => exists tbl' maps', fork_at (leaf_vpn i j 0) mm' tbl' maps' /\ tbl ⊆ tbl')
      body 512 0 mm) as (mm' & Hrun & tbl' & maps' & HA' & Hs) end.
  - intros j s Hj (t & m & HAj & Hsub). rewrite bind_gets.
    change (load64 (mem s) (page2pa q1 + 8 * j)) with (entry s q1 j).
    assert (Hq' : t !! q1 = Some (Mid r i)) by (by eapply lookup_weaken).
    destruct (dir_entry_read s t m q1 (Mid r i) j (fa_inv _ _ _ _ HAj) Hq' eq_refl ltac:(lia))
      as [[-> Hno]|(q & Hqq & -> & ->)]; cbn [when].
    + exists s. split; [done|]. exists t, m. split; [|done].
      replace (leaf_vpn i (j + 1) 0) with (leaf_vpn i j 0 + Z.of_nat 512) by (unfold leaf_vpn; lia).
      apply fork_at_skip_range; [done|]. intros v Hv.
      eapply (no_leaf_no_map (leaf_vpn i j 0) s t m i j v); try done; lia.
    + destruct (fork_leaf i j q s t m HAj ltac:(lia) ltac:(lia) Hqq) as (s' & t' & m' & H1 & H2 & H3).
      exists s'. split; [done|]. exists t', m'. split; [done|by transitivity t].
  - eauto.
  - exists mm', tbl', maps'. split_and!; [exact Hrun| |done].
    by replace (leaf_vpn (i + 1) 0 0) with (leaf_vpn i (0 + Z.of_nat 512) 0) by (unfold leaf_vpn; lia).
Qed.

Lemma fork_memory_at :
  exists mm' tbl' maps', fork_memory (page2pa r) (page2pa c) mm0 = Ret tt mm' /\
    fork_at (2 ^ 27) mm' tbl' maps'.
Proof.
  unfold fork_memory.
  match goal with |- exists mm' tbl' maps', for_up 512 0 ?body mm0 = _ /\ _ =>
    destruct (for_up_inv (fun i mm' => exists tbl' maps', fork_at (leaf_vpn i 0 0) mm' tbl' maps')
      body 512 0 mm0) as (mm' & Hrun & tbl' & maps' & HA') end.
  - intros i s Hi (t & m & HAi). rewrite bind_gets.
    change (load64 (mem s) (page2pa r + 8 * i)) with (entry s r i).
    assert (Hr' : t !! r = Some (Root r)).
    { eapply lookup_weaken; [apply (fp_r _ _ _ _ _ Hpre)|apply (fa_tbl _ _ _ _ HAi)]. }
    destruct (dir_entry_read s t m r (Root r) i (fa_inv _ _ _ _ HAi) Hr' eq_refl ltac:(lia))
      as [[-> Hno]|(q & Hq & -> & ->)]; cbn [when].
    + exists s. split; [done|]. exists t, m.
      replace (leaf_vpn (i + 1) 0 0) with (leaf_vpn i 0 0 + Z.of_nat (Z.to_nat 262144)) by (unfold leaf_vpn; lia).
      apply fork_at_skip_range; [done|]. intros v Hv.
      assert (Hj : exists j, 0 <= j < 512 /\ leaf_vpn i j 0 <= v < leaf_vpn i j 0 + 512).
      { exists ((v - leaf_vpn i 0 0) / 512). unfold leaf_vpn in *. Z.to_euclidean_division_equations; lia. }
      destruct Hj as (j & Hj & Hvj). eapply (no_leaf_no_map (leaf_vpn i 0 0) s t m i j v); try done; try lia.
      intros q Hq. destruct (pi_parent _ _ _ (fa_inv _ _ _ _ HAi) q (Mid r i) j eq_refl Hq) as [_ [p Hp]].
      by apply (Hno p).
    + destruct (fork_mid i q s t m HAi ltac:(lia) Hq) as (s' & t' & m' & H1 & H2 & H3).
      exists s'. split; [done|]. by exists t', m'.
  - exists tbl0, maps0. constructor; try done.
    + apply Hpre.
    + intros [a b]. unfold forked. simpl. destruct (Z.ltb_spec b (leaf_vpn 0 0 0)) as [Hb|]; [|done].
      destruct (negb (trampoline_page b)); [|done]. simpl.
      assert (Hnone : forall x, maps0 !! (x, b) = None).
      { intros x. destruct (maps0 !! (x, b)) as [e|] eqn:E; [exfalso|done].
        destruct (pi_maps _ _ _ (fp_inv _ _ _ _ _ Hpre) _ _ _ E) as (p & i2 & i1 & i0 & _ & ? & ? & ? & ->).
        unfold leaf_vpn in Hb. lia. }
      rewrite !Hnone. by repeat case_decide.
    + apply (fp_free _ _ _ _ _ Hpre).
    + intros p _. change (leaf_vpn 0 0 0) with 0. lia.
    + intros q Hq [o Ho]. congruence.
  - exists mm', tbl', maps'. split; [exact Hrun|]. exact HA'.
Qed.
End walk.

(** C4. Forking shares memory copy on write.  [fork_memory] returns, and then every
    page of the parent other than the trampoline is mapped at the same virtual
    address in the child, to the same physical page with the same read, execute
    and user permissions; neither of the two entries can be written through, and both
    are marked copy-on-write when the parent could write; the parent's other
    translations, those of all other address spaces and every byte of every data
    page are as before, and the page-table invariant (so in particular the
    reference counts) holds for the result. *)
Theorem fork_shares mm tbl maps r c :
  fork_pre mm tbl maps r c ->
  exists mm' tbl' maps', fork_memory (page2pa r) (page2pa c) mm = Ret tt mm' /\ pt_inv mm' tbl' maps' /\
    (forall v e, maps !! (r, v) = Some e -> trampoline_page v = false ->
       maps' !! (r, v) = Some (cow_entry e) /\ maps' !! (c, v) = Some (child_entry e) /\
       pte_page (cow_entry e) = pte_page e /\ pte_page (child_entry e) = pte_page e /\
       (forall b, b ∈ [PTE_READ; PTE_EXECUTE; PTE_USER] -> Z.land (cow_entry e) b = Z.land e b) /\
       (forall b, b ∈ [PTE_READ; PTE_WRITE; PTE_EXECUTE; PTE_USER; PTE_COW] ->
          Z.land (child_entry e) b = Z.land (cow_entry e) b) /\
       Z.land (cow_entry e) PTE_WRITE = 0 /\ (Z.land e PTE_WRITE <> 0 -> Z.land (cow_entry e) PTE_COW <> 0)) /\
    (forall v, trampoline_page v = true -> maps' !! (r, v) = maps !! (r, v) /\ maps' !! (c, v) = maps !! (c, v)) /\
    (forall v, maps !! (r, v) = None -> maps' !! (r, v) = None /\ maps' !! (c, v) = maps !! (c, v)) /\
    (forall x v, x <> r -> x <> c -> maps' !! (x, v) = maps !! (x, v)) /\
    (forall a, (forall q, q ∈ freePages mm \/ is_Some (tbl !! q) -> ~ in_page q a) ->
       load8 (mem mm') a = load8 (mem mm) a).
Proof.
  intros Hpre. destruct (fork_memory_at mm tbl maps r c Hpre) as (mm' & tbl' & maps' & Hrun & HA).
  exists mm', tbl', maps'. destruct HA as [I _ Hm _ _ _ _ Hd]. pose proof (fp_ne _ _ _ _ _ Hpre) as Hne.
  assert (Hlt : forall v e, maps !! (r, v) = Some e -> (v <? 2 ^ 27) = true).
  { intros v e He. apply Z.ltb_lt.
    destruct (pi_maps _ _ _ (fp_inv _ _ _ _ _ Hpre) _ _ _ He) as (p & i2 & i1 & i0 & _ & ? & ? & ? & ->).
    unfold leaf_vpn. lia. }
  split_and!; try done.
  - intros v e He Ht. rewrite !Hm. unfold forked. simpl. rewrite (Hlt v e He), Ht. simpl.
    rewrite decide_True by done. rewrite (decide_False (P := c = r)), decide_True by done. rewrite He.
    destruct (cow_entry_readonly e). pose proof (fp_range _ _ _ _ _ Hpre _ _ He).
    split_and!; try done; [apply cow_entry_page|by apply child_entry_page|intros; by apply cow_entry_bits|].
    intros. by apply child_entry_bits.
  - intros v Ht. rewrite !Hm. unfold forked. simpl. rewrite Ht. by rewrite andb_false_r.
  - intros v Hn. rewrite !Hm. unfold forked. simpl. rewrite Hn. destruct (_ && _); [|done].
    by rewrite decide_True, (decide_False (P := c = r)), decide_True by done.
  - intros x v Hx Hx'. rewrite Hm. unfold forked. simpl. destruct (_ && _); [|done].
    by rewrite !decide_False.
Qed.

(** ** A concrete fork *)

(** Page 300 mapped writable at 0x1000 of directory 200, and the empty directory 203. *)
Definition rw_bits : Z := Z.lor PTE_USER (Z.lor PTE_READ PTE_WRITE).
Definition mm_parent : MM :=
  match Page.pageInsert (page2pa 200) 0x1234 (page2pa 300) rw_bits mm1 with
  | Ret _ m => m
  | _ => mm1
  end.
Definition mm_both : MM := new_root 203 mm_parent.
Definition pte_rw : Z := new_pte (page2pa 300) rw_bits.
Definition maps_parent : gmap (Z * Z) Z := <[(200, 1) := pte_rw]> ∅.

Lemma mm_parent_free : freePages mm_parent = [203; 204; 205].
Proof. vm_compute. reflexivity. Qed.

Lemma mm_both_refs : map_Forall (fun _ x => 0 <= x /\ x < 100) (page_ref mm_both).
Proof. apply (bool_decide_unpack _). vm_compute. exact I. Qed.

Lemma mm_both_pre : exists tbl, fork_pre mm_both tbl maps_parent 200 203.
Proof.
  destruct (mm1_insert rw_bits) as (m & tbl & H & I & Hr & _); [vm_compute; split; [discriminate|reflexivity]|].
  assert (mm_parent = m) as Hm by (unfold mm_parent; by rewrite H). rewrite <- Hm in I. clear Hm H.
  fold pte_rw in I. fold maps_parent in I.
  destruct (allocPgdir_inv _ _ _ _ _ I mm_parent_free) as (_ & I' & Hf').
  destruct (alloc_fresh _ _ _ _ _ I mm_parent_free) as (_ & Hn & _).
  assert (Hmaps : forall v e, maps_parent !! (200, v) = Some e -> e = pte_rw).
  { intros v e. unfold maps_parent. rewrite lookup_insert_Some. by intros [[_ <-]|[_ H]]. }
  exists (<[203 := Root 203]> tbl). constructor.
  - exact I'.
  - rewrite lookup_insert_ne; [exact Hr|discriminate].
  - apply lookup_insert_eq.
  - discriminate.
  - intros v e ->%Hmaps. vm_compute. split; [discriminate|reflexivity].
  - intros v e p _ _. replace (maps_parent !! (203, v)) with (@None Z); [by intros [=]|].
    symmetry. apply lookup_insert_None. split; [apply lookup_empty|]. intros [= ? ?].
  - intros p. unfold ref. destruct (page_ref mm_both !! p) as [x|] eqn:E; [|done].
    destruct (mm_both_refs _ _ E) as [H1 H2]. change (u32 x < 2 ^ 31). unfold u32. rewrite Z.mod_small by lia. lia.
  - change (freePages mm_both) with (freePages (new_root 203 mm_parent)). rewrite Hf'. vm_compute. lia.
Qed.

Lemma fork_shares_witness :
  exists mm' tbl' maps', fork_memory (page2pa 200) (page2pa 203) mm_both = Ret tt mm' /\
    pt_inv mm' tbl' maps' /\ maps' !! (203, 1) = Some (child_entry pte_rw) /\ pte_page (child_entry pte_rw) = Some 300.
Proof.
  destruct mm_both_pre as [tbl Hpre].
  destruct (fork_shares mm_both tbl maps_parent 200 203 Hpre) as (mm' & tbl' & maps' & Hrun & I & Hs & _).
  exists mm', tbl', maps'. destruct (Hs 1 pte_rw) as (_ & Hc & _); [by unfold maps_parent; rewrite lookup_insert_eq|done|].
  split_and!; [exact Hrun|exact I|exact Hc|vm_compute; reflexivity].
Defined.
