(* ===== verification/AddrSpace.v ===== *)
(** * The life of address spaces

    The operations of Page.c and the memory part of a fork, in any order and over
    any number of page directories: what holds in every state they reach, and what
    the destruction of a directory gives back. *)

From S2P Require Import Prelude CType Mem Config Queue Page PageInv PageFree PageSpec UserCopy Sched Bio Fat FatFile Pipe.
From S2P Require Import Segment File Signal Process ForkSpec.

(** ** Sequences of operations

    The states reached from an allocator with an arbitrary free list by any
    sequence of page-table operations, each called the way the kernel calls it;
    the guards speak only of the machine state. *)

Inductive pt_op :=
  | OpNew
  | OpInsert (r va pa perm : Z)
  | OpRemove (r va : Z)
  | OpCow (r va : Z)
  | OpFork (r c : Z)
  | OpFree (r : Z).

Definition pt_exec (op : pt_op) : M MM Z :=
  match op with
  | OpNew => Page.allocPgdir
  | OpInsert r va pa perm => Page.pageInsert (page2pa r) va pa perm
  | OpRemove r va => Page.pageRemove (page2pa r) va
  | OpCow r va => Page.cowHandler (page2pa r) va
  | OpFork r c => fork_memory (page2pa r) (page2pa c) ;; mret 0
  | OpFree r => Page.pgdirFree (page2pa r) ;; mret 0
  end.

(** The pages of a directory, as memory has them: the root, the tables its entries
    point at and the tables these point at. *)
Definition points_to (mm : MM) (p q : Z) : Prop :=
  exists i, 0 <= i < 512 /\ pte_valid (entry mm p i) = true /\ pa2page (PTE2PA (entry mm p i)) = Some q.
Definition dir_page (mm : MM) (r q : Z) : Prop :=
  q = r \/ points_to mm r q \/ exists p, points_to mm r p /\ points_to mm p q.

(** The virtual pages a directory maps. *)
Definition maps_page (mm : MM) (r v : Z) : Prop :=
  exists pa pte, Page.pageLookup (page2pa r) (v * 4096) mm = Ret (pa, Some pte) mm.

Definition pt_call_ok (mm : MM) (roots : list Z) (op : pt_op) : Prop :=
  match op with
  | OpNew => freePages mm <> []
  | OpInsert r va pa perm =>
      r ∈ roots /\ 0 <= va < 2 ^ 39 /\ 0 <= pa < 2 ^ 56 /\ 0 <= perm < 1024 /\
      (2 <= length (freePages mm))%nat /\
      forall p, pa2page (pa - pa mod 4096) = Some p -> IS_RAM (pa - pa mod 4096) = true ->
        (p ∉ freePages mm) /\ ref mm p + 1 < 2 ^ 32 /\
        (translates mm r va (pa - pa mod 4096) -> ref mm p <> 1)
  | OpRemove r va => r ∈ roots /\ 0 <= va < 2 ^ 39
  | OpCow r va =>
      r ∈ roots /\ 0 <= va < 2 ^ 39 /\ (3 <= length (freePages mm))%nat /\
      exists pa pte, Page.pageLookup (page2pa r) va mm = Ret (pa, Some pte) mm /\
        load64 (mem mm) pte < 2 ^ 54 /\ IS_RAM pa = true /\
        Z.land (load64 (mem mm) pte) PTE_COW <> 0
  | OpFork r c =>
      r ∈ roots /\ c ∈ roots /\ r <> c /\ (forall p, ref mm p < 2 ^ 31) /\
      (forall va pa pte, 0 <= va < 2 ^ 39 -> Page.pageLookup (page2pa r) va mm = Ret (pa, Some pte) mm ->
         load64 (mem mm) pte < 2 ^ 54 /\
         (trampoline_page (vpn va) = false ->
          forall pa', translates mm c va pa' -> IS_RAM pa' = true -> pa' = pa)) /\
      (forall l, NoDup l -> (forall v, v ∈ l -> 0 <= v < 2 ^ 27 /\ maps_page mm r v) ->
         (2 * length l <= length (freePages mm))%nat)
  | OpFree r => r ∈ roots /\ forall q, dir_page mm r q -> ref mm q = 1
  end.

Definition pt_roots (op : pt_op) (x : Z) (roots : list Z) : list Z :=
  match op with OpNew => x :: roots | OpFree r => filter (fun y => y <> r) roots | _ => roots end.

Inductive pt_reach : list Z -> MM -> Prop :=
  | reach_init mm : free_ok mm -> pt_reach [] mm
  | reach_step roots mm op x mm' :
      pt_reach roots mm -> pt_call_ok mm roots op -> pt_exec op mm = Ret x mm' ->
      pt_reach (pt_roots op x roots) mm'.

Definition pt_good (roots : list Z) (mm : MM) : Prop :=
  exists tbl maps, pt_inv mm tbl maps /\ forall r, r ∈ roots -> tbl !! r = Some (Root r).

Lemma step_new roots mm x mm' :
  pt_good roots mm -> freePages mm <> [] -> Page.allocPgdir mm = Ret x mm' ->
  pt_good (x :: roots) mm'.
Proof.
  intros (tbl & maps & I & Hr) Hf Hrun. destruct (freePages mm) as [|r fl] eqn:Ef; [done|].
  destruct (allocPgdir_inv _ _ _ _ _ I Ef) as (H & I' & _). rewrite H in Hrun.
  injection Hrun as <- <-. destruct (alloc_fresh _ _ _ _ _ I Ef) as (_ & Hnt & _).
  exists (<[r := Root r]> tbl), maps. split; [done|]. intros q. rewrite elem_of_cons.
  intros [-> | Hq]; [by rewrite lookup_insert_eq|]. specialize (Hr _ Hq).
  rewrite lookup_insert_ne; [done|congruence].
Qed.

Lemma step_insert roots mm r va pa perm x mm' :
  pt_good roots mm -> pt_call_ok mm roots (OpInsert r va pa perm) ->
  Page.pageInsert (page2pa r) va pa perm mm = Ret x mm' -> pt_good roots mm'.
Proof.
  intros (tbl & maps & I & Hr) (Hin & Hva & Hpa & Hperm & Hfr & Hp) Hrun.
  destruct (pageInsert_spec mm tbl maps r va pa perm I (Hr _ Hin) Hva Hpa Hperm Hfr)
    as (m & tbl' & H & I' & F).
  - intros p Hpp. destruct (pte_page_Some _ _ Hpp) as (Hok & HR & Heq).
    unfold pte_page in Hpp. rewrite HR in Hpp.
    rewrite PTE2PA_new_pte in * by (done || (Z.to_euclidean_division_equations; lia)).
    destruct (Hp _ Hpp HR) as (Hnf & Hb & Hself). split_and!; [done|done|].
    intros Hold. apply Hself. apply (translates_iff _ _ _ _ _ _ I (Hr _ Hin) Hva).
    unfold old_page in Hold. unfold lookup_pa.
    destruct (maps !! (r, vpn va)) as [e|]; [|done].
    destruct (pte_page_Some _ _ Hold) as (_ & _ & ->). done.
  - rewrite H in Hrun. injection Hrun as <- <-. eexists tbl', _. split; [exact I'|].
    intros q Hq. eapply lookup_weaken; [by apply Hr|apply F].
Qed.

Lemma step_remove roots mm r va x mm' :
  pt_good roots mm -> r ∈ roots -> 0 <= va < 2 ^ 39 ->
  Page.pageRemove (page2pa r) va mm = Ret x mm' -> pt_good roots mm'.
Proof.
  intros (tbl & maps & I & Hr) Hin Hva Hrun.
  pose proof (pageRemove_spec mm tbl maps r va I (Hr _ Hin) Hva) as H.
  destruct (maps !! (r, vpn va) ≫= pte_page) as [p|].
  - destruct H as (q & _ & _ & _ & Heq & I'). rewrite Heq in Hrun. injection Hrun as <- <-.
    eexists _, _. split; [exact I'|done].
  - rewrite H in Hrun. injection Hrun as <- <-. by exists tbl, maps.
Qed.

Lemma step_cow roots mm r va x mm' :
  pt_good roots mm -> pt_call_ok mm roots (OpCow r va) ->
  Page.cowHandler (page2pa r) va mm = Ret x mm' -> pt_good roots mm'.
Proof.
  intros (tbl & maps & I & Hr) (Hin & Hva & Hfr & pa & pte & Hl & Hb & HR & Hc) Hrun.
  pose proof (pageLookup_spec mm tbl maps r va I (Hr _ Hin) Hva) as L.
  destruct (maps !! (r, vpn va)) as [e|] eqn:He; [|congruence].
  destruct L as (q & _ & Hqe & _ & L). rewrite L in Hl. injection Hl as <- <-.
  unfold entry in Hqe. rewrite Hqe in *.
  destruct (freePages mm) as [|n fl] eqn:Ef; [simpl in Hfr; lia|].
  destruct (pa2page_ok _ HR) as [Hpg _].
  assert (He54 : 0 <= e < 2 ^ 54) by (rewrite <- Hqe in Hb |- *; pose proof (load64_range (mem mm)
    (page2pa q + 8 * GET_PAGE_TABLE_INDEX va 0)); lia).
  destruct (cowHandler_spec mm tbl maps r va e _ n fl I (Hr _ Hin) Hva He He54
    ltac:(unfold pte_page; rewrite HR; exact Hpg) Hc Ef) as (m & tbl' & H & I' & Hs & _).
  { simpl in Hfr. lia. }
  rewrite H in Hrun. injection Hrun as <- <-. eexists tbl', _. split; [exact I'|].
  intros k Hk. eapply lookup_weaken; [by apply Hr|done].
Qed.

Lemma vpn_page v : 0 <= v < 2 ^ 27 -> 0 <= v * 4096 < 2 ^ 39 /\ vpn (v * 4096) = v.
Proof. intros Hv. split; [lia|]. unfold vpn. Z.to_euclidean_division_equations; lia. Qed.

Lemma maps_vpn mm tbl maps r v e : pt_inv mm tbl maps -> maps !! (r, v) = Some e -> 0 <= v < 2 ^ 27.
Proof.
  intros I He. destruct (pi_maps _ _ _ I _ _ _ He) as (p & i2 & i1 & i0 & _ & ? & ? & ? & ->).
  unfold leaf_vpn. lia.
Qed.

Lemma mapped_lookup mm tbl maps r v e :
  pt_inv mm tbl maps -> tbl !! r = Some (Root r) -> maps !! (r, v) = Some e ->
  exists pte, Page.pageLookup (page2pa r) (v * 4096) mm = Ret (PTE2PA e, Some pte) mm /\ load64 (mem mm) pte = e.
Proof.
  intros I Hr He. destruct (vpn_page v (maps_vpn _ _ _ _ _ _ I He)) as [Hva Hv].
  pose proof (pageLookup_spec mm tbl maps r (v * 4096) I Hr Hva) as L. rewrite Hv, He in L.
  destruct L as (q & _ & Hq & _ & L). eexists. split; [exact L|exact Hq].
Qed.

Lemma lookup_mapped mm tbl maps r va pa pte :
  pt_inv mm tbl maps -> tbl !! r = Some (Root r) -> 0 <= va < 2 ^ 39 ->
  Page.pageLookup (page2pa r) va mm = Ret (pa, Some pte) mm -> maps !! (r, vpn va) = Some (load64 (mem mm) pte).
Proof.
  intros I Hr Hva L. pose proof (pageLookup_spec mm tbl maps r va I Hr Hva) as H.
  destruct (maps !! (r, vpn va)) as [e|]; [|congruence]. destruct H as (q & _ & <- & _ & H).
  rewrite H in L. by injection L as _ <-.
Qed.

Lemma step_fork roots mm r c x mm' :
  pt_good roots mm -> pt_call_ok mm roots (OpFork r c) -> pt_exec (OpFork r c) mm = Ret x mm' ->
  pt_good roots mm'.
Proof.
  intros (tbl & maps & I & Hr) (Hin & Hinc & Hne & Href & Hent & Hroom) Hrun.
  assert (Hpre : fork_pre mm tbl maps r c).
  { constructor; auto.
    - intros v e He. destruct (mapped_lookup _ _ _ _ _ _ I (Hr _ Hin) He) as (pte & L & <-).
      pose proof (load64_range (mem mm) pte). split; [lia|].
      by apply (Hent _ _ _ (proj1 (vpn_page v (maps_vpn _ _ _ _ _ _ I He))) L).
    - intros v e p He Ht Hc. destruct (mapped_lookup _ _ _ _ _ _ I (Hr _ Hin) He) as (pte & L & _).
      destruct (vpn_page v (maps_vpn _ _ _ _ _ _ I He)) as [Hva Hv].
      destruct (Hent _ _ _ Hva L) as [_ Hsame]. rewrite Hv in Hsame.
      destruct (maps !! (c, v)) as [e'|] eqn:He'; [|done]. simpl in Hc.
      assert (PTE2PA e' = PTE2PA e) as Heq.
      { apply Hsame; [done| |by destruct (pte_page_Some _ _ Hc) as (_ & ? & _)].
        apply (translates_iff _ _ _ _ _ _ I (Hr _ Hinc) Hva). unfold lookup_pa. by rewrite Hv, He'. }
      unfold pte_page in *. by rewrite <- Heq.
    - unfold pages_from. set (f := filter _ maps).
      replace (size f) with (length ((fun kv : (Z * Z) * Z => kv.1.2) <$> map_to_list f))
        by (rewrite length_fmap; apply length_map_to_list).
      apply Hroom.
      + apply NoDup_fmap_2_strong; [|apply NoDup_map_to_list].
        intros [[a b] e] [[a' b'] e'] H1%elem_of_map_to_list H2%elem_of_map_to_list Hb. simpl in Hb. subst b'.
        apply map_lookup_filter_Some in H1 as (H1 & Ha & _), H2 as (H2 & Ha' & _). simpl in Ha, Ha'. subst a a'.
        rewrite H1 in H2. by injection H2 as <-.
      + intros v ([[a b] e] & -> & H1%elem_of_map_to_list)%list_elem_of_fmap. simpl.
        apply map_lookup_filter_Some in H1 as (H1 & Ha & _). simpl in Ha. subst a.
        split; [by eapply maps_vpn|]. destruct (mapped_lookup _ _ _ _ _ _ I (Hr _ Hin) H1) as (pte & L & _).
        by exists (PTE2PA e), pte. }
  destruct (fork_memory_at mm tbl maps r c Hpre) as (m & tbl' & maps' & H & HA).
  cbn [pt_exec] in Hrun. rewrite (bind_Ret _ _ _ _ _ H) in Hrun. injection Hrun as <- <-.
  exists tbl', maps'. split; [apply HA|]. intros k Hk. eapply lookup_weaken; [by apply Hr|apply HA].
Qed.

(** The tables of a directory are the pages memory links from its root. *)
Lemma table_points mm tbl maps p o i q :
  pt_inv mm tbl maps -> tbl !! p = Some o -> is_dir o = true -> tbl !! q = Some (child o i) -> points_to mm p q.
Proof.
  intros I Hp Hd Hq. destruct (pi_parent _ _ _ I q o i Hd Hq) as [Hi _]. exists i. split; [done|].
  destruct (dir_entry_read mm tbl maps p o i I Hp Hd Hi) as [[_ Hno]|(z & Hz & Hv & Hpa)]; [by destruct (Hno q)|].
  assert (z = q) as -> by (by eapply (pi_uniq _ _ _ I)). split; [done|].
  rewrite Hpa. apply pa2page_page2pa. by eapply (pi_tbl _ _ _ I).
Qed.

Lemma points_table mm tbl maps p o q :
  pt_inv mm tbl maps -> tbl !! p = Some o -> is_dir o = true -> points_to mm p q ->
  exists i, tbl !! q = Some (child o i).
Proof.
  intros I Hp Hd (i & Hi & Hv & Hq). exists i.
  destruct (dir_entry_read mm tbl maps p o i I Hp Hd Hi) as [[Hv' _]|(z & Hz & _ & Hpa)].
  - unfold pte_valid in Hv. congruence.
  - rewrite Hpa, pa2page_page2pa in Hq by (by eapply (pi_tbl _ _ _ I)). by injection Hq as <-.
Qed.

Lemma table_dir_page mm tbl maps r q :
  pt_inv mm tbl maps -> tbl !! r = Some (Root r) -> table_of tbl r q = true -> dir_page mm r q.
Proof.
  intros I Hr. unfold table_of. destruct (tbl !! q) as [o|] eqn:E; [|done]. intros Ho%Z.eqb_eq.
  destruct o as [x|x i|x i j]; simpl in Ho; subst x.
  - left. by eapply (pi_root _ _ _ I).
  - right; left. exact (table_points _ _ _ r (Root r) i q I Hr eq_refl E).
  - right; right. destruct (pi_parent _ _ _ I q (Mid r i) j eq_refl E) as [_ [p Hp]]. exists p. split.
    + exact (table_points _ _ _ r (Root r) i p I Hr eq_refl Hp).
    + exact (table_points _ _ _ p (Mid r i) j q I Hp eq_refl E).
Qed.

Lemma dir_page_table mm tbl maps r q :
  pt_inv mm tbl maps -> tbl !! r = Some (Root r) -> dir_page mm r q -> table_of tbl r q = true.
Proof.
  intros I Hr H. unfold table_of. destruct H as [-> |[H|(p & H1 & H2)]].
  - rewrite Hr. apply Z.eqb_refl.
  - destruct (points_table _ _ _ _ _ _ I Hr eq_refl H) as [i ->]. apply Z.eqb_refl.
  - destruct (points_table _ _ _ _ _ _ I Hr eq_refl H1) as [i Hi].
    destruct (points_table _ _ _ _ _ _ I Hi eq_refl H2) as [j ->]. apply Z.eqb_refl.
Qed.

Lemma step_free roots mm r x mm' :
  pt_good roots mm -> pt_call_ok mm roots (OpFree r) -> pt_exec (OpFree r) mm = Ret x mm' ->
  pt_good (filter (fun y => y <> r) roots) mm'.
Proof.
  intros (tbl & maps & I & Hr) (Hin & Hone) Hrun.
  destruct (pgdirFree_spec mm tbl maps r I (Hr _ Hin)) as (m & H & I' & _).
  { intros q Hq. apply Hone. by eapply table_dir_page; [|apply Hr|]. }
  cbn [pt_exec] in Hrun. rewrite (bind_Ret _ _ _ _ _ H) in Hrun. injection Hrun as <- <-.
  exists (other_tables r tbl), (other_maps r maps). split; [exact I'|].
  intros k [Hk Hki]%list_elem_of_filter. apply other_tables_Some. split; [by apply Hr|done].
Qed.

Lemma pt_reach_good roots mm : pt_reach roots mm -> pt_good roots mm.
Proof.
  induction 1 as [mm Hf|roots mm op x mm' _ IH Hok Hrun].
  - exists ∅, ∅. split; [by apply pt_inv_empty|]. by intros r ?%elem_of_nil.
  - destruct op; simpl in *.
    + by eapply step_new.
    + by eapply step_insert.
    + by eapply step_remove; [|apply Hok|apply Hok|].
    + by eapply step_cow.
    + by eapply step_fork.
    + by eapply step_free.
Qed.

(** C2. In every state reached by creating page directories, inserting and removing
    translations, copying on write, forking one directory into another and
    destroying directories, in any order and over any number of directories, the
    pages of the free list are distinct and unreferenced, and a page some
    directory translates an address to is counted and is not on the free list:
    no mapped page can be handed out again. *)
Theorem reachable_mapped_not_free roots mm r va pa p :
  pt_reach roots mm -> r ∈ roots -> 0 <= va < 2 ^ 39 ->
  translates mm r va pa -> IS_RAM pa = true -> pa2page pa = Some p ->
  free_ok mm /\ 1 <= ref mm p /\ p ∉ freePages mm.
Proof.
  intros Hreach Hin Hva Ht HR Hp. destruct (pt_reach_good _ _ Hreach) as (tbl & maps & I & Hr).
  split; [apply I|]. apply (translates_iff _ _ _ _ _ _ I (Hr _ Hin) Hva) in Ht.
  unfold lookup_pa in Ht. destruct (maps !! (r, vpn va)) as [e|] eqn:He; [|by subst].
  subst pa. assert (Hpe : pte_page e = Some p) by (unfold pte_page; by rewrite HR).
  destruct (pte_page_Some _ _ Hpe) as (Hok & _). split.
  - pose proof (pi_refs _ _ _ I p Hok). pose proof (refs_to_pos _ _ _ _ He Hpe).
    destruct (tbl !! p); lia.
  - by eapply mapped_not_free.
Qed.

(** ** Destroying a directory *)

(** A page with references from a directory is mapped by it. *)
Lemma maps_of_pos r maps p : 0 < refs_to (maps_of r maps) p ->
  exists v e, maps !! (r, v) = Some e /\ pte_page e = Some p.
Proof.
  intros H. unfold refs_to in H.
  destruct (map_choose (filter (fun kv => pte_page kv.2 = Some p) (maps_of r maps))) as ([x v] & e & He).
  - intros E. rewrite E, map_size_empty in H. lia.
  - apply map_lookup_filter_Some in He as [He Hp]. apply map_lookup_filter_Some in He as [He Hx].
    simpl in Hx. subst x. by exists v, e.
Qed.

(** C3. Destroying a directory.  When each of its tables is referenced once, by its
    parent, [pgdirFree] returns and leaves the page-table invariant for the other
    directories, which translate every address as before.  Every table of the
    directory, the root included, is then on the free list; every page it mapped has
    lost one reference for each of its translations there and is on the free list
    exactly when it had no others; nothing else was freed, and no byte outside the
    page tables has changed. *)
Theorem pgdirFree_frees mm tbl maps r :
  pt_inv mm tbl maps -> tbl !! r = Some (Root r) ->
  (forall q, table_of tbl r q = true -> ref mm q = 1) ->
  exists mm', Page.pgdirFree (page2pa r) mm = Ret tt mm' /\
    pt_inv mm' (other_tables r tbl) (other_maps r maps) /\
    (forall r' va x, tbl !! r' = Some (Root r') -> r' <> r -> 0 <= va < 2 ^ 39 ->
       translates mm r' va x <-> translates mm' r' va x) /\
    (forall q, table_of tbl r q = true -> q ∈ freePages mm' /\ ref mm' q = 0) /\
    (forall v e p, maps !! (r, v) = Some e -> pte_page e = Some p ->
       ref mm' p = ref mm p - refs_to (maps_of r maps) p /\
       (p ∈ freePages mm' <-> ref mm p = refs_to (maps_of r maps) p)) /\
    (forall p, p ∈ freePages mm' -> p ∉ freePages mm ->
       table_of tbl r p = true \/ exists v e, maps !! (r, v) = Some e /\ pte_page e = Some p) /\
    (forall a, (forall q, is_Some (tbl !! q) -> ~ in_page q a) -> load8 (mem mm') a = load8 (mem mm) a).
Proof.
  intros I Hr Hone. destruct (pgdirFree_spec mm tbl maps r I Hr Hone) as (mm' & Hrun & I' & Href & Hfree & Hdata).
  exists mm'. split_and!; [exact Hrun|exact I'| | | | |exact Hdata].
  - intros r' va x Hr' Hne Hva. rewrite (translates_iff _ _ _ _ _ _ I Hr' Hva).
    rewrite (translates_iff _ _ _ _ _ _ I'); [|by apply other_tables_Some|done].
    unfold lookup_pa. by rewrite other_maps_ne.
  - intros q Hq. pose proof (Hone q Hq) as H1. pose proof (Href q) as H0. rewrite Hq, H1 in H0.
    pose proof (ref_range mm' q). assert (0 <= refs_to (maps_of r maps) q) by (unfold refs_to; lia).
    split; [|lia]. apply Hfree. right. split_and!; [|lia|lia].
    unfold table_of in Hq. destruct (tbl !! q) as [o|] eqn:E; [|done]. by eapply (pi_tbl _ _ _ I).
  - intros v e p He Hp. destruct (pte_page_Some _ _ Hp) as (Hok & _).
    pose proof (pi_refs _ _ _ I p Hok) as Hrp. pose proof (refs_to_pos _ _ _ _ He Hp).
    assert (table_of tbl r p = false) as Hnt.
    { destruct (table_of tbl r p) eqn:E; [|done]. pose proof (Hone p E). unfold table_of in E.
      destruct (tbl !! p); [lia|done]. }
    pose proof (Href p) as H0. rewrite Hnt, Z.sub_0_r in H0. split; [done|].
    rewrite Hfree. pose proof (mapped_not_free I _ _ _ _ He Hp Hok). destruct (tbl !! p); split.
    all: try (intros [?|(_ & _ & ?)]; [done|lia]). all: intros ?; right; split_and!; [done|lia|lia].
  - intros p Hp Hnp. apply Hfree in Hp as [?|(Hok & Hpos & Hz)]; [done|].
    destruct (table_of tbl r p) eqn:E; [by left|right]. specialize (Href p). rewrite E, Hz in Href.
    apply maps_of_pos. lia.
Qed.

(** ** Concrete states *)

(** A table whose count is one when it has been written. *)
Lemma counted_once mm tbl maps r q :
  pt_inv mm tbl maps -> table_of tbl r q = true ->
  (forall x, page_ref mm !! q = Some x -> x = 1) -> ref mm q = 1.
Proof.
  intros J Hq H1. unfold table_of in Hq. destruct (tbl !! q) as [o|] eqn:E; [|done].
  pose proof (pi_refs _ _ _ J q (pi_tbl _ _ _ J _ _ E)) as H. rewrite E in H.
  assert (0 <= refs_to maps q) by (unfold refs_to; lia). unfold ref in *.
  destruct (page_ref mm !! q) as [x|]; [by rewrite (H1 x)|].
  change (u32 (default 0 None)) with 0 in H. lia.
Qed.

(** A directory with one page, a second directory, a fork of the first into the
    second, and then the end of the first. *)
Definition after {A} (m : M MM A) (mm : MM) : MM := match m mm with Ret _ mm' => mm' | _ => mm end.
Definition mm_forked : MM := after (fork_memory (page2pa 200) (page2pa 203)) mm_both.
Definition mm_orphan : MM := after (Page.pgdirFree (page2pa 200)) mm_forked.

Lemma after_Ret {A} (m : M MM A) mm a mm' : m mm = Ret a mm' -> after m mm = mm'.
Proof. intros H. unfold after. by rewrite H. Qed.

Lemma translates_eval mm r va pa :
  match Page.pageLookup (page2pa r) va mm with Ret x _ => fst x =? pa | _ => false end = true ->
  translates mm r va pa.
Proof.
  unfold translates. destruct (pageLookup_readonly (page2pa r) va mm) as [[x pte] ->].
  intros <-%Z.eqb_eq. by exists pte.
Qed.

Lemma reach_both : pt_reach [203; 200] mm_both.
Proof.
  destruct (mm1_insert rw_bits) as (m & tbl & H & J & Hr & _); [vm_compute; split; [discriminate|reflexivity]|].
  assert (mm_parent = m) as Hm by (unfold mm_parent; by rewrite H). rewrite <- Hm in J, H. clear Hm.
  apply (reach_step [200] mm_parent OpNew 203).
  - apply (reach_step [200] mm1 (OpInsert 200 0x1234 (page2pa 300) rw_bits) 0); [| |exact H].
    + apply (reach_step [] mm0 OpNew 200); [by constructor; apply mm0_free_ok|done|].
      exact (proj1 (allocPgdir_inv mm0 ∅ ∅ 200 [201; 202; 203; 204; 205]
               (pt_inv_empty _ mm0_free_ok) eq_refl)).
    + split_and!; [by left|lia|lia|done|done|done|done| |].
      * rewrite (proj2 mm1_inv). simpl. lia.
      * intros p Hp _. assert (p = 300) as -> by (vm_compute in Hp; congruence).
        rewrite (proj2 mm1_inv), mm1_ref by done. split_and!; [|done|done].
        by apply (bool_decide_unpack _); vm_compute.
  - change (freePages mm_parent <> []). rewrite mm_parent_free. discriminate.
  - exact (proj1 (allocPgdir_inv _ _ _ _ _ J mm_parent_free)).
Qed.

Lemma maps_parent_at v e : maps_parent !! (200, v) = Some e -> v = 1 /\ e = pte_rw.
Proof. unfold maps_parent. rewrite lookup_insert_Some. intros [[[= <-] <-]|[_ H]]; [by split|done]. Qed.

Lemma fork_both_ok : pt_call_ok mm_both [203; 200] (OpFork 200 203).
Proof.
  destruct mm_both_pre as [tbl Hpre]. pose proof Hpre as [J Hr Hc Hne Hrange _ Href _].
  assert (Hl : forall va pa pte, 0 <= va < 2 ^ 39 ->
    Page.pageLookup (page2pa 200) va mm_both = Ret (pa, Some pte) mm_both ->
    vpn va = 1 /\ load64 (mem mm_both) pte = pte_rw).
  { intros va pa pte Hva L. exact (maps_parent_at _ _ (lookup_mapped _ _ _ _ _ _ _ J Hr Hva L)). }
  split_and!; [by right; left|by left|exact Hne|exact Href| |].
  - intros va pa pte Hva L. destruct (Hl _ _ _ Hva L) as [Hv He]. rewrite He. split; [vm_compute; reflexivity|].
    intros _ pa' Ht HR. apply (translates_iff _ _ _ _ _ _ J Hc Hva) in Ht. unfold lookup_pa in Ht.
    rewrite Hv in Ht. vm_compute in Ht. rewrite Ht in HR. discriminate HR.
  - intros l Hnd Hin. assert (length l <= 1)%nat.
    { assert (Hsub : l ⊆ [1]).
      { intros v Hv. destruct (Hin v Hv) as (Hrng & pa & pte & L). destruct (vpn_page v Hrng) as [Hva Hvv].
        destruct (Hl _ _ _ Hva L) as [H1 _]. rewrite Hvv in H1. rewrite H1. by left. }
      by apply (submseteq_length _ [1]), NoDup_submseteq. }
    replace (freePages mm_both) with [204; 205] by (vm_compute; reflexivity). simpl. lia.
Qed.

Lemma forked_inv : fork_memory (page2pa 200) (page2pa 203) mm_both = Ret tt mm_forked /\
  exists tbl maps, pt_inv mm_forked tbl maps /\ tbl !! 200 = Some (Root 200) /\ tbl !! 203 = Some (Root 203).
Proof.
  destruct mm_both_pre as [tbl Hpre]. destruct (fork_memory_at _ _ _ _ _ Hpre) as (m & tbl' & maps' & H & HA).
  assert (mm_forked = m) as -> by exact (after_Ret _ _ _ _ H). split; [exact H|]. exists tbl', maps'.
  split; [apply HA|]. split; (eapply lookup_weaken; [apply Hpre|apply HA]).
Qed.

Lemma forked_refs : map_Forall (fun p x => p = 300 \/ x = 1) (page_ref mm_forked).
Proof. apply (bool_decide_unpack _). vm_compute. exact I. Qed.

(** What a table links, by evaluation. *)
Definition links (mm : MM) (p : Z) (f : option Z -> bool) : bool :=
  forallb (fun i => negb (pte_valid (entry mm p i)) || f (pa2page (PTE2PA (entry mm p i)))) (seqZ 0 512).

Lemma links_spec mm p f q : links mm p f = true -> points_to mm p q -> f (Some q) = true.
Proof.
  unfold links. rewrite forallb_forall. intros H (i & Hi & Hv & Hq).
  specialize (H i). rewrite Hv, Hq in H. apply H. apply list_elem_of_In, elem_of_seqZ. lia.
Qed.

Lemma forked_not_page : ~ dir_page mm_forked 200 300.
Proof.
  assert (H200 : links mm_forked 200 (fun o => bool_decide (o = Some 201)) = true) by (vm_compute; reflexivity).
  assert (H201 : links mm_forked 201 (fun o => bool_decide (o <> Some 300)) = true) by (vm_compute; reflexivity).
  intros [H|[H|(p & H1 & H2)]]; [discriminate| |].
  - apply (links_spec _ _ _ _ H200) in H. discriminate H.
  - apply (links_spec _ _ _ _ H200), bool_decide_eq_true in H1. injection H1 as ->.
    apply (links_spec _ _ _ _ H201) in H2. discriminate H2.
Qed.

Lemma free_forked_ok : pt_call_ok mm_forked [203; 200] (OpFree 200).
Proof.
  destruct forked_inv as (_ & tbl & maps & J & Hr & _). split; [by right; left|]. intros q Hq.
  apply (counted_once mm_forked tbl maps 200 q J (dir_page_table _ _ _ _ _ J Hr Hq)). intros x Ex.
  destruct (forked_refs _ _ Ex) as [Heq|Heq]; [|exact Heq]. destruct forked_not_page. rewrite <- Heq. exact Hq.
Qed.

Lemma reach_orphan : pt_reach [203] mm_orphan.
Proof.
  apply (reach_step [203; 200] mm_forked (OpFree 200) 0).
  - apply (reach_step [203; 200] mm_both (OpFork 200 203) 0); [exact reach_both|exact fork_both_ok|].
    cbn [pt_exec]. by rewrite (bind_Ret _ _ _ _ _ (proj1 forked_inv)).
  - exact free_forked_ok.
  - destruct forked_inv as (_ & tbl & maps & J & Hr & _).
    destruct (pgdirFree_spec _ _ _ _ J Hr) as (m & H & _).
    { intros q Hq. apply (proj2 free_forked_ok). by eapply table_dir_page. }
    assert (mm_orphan = m) as -> by exact (after_Ret _ _ _ _ H).
    cbn [pt_exec]. by rewrite (bind_Ret _ _ _ _ _ H).
Qed.

(** The child still maps page 300, which its parent's end did not free. *)
Lemma reachable_mapped_not_free_witness : free_ok mm_orphan /\ 1 <= ref mm_orphan 300 /\ 300 ∉ freePages mm_orphan.
Proof.
  apply (reachable_mapped_not_free [203] mm_orphan 203 0x1234 (page2pa 300) 300 reach_orphan).
  - by left.
  - lia.
  - apply translates_eval. vm_compute. reflexivity.
  - vm_compute. reflexivity.
  - vm_compute. reflexivity.
Defined.

Lemma mm2_refs : map_Forall (fun _ x => x = 1) (page_ref mm2).
Proof. apply (bool_decide_unpack _). vm_compute. exact I. Qed.

Lemma mm2_tables tbl q : pt_inv mm2 tbl maps2 -> table_of tbl 200 q = true -> ref mm2 q = 1.
Proof. intros J Hq. exact (counted_once mm2 tbl maps2 200 q J Hq (mm2_refs q)). Qed.

(** The only directory goes, and with it the page it mapped. *)
Lemma pgdirFree_frees_witness :
  exists mm', Page.pgdirFree (page2pa 200) mm2 = Ret tt mm' /\ 200 ∈ freePages mm' /\ 300 ∈ freePages mm'.
Proof.
  destruct mm2_inv as (_ & tbl & J & Hr & Hp).
  destruct (pgdirFree_frees mm2 tbl maps2 200 J Hr (fun q => mm2_tables tbl q J)) as (mm' & H & _ & _ & Ht & Hm & _).
  exists mm'. split; [exact H|]. split; [apply Ht; unfold table_of; rewrite Hr; reflexivity|].
  destruct (Hm 1 pte2 300) as [_ Hf]; [vm_compute; reflexivity|vm_compute; reflexivity|].
  apply Hf. vm_compute. reflexivity.
Defined.
