(* ===== verification/MemoryInit.v ===== *)
(** * MemoryInit.c: the pages and the kernel's page table at boot

    [initFreePages] makes every page above the kernel image free, [virtualMemory] maps the
    devices and all of memory in the kernel's directory, and [resetRef] forgets the
    references these mappings counted, so that a page of memory is counted once for each
    user mapping.  [kernelStart], [textEnd] and [kernelEnd] come from the linker.

    The state after [initFreePages] is one the theorems of AddrSpace.v start from. *)

From S2P Require Import Prelude CType Mem Config Queue Page PageInv PageSpec AddrSpace.

Definition VIRT_OFFSET : Z := 0x3F00000000.
Definition UART : Z := 0x10000000.
Definition UART_V : Z := UART + VIRT_OFFSET.
Definition CLINT : Z := 0x02000000.
Definition CLINT_V : Z := CLINT + VIRT_OFFSET.
Definition PLIC : Z := 0x0c000000.
Definition PLIC_V : Z := PLIC + VIRT_OFFSET.
Definition SPI_CTRL_ADDR : Z := 0x10050000.
Definition UART_CTRL_ADDR : Z := 0x10010000.

Fixpoint for_each {S A} (f : A -> M S unit) (l : list A) : M S unit :=
  match l with [] => mret tt | a :: l => f a ;; for_each f l end.

Section memory_init.
Context (kernelPageDirectory kernelStart textEnd kernelEnd trampoline : Z).

Definition initFreePages : M MM unit :=
  let n := PA2PPN kernelEnd in
  let top := PA2PPN PHYSICAL_MEMORY_TOP in
  for_each (fun i => modify (set_ref i 1)) (seqZ 0 n) ;;
  modify (set_free (fun _ => [])) ;;
  for_each (fun i => modify (set_ref i 0) ;; modify (set_free (cons i))) (seqZ n (top - n)).

Definition resetRef : M MM unit :=
  let n := PA2PPN kernelEnd in
  for_each (fun i => modify (set_ref i 0)) (seqZ n (PA2PPN PHYSICAL_MEMORY_TOP - n)).

(** [size] bytes at [va], a page at a time. *)
Definition map_range (va pa size perm : Z) : M MM unit :=
  for_each (fun i => Page.pageInsert kernelPageDirectory (va + i * PAGE_SIZE) (pa + i * PAGE_SIZE) perm ;; mret tt)
    (seqZ 0 ((size + PAGE_SIZE - 1) / PAGE_SIZE)).

Definition virtualMemory : M MM unit :=
  let rw := Z.lor (Z.lor PTE_READ PTE_WRITE) (Z.lor PTE_ACCESSED PTE_DIRTY) in
  let rwx := Z.lor (Z.lor PTE_READ (Z.lor PTE_EXECUTE PTE_WRITE)) (Z.lor PTE_ACCESSED PTE_DIRTY) in
  map_range UART_V UART PAGE_SIZE rw ;;
  map_range CLINT_V CLINT 0x10000 rw ;;
  map_range PLIC_V PLIC 0x4000 rw ;;
  map_range (PLIC_V + 0x200000) (PLIC + 0x200000) 0x4000 rw ;;
  map_range SPI_CTRL_ADDR SPI_CTRL_ADDR PAGE_SIZE rw ;;
  map_range UART_CTRL_ADDR UART_CTRL_ADDR PAGE_SIZE rw ;;
  map_range kernelStart kernelStart (textEnd - kernelStart) rwx ;;
  map_range textEnd textEnd (PHYSICAL_MEMORY_TOP - textEnd) rw ;;
  map_range TRAMPOLINE_BASE trampoline PAGE_SIZE rwx ;;
  map_range (TRAMPOLINE_BASE + PAGE_SIZE) (trampoline + PAGE_SIZE) PAGE_SIZE rwx.

(** [startPage] switches address translation on; the messages are not part of the state. *)
Definition memoryInit : M MM unit := initFreePages ;; virtualMemory ;; resetRef.

(** ** The free pages *)

Lemma set_refs_run v l : forall mm, exists mm', for_each (fun i => modify (set_ref i v)) l mm = Ret tt mm' /\
  freePages mm' = freePages mm /\ mem mm' = mem mm /\
  forall p, ref mm' p = if decide (p ∈ l) then u32 v else ref mm p.
Proof.
  induction l as [|i l IH]; intros mm.
  { by exists mm. }
  cbn [for_each]. rewrite bind_modify. destruct (IH (set_ref i v mm)) as (mm' & E & Hf & Hm & Hr).
  exists mm'. split_and!; try done. intros p. rewrite Hr, ref_set_ref.
  destruct (decide (p ∈ l)) as [Hin|Hin].
  - by rewrite decide_True by by right.
  - destruct (decide (p = i)) as [-> |Hne]; [by rewrite decide_True by left|].
    rewrite decide_False; [done|]. rewrite not_elem_of_cons. split; congruence.
Qed.

Lemma free_run l : forall mm, exists mm',
  for_each (fun i => modify (set_ref i 0) ;; modify (set_free (cons i))) l mm = Ret tt mm' /\
  freePages mm' = reverse l ++ freePages mm /\ mem mm' = mem mm /\
  forall p, ref mm' p = if decide (p ∈ l) then 0 else ref mm p.
Proof.
  induction l as [|i l IH]; intros mm.
  { by exists mm. }
  cbn [for_each]. rewrite (bind_Ret _ _ mm tt (set_free (cons i) (set_ref i 0 mm))) by done.
  destruct (IH (set_free (cons i) (set_ref i 0 mm))) as (mm' & E & Hf & Hm & Hr).
  exists mm'. split_and!; try done.
  - rewrite Hf, reverse_cons, <- app_assoc. done.
  - intros p. rewrite Hr. change (ref (set_free _ ?m) p) with (ref m p). rewrite ref_set_ref.
    destruct (decide (p ∈ l)) as [Hin|Hin]; [by rewrite decide_True by by right|].
    destruct (decide (p = i)) as [-> |Hne]; [by rewrite decide_True by left|].
    rewrite decide_False; [done|]. rewrite not_elem_of_cons. by split.
Qed.
End memory_init.

(** The kernel image ends at a page boundary below the top of memory. *)
Definition image_end (kernelEnd n : Z) : Prop := kernelEnd = PHYSICAL_ADDRESS_BASE + PAGE_SIZE * n /\ 0 <= n <= PHYSICAL_PAGE_NUM.

Lemma image_end_page kernelEnd n : image_end kernelEnd n -> PA2PPN kernelEnd = n.
Proof.
  intros [-> Hn]. change PHYSICAL_PAGE_NUM with 65536 in Hn. unfold PA2PPN.
  change PHYSICAL_ADDRESS_BASE with 0x80000000. change PAGE_SIZE with 4096. change PAGE_SHIFT with 12.
  rewrite Z.shiftr_div_pow2 by lia. rewrite u64_small by lia. Z.to_euclidean_division_equations; lia.
Qed.

(** C35. The pages at boot.  [initFreePages] ends with every page from the end of the
    kernel image to the top of memory on the free list, once, unreferenced, the pages of the
    image referenced and not on the list, and memory unchanged: the state from which the
    reachability of AddrSpace.v starts.  [resetRef] later clears the counts of exactly these pages and
    leaves the list alone, so that a list of them is again one of unreferenced pages. *)
Theorem initFreePages_reach kernelEnd n mm : image_end kernelEnd n ->
  exists mm', initFreePages kernelEnd mm = Ret tt mm' /\
    pt_reach [] mm' /\ mem mm' = mem mm /\
    (forall p, p ∈ freePages mm' <-> n <= p < PHYSICAL_PAGE_NUM) /\
    (forall p, 0 <= p < n -> ref mm' p = 1) /\
    (forall mm1, NoDup (freePages mm1) -> (forall p, p ∈ freePages mm1 -> n <= p < PHYSICAL_PAGE_NUM) ->
       exists mm2, resetRef kernelEnd mm1 = Ret tt mm2 /\ freePages mm2 = freePages mm1 /\ mem mm2 = mem mm1 /\ pt_reach [] mm2).
Proof.
  intros Hend. pose proof (image_end_page _ _ Hend) as Hn. destruct Hend as [_ Hrange].
  unfold initFreePages, resetRef. rewrite Hn. change (PA2PPN PHYSICAL_MEMORY_TOP) with PHYSICAL_PAGE_NUM.
  change PHYSICAL_PAGE_NUM with 65536 in *.
  destruct (set_refs_run 1 (seqZ 0 n) mm) as (m1 & E1 & F1 & M1 & R1). rewrite (bind_Ret _ _ _ _ _ E1), bind_modify.
  destruct (free_run (seqZ n (65536 - n)) (set_free (fun _ => []) m1)) as (m2 & E2 & F2 & M2 & R2).
  cbn [freePages set_free] in F2. rewrite app_nil_r in F2.
  assert (Hin : forall p, p ∈ seqZ n (65536 - n) <-> n <= p < 65536) by (intros p; rewrite elem_of_seqZ; lia).
  exists m2. split; [done|]. split; [constructor; split|].
  - rewrite F2, reverse_Permutation. apply NoDup_seqZ.
  - intros p Hp. rewrite F2, elem_of_reverse in Hp. rewrite R2, decide_True by done.
    split; [|done]. apply Hin in Hp. unfold page_ok. lia.
  - split; [by rewrite M2|]. split; [intros p; by rewrite F2, elem_of_reverse|]. split.
    + intros p Hp. rewrite R2, decide_False by (rewrite Hin; lia). change (ref (set_free _ m1) p) with (ref m1 p).
      rewrite R1, decide_True; [done|]. apply elem_of_seqZ. lia.
    + intros mm1 Hnd Hpages. destruct (set_refs_run 0 (seqZ n (65536 - n)) mm1) as (m3 & E3 & F3 & M3 & R3).
      exists m3. split_and!; try done. constructor. split; rewrite F3; [done|]. intros p Hp.
      specialize (Hpages p Hp). split; [unfold page_ok; lia|]. by rewrite R3, decide_True by by apply Hin.
Qed.

(** A kernel image of 2 MB and 512 pages. *)
Lemma initFreePages_reach_witness : exists mm', initFreePages 0x80200000 mm0 = Ret tt mm' /\ pt_reach [] mm' /\
  (forall p, p ∈ freePages mm' <-> 512 <= p < PHYSICAL_PAGE_NUM).
Proof.
  destruct (initFreePages_reach 0x80200000 512 mm0) as (mm' & H1 & H2 & _ & H3 & _).
  - split; [reflexivity|]. change PHYSICAL_PAGE_NUM with 65536. lia.
  - exists mm'. split; [exact H1|]. split; [exact H2|exact H3].
Defined.
