(* ===== verification/MprotectSpec.v ===== *)
(** * Changing the protection of a page that fork shares

    [protect_page] (syscallMemoryProtect of Syscall.c) on a mapped page: the entry gets the
    permission bits of the call and keeps the rest, and nothing else changes.  It does not
    look at [PTE_COW]: a page two address spaces share becomes writable in one of them,
    with no copy made. *)

From S2P Require Import Prelude CType Mem Strings Config Queue Page PageInv PageSpec UserCopy Sched Pipe Fat File Segment Signal Kernel Process Syscall ForkSpec.

Definition RWX : Z := Z.lor PTE_READ (Z.lor PTE_WRITE PTE_EXECUTE).

(** Two entries map page [p], and a store through one of them goes to the page. *)
Definition writable_alias (maps : gmap (Z * Z) Z) (p : Z) : Prop :=
  exists k k' e e', k <> k' /\ maps !! k = Some e /\ maps !! k' = Some e' /\
    pte_page e = Some p /\ pte_page e' = Some p /\ Z.land e PTE_WRITE <> 0.

(** ** Bits of the new entry *)

Lemma prot_perm_in_rwx prot : exists x, prot_perm prot = Z.land x RWX.
Proof.
  exists (prot_perm prot). unfold prot_perm.
  by destruct (c_true (Z.land prot PROT_EXEC)), (c_true (Z.land prot PROT_READ)), (c_true (Z.land prot PROT_WRITE)).
Qed.

Lemma protected_land e perm m : Z.land (protected e perm) m =
  Z.lor (Z.land e (Z.land (u64 (Z.lnot RWX)) m)) (Z.land perm m).
Proof. unfold protected. fold RWX. by rewrite Z.land_lor_distr_l, Z.land_assoc. Qed.

Lemma protected_other e x m : Z.land (u64 (Z.lnot RWX)) m = m -> Z.land RWX m = 0 ->
  Z.land (protected e (Z.land x RWX)) m = Z.land e m.
Proof. intros H1 H2. rewrite protected_land, H1, <- Z.land_assoc, H2, Z.land_0_r. apply Z.lor_0_r. Qed.

Lemma protected_rwx e x : Z.land (protected e (Z.land x RWX)) RWX = Z.land x RWX.
Proof.
  rewrite protected_land. change (Z.land (u64 (Z.lnot RWX)) RWX) with 0. rewrite Z.land_0_r.
  by rewrite <- Z.land_assoc, Z.land_diag.
Qed.

Lemma protected_range e x : 0 <= e < 2 ^ 64 -> 0 <= protected e (Z.land x RWX) < 2 ^ 64.
Proof.
  intros He. unfold protected. fold RWX.
  pose proof (land_le_l e (u64 (Z.lnot RWX)) ltac:(lia)).
  assert (0 <= Z.land x RWX < 2 ^ 10).
  { rewrite Z.land_comm. pose proof (land_le_l RWX x ltac:(by vm_compute)). assert (RWX = 14) as E by done. lia. }
  apply lor_low_bound; lia.
Qed.

(** ** The page *)

(** C39. Changing the protection of a mapped page keeps its physical page, its
    copy-on-write and user bits, the reference counts and every other translation, and sets
    its read, write and execute bits to those of the call.  When the page is also mapped
    elsewhere, as fork leaves it, and the call asks for write access, a store through the
    entry reaches the shared page: the copy-on-write mark is no longer what decides. *)
Theorem mprotect_exposes {S} `{!Part S MM} (pageout_ : Z -> Z -> M S Z) (s : S) tbl maps r va e p k' e' prot :
  pt_inv (part s) tbl maps -> tbl !! r = Some (Root r) -> 0 <= va < 2 ^ 39 ->
  maps !! (r, vpn va) = Some e -> pte_page e = Some p ->
  exists s', protect_page pageout_ (page2pa r) (prot_perm prot) va s = Ret tt s' /\
    let e1 := protected e (prot_perm prot) in
    pt_inv (part s') tbl (<[(r, vpn va) := e1]> maps) /\
    pte_page e1 = Some p /\ Z.land e1 RWX = prot_perm prot /\
    Z.land e1 PTE_COW = Z.land e PTE_COW /\ Z.land e1 PTE_USER = Z.land e PTE_USER /\
    freePages (part s') = freePages (part s : MM) /\ (forall q, ref (part s') q = ref (part s) q) /\
    (k' <> (r, vpn va) -> maps !! k' = Some e' -> pte_page e' = Some p -> Z.land prot PROT_WRITE <> 0 ->
     writable_alias (<[(r, vpn va) := e1]> maps) p).
Proof.
  intros I Hr Hva He Hp. pose proof (pageLookup_spec _ _ _ _ _ I Hr Hva) as HL. rewrite He in HL.
  destruct HL as (q & Hq & Hent & Hval & HL). destruct (pte_page_Some _ _ Hp) as (Hok & _ & Hpa).
  assert (Hr64 : 0 <= e < 2 ^ 64) by (rewrite <- Hent; apply load64_range).
  destruct (prot_perm_in_rwx prot) as [x Hx]. set (e1 := protected e (prot_perm prot)).
  assert (Hpg : pte_page e1 = pte_page e).
  { unfold e1, pte_page. rewrite Hx, (PTE2PA_mask _ e); [done|]. by apply protected_other. }
  exists (set_part (set_mem (store64 (page2pa q + 8 * GET_PAGE_TABLE_INDEX va 0) e1) (part s)) s). split.
  { unfold protect_page. rewrite (bind_lift_Ret _ _ _ _ _ HL), set_part_part, Hpa.
    rewrite page2pa_ok by done. destruct (2147483648 + 4096 * p) eqn:E; [unfold page_ok in *; lia| |];
    unfold set_memory, lift, modify; cbn [olift]; unfold e1; rewrite <- Hent; reflexivity. }
  cbv zeta. rewrite part_set. split.
  { apply (replace_entry (part s) tbl maps r va q e); try done; unfold e1; rewrite Hx.
    - by apply protected_range.
    - unfold pte_valid. by rewrite protected_other. }
  split; [by rewrite Hpg|]. unfold e1. rewrite Hx.
  split; [apply protected_rwx|]. do 2 (split; [by apply protected_other|]).
  split; [done|]. split; [done|]. intros Hne He' Hp' Hw.
  exists (r, vpn va), k', e1, e'. rewrite lookup_insert_eq, lookup_insert_ne by done. 
  split_and!; try done; [unfold e1; by rewrite Hx|by rewrite Hpg|].
  replace PTE_WRITE with (Z.land RWX PTE_WRITE) by done.
  rewrite Z.land_assoc. unfold e1. rewrite Hx, protected_rwx, <- Hx.
  unfold prot_perm, c_true at 3. rewrite (proj2 (Z.eqb_neq _ 0) Hw). cbn [negb].
  by destruct (c_true (Z.land prot PROT_EXEC)), (c_true (Z.land prot PROT_READ)).
Qed.

(** After the fork of ForkSpec.v, the parent asks for write access to its page. *)
Lemma mprotect_exposes_witness : exists (s s' : Kernel) maps',
  fork_memory (page2pa 200) (page2pa 203) mm_both = Ret tt (k_m s) /\
  protect_page (fun _ _ => mret 0) (page2pa 200) (prot_perm PROT_WRITE) 0x1000 s = Ret tt s' /\
  writable_alias maps' 300.
Proof.
  destruct mm_both_pre as [tbl Hpre].
  destruct (fork_memory_at mm_both tbl maps_parent 200 203 Hpre) as (mm' & tbl' & maps' & Hrun & HA).
  set (s := kernel_of (with_one_thread thread0 process0 ∅) mm' (mkSigS ∅ [])).
  destruct (mprotect_exposes (S := Kernel) (fun _ _ => mret 0) s tbl' maps' 200 0x1000 (cow_entry pte_rw) 300
    (203, 1) (child_entry pte_rw) PROT_WRITE) as (s' & Hs & _ & _ & _ & _ & _ & _ & _ & Hal).
  - exact (fa_inv _ _ _ _ _ _ _ _ _ HA).
  - eapply lookup_weaken; [exact (fp_r _ _ _ _ _ Hpre)|exact (fa_tbl _ _ _ _ _ _ _ _ _ HA)].
  - lia.
  - change (vpn 0x1000) with 1. rewrite (fa_maps _ _ _ _ _ _ _ _ _ HA). reflexivity.
  - vm_compute. reflexivity.
  - eexists s, s', _. split; [exact Hrun|]. split; [exact Hs|]. apply Hal.
    + intros [=].
    + rewrite (fa_maps _ _ _ _ _ _ _ _ _ HA). reflexivity.
    + vm_compute. reflexivity.
    + discriminate.
Defined.
