(* ===== verification/WaitSpec.v ===== *)
(** * Process.c: waiting for a child

    [wait] collects the first child that has ended, hands its exit status to the
    parent and returns its entry to the pool of processes. *)

From S2P Require Import Prelude CType Mem Config Queue Page PageInv PageSpec UserCopy Sched Bio Fat FatFile Pipe.
From S2P Require Import Segment File Signal Kernel Process.

(** ** Ancestors *)

(** The process [updateAncestorsCpuTime] goes to from [x]. *)
Definition parent_of (s : PState) (x : Z) : option Z :=
  let pid := parentId (pr_of s x) in
  let q := PROCESS_OFFSET pid in
  if (0 <? pid) && negb (bool_decide (pstate (pr_of s q) = UNUSED)) && (processId (pr_of s q) =? pid)
  then Some q else None.
Fixpoint lineage (s : PState) (x : Z) (l : list Z) : Prop :=
  match l with
  | [] => parent_of s x = None
  | q :: l => parent_of s x = Some q /\ lineage s q l
  end.


Lemma lineage_fun s l : forall x l', lineage s x l -> lineage s x l' -> l = l'.
Proof.
  induction l as [|q l IH]; intros x [|q' l']; cbn [lineage]; try done; [by intros -> [? _]|by intros [-> _]|].
  intros [-> Hl] [[= <-] Hl']. f_equal. by eapply IH.
Qed.
Lemma lineage_tail s l1 q l2 : forall x, lineage s x (l1 ++ q :: l2) -> lineage s q l2.
Proof. induction l1 as [|y l1 IH]; intros x [_ H]; [done|]. by eapply IH. Qed.
(** A process is not its own ancestor, and no ancestor is met twice. *)
Lemma lineage_nodup s x l : lineage s x l -> NoDup (x :: l).
Proof.
  revert x. induction l as [|q l IH]; intros x Hl; constructor; [by intros ?%elem_of_nil|by constructor| |by apply IH; destruct Hl].
  intros (l1 & l2 & E)%list_elem_of_split. rewrite E in Hl. pose proof (lineage_tail _ _ _ _ _ Hl) as Ht.
  pose proof (lineage_fun _ _ _ _ Hl Ht) as El. apply (f_equal length) in El. rewrite length_app in El. simpl in El. lia.
Qed.

(** The times of the dead child [z] added to those of process [y]. *)
Definition charged (z y : Process) : Process := p_dead (dead_user y + cpu_user z) (dead_kernel y + cpu_kernel z) y.
Definition charge_all (z : Process) (l : list Z) (s : PState) : PState :=
  fold_left (fun s q => upd_process q (charged z) s) l s.

Lemma pr_of_upd s p f x : pr_of (upd_process p f s) x = if decide (x = p) then f (pr_of s p) else pr_of s x.
Proof.
  unfold pr_of at 1, upd_process, upd_processes. simpl. destruct (decide (x = p)) as [-> |].
  - by rewrite lookup_insert_eq.
  - by rewrite lookup_insert_ne.
Qed.

Lemma charge_all_pr z l x : forall s, NoDup l ->
  pr_of (charge_all z l s) x = if decide (x ∈ l) then charged z (pr_of s x) else pr_of s x.
Proof.
  induction l as [|q l IH]; intros s Hnd; cbn [charge_all fold_left]; [by rewrite decide_False by apply not_elem_of_nil|].
  apply NoDup_cons in Hnd as [Hq Hnd]. fold (charge_all z l (upd_process q (charged z) s)). rewrite IH by done.
  rewrite pr_of_upd. destruct (decide (x = q)) as [-> |Hne].
  - by rewrite decide_False, decide_True by (done || by left).
  - destruct (decide (x ∈ l)); [by rewrite decide_True by by right|]. rewrite decide_False; [done|].
    by rewrite elem_of_cons; intros [?|?].
Qed.
Lemma charge_all_frame z l : forall s, charge_all z l s = upd_processes (fun _ => processes (charge_all z l s)) s.
Proof.
  induction l as [|q l IH]; intros s; [by destruct s|]. cbn [charge_all fold_left].
  fold (charge_all z l (upd_process q (charged z) s)). rewrite IH at 1. done.
Qed.

(** Charging a process changes no ancestry. *)
Lemma parent_of_upd s q z x : parent_of (upd_process q (charged z) s) x = parent_of s x.
Proof.
  unfold parent_of. assert (E : forall y, parentId (pr_of (upd_process q (charged z) s) y) = parentId (pr_of s y) /\
    processId (pr_of (upd_process q (charged z) s) y) = processId (pr_of s y) /\
    pstate (pr_of (upd_process q (charged z) s) y) = pstate (pr_of s y)).
  { intros y. rewrite pr_of_upd. case_decide; [by subst y|done]. }
  destruct (E x) as (-> & _). by destruct (E (PROCESS_OFFSET (parentId (pr_of s x)))) as (_ & -> & ->).
Qed.
Lemma lineage_upd s q z l : forall x, lineage s x l -> lineage (upd_process q (charged z) s) x l.
Proof.
  induction l as [|y l IH]; intros x; cbn [lineage]; rewrite parent_of_upd; [done|].
  intros [-> ?]. auto.
Qed.

Lemma pid2Process_parent s x : 0 < parentId (pr_of s x) ->
  pid2Process (parentId (pr_of s x)) false s =
  Ret (match parent_of s x with Some q => (0, Some q) | None => (- INVALID_PROCESS_STATUS, None) end) s.
Proof.
  intros Hp. unfold pid2Process, parent_of. rewrite (proj2 (Z.eqb_neq _ _)), (proj2 (Z.ltb_lt _ _)) by lia. cbn [andb].
  run_step. set (q := PROCESS_OFFSET _). destruct (bool_decide (pstate (pr_of s q) = UNUSED)); cbn [orb andb negb]; [done|].
  destruct (processId (pr_of s q) =? parentId (pr_of s x)); cbn [negb]; [|done].
  unfold myProcess, myThread, mbind, M_bind, gets. simpl. by destruct (currentThread s !! cpu s).
Qed.

Section waiting.
Context `{!Boot Kernel}.
Context (pageout_ : Z -> Z -> M Kernel Z) (proc_addr : Z -> Z) (kpgdir pipe_base : Z) (waits : nat).

Definition set_p (s : PState) (w : Kernel) : Kernel := set_part s w.

Lemma proc_bind {B} p (k : Process -> M Kernel B) (w : Kernel) : (proc p ≫= k) w = k (pr_of (k_p w) p) w.
Proof. unfold proc. by rewrite bind_lift_gets. Qed.

Lemma ancestors_loop (pr : Process) n : forall x l (w : Kernel),
  lineage (k_p w) x l -> (length l < n)%nat ->
  loop n (fun pp =>
    x ← proc pp;
    if 0 <? parentId x then
      r ← lift (pid2Process (parentId x) false);
      match r with
      | (0, Some q) =>
          set_proc q (fun y => p_dead (dead_user y + cpu_user pr) (dead_kernel y + cpu_kernel pr) y) ;;
          mret (inl q)
      | _ => mret (inr tt)
      end
    else mret (inr tt)) x w = Ret tt (set_p (charge_all pr l (k_p w)) w).
Proof.
  induction n as [|n IH]; intros x l w Hl Hn; [lia|]. cbn [loop]. rewrite proc_bind.
  destruct (Z.ltb_spec 0 (parentId (pr_of (k_p w) x))) as [Hp|Hp].
  2: { assert (l = []) as ->; [|by destruct w]. destruct l as [|q l]; [done|]. destruct Hl as [Hl _].
       unfold parent_of in Hl. by rewrite (proj2 (Z.ltb_ge _ _)) in Hl by lia. }
  pose proof (pid2Process_parent (k_p w) x Hp) as Hpp.
  rewrite (@bind_lift_Ret Kernel PState Kernel_p _ _ _ _ w _ _ Hpp).
  replace (set_part (k_p w) w) with w by by destruct w. destruct l as [|q l]; simpl in Hl.
  { rewrite Hl. by destruct w. }
  destruct Hl as [Hq Hl]. rewrite Hq. unfold set_proc at 1. rewrite bind_lift_modify.
  change (fun y => p_dead (dead_user y + cpu_user pr) (dead_kernel y + cpu_kernel pr) y) with (charged pr).
  unfold mret at 1, M_ret at 1. cbn [obind]. set (w1 := set_part (upd_process q (charged pr) (part w)) w).
  refine (eq_trans (IH q l w1 _ _) _); [by apply lineage_upd|simpl in Hn; lia|]. by destruct w.
Qed.

Lemma updateAncestors_spec np l (w : Kernel) :
  lineage (k_p w) np l -> Z.of_nat (length l) <= PROCESS_TOTAL_NUMBER ->
  updateAncestorsCpuTime np w = Ret tt (set_p (charge_all (pr_of (k_p w) np) l (k_p w)) w).
Proof.
  intros Hl Hn. unfold updateAncestorsCpuTime. rewrite proc_bind. apply (ancestors_loop _ _ _ l); [done|]. lia.
Qed.

(** What [wait(target)] of the process [me] collects. *)
Definition collectable (s : PState) (me target np : Z) : bool :=
  (parentId (pr_of s np) =? me) && ((target =? -1) || (processId (pr_of s np) =? u32 target)) &&
  bool_decide (pstate (pr_of s np) = ZOMBIE).

Lemma find_zombie_spec me target post np (w : Kernel) : forall pre have,
  (forall x, x ∈ pre -> collectable (k_p w) me target x = false) -> collectable (k_p w) me target np = true ->
  find_zombie me target (pre ++ np :: post) have w = Ret (Some np, true) w.
Proof.
  intros pre. induction pre as [|x pre IH]; intros have Hpre Hnp; cbn [app find_zombie]; rewrite proc_bind.
  - unfold collectable in Hnp. apply andb_prop in Hnp as [H1 H2]. apply andb_prop in H1 as [-> H1]. by rewrite H1, H2.
  - pose proof (Hpre x ltac:(by left)) as Hx. unfold collectable in Hx. rewrite <- andb_assoc in Hx.
    assert (IH' := fun have => IH have (fun y Hy => Hpre y (list_elem_of_further _ _ _ Hy)) Hnp).
    destruct (parentId (pr_of (k_p w) x) =? me); [|done]. simpl in Hx. rewrite Hx. done.
Qed.

Definition status_bytes (v : Z) : list Z := [u8 v; u8 (Z.shiftr v 8); u8 (Z.shiftr v 16); u8 (Z.shiftr v 24)].

(** A child has ended: [np] is the first process [wait] collects, the status goes to
    [addr] (nowhere when it is 0), in a private page of the caller. *)
Record child_ended (w : Kernel) (p np : Z) (pre post anc : list Z) (target addr : Z) (tbl : gmap Z owner)
    (maps : gmap (Z * Z) Z) (r : Z) (f : Z -> Z) : Prop := {
  ce_me : exists t, currentThread (k_p w) !! cpu (k_p w) = Some t /\ process (th_of (k_p w) t) = p;
  ce_used : usedProcesses (k_p w) = pre ++ np :: post;
  ce_nodup : NoDup (pre ++ np :: post);
  ce_pre : forall x, x ∈ pre -> collectable (k_p w) (processId (pr_of (k_p w) p)) target x = false;
  ce_np : collectable (k_p w) (processId (pr_of (k_p w) p)) target np = true;
  ce_anc : lineage (k_p w) np anc;
  ce_anc_len : Z.of_nat (length anc) <= PROCESS_TOTAL_NUMBER;
  ce_inv : pt_inv (k_m w) tbl maps;
  ce_root : tbl !! r = Some (Root r);
  ce_dir : pgdir (pr_of (k_p w) p) = page2pa r;
  ce_addr : addr <> 0 -> user_range tbl maps r addr 4 f;
}.

(** The processes after [np] was collected: its ancestors [anc] are charged. *)
Definition collected (np : Z) (anc : list Z) (s : PState) : PState :=
  upd_plists (np :: freeProcesses s) (Queue.list_remove np (usedProcesses s))
    (upd_process np (p_state UNUSED) (charge_all (pr_of s np) anc s)).

Lemma reap_eq np l (w : Kernel) :
  lineage (k_p w) np l -> Z.of_nat (length l) <= PROCESS_TOTAL_NUMBER ->
  reap np w = Ret tt (set_p (collected np l (k_p w)) w).
Proof.
  intros Hl Hn. unfold reap. rewrite (bind_Ret _ _ _ _ _ (updateAncestors_spec np l w Hl Hn)).
  unfold set_proc, lift, modify, mbind, M_bind. cbn [olift obind]. f_equal. unfold collected.
  pose proof (charge_all_frame (pr_of (k_p w) np) l (k_p w)) as E.
  assert (freeProcesses (charge_all (pr_of (k_p w) np) l (k_p w)) = freeProcesses (k_p w) /\
    usedProcesses (charge_all (pr_of (k_p w) np) l (k_p w)) = usedProcesses (k_p w)) as [Ef Eu] by by rewrite E.
  rewrite <- Ef, <- Eu. by destruct w.
Qed.

Lemma collected_pr np l s x : lineage s np l ->
  pr_of (collected np l s) x = if decide (x = np) then p_state UNUSED (pr_of s np)
    else if decide (x ∈ l) then charged (pr_of s np) (pr_of s x) else pr_of s x.
Proof.
  intros Hl. pose proof (lineage_nodup _ _ _ Hl) as Hnd. apply NoDup_cons in Hnd as [Hnp Hnd].
  change (pr_of (upd_process np (p_state UNUSED) (charge_all (pr_of s np) l s)) x = if decide (x = np) then
    p_state UNUSED (pr_of s np) else if decide (x ∈ l) then charged (pr_of s np) (pr_of s x) else pr_of s x).
  rewrite pr_of_upd, !charge_all_pr by done. by rewrite (decide_False (P := np ∈ l)) by done.
Qed.

(** C27. Waiting for a child that has ended.  When a child the call asks for is a
    zombie, [wait] does not sleep: it returns the child's identifier and writes the exit
    status to the given address (nowhere when it is 0), changing no other byte of memory.  The
    first such child, and only it, moves from the used to the free processes and becomes
    unused.  Its user and kernel times are added, once, to the times of dead children of each
    of its ancestors; every other process keeps every field, and nothing else of the
    scheduler's state or of the kernel changes. *)
Theorem wait_collects w p np pre post anc target addr flags tbl maps r f :
  child_ended w p np pre post anc target addr tbl maps r f ->
  let z := pr_of (k_p w) np in
  exists w', wait pageout_ proc_addr kpgdir pipe_base waits target addr flags w = Ret (i32 (processId z)) w' /\
    k_p w' = upd_plists (np :: freeProcesses (k_p w)) (pre ++ post) (upd_processes (fun _ => processes (k_p w')) (k_p w)) /\
    (forall x, let y := pr_of (k_p w) x in
       pr_of (k_p w') x = if decide (x = np) then p_state UNUSED z
         else if decide (x ∈ anc) then p_dead (dead_user y + cpu_user z) (dead_kernel y + cpu_kernel z) y else y) /\
    (addr = 0 -> k_m w' = k_m w) /\
    (addr <> 0 -> pt_inv (k_m w') tbl maps /\ user_bytes (k_m w') f addr 4 = status_bytes (p_retValue z) /\
       (forall b, (forall a, addr <= a < addr + 4 -> b <> user_addr f a) ->
          load8 (mem (k_m w')) b = load8 (mem (k_m w)) b) /\
       k_m w' = set_mem (fun _ => mem (k_m w')) (k_m w)) /\
    w' = set_part (k_p w') (set_part (k_m w') w).
Proof.
  intros D z. destruct D. destruct ce_me0 as (t & Hcur & Hproc).
  assert (Hmy : myProcess (k_p w) = Ret (Some p) (k_p w)).
  { unfold myProcess, myThread, mbind, M_bind, gets. simpl. by rewrite Hcur, Hproc. }
  assert (Hmem : exists mm', (when (negb (addr =? 0)) (copyout pageout_ (page2pa r) addr (status_bytes (p_retValue z)))) w =
      Ret tt (set_part mm' w) /\ (addr = 0 -> mm' = k_m w) /\
      (addr <> 0 -> pt_inv mm' tbl maps /\ user_bytes mm' f addr 4 = status_bytes (p_retValue z) /\
       (forall b, (forall a, addr <= a < addr + 4 -> b <> user_addr f a) -> load8 (mem mm') b = load8 (mem (k_m w)) b) /\
       mm' = set_mem (fun _ => mem mm') (k_m w))).
  { destruct (Z.eqb_spec addr 0) as [-> |Ha]; cbn [negb when].
    - exists (k_m w). by destruct w.
    - specialize (ce_addr0 Ha). exists (set_mem (put_bytes true f addr (status_bytes (p_retValue z))) (k_m w)).
      split; [apply (@copyout_loop_eq Kernel Kernel_m pageout_ tbl maps r f ce_root0 5); [done|done|simpl; lia]|]. split; [done|].
      intros _. split_and!; [by apply (put_bytes_inv _ tbl maps r)| | |done].
      + apply (buf_bytes_put tbl maps r true); [done|]. repeat constructor; unfold u8; apply Z.mod_pos_bound; lia.
      + intros b Hb. rewrite mem_set_mem. by apply load8_put_out. }
  destruct Hmem as (mm' & Hcopy & Hm0 & Hm1). set (w1 := set_part mm' w) in *.
  exists (set_p (collected np anc (k_p w)) w1). split; [|split_and!; [| |exact Hm0|exact Hm1|by destruct w]].
  - unfold wait. rewrite (@bind_lift_Ret Kernel PState Kernel_p _ _ _ _ w _ _ Hmy).
    replace (set_part (k_p w) w) with w by by destruct w. cbn [loop]. rewrite proc_bind. run_step.
    change (part w) with (k_p w). rewrite ce_used0.
    rewrite (bind_Ret _ _ _ _ _ (find_zombie_spec _ target post np w pre false ce_pre0 ce_np0)).
    rewrite proc_bind, ce_dir0. fold z. fold (status_bytes (p_retValue z)).
    rewrite (bind_Ret _ _ _ _ _ Hcopy).
    by rewrite (bind_Ret _ _ _ _ _ (reap_eq np anc w1 ce_anc0 ce_anc_len0)).
  - change (k_p (set_p _ w1)) with (collected np anc (k_p w)). unfold collected at 1.
    rewrite ce_used0, Queue.list_remove_split by done. rewrite charge_all_frame. done.
  - intros x y. by apply collected_pr.
Qed.
End waiting.

(** ** A concrete child *)

(** Process 0 (identifier 1024) has the child 1 (identifier 2049), which ended with
    status 7. *)
Definition p_wait : PState :=
  mkP {[0 := mkThread ∅ 0 0 RUNNING 0 0 0 0 0 0 0 0 0 false []]} [] [0] ∅ {[0 := 0]} 1
    (<[0 := mkProcess (page2pa 200) 1024 0 0 RUNNABLE ∅ 0 0 0 0 0 1 0 0 [] 0 0 0 0]>
       (<[1 := mkProcess 0 2049 1024 0 ZOMBIE ∅ 7 0 0 0 0 0 0 0 [] 0 0 0 0]> ∅))
    [] [0; 1] 3 [] ∅ ∅ ∅ 0 (fun _ => 0) 0 true.
Definition w_wait (mm : MM) : Kernel := kernel_of p_wait mm (mkSigS ∅ []).

(** The call does not sleep, so it does not depend on what a new thread starts with. *)
Definition boot_ex : Boot Kernel := {| root_setup := panic; sched_fuel := 0 |}.
Lemma w_wait_ended mm tbl e :
  pt_inv mm tbl (<[(200, 1) := e]> ∅) -> tbl !! 200 = Some (Root 200) -> tbl !! 300 = None ->
  pte_page e = Some 300 -> Z.land e PTE_USER <> 0 -> Z.land e PTE_COW = 0 ->
  child_ended (w_wait mm) 0 1 [0] [] [0] (-1) 0x1ff0 tbl (<[(200, 1) := e]> ∅) 200 (fun _ => 300).
Proof.
  intros I Hr Hp He Hu Hc. constructor.
  - exists 0. split; vm_compute; reflexivity.
  - reflexivity.
  - apply (bool_decide_unpack _). vm_compute. exact Logic.I.
  - intros x ->%list_elem_of_singleton. vm_compute. reflexivity.
  - vm_compute. reflexivity.
  - split; vm_compute; reflexivity.
  - vm_compute. discriminate.
  - exact I.
  - exact Hr.
  - reflexivity.
  - intros _. assert (Hv : forall a, 0x1ff0 <= a < 0x1ff0 + 4 -> vpn a = 1)
      by (intros a Ha; unfold vpn; Z.to_euclidean_division_equations; lia).
    split_and!; [lia|vm_compute; discriminate| |].
    + intros a Ha. rewrite Hv by exact Ha. exists e.
      split_and!; [apply lookup_insert_eq|exact He|exact Hp|exact Hu|exact Hc].
    + intros a b Ha Hb _. rewrite !Hv; [reflexivity|exact Hb|exact Ha].
Qed.

Lemma wait_collects_witness : exists mm w',
  @wait Kernel _ _ _ _ _ _ boot_ex (fun _ _ => panic) (fun x => x) 0 0 0 (-1) 0x1ff0 0 (w_wait mm) = Ret 2049 w' /\
  user_bytes (k_m w') (fun _ => 300) 0x1ff0 4 = [7; 0; 0; 0].
Proof.
  destruct (mm1_insert (Z.lor PTE_USER (Z.lor PTE_READ PTE_WRITE))) as (mm & tbl & _ & I & Hr & Hp);
    [vm_compute; split; [discriminate|reflexivity]|].
  assert (D := w_wait_ended mm tbl _ I Hr Hp ltac:(vm_compute; reflexivity) ltac:(vm_compute; discriminate)
    ltac:(vm_compute; reflexivity)).
  exists mm.
  destruct (@wait_collects boot_ex (fun _ _ => panic) (fun x => x) 0 0 0%nat (w_wait mm) 0 1 [0] [] [0] (-1) 0x1ff0 0
    tbl _ 200 (fun _ => 300) D) as (w' & H1 & _ & _ & _ & H2 & _).
  exists w'. split; [exact H1|]. destruct H2 as (_ & H2 & _); [discriminate|exact H2].
Defined.
