(* ===== verification/Startup.v ===== *)
(** * Init.c: the harts at boot

    The firmware starts one hart, which initialises the kernel, wakes the others and waits;
    a second hart takes over the console input for good; a third reports, which lets the first
    enter the scheduler.  The harts share four variables and no lock.  A step of a hart is
    one access to these variables, or one of the calls between them; the processor's registers and
    address translation, and the messages, are not part of the state.

    [early] and [late] are the calls before and after the other harts are woken; the
    protocol does not depend on them. *)

From S2P Require Import Prelude CType Mem Config Page UserCopy Sched Pipe Bio Fat FatFile File Segment Signal Console.
From S2P Require Import ConsoleSpec MemoryInit Process Sd.

(** ** The calls *)

Section calls.
Context {D S : Type} (dv : Device D) `{!Part S D} `{!Part S PState} `{!Part S MM} `{!Part S PipeS} `{!Part S FatS}.
Context `{!Part S FileS} `{!Part S SegS} `{!Part S SigS} `{!Boot S} `{!FsEnv S} (QEMU : bool).
Context (root_fs : M S Z) (kpgdir kernelStart textEnd kernelEnd trampoline signalTrampoline satp : Z).

(** The initialisation of the locks and of [devsw] leaves nothing in the state. *)
Definition early_init (card_fuel : nat) : M S unit :=
  lift (memoryInit kpgdir kernelStart textEnd kernelEnd trampoline) ;;
  lift (processInit satp) ;;
  sdInit dv QEMU card_fuel ;;
  lift (lift binit : M FatS unit) ;;
  lift fileinit ;;
  lift signalInit.

(** [PROCESS_CREATE_PRIORITY(BusyboxTest, 1)]; [trapInit] sets registers. *)
Definition late_init (binary size : Z) : M S unit :=
  processCreatePriority root_fs kpgdir trampoline signalTrampoline binary size 1.
End calls.

(** ** The protocol *)

Inductive pc :=
  | Off | Entry | Clear | Count | Early | Wake | Late | Publish | PublishNext | WaitTwo | Scheduler
  | WaitInit | WaitTurn | CheckInput | ClaimInput | InitInput | PassOn | Input | SetTwo | Halt.
#[export] Instance pc_eq : EqDecision pc.
Proof. solve_decision. Defined.

Record Vars := mkVars { mainCount : Z; initFinish : Z; nextHart : Z; consoleInput : Z }.
Record Smp (S : Type) := mkSmp {
  vars : Vars;
  kern : S;
  cons_of : ConsoleS;
  at_pc : Z -> pc;
}.
Arguments mkSmp {S}. Arguments vars {S}. Arguments kern {S}. Arguments cons_of {S}. Arguments at_pc {S}.

Definition next_hart (h : Z) : Z := Z.land h 3 + 1.

(** Hart [h] at [p]: where it goes, and what it leaves in the variables.  A hart that spins,
    sits in [for(;;)] or has entered the scheduler stays where it is. *)
Definition control (h : Z) (p : pc) (v : Vars) : pc * Vars :=
  let '(mkVars m f n c) := v in
  match p with
  | Off => (Off, v)
  | Entry => (if m =? 0 then Clear else WaitInit, v)
  | Clear => (Count, mkVars 0 0 0 0)
  | Count => (Early, mkVars (i32 (m + 1)) f n c)
  | Early => (Wake, v)
  | Wake => (Late, v)
  | Late => (Publish, v)
  | Publish => (PublishNext, mkVars m 1 n c)
  | PublishNext => (WaitTwo, mkVars m f (next_hart h) c)
  | WaitTwo => (if negb (f =? 2) then WaitTwo else Scheduler, v)
  | Scheduler => (Scheduler, v)
  | WaitInit => (if f =? 0 then WaitInit else WaitTurn, v)
  | WaitTurn => (if negb (h =? n) then WaitTurn else CheckInput, v)
  | CheckInput => (if c =? 0 then ClaimInput else SetTwo, v)
  | ClaimInput => (InitInput, mkVars m f n (Z.lor c 1))
  | InitInput => (PassOn, v)
  | PassOn => (Input, mkVars m f (next_hart h) c)
  | Input => (Input, v)
  | SetTwo => (Halt, mkVars m 2 n c)
  | Halt => (Halt, v)
  end.

Section protocol.
Context {S : Type} (early late : M S unit).
Local Notation BM := (Smp S).

Definition set_cons (c : ConsoleS) (s : BM) : BM := mkSmp (vars s) (kern s) c (at_pc s).
Definition set_kern (k : S) (s : BM) : BM := mkSmp (vars s) k (cons_of s) (at_pc s).
(** [setMode] and [sbi_send_ipi]: the other harts from 1 to 4 enter [main]. *)
Definition wake (h : Z) (s : BM) : BM :=
  mkSmp (vars s) (kern s) (cons_of s)
    (fun i => if (1 <=? i) && (i <? 5) && negb (i =? h) && bool_decide (at_pc s i = Off) then Entry else at_pc s i).

Definition on_kern (m : M S unit) : M BM unit := fun s =>
  match m (kern s) with Ret _ k => Ret tt (set_kern k s) | _ => Panic end.
Definition on_cons (m : M ConsoleS unit) : M BM unit := fun s =>
  match m (cons_of s) with Ret _ c => Ret tt (set_cons c s) | _ => Panic end.

(** What hart [h] calls at [p]. *)
Definition calls (h : Z) (p : pc) : M BM unit :=
  match p with
  | Early => on_kern early
  | Wake => modify (wake h)
  | Late => on_kern late
  | InitInput => on_cons asynInputInit
  | Input => on_cons asynInput_step
  | _ => mret tt
  end.

Definition move (h : Z) (p : pc) (s : BM) : BM :=
  let '(q, v) := control h p (vars s) in mkSmp v (kern s) (cons_of s) (fun i => if i =? h then q else at_pc s i).

Definition hart_step (h : Z) : M BM unit :=
  p ← gets (fun s => at_pc s h); calls h p ;; modify (move h p).

Fixpoint run_harts (l : list Z) : M BM unit :=
  match l with [] => mret tt | h :: l => hart_step h ;; run_harts l end.

(** The states of the machine when the firmware starts hart [b]. *)
Inductive boot_reach (b : Z) (k0 : S) : BM -> Prop :=
  | br_start c : Forall (fun x => 0 <= x < 256) (uart_rx c) ->
      boot_reach b k0 (mkSmp (mkVars 0 0 0 0) k0 c (fun h => if h =? b then Entry else Off))
  | br_step s s' h : boot_reach b k0 s -> 1 <= h < 5 -> hart_step h s = Ret tt s' -> boot_reach b k0 s'
  | br_arrive s x : boot_reach b k0 s -> 0 <= x < 256 -> boot_reach b k0 (set_cons (arrive x (cons_of s)) s).
End protocol.

(** ** The stages of the boot

    [n1] and [n2] are the harts that are called in turn; the values are the places of the boot
    hart, of [n1], of [n2] and of the fourth hart, and of the four variables. *)

Definition entering (p : pc) : Prop := p = Entry \/ p = WaitInit.
Definition waiting (p : pc) : Prop := entering p \/ p = WaitTurn.

Inductive stage (n1 n2 : Z) : pc -> pc -> pc -> pc -> Vars -> Prop :=
  | sg_entry p : p = Entry \/ p = Clear \/ p = Count -> stage n1 n2 p Off Off Off (mkVars 0 0 0 0)
  | sg_alone p : p = Early \/ p = Wake -> stage n1 n2 p Off Off Off (mkVars 1 0 0 0)
  | sg_woken p p1 p2 p3 : p = Late \/ p = Publish -> entering p1 -> entering p2 -> entering p3 ->
      stage n1 n2 p p1 p2 p3 (mkVars 1 0 0 0)
  | sg_next p1 p2 p3 : waiting p1 -> waiting p2 -> waiting p3 -> stage n1 n2 PublishNext p1 p2 p3 (mkVars 1 1 0 0)
  | sg_first p1 p2 p3 : waiting p1 \/ p1 = CheckInput \/ p1 = ClaimInput -> waiting p2 -> waiting p3 ->
      stage n1 n2 WaitTwo p1 p2 p3 (mkVars 1 1 n1 0)
  | sg_claim p1 p2 p3 : p1 = InitInput \/ p1 = PassOn -> waiting p2 -> waiting p3 ->
      stage n1 n2 WaitTwo p1 p2 p3 (mkVars 1 1 n1 1)
  | sg_second p2 p3 : waiting p2 \/ p2 = CheckInput \/ p2 = SetTwo -> waiting p3 ->
      stage n1 n2 WaitTwo Input p2 p3 (mkVars 1 1 n2 1)
  | sg_done p p3 : p = WaitTwo \/ p = Scheduler -> waiting p3 -> stage n1 n2 p Input Halt p3 (mkVars 1 2 n2 1).

(** An upper bound on the moves a hart has left. *)
Definition left_of (p : pc) : nat :=
  match p with
  | Off => 14 | Entry => 13 | Clear => 12 | Count => 11 | Early => 10 | Wake => 9 | Late => 8 | Publish => 7
  | PublishNext => 6 | WaitTwo => 5 | Scheduler => 0
  | WaitInit => 12 | WaitTurn => 11 | CheckInput => 10 | ClaimInput => 9 | InitInput => 8 | PassOn => 7 | Input => 0
  | SetTwo => 8 | Halt => 0
  end.
Definition advances (p q : pc) (v w : Vars) : Prop := (left_of q < left_of p)%nat \/ (q = p /\ w = v).

Lemma control_advances h p v : advances p (control h p v).1 v (control h p v).2.
Proof.
  destruct v as [m f n c]. destruct p; cbn; try (left; cbn; lia); try (by right).
  - left. destruct (m =? 0); cbn; lia.
  - destruct (f =? 2); [left; cbn; lia|by right].
  - destruct (f =? 0); [by right|left; cbn; lia].
  - destruct (h =? n); [left; cbn; lia|by right].
  - left. destruct (c =? 0); cbn; lia.
Qed.

Local Ltac cases p := repeat match goal with
  | H : p = _ \/ _ |- _ => destruct H
  | H : waiting p \/ _ |- _ => destruct H
  | H : waiting p |- _ => destruct H
  | H : entering p |- _ => destruct H
  end; try subst p.
Local Ltac eqbs := repeat match goal with
  | |- context [?x =? ?x] => rewrite (Z.eqb_refl x)
  | |- context [?x =? ?y] => rewrite (proj2 (Z.eqb_neq x y)) by lia
  end.

Section control.
Context (b n1 n2 n3 : Z).
Hypothesis (Hb : next_hart b = n1) (Hn1 : next_hart n1 = n2) (Hz : n1 <> 0 /\ n2 <> 0 /\ n3 <> 0).
Hypothesis (Hd : n1 <> n2 /\ n1 <> n3 /\ n2 <> n3).

Local Ltac stage_by :=
  intros []; match goal with |- context [control _ ?p _] => cases p end;
  cbn -[next_hart]; eqbs; rewrite ?Hb, ?Hn1; solve [constructor; unfold waiting, entering in *; tauto].

Lemma control_boot p0 p1 p2 p3 v : stage n1 n2 p0 p1 p2 p3 v ->
  let '(q, w) := control b p0 v in
  if bool_decide (p0 = Wake) then stage n1 n2 q Entry Entry Entry w else stage n1 n2 q p1 p2 p3 w.
Proof. stage_by. Qed.
Lemma control_first p0 p1 p2 p3 v : stage n1 n2 p0 p1 p2 p3 v ->
  let '(q, w) := control n1 p1 v in stage n1 n2 p0 q p2 p3 w.
Proof. stage_by. Qed.
Lemma control_second p0 p1 p2 p3 v : stage n1 n2 p0 p1 p2 p3 v ->
  let '(q, w) := control n2 p2 v in stage n1 n2 p0 p1 q p3 w.
Proof. stage_by. Qed.
Lemma control_third p0 p1 p2 p3 v : stage n1 n2 p0 p1 p2 p3 v ->
  let '(q, w) := control n3 p3 v in stage n1 n2 p0 p1 p2 q w.
Proof. stage_by. Qed.

(** Some hart moves until the boot hart is in the scheduler. *)
Lemma control_live p0 p1 p2 p3 v : stage n1 n2 p0 p1 p2 p3 v -> p0 <> Scheduler ->
  (left_of (control b p0 v).1 < left_of p0)%nat \/ (left_of (control n1 p1 v).1 < left_of p1)%nat \/
  (left_of (control n2 p2 v).1 < left_of p2)%nat.
Proof.
  intros [p H|p H|p p1' p2' p3' H|p1'|p1' p2' p3' H|p1' p2' p3' H|p2' p3' H|p p3' H]; intros Hp; try cases p; try done; try (left; cbn; lia).
  - right; left. cases p1'; cbn; eqbs; cbn; lia.
  - right; left. cases p1'; cbn; lia.
  - right; right. cases p2'; cbn; eqbs; cbn; lia.
Qed.
End control.

Lemma control_places h p v : let q := (control h p v).1 in
  (q = PassOn -> p = InitInput) /\ (q = Input -> p = PassOn \/ p = Input).
Proof.
  destruct v as [m f n c]. destruct p; cbn; try (split; [discriminate|discriminate]); try (split; [discriminate|by auto]); try (by split; auto).
  - by destruct (m =? 0).
  - by destruct (f =? 2).
  - by destruct (f =? 0).
  - by destruct (h =? n).
  - by destruct (c =? 0).
Qed.

Lemma stage_others n1 n2 p0 p1 p2 p3 v p : stage n1 n2 p0 p1 p2 p3 v -> p = p1 \/ p = p2 \/ p = p3 -> p <> Early /\ p <> Wake /\ p <> Late.
Proof.
  destruct 1; intros [-> |[-> | ->]]; try done; repeat match goal with
  | H : ?p = _ \/ _ |- ?p <> _ /\ _ => destruct H
  | H : waiting ?p \/ _ |- ?p <> _ /\ _ => destruct H
  | H : waiting ?p |- ?p <> _ /\ _ => destruct H
  | H : entering ?p |- ?p <> _ /\ _ => destruct H
  | H : ?p = _ |- ?p <> _ /\ _ => by rewrite H
  end.
Qed.

Lemma stage_facts n1 n2 p0 p1 p2 p3 v : stage n1 n2 p0 p1 p2 p3 v ->
  (p0 = Scheduler -> p1 = Input /\ initFinish v = 2) /\ p0 <> Input /\
  p1 <> Scheduler /\ p2 <> Scheduler /\ p3 <> Scheduler /\ p2 <> Input /\ p3 <> Input.
Proof. destruct 1; repeat match goal with
  | H : waiting _ |- _ => destruct H
  | H : entering _ |- _ => destruct H
  | H : _ \/ _ |- _ => destruct H
  end; subst; by split_and!. Qed.

Section machine.
Context {S : Type} (early late : M S unit) (k0 k1 k2 : S).
Hypothesis (Hearly : early k0 = Ret tt k1) (Hlate : late k1 = Ret tt k2).
Context (b n1 n2 n3 : Z).
Hypothesis (Hb : next_hart b = n1) (Hn1 : next_hart n1 = n2) (Hz : n1 <> 0 /\ n2 <> 0 /\ n3 <> 0).
Hypothesis (Hd : n1 <> n2 /\ n1 <> n3 /\ n2 <> n3) (Hbd : b <> n1 /\ b <> n2 /\ b <> n3).
Hypothesis (Hall : forall h, 1 <= h < 5 <-> h = b \/ h = n1 \/ h = n2 \/ h = n3).
Local Notation BM := (Smp S).
Local Notation hart_step := (hart_step early late).
Local Notation calls := (calls early late).
Local Notation bytes l := (Forall (fun x => 0 <= x < 256) l).

Definition kern_of (p : pc) : S :=
  match p with Entry | Clear | Count | Early => k0 | Wake | Late => k1 | _ => k2 end.

Record boot_inv (s : BM) : Prop := {
  bi_stage : stage n1 n2 (at_pc s b) (at_pc s n1) (at_pc s n2) (at_pc s n3) (vars s);
  bi_kern : kern s = kern_of (at_pc s b);
  bi_rx : bytes (uart_rx (cons_of s));
  bi_ring : at_pc s n1 = PassOn \/ at_pc s n1 = Input -> ring_ok (cons_of s);
}.

Lemma input_run c : exists c', asynInput_step c = Ret tt c' /\ (bytes (uart_rx c) -> bytes (uart_rx c')).
Proof.
  rewrite input_eq. destruct (_ =? _); [by eexists|].
  destruct (uart_rx c) as [|x l] eqn:E; [eexists; split; [done|by rewrite E]|].
  destruct (_ =? 255); (eexists; split; [done|]; by intros [_ ?]%Forall_cons).
Qed.

Lemma calls_spec h p s : (p = Early -> kern s = k0) -> (p = Late -> kern s = k1) ->
  exists s1, calls h p s = Ret tt s1 /\ vars s1 = vars s /\
    at_pc s1 = (if bool_decide (p = Wake) then at_pc (wake h s) else at_pc s) /\
    kern s1 = match p with Early => k1 | Late => k2 | _ => kern s end /\
    (bytes (uart_rx (cons_of s)) -> bytes (uart_rx (cons_of s1)) /\ (p = InitInput \/ ring_ok (cons_of s) -> ring_ok (cons_of s1))).
Proof.
  intros He Hl. destruct p; try (exists s; split_and!; [done..|]; intros Hrx; split; [done|by intros [|]]).
  - exists (set_kern k1 s). cbn. unfold on_kern. rewrite He, Hearly by done. split_and!; [done..|]. intros Hrx; split; [done|by intros [|]].
  - exists (wake h s). split_and!; [done..|]. intros Hrx; split; [done|by intros [|]].
  - exists (set_kern k2 s). cbn. unfold on_kern. rewrite Hl, Hlate by done. split_and!; [done..|]. intros Hrx; split; [done|by intros [|]].
  - eexists. split; [reflexivity|]. split_and!; [done..|]. intros Hrx. split; [done|]. intros _.
    by destruct (ring_init (cons_of s) _ Hrx eq_refl).
  - destruct (input_run (cons_of s)) as (c & E & Hc). exists (set_cons c s). cbn. unfold on_cons. rewrite E. split_and!; [done..|].
    intros Hrx. split; [by apply Hc|]. intros [|Hok]; [done|]. by destruct (input_inv _ _ Hok E).
Qed.

Lemma kern_control p0 p1 p2 p3 v : stage n1 n2 p0 p1 p2 p3 v ->
  kern_of (control b p0 v).1 = match p0 with Early => k1 | Late => k2 | _ => kern_of p0 end.
Proof.
  destruct 1; repeat match goal with H : ?p = _ \/ _ |- context [control _ ?p _] => destruct H end; by subst.
Qed.

Definition rank (s : BM) : nat :=
  left_of (at_pc s b) + left_of (at_pc s n1) + left_of (at_pc s n2) + left_of (at_pc s n3).
(** No hart moved. *)
Definition same_place (s s' : BM) : Prop :=
  at_pc s' b = at_pc s b /\ at_pc s' n1 = at_pc s n1 /\ at_pc s' n2 = at_pc s n2 /\ at_pc s' n3 = at_pc s n3 /\ vars s' = vars s.

Lemma move_at h p (s : BM) i : at_pc (move h p s) i = if i =? h then (control h p (vars s)).1 else at_pc s i.
Proof. unfold move. by destruct (control h p (vars s)). Qed.
Lemma move_vars h p (s : BM) : vars (move h p s) = (control h p (vars s)).2.
Proof. unfold move. by destruct (control h p (vars s)). Qed.
Lemma move_rest h p (s : BM) : kern (move h p s) = kern s /\ cons_of (move h p s) = cons_of s.
Proof. unfold move. by destruct (control h p (vars s)). Qed.

Lemma wake_at i (s : BM) : i <> b -> 1 <= i < 5 -> at_pc s i = Off -> at_pc (wake b s) i = Entry.
Proof.
  intros Hne Hi Ho. cbn. rewrite (proj2 (Z.leb_le 1 i)), (proj2 (Z.ltb_lt i 5)), (proj2 (Z.eqb_neq i b)) by lia.
  cbn. by rewrite bool_decide_true.
Qed.
Lemma stage_wake p1 p2 p3 v : stage n1 n2 Wake p1 p2 p3 v -> p1 = Off /\ p2 = Off /\ p3 = Off.
Proof. intros H. inversion H; subst; try done; clear -H0; exfalso; intuition discriminate. Qed.

Definition goes (h : Z) (s : BM) : pc := (control h (at_pc s h) (vars s)).1.
Definition progress (h : Z) (s s' : BM) : Prop := (rank s' < rank s)%nat \/ (same_place s s' /\ goes h s = at_pc s h).

(** The places of the harts after a step of [h], when it does not wake the others. *)
Lemma step_eq h s s1 : calls h (at_pc s h) s = Ret tt s1 -> hart_step h s = Ret tt (move h (at_pc s h) s1).
Proof. intros E. unfold Startup.hart_step. rewrite bind_gets, (bind_Ret _ _ _ _ _ E). done. Qed.

Lemma step_shape h s : boot_inv s -> 1 <= h < 5 -> exists s', hart_step h s = Ret tt s' /\
  at_pc s' h = goes h s /\
  (forall i, i <> h -> at_pc s' i = if bool_decide (at_pc s h = Wake) then at_pc (wake h s) i else at_pc s i) /\
  vars s' = (control h (at_pc s h) (vars s)).2 /\
  kern s' = match at_pc s h with Early => k1 | Late => k2 | _ => kern s end /\
  bytes (uart_rx (cons_of s')) /\ (at_pc s h = InitInput \/ ring_ok (cons_of s) -> ring_ok (cons_of s')).
Proof.
  intros [Hst Hk Hrx Hring] Hh%Hall.
  destruct (calls_spec h (at_pc s h) s) as (s1 & E & Hv & Hat & Hk1 & Hc).
  { intros Hp. destruct Hh as [-> |Hh]; [by rewrite Hk, Hp|].
    destruct (stage_others _ _ _ _ _ _ _ (at_pc s h) Hst) as (Hn & _); [destruct Hh as [-> |[-> | ->]]; auto|done]. }
  { intros Hp. destruct Hh as [-> |Hh]; [by rewrite Hk, Hp|].
    destruct (stage_others _ _ _ _ _ _ _ (at_pc s h) Hst) as (_ & _ & Hn); [destruct Hh as [-> |[-> | ->]]; auto|done]. }
  destruct (Hc Hrx) as [Hrx1 Hr1], (move_rest h (at_pc s h) s1) as [Mk Mc].
  exists (move h (at_pc s h) s1). rewrite Mk, Mc, move_vars, move_at, Z.eqb_refl, Hv.
  split_and!; try done; [by apply step_eq|].
  intros i Hi. rewrite move_at, (proj2 (Z.eqb_neq _ _)), Hat by done. by case_bool_decide.
Qed.

Lemma step_boot s : boot_inv s -> exists s', hart_step b s = Ret tt s' /\ boot_inv s' /\ progress b s s'.
Proof.
  intros Hi. destruct (step_shape b s Hi ltac:(apply Hall; auto)) as (s' & E & Hs & Ho & Hv & Hk' & Hrx' & Hr').
  exists s'. split; [done|]. destruct Hi as [Hst Hk Hrx Hring].
  pose proof Hd as (D1 & D2 & D3). pose proof Hbd as (D4 & D5 & D6).
  pose proof (control_boot b n1 n2 n3 Hb Hz Hd _ _ _ _ _ Hst) as Hst'.
  pose proof (kern_control _ _ _ _ _ Hst) as Hkc. pose proof (control_advances b (at_pc s b) (vars s)) as Ha.
  unfold progress, rank, same_place, goes in *. rewrite <- Hs in *. rewrite <- Hv in *.
  rewrite (surjective_pairing (control b (at_pc s b) (vars s))), <- Hs, <- Hv in Hst'.
  rewrite (Ho n1), (Ho n2), (Ho n3) by done.
  case_bool_decide as Hw.
  - rewrite Hw in *. destruct (stage_wake _ _ _ _ Hst) as (O1 & O2 & O3).
    assert (W : forall i, i = n1 \/ i = n2 \/ i = n3 -> at_pc s i = Off -> at_pc (wake b s) i = Entry).
    { intros i Hi Ho'. apply wake_at; [by destruct Hi as [-> |[-> | ->]]|apply Hall; auto|done]. }
    rewrite !W, O1, O2, O3 by auto. split.
    + constructor; rewrite ?(Ho n1), ?(Ho n2), ?(Ho n3), ?W by auto; [done| |done|by intros [|]]. by rewrite Hk', Hk, Hkc.
    + left. destruct Ha as [Ha|[Ha _]]; [cbn in *; lia|]. rewrite Hs in Ha. by destruct (vars s).
  - split.
    + constructor; rewrite ?(Ho n1), ?(Ho n2), ?(Ho n3) by done; [done| |done|auto].
      rewrite Hk', Hk, Hkc. by destruct (at_pc s b).
    + destruct Ha as [Ha|[Ha Hv2]]; [left; lia|right]. by split_and!.
Qed.

Lemma step_other h s : boot_inv s -> h = n1 \/ h = n2 \/ h = n3 -> exists s', hart_step h s = Ret tt s' /\ boot_inv s' /\ progress h s s'.
Proof.
  intros Hi Hh. assert (Hin : 1 <= h < 5) by (apply Hall; auto).
  destruct (step_shape h s Hi Hin) as (s' & E & Hs & Ho & Hv & Hk' & Hrx' & Hr').
  exists s'. split; [done|]. destruct Hi as [Hst Hk Hrx Hring].
  pose proof Hd as (D1 & D2 & D3). pose proof Hbd as (D4 & D5 & D6).
  pose proof (control_advances h (at_pc s h) (vars s)) as Ha.
  destruct (stage_others _ _ _ _ _ _ _ (at_pc s h) Hst) as (Hn1' & Hn2' & Hn3'); [by destruct Hh as [-> |[-> | ->]]; auto|].
  rewrite bool_decide_false in Ho by done.
  assert (Hkern : kern s' = kern s) by by rewrite Hk'; destruct (at_pc s h).
  destruct (control_places h (at_pc s h) (vars s)) as [Hpass Hinp].
  unfold progress, rank, same_place, goes in *. rewrite <- Hs, <- Hv in *.
  assert (Hst' : stage n1 n2 (at_pc s' b) (at_pc s' n1) (at_pc s' n2) (at_pc s' n3) (vars s')).
  { rewrite (Ho b) by naive_solver. destruct Hh as [-> |[-> | ->]].
    - pose proof (control_first n1 n2 n3 Hn1 Hz Hd _ _ _ _ _ Hst) as H. rewrite (surjective_pairing (control _ _ _)), <- Hs, <- Hv in H.
      by rewrite (Ho n2), (Ho n3) by done.
    - pose proof (control_second n1 n2 n3 Hz Hd _ _ _ _ _ Hst) as H. rewrite (surjective_pairing (control _ _ _)), <- Hs, <- Hv in H.
      by rewrite (Ho n1), (Ho n3) by done.
    - pose proof (control_third n1 n2 n3 Hz Hd _ _ _ _ _ Hst) as H. rewrite (surjective_pairing (control _ _ _)), <- Hs, <- Hv in H.
      by rewrite (Ho n1), (Ho n2) by done. }
  split; [constructor; [done| |done|]|].
  - rewrite Hkern, Hk, Ho; [done|]. naive_solver.
  - intros Hp. apply Hr'. destruct (decide (h = n1)) as [-> |Hne]; [|right; apply Hring; by rewrite <- Ho].
    destruct Hp as [Hp|Hp]; [left; by apply Hpass|]. right. apply Hring. naive_solver.
  - destruct Ha as [Ha|[Ha Hv2]]; [left|right; split; [|done]].
    + rewrite (Ho b) by naive_solver. destruct Hh as [-> |[-> | ->]];
        rewrite ?(Ho n1), ?(Ho n2), ?(Ho n3) by done; lia.
    + assert (Heq : forall i, at_pc s' i = at_pc s i) by (intros i; destruct (decide (i = h)) as [-> |]; [done|by apply Ho]).
      by rewrite !Heq.
Qed.

Lemma step_inv h s : boot_inv s -> 1 <= h < 5 -> exists s', hart_step h s = Ret tt s' /\ boot_inv s' /\ progress h s s'.
Proof. intros Hi Hh%Hall. destruct Hh as [-> |Hh]; [by apply step_boot|by apply step_other]. Qed.

Lemma reach_inv s : boot_reach early late b k0 s -> boot_inv s.
Proof.
  pose proof Hbd as (D4 & D5 & D6).
  induction 1 as [c Hc|s s' h _ IH Hh E|s x _ IH Hx].
  - assert (Hz0 : forall i, i <> b -> (i =? b) = false) by (intros; by apply Z.eqb_neq).
    constructor; cbn; rewrite ?Z.eqb_refl, ?Hz0 by done; [constructor; auto|done|done|by intros [|]].
  - destruct (step_inv h s IH Hh) as (s1 & E1 & Hi & _). rewrite E1 in E. by injection E as <-.
  - destruct IH as [Hst Hk Hrx Hring]. constructor; try done.
    + cbn. apply Forall_app. split; [done|]. by constructor.
    + intros Hp. destruct (Hring Hp) as [? ? ? Hb' ?]. constructor; try done. cbn. apply Forall_app. split; [done|]. by constructor.
Qed.

(** ** Every fair schedule reaches the scheduler *)

Lemma run_inv l : forall s, boot_inv s -> Forall (fun h => 1 <= h < 5) l ->
  exists s', run_harts early late l s = Ret tt s' /\ boot_inv s' /\
    ((rank s' < rank s)%nat \/ (same_place s s' /\ forall h, h ∈ l -> goes h s = at_pc s h)).
Proof.
  induction l as [|h l IH]; intros s Hi Hl.
  { exists s. split_and!; [done|done|right]. split; [by split_and!|]. by intros h ?%not_elem_of_nil. }
  apply Forall_cons in Hl as [Hh Hl]. cbn [run_harts]. destruct (step_inv h s Hi Hh) as (s1 & E & Hi1 & Hp).
  rewrite (bind_Ret _ _ _ _ _ E). destruct (IH s1 Hi1 Hl) as (s2 & E2 & Hi2 & Hp2). exists s2. split_and!; [done|done|].
  destruct Hp as [Hp|[Hsame Hgo]], Hp2 as [Hp2|[Hsame2 Hgo2]].
  - left. lia.
  - left. destruct Hsame2 as (A1 & A2 & A3 & A4 & _). unfold rank in *. rewrite A1, A2, A3, A4. done.
  - left. destruct Hsame as (A1 & A2 & A3 & A4 & _). unfold rank in *. by rewrite A1, A2, A3, A4 in Hp2.
  - right. destruct Hsame as (A1 & A2 & A3 & A4 & A5), Hsame2 as (B1 & B2 & B3 & B4 & B5).
    split; [split_and!; congruence|]. intros i [-> |Hin]%elem_of_cons; [done|]. specialize (Hgo2 i Hin). unfold goes in *.
    assert (Heq : at_pc s1 i = at_pc s i).
    { assert (1 <= i < 5) as Hir%Hall by (rewrite Forall_forall in Hl; by apply Hl).
      by destruct Hir as [-> |[-> |[-> | ->]]]. }
    by rewrite Heq, A5 in Hgo2.
Qed.

Lemma sched_stays l : forall s s', boot_inv s -> Forall (fun h => 1 <= h < 5) l -> run_harts early late l s = Ret tt s' ->
  at_pc s b = Scheduler -> at_pc s' b = Scheduler.
Proof.
  induction l as [|h l IH]; intros s s' Hi Hl E Hs; [by injection E as <-|]. apply Forall_cons in Hl as [Hh Hl]. cbn [run_harts] in E.
  destruct (step_inv h s Hi Hh) as (s1 & E1 & Hi1 & _). rewrite (bind_Ret _ _ _ _ _ E1) in E.
  apply (IH s1); [done..|]. destruct (step_shape h s Hi Hh) as (s2 & E2 & Hself & Ho & _). rewrite E1 in E2. injection E2 as <-.
  destruct (decide (h = b)) as [-> |Hne].
  - rewrite Hself. unfold goes. rewrite Hs. by destruct (vars s).
  - rewrite Ho by done. apply Hall in Hh. destruct (stage_others _ _ _ _ _ _ _ (at_pc s h) (bi_stage s Hi)) as (_ & Hw & _).
    { by destruct Hh as [-> |[-> |[-> | ->]]]; auto. }
    by rewrite bool_decide_false.
Qed.

Definition fair_round (l : list Z) : Prop := Forall (fun h => 1 <= h < 5) l /\ forall h, 1 <= h < 5 -> h ∈ l.

Lemma round_live l s : boot_inv s -> fair_round l -> at_pc s b <> Scheduler ->
  exists s', run_harts early late l s = Ret tt s' /\ boot_inv s' /\ (rank s' < rank s)%nat.
Proof.
  intros Hi [Hl Hfull] Hs. destruct (run_inv l s Hi Hl) as (s' & E & Hi' & Hp). exists s'. split_and!; [done..|].
  destruct Hp as [|[_ Hgo]]; [done|]. unfold goes in Hgo.
  destruct (control_live b n1 n2 _ _ _ _ _ (bi_stage s Hi) Hs) as [H|[H|H]];
    rewrite Hgo in H by (apply Hfull, Hall; auto); lia.
Qed.

Lemma run_app l l' s s1 : run_harts early late l s = Ret tt s1 -> run_harts early late (l ++ l') s = run_harts early late l' s1.
Proof.
  revert s. induction l as [|h l IH]; intros s E; [by injection E as <-|]. cbn [run_harts app] in *.
  unfold mbind, M_bind in *. destruct (hart_step h s); try done. cbn in *. by apply IH.
Qed.

Lemma rounds_live rounds : forall s, boot_inv s -> Forall fair_round rounds -> (rank s <= length rounds)%nat ->
  exists s', run_harts early late (concat rounds) s = Ret tt s' /\ at_pc s' b = Scheduler.
Proof.
  induction rounds as [|l rounds IH]; intros s Hi Hf Hr.
  { exists s. split; [done|]. cbn in Hr. unfold rank in Hr. destruct (bi_stage s Hi) as [p H|p H|p ? ? ? H| | | | |p ? H];
      repeat match goal with H : _ \/ _ |- _ => destruct H end; subst; cbn in Hr; try lia; done. }
  apply Forall_cons in Hf as [Hl Hf]. cbn [concat]. destruct (decide (at_pc s b = Scheduler)) as [Hs|Hs].
  - assert (Hall' : Forall (fun h => 1 <= h < 5) (l ++ concat rounds)).
    { apply Forall_app. split; [apply Hl|]. apply Forall_concat. eapply Forall_impl; [exact Hf|]. by intros ? []. }
    destruct (run_inv (l ++ concat rounds) s Hi Hall') as (s' & E & _). exists s'. split; [done|]. by eapply sched_stays.
  - destruct (round_live l s Hi Hl Hs) as (s1 & E & Hi1 & Hlt). rewrite (run_app _ _ _ _ E). apply IH; [done..|]. cbn in Hr. lia.
Qed.
End machine.

Lemma boot_roles b : 1 <= b < 5 -> exists n1 n2 n3, next_hart b = n1 /\ next_hart n1 = n2 /\ (n1 <> 0 /\ n2 <> 0 /\ n3 <> 0) /\
  (n1 <> n2 /\ n1 <> n3 /\ n2 <> n3) /\ (b <> n1 /\ b <> n2 /\ b <> n3) /\
  forall h, 1 <= h < 5 <-> h = b \/ h = n1 \/ h = n2 \/ h = n3.
Proof.
  intros Hb. assert (b = 1 \/ b = 2 \/ b = 3 \/ b = 4) as [-> |[-> |[-> | ->]]] by lia.
  - exists 2, 3, 4. split_and!; try done. lia.
  - exists 3, 4, 1. split_and!; try done. lia.
  - exists 4, 1, 2. split_and!; try done. lia.
  - exists 1, 2, 3. split_and!; try done. lia.
Qed.

(** C12. The boot of four harts, whichever of them the firmware starts, in every interleaving
    of their accesses to the shared variables.  Only the boot hart enters the scheduler, and
    it does so with the kernel initialised and with another hart, one only, already moving
    characters into an initialised ring buffer; no two harts ever fill the ring, and the
    remaining harts never schedule.  And the boot does not hang: from every state, any schedule of 60 rounds in which each hart runs at
    least once brings the boot hart into the scheduler. *)
Theorem startup {S} (early late : M S unit) k0 k1 k2 b s :
  1 <= b < 5 -> early k0 = Ret tt k1 -> late k1 = Ret tt k2 -> boot_reach early late b k0 s ->
  (forall h, 1 <= h < 5 -> at_pc s h = Scheduler ->
     h = b /\ kern s = k2 /\ ring_ok (cons_of s) /\ exists h', 1 <= h' < 5 /\ h' <> b /\ at_pc s h' = Input) /\
  (forall h h', 1 <= h < 5 -> 1 <= h' < 5 -> at_pc s h = Input -> at_pc s h' = Input -> h = h') /\
  (forall rounds, Forall fair_round rounds -> (60 <= length rounds)%nat ->
     exists s', run_harts early late (concat rounds) s = Ret tt s' /\ at_pc s' b = Scheduler).
Proof.
  intros Hb He Hl Hreach. destruct (boot_roles b Hb) as (n1 & n2 & n3 & B1 & B2 & Hz & Hd & Hbd & Hall).
  pose proof (reach_inv early late k0 k1 k2 He Hl b n1 n2 n3 B1 B2 Hz Hd Hbd Hall s Hreach) as Hi.
  pose proof Hi as [Hst Hk Hrx Hring]. destruct (stage_facts _ _ _ _ _ _ _ Hst) as (F1 & F2 & F3 & F4 & F5 & F6 & F7).
  split_and!.
  - intros h Hh Hs. assert (h = b) as -> by (apply Hall in Hh; naive_solver).
    destruct (F1 Hs) as [Hin _]. split; [done|]. split; [by rewrite Hk, Hs|]. split; [by apply Hring; right|].
    exists n1. split; [apply Hall; auto|]. split; [naive_solver|done].
  - intros h h' Hh%Hall Hh'%Hall Hs Hs'. naive_solver.
  - intros rounds Hf Hlen. eapply rounds_live; try done.
    assert (H14 : forall p, (left_of p <= 14)%nat) by (intros []; cbn; lia).
    unfold rank. pose proof (H14 (at_pc s b)). pose proof (H14 (at_pc s n1)). pose proof (H14 (at_pc s n2)).
    pose proof (H14 (at_pc s n3)). lia.
Qed.

(** Hart 2 boots; the harts take turns. *)
Lemma startup_witness : exists s' : Smp Z,
  run_harts (modify (Z.add 1)) (modify (Z.mul 2)) (concat (replicate 60 [1; 2; 3; 4]))
    (mkSmp (mkVars 0 0 0 0) 3 (mkC ∅ 0 0 [] []) (fun h => if h =? 2 then Entry else Off)) = Ret tt s' /\ at_pc s' 2 = Scheduler.
Proof.
  apply (startup (modify (Z.add 1)) (modify (Z.mul 2)) 3 4 8 2).
  - lia.
  - reflexivity.
  - reflexivity.
  - apply (br_start _ _ 2 3 (mkC ∅ 0 0 [] [])). constructor.
  - apply Forall_replicate. split; [repeat constructor; lia|]. intros h Hh.
    assert (h = 1 \/ h = 2 \/ h = 3 \/ h = 4) as [-> |[-> |[-> | ->]]] by lia; rewrite !elem_of_cons; auto 6.
  - rewrite length_replicate. lia.
Defined.
